(* ===== verification/_CoqProject ===== *)
-Q . S2P
Prelude.v
Text.v
Errors.v
EndianInt.v
ElfTypes.v
ElfLayout.v
PpcEncode.v
PpcDecode.v
Syscalls.v
PpcSpec.v
PpcSpecFacts.v
PpcMoveFacts.v
PpcProperties.v
Fixtures.v
ElfFile.v
ElfFileFacts.v
ElfProperties.v
Image.v
ImageFacts.v
Toc.v
Trampoline.v
Info.v
Main.v
TrampolineFacts.v
PayloadFacts.v
BootFacts.v
TrampolineProperties.v
MainFacts.v
MainProperties.v
ImageProperties.v
InfoFacts.v
InfoProperties.v
BootProperties.v
BootCalls.v
BootSimulation.v
Apart.v
BootPreservation.v
Tests.v
