(* ===== verification/Prelude.v ===== *)
(** * ELF-Craft: a verification development

    ELF-Craft patches a decrypted PS3 executable (a 64-bit big-endian ELF file
    for PowerPC) so that a module of the user's choice is loaded and started
    before the program's own code.  The repository has three parts: [libelf],
    which parses, mutates and serializes ELF files; [ppc], which encodes,
    classifies and relocates PowerPC instructions; and [ps3patch], which
    resolves the entry descriptor, builds the injected payload (the trampoline)
    and is the command-line program.  This library models all of it from the
    C++ headers under src/ and proves what each part promises to the next.

    ** Files, in dependency order

    - [Prelude]: fixed-width integers, bytes, vectors, and their lemmas,
      tactics ([zarith], [zcase], [szl], [conj]) and hint databases.
    - [Text]: the number formatting used in messages and in the report.
    - [Errors]: libelf/include/elf/errors.hpp; [Result] with [let? ... in],
      and [exc], the exception channel of the encoders, with [let! ... in].
    - [EndianInt]: libelf/include/elf/endian.hpp; [Endianed], whose [storage_]
      is the member's object value on a host of either byte order.
    - [ElfTypes]: libelf/include/elf/types.hpp; the six structures, the class
      [Layout] (an object and its bytes) and the class [ElfClass], the interface
      the templates of file.hpp have to their structures, with one instance per
      file class.
    - [ElfLayout]: where the alignment rules of the language put the members of
      those structures, and that [ElfTypes] has them there.
    - [PpcEncode], [PpcDecode]: ppc/include/ppc/encode.hpp and decode.hpp, each
      with the lemmas that turn the bit operations into sums of fields.
    - [Syscalls]: ps3patch/include/ps3patch/syscalls.hpp.
    - [PpcSpec]: the PowerPC instructions concerned, as a specification written
      from the instruction set: fields by the architecture's bit numbering,
      [decode] to an instruction, [exec] on a machine state.  It models no
      source file; it is what "correct code" means here.
    - [PpcSpecFacts], [PpcMoveFacts], [PpcProperties]: the encoders, the decoder
      and branch relocation against that specification; [PpcMoveFacts] is what
      an instruction does at another address than its own ([moved]).
    - [Fixtures]: the two test files of the repository and one variant, and the
      generators of the two (tests/gen_fixture.py, tests/gen_ps3_fixture.py).
    - [ElfFile], [ElfFileFacts], [ElfProperties]: libelf/include/elf/file.hpp,
      for all four instantiations at once.
    - [Image], [ImageFacts]: what the ELF layer promises by virtual address, as
      a specification ([image], [command], [spec_step]) with the relation
      [represents] between a file and an image, and the simulation.
    - [Toc], [Trampoline], [Info], [Main]: the other headers of
      ps3patch/include/ps3patch/ (toc, trampoline, info) and
      ps3patch/src/main.cpp, one file each.
    - [TrampolineFacts], [PayloadFacts], [TrampolineProperties]: the bytes of
      the trampoline and what executing them does.
    - [BootFacts]: execution from memory ([steps]) from straight-line execution
      ([exec_words]): what keeps the words that are about to be fetched.
    - [MainFacts], [MainProperties], [InfoFacts], [InfoProperties]: the commands,
      the file that is written, the report and a reader of its table.
    - [ImageProperties]: sessions of operations, and the patch command as one.
    - [BootProperties], [BootSimulation]: the written file loaded into memory and
      run from its entrypoint, up to the resumed instructions and back into the
      original program.
    - [BootCalls]: the system calls of a boot ([calls]), from the command line
      to the kernel.
    - [Apart], [BootPreservation]: states that differ in a region of memory only
      ([same_but], with its [Equivalence] and [Proper] instances), and the
      simulation of the original program by the patched one.
    - [Tests]: the eight test programs under tests/, as functions from the file
      they read to the list of their checks, and what they say on the fixtures.

    ** How the code is represented

    An integer of a C++ type is a [Z] with the reductions of the code written
    out ([u32], [u64], [i16], ...); [size_t] is 64 bits wide.  A vector of
    bytes is a list with [size], [slice] and [splice] at integer offsets.  A
    method that may mutate its object returns the object with its result.
    Messages are part of the values.  [main] maps a file system and an argument
    vector to the exit code, the text on both streams and the file system left;
    the file system is a class of three operations ([Main.FileSystem]), of which
    the theorem that patching twice is refused assumes that what was written
    can be read back.  System calls and instructions outside the modelled
    subset are parameters of [exec]; the theorem on the payload assumes of a
    system call what the calling convention promises ([kernel_contract]: it
    returns after the call with the stack pointer, the non-volatile registers
    and the caller's frame kept).

    Loops over lists are structural.  Three have fuel: [Text.digits] (20 decimal
    or 16 hexadecimal digits are enough for 64 bits, [to_string_read] and
    [to_hex_read]), [ElfFile.tableLoop] (65536 tests are enough for its 16-bit
    counter, [table_loop_terminates]) and [Trampoline.pad_to_word] (four tests
    are enough for at most three missing bytes, [pad_to_word_spec]).

    ** What is proved

    - Files: the structures have the members where the language puts them, with
      no padding; [parse] accepts exactly the consistent files; serializing inverts
      parsing in both directions; the class invariant is kept by every mutation;
      added segments and in-place patches are read back and nothing else moves;
      addresses translate exactly through the file-backed parts of segments; all
      bounds checks are exact on 64-bit values.
    - Images: any sequence of [setEntry], overwrites by address, added segments
      and write-read cycles does to a file's loaded image what the
      specification says ([session_refines]), and the patch command is the
      session that adds the blob and puts the jump over the code address
      ([patch_refines_spec]).  [allowed] states what each operation asks of the
      file: among others that no byte of the file is at two addresses.
    - Instructions: every encoder but [encodeRldicl] and [encodeClrldi] builds
      the word the architecture decodes to the instruction it is named after,
      and throws exactly when the operand does not fit; those two build the
      instruction with another mask, but for the masks 0 and 63; [classify] agrees with the architecture on every word; a
      relocated branch does at its new address what it did at the old one, and
      relocation is refused exactly when no such instruction exists.
    - Payload: the bytes [buildTrampoline] produces save and restore every
      register they must, make the two system calls with the address of the
      path, set the TOC register, resume the displaced instructions and jump
      back; the bytes at the entrypoint reach the payload; every error is given
      exactly in its case.
    - The whole: after a patch command that exits with 0, the output file,
      loaded and started, makes exactly two system calls before it resumes the
      program: it loads the module the third argument names and starts what the
      kernel returned ([command_loads_module]).
    - Preservation: the patched program goes through every state the original
      one goes through from its entrypoint, in the environment the payload
      leaves, with the same registers and the same memory but for the overwritten
      words ([patched_program_simulates]).  This asks that the way back is one
      branch, that no displaced instruction sets the link register and that the
      program does not read or run the overwritten words again.
    - Boot: with the segments of the written file in memory, the machine,
      fetching every instruction from there, runs from the entrypoint through
      the payload to the resumed instructions, and on to the instruction that
      followed the displaced ones ([patched_file_boots]).  The displaced
      instructions may branch: the patched program then reaches what the
      original instructions leave up to the first that branches
      ([patched_boot_simulates]), and no relocated branch of five goes to an
      overwritten word ([displaced_resumed]).  The
      loader is a hypothesis ([mapped]: each loadable segment is at its
      address), as are a stack frame and a kernel that stay out of the blob.
    - Commands: the patch command always returns, writes only the patched file
      and only on success; the written file parses to the old segments and the
      new one; patching it again is refused; inspection never writes, and the
      table it prints reads back to the program headers ([report_reads_back]).
    - Defects the model shows: the mask field of [encodeRldicl] is not split as
      the architecture splits it, so a 32-bit load is clean only below [2^31];
      the byte order test of the host is constant; the segment count and the
      trampoline address are truncated without a check; the new segment's file
      offset and address are not congruent modulo its alignment; the
      repository's own PS3 fixture has the 24-byte descriptor the resolver no
      longer reads ([fixture_descriptor_misread]).
    - Tests: run on the model, the tests of [libelf], of [ppc] and of the system
      calls pass; the four that read the PS3 fixture fail on it, for that
      descriptor, and pass on the same file with the 8-byte one.

    ** What is not modelled

    The build files, and what the tests print.  A displaced instruction that
    sets the link register leaves there the address after its copy, not after
    the original, and the theorems say so; a program that branches to its own
    overwritten entrypoint runs the payload again.  Each stream's text is
    modelled, not how a terminal interleaves the two; in every run what goes to
    the error stream is printed last.  A write that fails when the stream is
    closed, after the program's last test, is a file system of which
    [reads_back] is false.  Sizes are bounded in the theorems that add to a file
    (below [2^60] or [2^61] bytes): far above any real file, and low enough that
    the sums in the code do not wrap. *)

From Stdlib Require Export ZArith Lia Bool.
From Stdlib Require Import Strings.Byte.
From Stdlib Require Export Ascii String.
From stdpp Require Export base list numbers option strings.

Open Scope list_scope.
Open Scope Z_scope.

(** ** Notation scope of the development *)

Declare Scope elf_scope.
Delimit Scope elf_scope with elf.
Open Scope elf_scope.

(** ** Fixed-width integers

    A value of a C++ unsigned type of width [w] is a [Z] in [0, 2^w); a
    conversion to that type is reduction modulo [2^w].  A conversion to a
    signed type is the two's-complement reading of the reduced value. *)

Definition u8 (z : Z) : Z := z mod 2 ^ 8.
Definition u16 (z : Z) : Z := z mod 2 ^ 16.
Definition u32 (z : Z) : Z := z mod 2 ^ 32.
Definition u64 (z : Z) : Z := z mod 2 ^ 64.

Definition i16 (z : Z) : Z := if u16 z <? 2 ^ 15 then u16 z else u16 z - 2 ^ 16.
Definition i32 (z : Z) : Z := if u32 z <? 2 ^ 31 then u32 z else u32 z - 2 ^ 32.

(** A [uint32_t] left shift drops the bits above position 31. *)
Definition shl32 (z n : Z) : Z := u32 (Z.shiftl z n).

(** ** Bytes *)

Abbreviation byte := Byte.byte.

Definition byte_val (b : byte) : Z := Z.of_N (Byte.to_N b).

(** Conversion of an integer to [uint8_t]. *)
Definition byte_of (z : Z) : byte :=
  match Byte.of_N (Z.to_N (u8 z)) with Some b => b | None => Byte.x00 end.

#[export] Instance byte_eq_dec : EqDecision byte := Byte.byte_eq_dec.

(** The object representation of an [n]-byte unsigned integer on a host that
    stores the least significant byte first, and the integer it denotes. *)
Fixpoint le_load (bs : list byte) : Z :=
  match bs with
  | [] => 0
  | b :: bs' => byte_val b + 256 * le_load bs'
  end.

Fixpoint le_store (n : nat) (z : Z) : list byte :=
  match n with
  | O => []
  | S n' => byte_of z :: le_store n' (z / 256)
  end.

(** The same with the most significant byte first. *)
Definition be_load (bs : list byte) : Z := le_load (reverse bs).
Definition be_store (n : nat) (z : Z) : list byte := reverse (le_store n z).

(** ** Vectors

    [size v] is [v.size()]; [slice off len v] is the range
    [[v.begin()+off, v.begin()+off+len)]; [splice off new v] overwrites that
    range with [new], as [std::copy] and [std::memcpy] into a buffer do. *)

Definition size {A} (l : list A) : Z := Z.of_nat (length l).

Definition slice {A} (off len : Z) (l : list A) : list A :=
  take (Z.to_nat len) (drop (Z.to_nat off) l).

Definition splice {A} (off : Z) (new l : list A) : list A :=
  take (Z.to_nat off) l ++ new ++ drop (Z.to_nat off + length new) l.

(** ** Tactics *)

(** Linear arithmetic over constants divisors and moduli. *)
Ltac zarith :=
  unfold shl32, i16, i32, u8, u16, u32, u64 in *;
  rewrite ?Z.shiftl_mul_pow2 in * by lia;
  Z.div_mod_to_equations; lia.

(** Case analysis on the boolean comparisons of [Z]. *)
Ltac zcase :=
  repeat match goal with
  | H : context [?a <? ?b] |- _ => destruct (Z.ltb_spec a b)
  | H : context [?a <=? ?b] |- _ => destruct (Z.leb_spec a b)
  | H : context [?a =? ?b] |- _ => destruct (Z.eqb_spec a b)
  | |- context [?a <? ?b] => destruct (Z.ltb_spec a b)
  | |- context [?a <=? ?b] => destruct (Z.leb_spec a b)
  | |- context [?a =? ?b] => destruct (Z.eqb_spec a b)
  end.

(** Split conjunctions only: [split] on an equation would try to compute it. *)
Ltac conj := repeat match goal with |- _ /\ _ => split end.

Create HintDb elf.
Create Rewrite HintDb elf.

(** Goals about sizes and offsets. *)
Ltac szl := unfold size in *; autorewrite with elf in *; lia.

(** ** Lemmas on integers *)

Lemma u8_range z : 0 <= u8 z < 2 ^ 8.
Proof. unfold u8. apply Z.mod_pos_bound. lia. Qed.

Lemma u16_range z : 0 <= u16 z < 2 ^ 16.
Proof. unfold u16. apply Z.mod_pos_bound. lia. Qed.

Lemma u32_range z : 0 <= u32 z < 2 ^ 32.
Proof. unfold u32. apply Z.mod_pos_bound. lia. Qed.

Lemma u64_range z : 0 <= u64 z < 2 ^ 64.
Proof. unfold u64. apply Z.mod_pos_bound. lia. Qed.

Lemma u16_small z : 0 <= z < 2 ^ 16 -> u16 z = z.
Proof. apply Z.mod_small. Qed.

Lemma u32_small z : 0 <= z < 2 ^ 32 -> u32 z = z.
Proof. apply Z.mod_small. Qed.

Lemma u64_small z : 0 <= z < 2 ^ 64 -> u64 z = z.
Proof. apply Z.mod_small. Qed.

Lemma i32_small z : - 2 ^ 31 <= z < 2 ^ 31 -> i32 z = z.
Proof. intros. unfold i32. zcase; zarith. Qed.

Lemma i32_range z : - 2 ^ 31 <= i32 z < 2 ^ 31.
Proof. unfold i32. pose proof (u32_range z). zcase; lia. Qed.

Lemma u32_i32 z : u32 (i32 z) = u32 z.
Proof. unfold i32. zcase; zarith. Qed.

Lemma u16_i16 z : u16 (i16 z) = u16 z.
Proof. unfold i16. zcase; zarith. Qed.

(** Bitwise "or" of operands with disjoint bits is addition. *)
Lemma lor_disjoint_add (n a b : Z) :
  0 <= n -> 0 <= b < 2 ^ n -> a mod 2 ^ n = 0 -> Z.lor a b = a + b.
Proof.
  intros Hn Hb Ha.
  assert (Z.land a b = 0) as Hland.
  { apply Z.bits_inj'. intros i Hi. rewrite Z.land_spec, Z.bits_0.
    destruct (Z.lt_ge_cases i n) as [Hlt|Hge].
    - rewrite <- (Z.mod_pow2_bits_low a n i) by lia. rewrite Ha, Z.bits_0. reflexivity.
    - rewrite <- (Z.mod_small b (2 ^ n)) by lia.
      rewrite (Z.mod_pow2_bits_high b n i) by lia. apply andb_false_r. }
  rewrite Z.add_nocarry_lxor by exact Hland.
  symmetry. apply Z.lxor_lor. exact Hland.
Qed.

(** Masking with [2^n - 1]. *)
Lemma land_low (n x m : Z) : 0 <= n -> m = 2 ^ n - 1 -> Z.land x m = x mod 2 ^ n.
Proof. intros Hn ->. rewrite <- Z.land_ones by lia. f_equal. rewrite Z.ones_equiv. lia. Qed.

(** Masking with a run of [n] ones starting at bit [k]. *)
Lemma land_field (k n x m : Z) :
  0 <= k -> 0 <= n -> m = (2 ^ n - 1) * 2 ^ k ->
  Z.land x m = (x / 2 ^ k) mod 2 ^ n * 2 ^ k.
Proof.
  intros Hk Hn ->.
  rewrite <- (Z.shiftl_mul_pow2 (2 ^ n - 1)), <- (Z.shiftl_mul_pow2 (_ mod _)) by lia.
  rewrite <- (Z.shiftr_div_pow2 x) by lia.
  rewrite <- Z.land_ones by lia.
  replace (2 ^ n - 1) with (Z.ones n) by (rewrite Z.ones_equiv; lia).
  apply Z.bits_inj'. intros i Hi.
  rewrite Z.land_spec, !Z.shiftl_spec, Z.land_spec by lia.
  destruct (Z.lt_ge_cases i k) as [Hlt|Hge].
  - rewrite !(Z.testbit_neg_r _ (i - k)) by lia. apply andb_false_r.
  - rewrite Z.shiftr_spec by lia. do 2 f_equal. lia.
Qed.

(** ** Lemmas on lists *)

Lemma Forall_middle {A} (P : A -> Prop) pre x post :
  Forall P (pre ++ x :: post) -> Forall P pre /\ P x.
Proof. intros [H1 H2]%Forall_app. inversion H2; subst. auto. Qed.

(** ** Lemmas on bytes *)

Lemma byte_val_range b : 0 <= byte_val b < 256.
Proof. unfold byte_val. pose proof (Byte.to_N_bounded b). lia. Qed.

Lemma byte_of_val b : byte_of (byte_val b) = b.
Proof.
  unfold byte_of, u8. pose proof (byte_val_range b).
  rewrite Z.mod_small by lia. unfold byte_val.
  rewrite N2Z.id, Byte.of_to_N. reflexivity.
Qed.

Lemma byte_val_of z : byte_val (byte_of z) = u8 z.
Proof.
  unfold byte_of. pose proof (u8_range z) as Hr.
  destruct (Byte.of_N (Z.to_N (u8 z))) as [b|] eqn:E.
  - unfold byte_val. apply Byte.to_of_N in E. rewrite E. lia.
  - apply Byte.of_N_None_iff in E. lia.
Qed.

Lemma byte_of_u8 z : byte_of (u8 z) = byte_of z.
Proof. unfold byte_of, u8. rewrite Z.mod_mod by lia. reflexivity. Qed.

Lemma byte_val_inj b c : byte_val b = byte_val c -> b = c.
Proof. intros H. rewrite <- (byte_of_val b), H. apply byte_of_val. Qed.

Lemma le_load_range bs : 0 <= le_load bs < 256 ^ Z.of_nat (length bs).
Proof.
  induction bs as [|b bs IH]; cbn [le_load length]; [lia|].
  rewrite Nat2Z.inj_succ, Z.pow_succ_r by lia.
  pose proof (byte_val_range b). lia.
Qed.

Lemma le_store_length n z : length (le_store n z) = n.
Proof. revert z. induction n; intros; cbn; auto. Qed.

Lemma le_load_store n z : le_load (le_store n z) = z mod 256 ^ Z.of_nat n.
Proof.
  revert z. induction n as [|n IH]; intros z; cbn [le_load le_store].
  - rewrite Z.mod_1_r. reflexivity.
  - rewrite IH, byte_val_of, Nat2Z.inj_succ, Z.pow_succ_r by lia.
    rewrite Z.rem_mul_r by lia. reflexivity.
Qed.

Lemma le_store_load bs : le_store (length bs) (le_load bs) = bs.
Proof.
  induction bs as [|b bs IH]; cbn [le_load le_store length]; [reflexivity|].
  pose proof (byte_val_range b).
  f_equal.
  - apply byte_val_inj. rewrite byte_val_of. zarith.
  - transitivity (le_store (length bs) (le_load bs)); [f_equal; zarith | exact IH].
Qed.

Lemma le_store_mod n z : le_store n (z mod 256 ^ Z.of_nat n) = le_store n z.
Proof.
  rewrite <- le_load_store. rewrite <- (le_store_length n z) at 1. apply le_store_load.
Qed.

Lemma le_load_app bs cs :
  le_load (bs ++ cs) = le_load bs + 256 ^ Z.of_nat (length bs) * le_load cs.
Proof.
  induction bs as [|b bs IH]; cbn [app le_load length]; [lia|].
  rewrite IH, Nat2Z.inj_succ, Z.pow_succ_r by lia. lia.
Qed.

Lemma be_load_app bs cs :
  be_load (bs ++ cs) = be_load bs * 256 ^ Z.of_nat (length cs) + be_load cs.
Proof. unfold be_load. rewrite reverse_app, le_load_app, length_reverse. lia. Qed.

Lemma be_store_length n z : length (be_store n z) = n.
Proof. unfold be_store. rewrite length_reverse. apply le_store_length. Qed.

Lemma be_load_store n z : be_load (be_store n z) = z mod 256 ^ Z.of_nat n.
Proof. unfold be_load, be_store. rewrite reverse_involutive. apply le_load_store. Qed.

Lemma be_store_load bs : be_store (length bs) (be_load bs) = bs.
Proof.
  unfold be_load, be_store. rewrite <- length_reverse, le_store_load.
  apply reverse_involutive.
Qed.

Lemma le_store_be_load n bs : length bs = n -> le_store n (be_load bs) = reverse bs.
Proof. intros <-. unfold be_load. rewrite <- length_reverse. apply le_store_load. Qed.

Lemma be_store_le_load n bs : length bs = n -> be_store n (le_load bs) = reverse bs.
Proof. intros <-. unfold be_store. rewrite le_store_load. reflexivity. Qed.

Lemma be_load_range bs : 0 <= be_load bs < 256 ^ Z.of_nat (length bs).
Proof. unfold be_load. rewrite <- length_reverse. apply le_load_range. Qed.

(** ** Lemmas on vectors *)

Section vectors.
Context {A : Type}.
Implicit Types (l m new : list A) (off len : Z).

Lemma size_nil : size (@nil A) = 0.
Proof. reflexivity. Qed.

Lemma size_cons x l : size (x :: l) = 1 + size l.
Proof. unfold size. cbn [length]. lia. Qed.

Lemma size_nonneg l : 0 <= size l.
Proof. unfold size. lia. Qed.

Lemma to_nat_size l : Z.to_nat (size l) = length l.
Proof. apply Nat2Z.id. Qed.

Lemma size_app l m : size (l ++ m) = size l + size m.
Proof. unfold size. rewrite length_app. lia. Qed.

Lemma lookup_slice off len l i :
  slice off len l !! i =
  if decide (Z.of_nat i < len) then l !! (Z.to_nat off + i)%nat else None.
Proof.
  unfold slice. case_decide as H.
  - rewrite lookup_take_lt by lia. apply lookup_drop.
  - apply lookup_take_ge. lia.
Qed.

Lemma lookup_splice off new l i :
  0 <= off <= size l ->
  splice off new l !! i =
  if decide (off <= Z.of_nat i < off + size new)
  then new !! (i - Z.to_nat off)%nat else l !! i.
Proof.
  unfold splice, size. intros Ho.
  assert (length (take (Z.to_nat off) l) = Z.to_nat off) as Hl.
  { rewrite length_take. lia. }
  rewrite !lookup_app, Hl. case_decide as H.
  - rewrite lookup_take_ge by lia.
    destruct (new !! (i - Z.to_nat off)%nat) eqn:E; [reflexivity|].
    apply lookup_ge_None in E. lia.
  - destruct (Nat.lt_ge_cases i (Z.to_nat off)).
    + rewrite lookup_take_lt by lia. destruct (l !! i) eqn:E; [reflexivity|].
      apply lookup_ge_None in E. lia.
    + rewrite lookup_take_ge by lia.
      rewrite (proj2 (lookup_ge_None new _)) by lia.
      rewrite lookup_drop. f_equal. lia.
Qed.

Lemma size_slice off len l :
  0 <= off -> 0 <= len -> off + len <= size l -> size (slice off len l) = len.
Proof. unfold size, slice. intros. rewrite length_take, length_drop. lia. Qed.

Lemma size_splice_max off new l :
  0 <= off <= size l -> size (splice off new l) = Z.max (size l) (off + size new).
Proof.
  unfold size, splice. intros. rewrite !length_app, length_take, length_drop. lia.
Qed.

Lemma size_splice off new l :
  0 <= off -> off + size new <= size l -> size (splice off new l) = size l.
Proof. intros. rewrite size_splice_max by (pose proof (size_nonneg new); lia). lia. Qed.

Lemma slice_all l : slice 0 (size l) l = l.
Proof. unfold slice, size. rewrite drop_0. apply take_ge. lia. Qed.

Lemma slice_0_len off l : slice off 0 l = [].
Proof. reflexivity. Qed.

Lemma slice_slice off len off' len' l :
  0 <= off -> 0 <= off' -> off' + len' <= len ->
  slice off' len' (slice off len l) = slice (off + off') len' l.
Proof.
  intros. apply list_eq. intros i. rewrite !lookup_slice.
  repeat case_decide; try lia; try reflexivity. f_equal. lia.
Qed.

Lemma slice_app_l off len l m :
  0 <= off -> off + len <= size l -> slice off len (l ++ m) = slice off len l.
Proof.
  unfold size. intros. apply list_eq. intros i. rewrite !lookup_slice.
  case_decide; [|reflexivity]. apply lookup_app_l. lia.
Qed.

Lemma slice_app_r off len l m :
  size l <= off -> slice off len (l ++ m) = slice (off - size l) len m.
Proof.
  unfold size. intros. apply list_eq. intros i. rewrite !lookup_slice.
  case_decide; [|reflexivity]. rewrite lookup_app_r by lia. f_equal. lia.
Qed.

(** A range inside the overwritten one reads the new contents. *)
Lemma slice_splice_in off new l off' len :
  0 <= off <= size l -> off <= off' -> off' + len <= off + size new ->
  slice off' len (splice off new l) = slice (off' - off) len new.
Proof.
  intros. apply list_eq. intros i. rewrite !lookup_slice.
  case_decide; [|reflexivity]. rewrite lookup_splice by lia.
  rewrite decide_True by lia. f_equal. lia.
Qed.

Lemma slice_splice_eq off new l :
  0 <= off <= size l -> slice off (size new) (splice off new l) = new.
Proof. intros. rewrite slice_splice_in, Z.sub_diag by lia. apply slice_all. Qed.

(** A range disjoint from the overwritten one is unchanged. *)
Lemma slice_splice_ne off new l off' len :
  0 <= off <= size l -> 0 <= off' ->
  off' + len <= off \/ off + size new <= off' ->
  slice off' len (splice off new l) = slice off' len l.
Proof.
  intros. apply list_eq. intros i. rewrite !lookup_slice.
  case_decide; [|reflexivity]. rewrite lookup_splice by lia.
  rewrite decide_False by lia. reflexivity.
Qed.

(** Overwriting a range with its own contents changes nothing. *)
Lemma splice_same off new l :
  0 <= off -> off + size new <= size l -> slice off (size new) l = new ->
  splice off new l = l.
Proof.
  intros H1 H2 H3. pose proof (size_nonneg new). apply list_eq. intros i. rewrite lookup_splice by lia.
  case_decide; [|reflexivity]. rewrite <- H3. rewrite lookup_slice, decide_True by lia.
  f_equal. lia.
Qed.

(** Adjacent overwrites, the second starting where the first ends. *)
Lemma splice_splice off a b l :
  0 <= off <= size l ->
  splice (off + size a) b (splice off a l) = splice off (a ++ b) l.
Proof.
  intros H. apply list_eq. intros i. pose proof (size_nonneg a).
  rewrite !lookup_splice by (rewrite ?size_splice_max by lia; lia).
  rewrite size_app. unfold size in *.
  repeat case_decide; try lia; try reflexivity.
  - rewrite lookup_app_r by lia. f_equal. lia.
  - rewrite lookup_app_l by lia. reflexivity.
Qed.

Lemma splice_nil off l : 0 <= off -> splice off [] l = l.
Proof. intros. unfold splice. cbn. rewrite Nat.add_0_r. apply take_drop. Qed.

(** Padding the buffer up to the end of the range first changes nothing. *)
Lemma splice_pad off new l n (x : A) :
  0 <= off <= size l -> size l + Z.of_nat n <= off + size new ->
  splice off new (l ++ replicate n x) = splice off new l.
Proof.
  intros H1 H2. pose proof (size_nonneg (replicate n x)).
  apply list_eq. intros i. rewrite !lookup_splice by (rewrite ?size_app; lia).
  case_decide; [reflexivity|]. unfold size in *.
  destruct (Nat.lt_ge_cases i (length l)); [apply lookup_app_l; lia|].
  rewrite !(proj2 (lookup_ge_None _ i)) by (rewrite ?length_app, ?length_replicate; lia).
  reflexivity.
Qed.

Lemma size_replicate n (x : A) : size (replicate n x) = Z.of_nat n.
Proof. unfold size. rewrite length_replicate. reflexivity. Qed.

End vectors.

#[export] Hint Rewrite @size_nil @size_cons @size_app @size_replicate
  @length_app @length_take @length_drop @length_replicate @length_reverse
  @length_fmap le_store_length be_store_length : elf.
#[export] Hint Resolve size_nonneg byte_val_range le_load_range : elf.

Arguments size : simpl never.
Arguments slice : simpl never.
Arguments splice : simpl never.
Arguments le_store !n z : simpl nomatch.
