(* ===== verification/Text.v ===== *)
(** * Text: the number formatting the program takes from its standard library

    [std::to_string] on unsigned values, the [%x] family of [std::snprintf],
    the bounded buffers it writes into and the left-justified [%-Ns] fields of
    the [--info] table.  Numbers are printed by repeated division; the fuel is
    the number of digits a 64-bit value can have in the base, and [digits_read]
    shows it is enough: reading the digits back gives the number. *)

From S2P Require Import Prelude.

Definition digit_char (d : Z) : ascii :=
  ascii_of_N (Z.to_N (if d <? 10 then 48 + d else 87 + d)).

Definition char_digit (c : ascii) : Z :=
  let n := Z.of_N (N_of_ascii c) in if n <? 58 then n - 48 else n - 87.

(** Most significant digit first; [acc] holds the digits already produced. *)
Fixpoint digits (fuel : nat) (base v : Z) (acc : string) : string :=
  match fuel with
  | O => acc
  | S fuel' =>
      let acc' := String (digit_char (v mod base)) acc in
      if v / base =? 0 then acc' else digits fuel' base (v / base) acc'
  end.

(** [std::to_string] of an unsigned value of at most 64 bits. *)
Definition to_string (v : Z) : string := digits 20 10 v EmptyString.

(** [%x], [%zx], [%llx]. *)
Definition to_hex (v : Z) : string := digits 16 16 v EmptyString.

(** [std::snprintf(buf, n, ...)] keeps at most [n - 1] characters. *)
Definition snprintf (n : nat) (s : string) : string := String.substring 0 (n - 1) s.

(** [%-Ns]: pad with blanks on the right up to width [n]. *)
Fixpoint blanks (n : nat) : string :=
  match n with O => EmptyString | S n' => String " " (blanks n') end.

Definition pad_right (n : nat) (s : string) : string :=
  s +:+ blanks (n - String.length s).

(** The number a digit string denotes. *)
Fixpoint read_digits (base acc : Z) (s : string) : Z :=
  match s with
  | EmptyString => acc
  | String c s' => read_digits base (acc * base + char_digit c) s'
  end.

Arguments digit_char : simpl never.
Arguments char_digit : simpl never.

(** ** Lemmas *)

Lemma string_app_cons c s t : String c s +:+ t = String c (s +:+ t).
Proof. reflexivity. Qed.

Lemma string_app_nil_l t : EmptyString +:+ t = t.
Proof. reflexivity. Qed.

Lemma string_app_nil_r s : s +:+ EmptyString = s.
Proof. induction s as [|c s IH]; [reflexivity|]. rewrite string_app_cons, IH. reflexivity. Qed.

Lemma string_app_assoc s t u : (s +:+ t) +:+ u = s +:+ (t +:+ u).
Proof. induction s as [|c s IH]; [reflexivity|]. rewrite !string_app_cons, IH. reflexivity. Qed.

Lemma string_length_app s t : String.length (s +:+ t) = (String.length s + String.length t)%nat.
Proof. induction s as [|c s IH]; [reflexivity|]. rewrite string_app_cons. cbn. auto. Qed.

Lemma char_digit_char d : 0 <= d < 16 -> char_digit (digit_char d) = d.
Proof.
  intros H. unfold char_digit, digit_char.
  rewrite N_ascii_embedding by (destruct (d <? 10) eqn:?; lia).
  zcase; lia.
Qed.

Lemma digits_read_acc fuel base v acc :
  1 < base <= 16 -> 0 <= v < base ^ Z.of_nat fuel ->
  exists pre, digits fuel base v acc = pre +:+ acc /\ read_digits base 0 pre = v /\
    (forall tl, read_digits base 0 (pre +:+ tl) = read_digits base v tl).
Proof.
  intros Hb. revert v acc. induction fuel as [|fuel IH]; intros v acc Hv.
  - change (Z.of_nat 0) with 0 in Hv. rewrite Z.pow_0_r in Hv.
    assert (v = 0) as -> by lia. exists EmptyString. repeat split.
  - rewrite Nat2Z.inj_succ, Z.pow_succ_r in Hv by lia. cbn [digits].
    pose proof (Z.mod_pos_bound v base) as Hm.
    pose proof (Z.div_mod v base) as Hd.
    assert (0 <= v / base) by (apply Z.div_pos; lia).
    assert (v / base < base ^ Z.of_nat fuel) by (apply Z.div_lt_upper_bound; lia).
    destruct (Z.eqb_spec (v / base) 0) as [Hz|Hz].
    + exists (String (digit_char (v mod base)) EmptyString).
      rewrite Hz, Z.mul_0_r in Hd. split; [reflexivity|]. split.
      * cbn. rewrite char_digit_char by lia. lia.
      * intros tl. rewrite string_app_cons, string_app_nil_l. cbn.
        rewrite char_digit_char by lia. f_equal. lia.
    + destruct (IH (v / base) (String (digit_char (v mod base)) acc)) as (pre & E & _ & R); [lia|].
      exists (pre +:+ String (digit_char (v mod base)) EmptyString).
      rewrite E, string_app_assoc. split; [reflexivity|].
      rewrite R. cbn. rewrite char_digit_char by lia. split; [lia|].
      intros tl. rewrite string_app_assoc, R, string_app_cons, string_app_nil_l. cbn.
      rewrite char_digit_char by lia. f_equal. lia.
Qed.

Lemma digits_read fuel base v :
  1 < base <= 16 -> 0 <= v < base ^ Z.of_nat fuel ->
  read_digits base 0 (digits fuel base v EmptyString) = v.
Proof.
  intros Hb Hv. destruct (digits_read_acc fuel base v EmptyString Hb Hv) as (pre & -> & R & _).
  rewrite string_app_nil_r. exact R.
Qed.

Lemma to_string_read v : 0 <= v < 2 ^ 64 -> read_digits 10 0 (to_string v) = v.
Proof. intros. apply digits_read; lia. Qed.

Lemma to_hex_read v : 0 <= v < 2 ^ 64 -> read_digits 16 0 (to_hex v) = v.
Proof. intros. apply digits_read; lia. Qed.

Lemma digits_length fuel base v acc :
  (String.length (digits fuel base v acc) <= fuel + String.length acc)%nat.
Proof.
  revert v acc. induction fuel as [|fuel IH]; intros v acc; cbn [digits]; [lia|].
  destruct (v / base =? 0); [cbn; lia|].
  etransitivity; [apply IH|]. cbn. lia.
Qed.

Lemma to_hex_length v : (String.length (to_hex v) <= 16)%nat.
Proof. unfold to_hex. etransitivity; [apply digits_length|]. cbn. lia. Qed.

Lemma to_string_length v : (String.length (to_string v) <= 20)%nat.
Proof. unfold to_string. etransitivity; [apply digits_length|]. cbn. lia. Qed.

Lemma snprintf_fits n s : (String.length s < n)%nat -> snprintf n s = s.
Proof.
  intros H. unfold snprintf. assert (String.length s <= n - 1)%nat as Hn by lia.
  generalize dependent (n - 1)%nat. clear. induction s; intros [|m] Hn; cbn in *; try lia; try reflexivity.
  f_equal. apply IHs. lia.
Qed.

Lemma blanks_length n : String.length (blanks n) = n.
Proof. induction n; cbn; auto. Qed.

Lemma pad_right_length n s : String.length (pad_right n s) = Nat.max n (String.length s).
Proof. unfold pad_right. rewrite string_length_app, blanks_length. lia. Qed.
