(* ===== verification/Errors.v ===== *)
(** * Errors: libelf/include/elf/errors.hpp

    The error codes, the [Error] pair of a code and a message, and
    [Result<T, Error>] as a sum with its [bind].  [exc] is the C++ exception
    channel of the instruction encoders ([std::invalid_argument]), kept apart
    from [Result] because the code keeps them apart. *)

From S2P Require Import Prelude.

Inductive ErrorCode :=
| TruncatedFile
| BadMagic
| UnsupportedClass
| UnsupportedDataEncoding
| InconsistentHeaderSize
| OffsetOutOfBounds
| IndexOutOfBounds
| IoError
| AlreadyPatched
| Unsupported
| InvalidArgument
| RelocationFailed.

#[export] Instance ErrorCode_eq_dec : EqDecision ErrorCode.
Proof. solve_decision. Defined.

Record Error := make { code : ErrorCode; message : string }.

Inductive Result (T : Type) :=
| Ok (value : T)
| Err (error : Error).
Arguments Ok {T} value.
Arguments Err {T} error.

Definition VoidResult := Result unit.

Definition ok : VoidResult := Ok tt.

Definition is_ok {T} (r : Result T) : bool :=
  match r with Ok _ => true | Err _ => false end.

Definition value_or {T} (r : Result T) (fallback : T) : T :=
  match r with Ok v => v | Err _ => fallback end.

Definition error_code {T} (r : Result T) : option ErrorCode :=
  match r with Ok _ => None | Err e => Some (code e) end.

(** [auto r = e; if (!r.ok()) return r.error();] *)
Definition bind {T U} (r : Result T) (k : T -> Result U) : Result U :=
  match r with Ok v => k v | Err e => Err e end.

Notation "'let?' x := r 'in' k" := (bind r (fun x => k))
  (at level 10, x pattern, r at level 100, k at level 200) : elf_scope.

(** [if (cond) return Error::make(c, msg);] *)
Notation "'fail_if' b 'with' c , m ';;' k" := (if b then Err (make c m) else k)
  (at level 10, b at level 100, c at level 9, m at level 60, k at level 200) : elf_scope.

(** Functions that may throw [std::invalid_argument]. *)
Inductive exc (T : Type) :=
| Ret (value : T)
| Throw (what : string).
Arguments Ret {T} value.
Arguments Throw {T} what.

Definition exc_bind {T U} (r : exc T) (k : T -> exc U) : exc U :=
  match r with Ret v => k v | Throw w => Throw w end.

Notation "'let!' x := r 'in' k" := (exc_bind r (fun x => k))
  (at level 10, x pattern, r at level 100, k at level 200) : elf_scope.

(** The elements of a braced initialiser list, evaluated left to right. *)
Fixpoint exc_list {T} (l : list (exc T)) : exc (list T) :=
  match l with
  | [] => Ret []
  | r :: l' => let! v := r in let! vs := exc_list l' in Ret (v :: vs)
  end.

Lemma bind_Ok {T U} (r : Result T) (k : T -> Result U) u :
  bind r k = Ok u -> exists v, r = Ok v /\ k v = Ok u.
Proof. destruct r; cbn; [eauto|discriminate]. Qed.

Lemma bind_Err {T U} (r : Result T) (k : T -> Result U) e :
  bind r k = Err e -> r = Err e \/ exists v, r = Ok v /\ k v = Err e.
Proof. destruct r; cbn; intros H; [eauto|left; congruence]. Qed.

Lemma exc_list_Ret {T} (l : list T) : exc_list (Ret <$> l) = Ret l.
Proof. induction l as [|x l IH]; cbn; [reflexivity|]. cbn in IH. rewrite IH. reflexivity. Qed.

(** Peel the [Ok] results of a chain of binds and early returns. *)
Ltac inv_ok H :=
  repeat match type of H with
  | bind ?r _ = Ok _ =>
      let v := fresh "v" in let Hv := fresh "Hv" in
      apply bind_Ok in H as (v & Hv & H)
  | (if ?b then Err _ else _) = Ok _ =>
      let Hb := fresh "Hb" in destruct b eqn:Hb; [discriminate H|]
  | Ok _ = Ok _ => injection H as H
  end.
