(* ===== verification/EndianInt.v ===== *)
(** * Endian-safe scalars: libelf/include/elf/endian.hpp

    [Endianed T Order] is the wrapper class: an object holding the raw host
    integer whose bytes are the ones on disk.  [get] and [set] are its member
    functions, [assign] the converting assignment.  [load] and [store] are the
    [memcpy] between the object and a byte buffer; they depend on the byte
    order of the machine that runs the program, which is an argument here, so
    that what [host_is_little_endian] assumes can be stated. *)

From S2P Require Import Prelude.

Inductive Endian := Little | Big.

#[export] Instance Endian_eq_dec : EqDecision Endian.
Proof. solve_decision. Defined.

Definition byteswap16 (v : Z) : Z := u16 (Z.lor (Z.shiftr v 8) (Z.shiftl v 8)).

Definition byteswap32 (v : Z) : Z :=
  Z.lor (Z.lor (Z.lor (shl32 (Z.land v 0x000000FF) 24)
                      (shl32 (Z.land v 0x0000FF00) 8))
               (Z.shiftr (Z.land v 0x00FF0000) 8))
        (Z.shiftr (Z.land v 0xFF000000) 24).

Definition byteswap64 (v : Z) : Z :=
  Z.lor (u64 (Z.shiftl (byteswap32 (u32 (Z.land v 0xFFFFFFFF))) 32))
        (byteswap32 (u32 (Z.shiftr v 32))).

Definition host_is_little_endian : bool := 0x0001 =? u16 1.

(** The unsigned types the class is instantiated at. *)
Inductive uint_t := uint16_t | uint32_t | uint64_t.

#[export] Instance uint_t_eq_dec : EqDecision uint_t.
Proof. solve_decision. Defined.

Definition sizeof (T : uint_t) : nat :=
  match T with uint16_t => 2 | uint32_t => 4 | uint64_t => 8 end.

(** Implicit conversion to [T]. *)
Definition convert (T : uint_t) (v : Z) : Z :=
  match T with uint16_t => u16 v | uint32_t => u32 v | uint64_t => u64 v end.

Definition byteswap (T : uint_t) (v : Z) : Z :=
  match T with
  | uint16_t => byteswap16 v
  | uint32_t => byteswap32 v
  | uint64_t => byteswap64 v
  end.

Record Endianed (T : uint_t) (Order : Endian) := mkEndianed { storage_ : Z }.
Arguments mkEndianed {T Order} storage_.
Arguments storage_ {T Order} e.

#[export] Instance Endianed_eq_dec T Order : EqDecision (Endianed T Order).
Proof. solve_decision. Defined.

Definition is_Little (Order : Endian) : bool :=
  match Order with Little => true | Big => false end.

Definition needs_swap (Order : Endian) : bool :=
  negb (Bool.eqb (is_Little Order) host_is_little_endian).

Definition get {T Order} (e : Endianed T Order) : Z :=
  let raw := storage_ e in
  if needs_swap Order then byteswap T raw else raw.

Definition set {T Order} (host_value : Z) : Endianed T Order :=
  mkEndianed (if needs_swap Order then byteswap T host_value else host_value).

(** [Endianed& operator=(T host_value)] at an argument of a wider type. *)
Definition assign {T Order} (v : Z) : Endianed T Order := set (convert T v).

Definition load (host : Endian) {T Order} (bs : list byte) : Endianed T Order :=
  mkEndianed (match host with Little => le_load bs | Big => be_load bs end).

Definition store (host : Endian) {T Order} (e : Endianed T Order) : list byte :=
  match host with
  | Little => le_store (sizeof T) (storage_ e)
  | Big => be_store (sizeof T) (storage_ e)
  end.

(** The object holds a value of its type. *)
Definition endianed_ok {T Order} (e : Endianed T Order) : Prop :=
  0 <= storage_ e < 256 ^ Z.of_nat (sizeof T).

(** The integer a byte sequence denotes in a byte order: what the ELF
    specification says a field's value is. *)
Definition value_of (Order : Endian) (bs : list byte) : Z :=
  match Order with Little => le_load bs | Big => be_load bs end.

(** The byte sequence of an integer in a byte order. *)
Definition bytes_of (Order : Endian) (n : nat) (v : Z) : list byte :=
  match Order with Little => le_store n v | Big => be_store n v end.

(** ** Byte swapping *)

Lemma byteswap16_bytes v :
  0 <= v < 2 ^ 16 -> byteswap16 v = v mod 256 * 256 + v / 256.
Proof.
  intros H. unfold byteswap16.
  rewrite Z.shiftr_div_pow2, Z.shiftl_mul_pow2 by lia.
  rewrite Z.lor_comm, (lor_disjoint_add 8) by zarith. zarith.
Qed.

Lemma byteswap32_bytes v :
  0 <= v < 2 ^ 32 ->
  byteswap32 v =
  v mod 256 * 2 ^ 24 + (v / 2 ^ 8) mod 256 * 2 ^ 16 + (v / 2 ^ 16) mod 256 * 2 ^ 8 + v / 2 ^ 24.
Proof.
  intros H. unfold byteswap32, shl32.
  rewrite (land_low 8), (land_field 8 8 _ 0xFF00), (land_field 16 8), (land_field 24 8) by lia.
  rewrite !Z.shiftr_div_pow2, !Z.shiftl_mul_pow2 by lia.
  rewrite !u32_small by zarith.
  rewrite (lor_disjoint_add 24 (_ * 2 ^ 24)) by zarith.
  rewrite (lor_disjoint_add 16 (_ * 2 ^ 24 + _)) by zarith.
  rewrite (lor_disjoint_add 8 (_ + _ + _)) by zarith.
  zarith.
Qed.

Lemma byteswap32_range v : 0 <= v < 2 ^ 32 -> 0 <= byteswap32 v < 2 ^ 32.
Proof. intros H. rewrite byteswap32_bytes by exact H. zarith. Qed.

Lemma byteswap64_halves v :
  0 <= v < 2 ^ 64 ->
  byteswap64 v = byteswap32 (v mod 2 ^ 32) * 2 ^ 32 + byteswap32 (v / 2 ^ 32).
Proof.
  intros H. unfold byteswap64.
  rewrite (land_low 32), Z.shiftr_div_pow2, Z.shiftl_mul_pow2 by lia.
  rewrite !u32_small by zarith.
  pose proof (byteswap32_range (v mod 2 ^ 32)).
  pose proof (byteswap32_range (v / 2 ^ 32)).
  rewrite u64_small by zarith.
  apply (lor_disjoint_add 32); zarith.
Qed.

Ltac explode bs H :=
  repeat (destruct bs as [|? bs]; [discriminate H|]); destruct bs; [clear H|discriminate H].

Ltac byte_bounds :=
  repeat match goal with
  | b : Byte.byte |- _ =>
      lazymatch goal with
      | _ : 0 <= byte_val b < 256 |- _ => fail
      | _ => pose proof (byte_val_range b)
      end
  end.

Lemma byteswap16_load bs : length bs = 2%nat -> byteswap16 (le_load bs) = be_load bs.
Proof.
  intros H. pose proof (le_load_range bs) as Hr. rewrite H in Hr.
  rewrite byteswap16_bytes by lia. explode bs H. cbn in *. byte_bounds. zarith.
Qed.

Lemma byteswap32_load bs : length bs = 4%nat -> byteswap32 (le_load bs) = be_load bs.
Proof.
  intros H. pose proof (le_load_range bs) as Hr. rewrite H in Hr.
  rewrite byteswap32_bytes by lia. explode bs H. cbn in *. byte_bounds. zarith.
Qed.

Lemma byteswap64_load bs : length bs = 8%nat -> byteswap64 (le_load bs) = be_load bs.
Proof.
  intros H. pose proof (le_load_range bs) as Hr. rewrite H in Hr.
  rewrite byteswap64_halves by lia.
  rewrite <- (take_drop 4 bs), be_load_app, le_load_app.
  pose proof (le_load_range (take 4 bs)) as H1. pose proof (le_load_range (drop 4 bs)) as H2.
  rewrite !length_take, !length_drop, H in *. cbn [Nat.min Nat.sub] in *.
  change (256 ^ Z.of_nat 4) with (2 ^ 32) in *.
  rewrite <- (byteswap32_load (take 4 bs)), <- (byteswap32_load (drop 4 bs))
    by (rewrite ?length_take, ?length_drop, H; reflexivity).
  f_equal; [f_equal|]; f_equal; zarith.
Qed.

Lemma byteswap_load T bs : length bs = sizeof T -> byteswap T (le_load bs) = be_load bs.
Proof.
  destruct T; [apply byteswap16_load | apply byteswap32_load | apply byteswap64_load].
Qed.

Lemma byteswap_be T bs : length bs = sizeof T -> byteswap T (be_load bs) = le_load bs.
Proof.
  intros H. unfold be_load. rewrite byteswap_load by (rewrite length_reverse; exact H).
  unfold be_load. rewrite reverse_involutive. reflexivity.
Qed.

(** A value of type [T] is the value of its object representation. *)
Lemma as_bytes T v :
  0 <= v < 256 ^ Z.of_nat (sizeof T) ->
  exists bs, length bs = sizeof T /\ v = le_load bs.
Proof.
  intros H. exists (le_store (sizeof T) v).
  rewrite le_store_length, le_load_store, Z.mod_small by exact H. auto.
Qed.

Lemma byteswap_involutive T v :
  0 <= v < 256 ^ Z.of_nat (sizeof T) -> byteswap T (byteswap T v) = v.
Proof.
  intros H. destruct (as_bytes T v H) as (bs & Hl & ->).
  rewrite byteswap_load by exact Hl. apply byteswap_be. exact Hl.
Qed.

Lemma byteswap_range T v :
  0 <= v < 256 ^ Z.of_nat (sizeof T) -> 0 <= byteswap T v < 256 ^ Z.of_nat (sizeof T).
Proof.
  intros H. destruct (as_bytes T v H) as (bs & Hl & ->).
  rewrite byteswap_load, <- Hl by exact Hl. apply be_load_range.
Qed.

Lemma convert_spec T v : convert T v = v mod 256 ^ Z.of_nat (sizeof T).
Proof. destruct T; reflexivity. Qed.

Lemma convert_range T v : 0 <= convert T v < 256 ^ Z.of_nat (sizeof T).
Proof. rewrite convert_spec. apply Z.mod_pos_bound. lia. Qed.

Lemma convert_small T v : 0 <= v < 256 ^ Z.of_nat (sizeof T) -> convert T v = v.
Proof. intros. rewrite convert_spec. apply Z.mod_small. exact H. Qed.

(** ** The wrapper class *)

Section endianed.
Context {T : uint_t} {Order : Endian}.
Implicit Types e : Endianed T Order.

Lemma get_range e : endianed_ok e -> 0 <= get e < 256 ^ Z.of_nat (sizeof T).
Proof.
  unfold endianed_ok, get. intros H. destruct (needs_swap Order); [|exact H].
  apply byteswap_range. exact H.
Qed.

Lemma get_set v : 0 <= v < 256 ^ Z.of_nat (sizeof T) -> get (@set T Order v) = v.
Proof.
  unfold get, set. cbn [storage_]. intros H. destruct (needs_swap Order); [|reflexivity].
  apply byteswap_involutive. exact H.
Qed.

Lemma get_assign v : get (@assign T Order v) = convert T v.
Proof. apply get_set. apply convert_range. Qed.

Lemma set_get e : endianed_ok e -> set (get e) = e.
Proof.
  unfold endianed_ok, get, set. destruct e as [s]. cbn [storage_]. intros H.
  destruct (needs_swap Order); [|reflexivity]. f_equal. apply byteswap_involutive. exact H.
Qed.

Lemma set_ok v : 0 <= v < 256 ^ Z.of_nat (sizeof T) -> endianed_ok (@set T Order v).
Proof.
  unfold endianed_ok, set. cbn [storage_]. intros H. destruct (needs_swap Order); [|exact H].
  apply byteswap_range. exact H.
Qed.

Lemma assign_ok v : endianed_ok (@assign T Order v).
Proof. apply set_ok. apply convert_range. Qed.

Lemma load_ok bs : length bs = sizeof T -> endianed_ok (@load Little T Order bs).
Proof. unfold endianed_ok, load. cbn [storage_]. intros <-. apply le_load_range. Qed.

Lemma store_length host e : length (store host e) = sizeof T.
Proof. destruct host; cbn; [apply le_store_length|apply be_store_length]. Qed.

Lemma load_store host e : endianed_ok e -> load host (store host e) = e.
Proof.
  unfold endianed_ok, load, store. destruct e as [s]. cbn [storage_]. intros H. f_equal.
  destruct host; [rewrite le_load_store|rewrite be_load_store]; apply Z.mod_small; exact H.
Qed.

Lemma store_load host bs : length bs = sizeof T -> store host (@load host T Order bs) = bs.
Proof.
  unfold load, store. cbn [storage_]. intros <-.
  destruct host; [apply le_store_load|apply be_store_load].
Qed.

Lemma get_load bs : length bs = sizeof T -> get (@load Little T Order bs) = value_of Order bs.
Proof.
  intros H. unfold get, load, value_of. cbn [storage_].
  destruct Order; [reflexivity|]. change (needs_swap Big) with true. cbn iota.
  apply byteswap_load. exact H.
Qed.

Lemma store_set v :
  0 <= v < 256 ^ Z.of_nat (sizeof T) ->
  store Little (@set T Order v) = bytes_of Order (sizeof T) v.
Proof.
  intros H. destruct (as_bytes T v H) as (bs & Hl & ->).
  unfold set, store, bytes_of. cbn [storage_]. destruct Order; [reflexivity|].
  change (needs_swap Big) with true. cbn iota. rewrite byteswap_load by exact Hl.
  rewrite le_store_be_load, be_store_le_load by exact Hl. reflexivity.
Qed.

End endianed.

#[export] Hint Resolve assign_ok load_ok : elf.

Arguments load : simpl never.
Arguments store : simpl never.
Arguments get : simpl never.
Arguments set : simpl never.
Arguments assign : simpl never.
Arguments convert : simpl never.
