(* ===== verification/ElfTypes.v ===== *)
(** * On-disk structures: libelf/include/elf/types.hpp

    The constants and the six structures of the header, each over the byte
    order [E].  A structure is read from and written to the file by [memcpy]:
    [Layout] is that interface (object size, object from bytes, bytes from
    object, and the laws of a type with no padding), and every structure is an
    instance.  The host is little-endian here, the one order for which
    [EndianInt.host_is_little_endian] is right.

    [ElfClass] is the interface [ElfFile<Is64, E>] has to its
    [std::conditional_t] structures: the fields it reads, the ones it assigns,
    the width of addresses.  The 32-bit and the 64-bit structures are its two
    families of instances. *)

From S2P Require Import Prelude.
From S2P Require Import EndianInt.

(** ** Constants *)

Definition EI_MAG0 : nat := 0.
Definition EI_MAG1 : nat := 1.
Definition EI_MAG2 : nat := 2.
Definition EI_MAG3 : nat := 3.
Definition EI_CLASS : nat := 4.
Definition EI_DATA : nat := 5.
Definition EI_VERSION : nat := 6.
Definition EI_OSABI : nat := 7.
Definition EI_ABIVERSION : nat := 8.
Definition EI_PAD : nat := 9.
Definition EI_NIDENT : Z := 16.

Definition ELFMAG0 : byte := Byte.x7f.
Definition ELFMAG1 : byte := Byte.x45 (* E *).
Definition ELFMAG2 : byte := Byte.x4c (* L *).
Definition ELFMAG3 : byte := Byte.x46 (* F *).

Definition ELFCLASSNONE : byte := Byte.x00.
Definition ELFCLASS32 : byte := Byte.x01.
Definition ELFCLASS64 : byte := Byte.x02.
Definition ELFDATANONE : byte := Byte.x00.
Definition ELFDATA2LSB : byte := Byte.x01.
Definition ELFDATA2MSB : byte := Byte.x02.

Definition ET_NONE : Z := 0.
Definition ET_REL : Z := 1.
Definition ET_EXEC : Z := 2.
Definition ET_DYN : Z := 3.
Definition ET_CORE : Z := 4.

Definition EM_PPC64 : Z := 21.

Definition PT_NULL : Z := 0.
Definition PT_LOAD : Z := 1.
Definition PT_DYNAMIC : Z := 2.
Definition PT_INTERP : Z := 3.
Definition PT_NOTE : Z := 4.

Definition PF_X : Z := 1.
Definition PF_W : Z := 2.
Definition PF_R : Z := 4.

Definition SHT_NULL : Z := 0.
Definition SHT_PROGBITS : Z := 1.
Definition SHT_SYMTAB : Z := 2.
Definition SHT_STRTAB : Z := 3.
Definition SHT_NOBITS : Z := 8.

(** ** Structures *)

Module Elf32.

Record Elf32_Ehdr (E : Endian) := {
  e_ident : list byte;
  e_type : Endianed uint16_t E;
  e_machine : Endianed uint16_t E;
  e_version : Endianed uint32_t E;
  e_entry : Endianed uint32_t E;
  e_phoff : Endianed uint32_t E;
  e_shoff : Endianed uint32_t E;
  e_flags : Endianed uint32_t E;
  e_ehsize : Endianed uint16_t E;
  e_phentsize : Endianed uint16_t E;
  e_phnum : Endianed uint16_t E;
  e_shentsize : Endianed uint16_t E;
  e_shnum : Endianed uint16_t E;
  e_shstrndx : Endianed uint16_t E
}.

Record Elf32_Phdr (E : Endian) := {
  p_type : Endianed uint32_t E;
  p_offset : Endianed uint32_t E;
  p_vaddr : Endianed uint32_t E;
  p_paddr : Endianed uint32_t E;
  p_filesz : Endianed uint32_t E;
  p_memsz : Endianed uint32_t E;
  p_flags : Endianed uint32_t E;
  p_align : Endianed uint32_t E
}.

Record Elf32_Shdr (E : Endian) := {
  sh_name : Endianed uint32_t E;
  sh_type : Endianed uint32_t E;
  sh_flags : Endianed uint32_t E;
  sh_addr : Endianed uint32_t E;
  sh_offset : Endianed uint32_t E;
  sh_size : Endianed uint32_t E;
  sh_link : Endianed uint32_t E;
  sh_info : Endianed uint32_t E;
  sh_addralign : Endianed uint32_t E;
  sh_entsize : Endianed uint32_t E
}.

End Elf32.

Module Elf64.

Record Elf64_Ehdr (E : Endian) := {
  e_ident : list byte;
  e_type : Endianed uint16_t E;
  e_machine : Endianed uint16_t E;
  e_version : Endianed uint32_t E;
  e_entry : Endianed uint64_t E;
  e_phoff : Endianed uint64_t E;
  e_shoff : Endianed uint64_t E;
  e_flags : Endianed uint32_t E;
  e_ehsize : Endianed uint16_t E;
  e_phentsize : Endianed uint16_t E;
  e_phnum : Endianed uint16_t E;
  e_shentsize : Endianed uint16_t E;
  e_shnum : Endianed uint16_t E;
  e_shstrndx : Endianed uint16_t E
}.

Record Elf64_Phdr (E : Endian) := {
  p_type : Endianed uint32_t E;
  p_flags : Endianed uint32_t E;
  p_offset : Endianed uint64_t E;
  p_vaddr : Endianed uint64_t E;
  p_paddr : Endianed uint64_t E;
  p_filesz : Endianed uint64_t E;
  p_memsz : Endianed uint64_t E;
  p_align : Endianed uint64_t E
}.

Record Elf64_Shdr (E : Endian) := {
  sh_name : Endianed uint32_t E;
  sh_type : Endianed uint32_t E;
  sh_flags : Endianed uint64_t E;
  sh_addr : Endianed uint64_t E;
  sh_offset : Endianed uint64_t E;
  sh_size : Endianed uint64_t E;
  sh_link : Endianed uint32_t E;
  sh_info : Endianed uint32_t E;
  sh_addralign : Endianed uint64_t E;
  sh_entsize : Endianed uint64_t E
}.

End Elf64.

(** ** Objects and bytes *)

(** The bytes of a structure are the bytes of its members, in order: the
    members are naturally aligned, so the compiler adds no padding. *)
Class Layout (T : Type) := {
  sizeof_struct : Z;
  from_bytes : list byte -> T;
  to_bytes : T -> list byte;
  struct_ok : T -> Prop;
  sizeof_struct_range : 0 < sizeof_struct < 2 ^ 16;
  to_bytes_size : forall t, struct_ok t -> size (to_bytes t) = sizeof_struct;
  from_to_bytes : forall t, struct_ok t -> from_bytes (to_bytes t) = t;
  to_from_bytes : forall bs, size bs = sizeof_struct -> to_bytes (from_bytes bs) = bs;
  from_bytes_ok : forall bs, size bs = sizeof_struct -> struct_ok (from_bytes bs)
}.
Arguments sizeof_struct T {Layout}.

Lemma sizeof_struct_pos `{Layout T} : 0 < sizeof_struct T.
Proof. apply sizeof_struct_range. Qed.

(** The member at offset [off] of an object copied from [bs]. *)
Definition member (T : uint_t) {E} (off : Z) (bs : list byte) : Endianed T E :=
  load Little (slice off (Z.of_nat (sizeof T)) bs).

Lemma store_member T E off bs :
  0 <= off -> off + Z.of_nat (sizeof T) <= size bs ->
  store Little (@member T E off bs) = slice off (Z.of_nat (sizeof T)) bs.
Proof.
  intros H1 H2. unfold member. apply store_load.
  pose proof (size_slice off (Z.of_nat (sizeof T)) bs) as Hs. unfold size in Hs at 2. lia.
Qed.

Lemma member_ok T E off bs :
  0 <= off -> off + Z.of_nat (sizeof T) <= size bs -> endianed_ok (@member T E off bs).
Proof.
  intros H1 H2. unfold member. apply load_ok.
  pose proof (size_slice off (Z.of_nat (sizeof T)) bs) as Hs. unfold size in Hs at 2. lia.
Qed.

Lemma get_member T E off bs :
  0 <= off -> off + Z.of_nat (sizeof T) <= size bs ->
  get (@member T E off bs) = value_of E (slice off (Z.of_nat (sizeof T)) bs).
Proof.
  intros H1 H2. apply get_load.
  pose proof (size_slice off (Z.of_nat (sizeof T)) bs) as Hs. unfold size in Hs at 2. lia.
Qed.

Lemma size_store T E (e : Endianed T E) : size (store Little e) = Z.of_nat (sizeof T).
Proof. unfold size. rewrite store_length. reflexivity. Qed.

Lemma slice_cat {A} off n m (l : list A) :
  0 <= off -> 0 <= n -> 0 <= m -> slice off n l ++ slice (off + n) m l = slice off (n + m) l.
Proof.
  intros. unfold slice. rewrite (Z2Nat.inj_add n m), (Z2Nat.inj_add off n) by lia.
  rewrite <- take_take_drop, drop_drop. reflexivity.
Qed.

(** [size] of a structure image, member by member. *)
Ltac member_sizes := rewrite ?size_app, ?size_store; cbn [sizeof]; lia.

Lemma slice_app_here {A} n (l m : list A) : size l = n -> slice 0 n (l ++ m) = l.
Proof. intros <-. rewrite slice_app_l by lia. apply slice_all. Qed.

Lemma slice_here {A} n (l : list A) : size l = n -> slice 0 n l = l.
Proof. intros <-. apply slice_all. Qed.

Lemma slice_app_skip {A} off k n (l m : list A) :
  size l = k -> k <= off -> slice off n (l ++ m) = slice (off - k) n m.
Proof. intros <-. apply slice_app_r. Qed.

(** Select the member at a constant offset of a concatenation of members. *)
Ltac image_size l :=
  lazymatch l with
  | @store Little ?T _ _ => eval cbv in (Z.of_nat (sizeof T))
  | _ => constr:(16)
  end.

Ltac select_member :=
  lazymatch goal with
  | |- context [slice 0 ?n (?l ++ ?m)] =>
      rewrite (slice_app_here n l m) by (rewrite ?size_store; cbn [sizeof]; lia)
  | |- context [slice ?off ?n (?l ++ ?m)] =>
      let k := image_size l in
      let d := eval cbv in (off - k) in
      rewrite (slice_app_skip off k n l m) by (rewrite ?size_store; cbn [sizeof]; lia);
      change (off - k) with d
  | |- context [slice 0 ?n ?l] =>
      rewrite (slice_here n l) by (rewrite ?size_store; cbn [sizeof]; lia)
  end.

#[local] Obligation Tactic := idtac.

Ltac layout_size := intros E t H; destruct t; cbn in *; destruct_and? H; member_sizes.

Ltac layout_from_to :=
  intros E t H; destruct t; cbn in *; destruct_and? H;
  unfold member; cbn [sizeof];
  change (Z.of_nat 2) with 2; change (Z.of_nat 4) with 4; change (Z.of_nat 8) with 8;
  repeat select_member; rewrite ?load_store by assumption; reflexivity.

Ltac layout_to_from :=
  intros E bs H; cbn; rewrite ?store_member by (cbn [sizeof]; lia); cbn [sizeof];
  change (Z.of_nat 2) with 2; change (Z.of_nat 4) with 4; change (Z.of_nat 8) with 8;
  repeat match goal with
  | |- context [slice ?a ?n ?l ++ slice ?b ?m ?l] =>
      change (slice b m l) with (slice (a + n) m l);
      rewrite (slice_cat a n m l) by lia;
      let c := eval cbv in (n + m) in change (n + m) with c
  end; rewrite <- H; apply slice_all.

Ltac layout_ok :=
  intros E bs H; cbn; repeat split;
  first [ rewrite size_slice by lia; reflexivity | apply member_ok; cbn [sizeof]; lia ].

#[export] Program Instance Elf32_Ehdr_layout E : Layout (Elf32.Elf32_Ehdr E) := {
  sizeof_struct := 52;
  from_bytes bs := {|
    Elf32.e_ident := slice 0 16 bs;
    Elf32.e_type := member uint16_t 16 bs;
    Elf32.e_machine := member uint16_t 18 bs;
    Elf32.e_version := member uint32_t 20 bs;
    Elf32.e_entry := member uint32_t 24 bs;
    Elf32.e_phoff := member uint32_t 28 bs;
    Elf32.e_shoff := member uint32_t 32 bs;
    Elf32.e_flags := member uint32_t 36 bs;
    Elf32.e_ehsize := member uint16_t 40 bs;
    Elf32.e_phentsize := member uint16_t 42 bs;
    Elf32.e_phnum := member uint16_t 44 bs;
    Elf32.e_shentsize := member uint16_t 46 bs;
    Elf32.e_shnum := member uint16_t 48 bs;
    Elf32.e_shstrndx := member uint16_t 50 bs |};
  to_bytes t :=
    Elf32.e_ident _ t ++ store Little (Elf32.e_type _ t) ++
    store Little (Elf32.e_machine _ t) ++ store Little (Elf32.e_version _ t) ++
    store Little (Elf32.e_entry _ t) ++ store Little (Elf32.e_phoff _ t) ++
    store Little (Elf32.e_shoff _ t) ++ store Little (Elf32.e_flags _ t) ++
    store Little (Elf32.e_ehsize _ t) ++ store Little (Elf32.e_phentsize _ t) ++
    store Little (Elf32.e_phnum _ t) ++ store Little (Elf32.e_shentsize _ t) ++
    store Little (Elf32.e_shnum _ t) ++ store Little (Elf32.e_shstrndx _ t);
  struct_ok t :=
    size (Elf32.e_ident _ t) = 16 /\ endianed_ok (Elf32.e_type _ t) /\
    endianed_ok (Elf32.e_machine _ t) /\ endianed_ok (Elf32.e_version _ t) /\
    endianed_ok (Elf32.e_entry _ t) /\ endianed_ok (Elf32.e_phoff _ t) /\
    endianed_ok (Elf32.e_shoff _ t) /\ endianed_ok (Elf32.e_flags _ t) /\
    endianed_ok (Elf32.e_ehsize _ t) /\ endianed_ok (Elf32.e_phentsize _ t) /\
    endianed_ok (Elf32.e_phnum _ t) /\ endianed_ok (Elf32.e_shentsize _ t) /\
    endianed_ok (Elf32.e_shnum _ t) /\ endianed_ok (Elf32.e_shstrndx _ t)
}.
Solve Obligations with first [intros; cbn; lia | layout_size | layout_from_to | layout_to_from | layout_ok].

#[export] Program Instance Elf64_Ehdr_layout E : Layout (Elf64.Elf64_Ehdr E) := {
  sizeof_struct := 64;
  from_bytes bs := {|
    Elf64.e_ident := slice 0 16 bs;
    Elf64.e_type := member uint16_t 16 bs;
    Elf64.e_machine := member uint16_t 18 bs;
    Elf64.e_version := member uint32_t 20 bs;
    Elf64.e_entry := member uint64_t 24 bs;
    Elf64.e_phoff := member uint64_t 32 bs;
    Elf64.e_shoff := member uint64_t 40 bs;
    Elf64.e_flags := member uint32_t 48 bs;
    Elf64.e_ehsize := member uint16_t 52 bs;
    Elf64.e_phentsize := member uint16_t 54 bs;
    Elf64.e_phnum := member uint16_t 56 bs;
    Elf64.e_shentsize := member uint16_t 58 bs;
    Elf64.e_shnum := member uint16_t 60 bs;
    Elf64.e_shstrndx := member uint16_t 62 bs |};
  to_bytes t :=
    Elf64.e_ident _ t ++ store Little (Elf64.e_type _ t) ++
    store Little (Elf64.e_machine _ t) ++ store Little (Elf64.e_version _ t) ++
    store Little (Elf64.e_entry _ t) ++ store Little (Elf64.e_phoff _ t) ++
    store Little (Elf64.e_shoff _ t) ++ store Little (Elf64.e_flags _ t) ++
    store Little (Elf64.e_ehsize _ t) ++ store Little (Elf64.e_phentsize _ t) ++
    store Little (Elf64.e_phnum _ t) ++ store Little (Elf64.e_shentsize _ t) ++
    store Little (Elf64.e_shnum _ t) ++ store Little (Elf64.e_shstrndx _ t);
  struct_ok t :=
    size (Elf64.e_ident _ t) = 16 /\ endianed_ok (Elf64.e_type _ t) /\
    endianed_ok (Elf64.e_machine _ t) /\ endianed_ok (Elf64.e_version _ t) /\
    endianed_ok (Elf64.e_entry _ t) /\ endianed_ok (Elf64.e_phoff _ t) /\
    endianed_ok (Elf64.e_shoff _ t) /\ endianed_ok (Elf64.e_flags _ t) /\
    endianed_ok (Elf64.e_ehsize _ t) /\ endianed_ok (Elf64.e_phentsize _ t) /\
    endianed_ok (Elf64.e_phnum _ t) /\ endianed_ok (Elf64.e_shentsize _ t) /\
    endianed_ok (Elf64.e_shnum _ t) /\ endianed_ok (Elf64.e_shstrndx _ t)
}.
Solve Obligations with first [intros; cbn; lia | layout_size | layout_from_to | layout_to_from | layout_ok].

#[export] Program Instance Elf32_Phdr_layout E : Layout (Elf32.Elf32_Phdr E) := {
  sizeof_struct := 32;
  from_bytes bs := {|
    Elf32.p_type := member uint32_t 0 bs;
    Elf32.p_offset := member uint32_t 4 bs;
    Elf32.p_vaddr := member uint32_t 8 bs;
    Elf32.p_paddr := member uint32_t 12 bs;
    Elf32.p_filesz := member uint32_t 16 bs;
    Elf32.p_memsz := member uint32_t 20 bs;
    Elf32.p_flags := member uint32_t 24 bs;
    Elf32.p_align := member uint32_t 28 bs |};
  to_bytes t :=
    store Little (Elf32.p_type _ t) ++ store Little (Elf32.p_offset _ t) ++
    store Little (Elf32.p_vaddr _ t) ++ store Little (Elf32.p_paddr _ t) ++
    store Little (Elf32.p_filesz _ t) ++ store Little (Elf32.p_memsz _ t) ++
    store Little (Elf32.p_flags _ t) ++ store Little (Elf32.p_align _ t);
  struct_ok t :=
    endianed_ok (Elf32.p_type _ t) /\ endianed_ok (Elf32.p_offset _ t) /\
    endianed_ok (Elf32.p_vaddr _ t) /\ endianed_ok (Elf32.p_paddr _ t) /\
    endianed_ok (Elf32.p_filesz _ t) /\ endianed_ok (Elf32.p_memsz _ t) /\
    endianed_ok (Elf32.p_flags _ t) /\ endianed_ok (Elf32.p_align _ t)
}.
Solve Obligations with first [intros; cbn; lia | layout_size | layout_from_to | layout_to_from | layout_ok].

#[export] Program Instance Elf64_Phdr_layout E : Layout (Elf64.Elf64_Phdr E) := {
  sizeof_struct := 56;
  from_bytes bs := {|
    Elf64.p_type := member uint32_t 0 bs;
    Elf64.p_flags := member uint32_t 4 bs;
    Elf64.p_offset := member uint64_t 8 bs;
    Elf64.p_vaddr := member uint64_t 16 bs;
    Elf64.p_paddr := member uint64_t 24 bs;
    Elf64.p_filesz := member uint64_t 32 bs;
    Elf64.p_memsz := member uint64_t 40 bs;
    Elf64.p_align := member uint64_t 48 bs |};
  to_bytes t :=
    store Little (Elf64.p_type _ t) ++ store Little (Elf64.p_flags _ t) ++
    store Little (Elf64.p_offset _ t) ++ store Little (Elf64.p_vaddr _ t) ++
    store Little (Elf64.p_paddr _ t) ++ store Little (Elf64.p_filesz _ t) ++
    store Little (Elf64.p_memsz _ t) ++ store Little (Elf64.p_align _ t);
  struct_ok t :=
    endianed_ok (Elf64.p_type _ t) /\ endianed_ok (Elf64.p_flags _ t) /\
    endianed_ok (Elf64.p_offset _ t) /\ endianed_ok (Elf64.p_vaddr _ t) /\
    endianed_ok (Elf64.p_paddr _ t) /\ endianed_ok (Elf64.p_filesz _ t) /\
    endianed_ok (Elf64.p_memsz _ t) /\ endianed_ok (Elf64.p_align _ t)
}.
Solve Obligations with first [intros; cbn; lia | layout_size | layout_from_to | layout_to_from | layout_ok].

#[export] Program Instance Elf32_Shdr_layout E : Layout (Elf32.Elf32_Shdr E) := {
  sizeof_struct := 40;
  from_bytes bs := {|
    Elf32.sh_name := member uint32_t 0 bs;
    Elf32.sh_type := member uint32_t 4 bs;
    Elf32.sh_flags := member uint32_t 8 bs;
    Elf32.sh_addr := member uint32_t 12 bs;
    Elf32.sh_offset := member uint32_t 16 bs;
    Elf32.sh_size := member uint32_t 20 bs;
    Elf32.sh_link := member uint32_t 24 bs;
    Elf32.sh_info := member uint32_t 28 bs;
    Elf32.sh_addralign := member uint32_t 32 bs;
    Elf32.sh_entsize := member uint32_t 36 bs |};
  to_bytes t :=
    store Little (Elf32.sh_name _ t) ++ store Little (Elf32.sh_type _ t) ++
    store Little (Elf32.sh_flags _ t) ++ store Little (Elf32.sh_addr _ t) ++
    store Little (Elf32.sh_offset _ t) ++ store Little (Elf32.sh_size _ t) ++
    store Little (Elf32.sh_link _ t) ++ store Little (Elf32.sh_info _ t) ++
    store Little (Elf32.sh_addralign _ t) ++ store Little (Elf32.sh_entsize _ t);
  struct_ok t :=
    endianed_ok (Elf32.sh_name _ t) /\ endianed_ok (Elf32.sh_type _ t) /\
    endianed_ok (Elf32.sh_flags _ t) /\ endianed_ok (Elf32.sh_addr _ t) /\
    endianed_ok (Elf32.sh_offset _ t) /\ endianed_ok (Elf32.sh_size _ t) /\
    endianed_ok (Elf32.sh_link _ t) /\ endianed_ok (Elf32.sh_info _ t) /\
    endianed_ok (Elf32.sh_addralign _ t) /\ endianed_ok (Elf32.sh_entsize _ t)
}.
Solve Obligations with first [intros; cbn; lia | layout_size | layout_from_to | layout_to_from | layout_ok].

#[export] Program Instance Elf64_Shdr_layout E : Layout (Elf64.Elf64_Shdr E) := {
  sizeof_struct := 64;
  from_bytes bs := {|
    Elf64.sh_name := member uint32_t 0 bs;
    Elf64.sh_type := member uint32_t 4 bs;
    Elf64.sh_flags := member uint64_t 8 bs;
    Elf64.sh_addr := member uint64_t 16 bs;
    Elf64.sh_offset := member uint64_t 24 bs;
    Elf64.sh_size := member uint64_t 32 bs;
    Elf64.sh_link := member uint32_t 40 bs;
    Elf64.sh_info := member uint32_t 44 bs;
    Elf64.sh_addralign := member uint64_t 48 bs;
    Elf64.sh_entsize := member uint64_t 56 bs |};
  to_bytes t :=
    store Little (Elf64.sh_name _ t) ++ store Little (Elf64.sh_type _ t) ++
    store Little (Elf64.sh_flags _ t) ++ store Little (Elf64.sh_addr _ t) ++
    store Little (Elf64.sh_offset _ t) ++ store Little (Elf64.sh_size _ t) ++
    store Little (Elf64.sh_link _ t) ++ store Little (Elf64.sh_info _ t) ++
    store Little (Elf64.sh_addralign _ t) ++ store Little (Elf64.sh_entsize _ t);
  struct_ok t :=
    endianed_ok (Elf64.sh_name _ t) /\ endianed_ok (Elf64.sh_type _ t) /\
    endianed_ok (Elf64.sh_flags _ t) /\ endianed_ok (Elf64.sh_addr _ t) /\
    endianed_ok (Elf64.sh_offset _ t) /\ endianed_ok (Elf64.sh_size _ t) /\
    endianed_ok (Elf64.sh_link _ t) /\ endianed_ok (Elf64.sh_info _ t) /\
    endianed_ok (Elf64.sh_addralign _ t) /\ endianed_ok (Elf64.sh_entsize _ t)
}.
Solve Obligations with first [intros; cbn; lia | layout_size | layout_from_to | layout_to_from | layout_ok].

(** ** The interface of [ElfFile<Is64, E>] to its structures *)

(** The values of the members, as read through [operator T()]. *)
Record EhdrFields := mkEhdrFields {
  e_ident : list byte;
  e_type : Z;
  e_machine : Z;
  e_version : Z;
  e_entry : Z;
  e_phoff : Z;
  e_shoff : Z;
  e_flags : Z;
  e_ehsize : Z;
  e_phentsize : Z;
  e_phnum : Z;
  e_shentsize : Z;
  e_shnum : Z;
  e_shstrndx : Z
}.

Record PhdrFields := mkPhdrFields {
  p_type : Z;
  p_flags : Z;
  p_offset : Z;
  p_vaddr : Z;
  p_paddr : Z;
  p_filesz : Z;
  p_memsz : Z;
  p_align : Z
}.

Definition with_entry (v : Z) (f : EhdrFields) : EhdrFields :=
  mkEhdrFields (e_ident f) (e_type f) (e_machine f) (e_version f) v (e_phoff f)
    (e_shoff f) (e_flags f) (e_ehsize f) (e_phentsize f) (e_phnum f) (e_shentsize f)
    (e_shnum f) (e_shstrndx f).

Definition with_phoff (v : Z) (f : EhdrFields) : EhdrFields :=
  mkEhdrFields (e_ident f) (e_type f) (e_machine f) (e_version f) (e_entry f) v
    (e_shoff f) (e_flags f) (e_ehsize f) (e_phentsize f) (e_phnum f) (e_shentsize f)
    (e_shnum f) (e_shstrndx f).

Definition with_phnum (v : Z) (f : EhdrFields) : EhdrFields :=
  mkEhdrFields (e_ident f) (e_type f) (e_machine f) (e_version f) (e_entry f) (e_phoff f)
    (e_shoff f) (e_flags f) (e_ehsize f) (e_phentsize f) v (e_shentsize f)
    (e_shnum f) (e_shstrndx f).

(** The ranges of the members of a header whose addresses are [A]. *)
Record ehdr_range (A : uint_t) (f : EhdrFields) : Prop := {
  e_ident_size : size (e_ident f) = 16;
  e_entry_range : 0 <= e_entry f < 256 ^ Z.of_nat (sizeof A);
  e_phoff_range : 0 <= e_phoff f < 256 ^ Z.of_nat (sizeof A);
  e_shoff_range : 0 <= e_shoff f < 256 ^ Z.of_nat (sizeof A);
  e_phnum_range : 0 <= e_phnum f < 2 ^ 16;
  e_shnum_range : 0 <= e_shnum f < 2 ^ 16;
  e_shstrndx_range : 0 <= e_shstrndx f < 2 ^ 16
}.

Record phdr_range (A : uint_t) (f : PhdrFields) : Prop := {
  p_type_range : 0 <= p_type f < 2 ^ 32;
  p_flags_range : 0 <= p_flags f < 2 ^ 32;
  p_offset_range : 0 <= p_offset f < 256 ^ Z.of_nat (sizeof A);
  p_vaddr_range : 0 <= p_vaddr f < 256 ^ Z.of_nat (sizeof A);
  p_filesz_range : 0 <= p_filesz f < 256 ^ Z.of_nat (sizeof A);
  p_memsz_range : 0 <= p_memsz f < 256 ^ Z.of_nat (sizeof A)
}.

(** The conversions of the assignments to the members of a program header. *)
Definition convert_phdr (A : uint_t) (f : PhdrFields) : PhdrFields :=
  mkPhdrFields (u32 (p_type f)) (u32 (p_flags f)) (convert A (p_offset f))
    (convert A (p_vaddr f)) (convert A (p_paddr f)) (convert A (p_filesz f))
    (convert A (p_memsz f)) (convert A (p_align f)).

Class ElfClass (Is64 : bool) (E : Endian) := {
  Ehdr : Type;
  Phdr : Type;
  Shdr : Type;
  Ehdr_layout :: Layout Ehdr;
  Phdr_layout :: Layout Phdr;
  Shdr_layout :: Layout Shdr;
  addr_t : uint_t;
  ehdr : Ehdr -> EhdrFields;
  phdr : Phdr -> PhdrFields;
  set_e_entry : Z -> Ehdr -> Ehdr;
  set_e_phoff : Z -> Ehdr -> Ehdr;
  set_e_phnum : Z -> Ehdr -> Ehdr;
  make_phdr : PhdrFields -> Phdr;
  ehdr_fields_range : forall h, struct_ok h -> ehdr_range addr_t (ehdr h);
  phdr_fields_range : forall p, struct_ok p -> phdr_range addr_t (phdr p);
  ehdr_ident_bytes : forall bs, e_ident (ehdr (from_bytes bs)) = slice 0 16 bs;
  ehdr_set_entry : forall v h, ehdr (set_e_entry v h) = with_entry (convert addr_t v) (ehdr h);
  ehdr_set_phoff : forall v h, ehdr (set_e_phoff v h) = with_phoff (convert addr_t v) (ehdr h);
  ehdr_set_phnum : forall v h, ehdr (set_e_phnum v h) = with_phnum (u16 v) (ehdr h);
  set_entry_ok : forall v h, struct_ok h -> struct_ok (set_e_entry v h);
  set_phoff_ok : forall v h, struct_ok h -> struct_ok (set_e_phoff v h);
  set_phnum_ok : forall v h, struct_ok h -> struct_ok (set_e_phnum v h);
  make_phdr_ok : forall f, struct_ok (make_phdr f);
  phdr_make_phdr : forall f, phdr (make_phdr f) = convert_phdr addr_t f
}.

Ltac elf_class :=
  intros; repeat match goal with h : Elf32.Elf32_Ehdr _ |- _ => destruct h
                            | h : Elf64.Elf64_Ehdr _ |- _ => destruct h end;
  cbn in *; destruct_and?;
  repeat match goal with
  | |- _ /\ _ => split
  | |- ehdr_range _ _ => constructor; cbn
  | |- phdr_range _ _ => constructor; cbn
  end;
  first [ assumption | apply assign_ok
        | match goal with
          | |- context [get ?e] => pose proof (get_range e ltac:(assumption)); cbn [sizeof] in *; lia
          end
        | rewrite ?get_assign; reflexivity ].

#[export] Program Instance Elf32_class E : ElfClass false E := {
  Ehdr := Elf32.Elf32_Ehdr E;
  Phdr := Elf32.Elf32_Phdr E;
  Shdr := Elf32.Elf32_Shdr E;
  addr_t := uint32_t;
  ehdr h := {|
    e_ident := Elf32.e_ident _ h;
    e_type := get (Elf32.e_type _ h);
    e_machine := get (Elf32.e_machine _ h);
    e_version := get (Elf32.e_version _ h);
    e_entry := get (Elf32.e_entry _ h);
    e_phoff := get (Elf32.e_phoff _ h);
    e_shoff := get (Elf32.e_shoff _ h);
    e_flags := get (Elf32.e_flags _ h);
    e_ehsize := get (Elf32.e_ehsize _ h);
    e_phentsize := get (Elf32.e_phentsize _ h);
    e_phnum := get (Elf32.e_phnum _ h);
    e_shentsize := get (Elf32.e_shentsize _ h);
    e_shnum := get (Elf32.e_shnum _ h);
    e_shstrndx := get (Elf32.e_shstrndx _ h) |};
  phdr p := {|
    p_type := get (Elf32.p_type _ p);
    p_flags := get (Elf32.p_flags _ p);
    p_offset := get (Elf32.p_offset _ p);
    p_vaddr := get (Elf32.p_vaddr _ p);
    p_paddr := get (Elf32.p_paddr _ p);
    p_filesz := get (Elf32.p_filesz _ p);
    p_memsz := get (Elf32.p_memsz _ p);
    p_align := get (Elf32.p_align _ p) |};
  set_e_entry v h := {|
    Elf32.e_ident := Elf32.e_ident _ h;
    Elf32.e_type := Elf32.e_type _ h;
    Elf32.e_machine := Elf32.e_machine _ h;
    Elf32.e_version := Elf32.e_version _ h;
    Elf32.e_entry := assign v;
    Elf32.e_phoff := Elf32.e_phoff _ h;
    Elf32.e_shoff := Elf32.e_shoff _ h;
    Elf32.e_flags := Elf32.e_flags _ h;
    Elf32.e_ehsize := Elf32.e_ehsize _ h;
    Elf32.e_phentsize := Elf32.e_phentsize _ h;
    Elf32.e_phnum := Elf32.e_phnum _ h;
    Elf32.e_shentsize := Elf32.e_shentsize _ h;
    Elf32.e_shnum := Elf32.e_shnum _ h;
    Elf32.e_shstrndx := Elf32.e_shstrndx _ h |};
  set_e_phoff v h := {|
    Elf32.e_ident := Elf32.e_ident _ h;
    Elf32.e_type := Elf32.e_type _ h;
    Elf32.e_machine := Elf32.e_machine _ h;
    Elf32.e_version := Elf32.e_version _ h;
    Elf32.e_entry := Elf32.e_entry _ h;
    Elf32.e_phoff := assign v;
    Elf32.e_shoff := Elf32.e_shoff _ h;
    Elf32.e_flags := Elf32.e_flags _ h;
    Elf32.e_ehsize := Elf32.e_ehsize _ h;
    Elf32.e_phentsize := Elf32.e_phentsize _ h;
    Elf32.e_phnum := Elf32.e_phnum _ h;
    Elf32.e_shentsize := Elf32.e_shentsize _ h;
    Elf32.e_shnum := Elf32.e_shnum _ h;
    Elf32.e_shstrndx := Elf32.e_shstrndx _ h |};
  set_e_phnum v h := {|
    Elf32.e_ident := Elf32.e_ident _ h;
    Elf32.e_type := Elf32.e_type _ h;
    Elf32.e_machine := Elf32.e_machine _ h;
    Elf32.e_version := Elf32.e_version _ h;
    Elf32.e_entry := Elf32.e_entry _ h;
    Elf32.e_phoff := Elf32.e_phoff _ h;
    Elf32.e_shoff := Elf32.e_shoff _ h;
    Elf32.e_flags := Elf32.e_flags _ h;
    Elf32.e_ehsize := Elf32.e_ehsize _ h;
    Elf32.e_phentsize := Elf32.e_phentsize _ h;
    Elf32.e_phnum := assign v;
    Elf32.e_shentsize := Elf32.e_shentsize _ h;
    Elf32.e_shnum := Elf32.e_shnum _ h;
    Elf32.e_shstrndx := Elf32.e_shstrndx _ h |};
  make_phdr f := {|
    Elf32.p_type := assign (p_type f);
    Elf32.p_offset := assign (p_offset f);
    Elf32.p_vaddr := assign (p_vaddr f);
    Elf32.p_paddr := assign (p_paddr f);
    Elf32.p_filesz := assign (p_filesz f);
    Elf32.p_memsz := assign (p_memsz f);
    Elf32.p_flags := assign (p_flags f);
    Elf32.p_align := assign (p_align f) |}
}.
Solve Obligations with elf_class.

#[export] Program Instance Elf64_class E : ElfClass true E := {
  Ehdr := Elf64.Elf64_Ehdr E;
  Phdr := Elf64.Elf64_Phdr E;
  Shdr := Elf64.Elf64_Shdr E;
  addr_t := uint64_t;
  ehdr h := {|
    e_ident := Elf64.e_ident _ h;
    e_type := get (Elf64.e_type _ h);
    e_machine := get (Elf64.e_machine _ h);
    e_version := get (Elf64.e_version _ h);
    e_entry := get (Elf64.e_entry _ h);
    e_phoff := get (Elf64.e_phoff _ h);
    e_shoff := get (Elf64.e_shoff _ h);
    e_flags := get (Elf64.e_flags _ h);
    e_ehsize := get (Elf64.e_ehsize _ h);
    e_phentsize := get (Elf64.e_phentsize _ h);
    e_phnum := get (Elf64.e_phnum _ h);
    e_shentsize := get (Elf64.e_shentsize _ h);
    e_shnum := get (Elf64.e_shnum _ h);
    e_shstrndx := get (Elf64.e_shstrndx _ h) |};
  phdr p := {|
    p_type := get (Elf64.p_type _ p);
    p_flags := get (Elf64.p_flags _ p);
    p_offset := get (Elf64.p_offset _ p);
    p_vaddr := get (Elf64.p_vaddr _ p);
    p_paddr := get (Elf64.p_paddr _ p);
    p_filesz := get (Elf64.p_filesz _ p);
    p_memsz := get (Elf64.p_memsz _ p);
    p_align := get (Elf64.p_align _ p) |};
  set_e_entry v h := {|
    Elf64.e_ident := Elf64.e_ident _ h;
    Elf64.e_type := Elf64.e_type _ h;
    Elf64.e_machine := Elf64.e_machine _ h;
    Elf64.e_version := Elf64.e_version _ h;
    Elf64.e_entry := assign v;
    Elf64.e_phoff := Elf64.e_phoff _ h;
    Elf64.e_shoff := Elf64.e_shoff _ h;
    Elf64.e_flags := Elf64.e_flags _ h;
    Elf64.e_ehsize := Elf64.e_ehsize _ h;
    Elf64.e_phentsize := Elf64.e_phentsize _ h;
    Elf64.e_phnum := Elf64.e_phnum _ h;
    Elf64.e_shentsize := Elf64.e_shentsize _ h;
    Elf64.e_shnum := Elf64.e_shnum _ h;
    Elf64.e_shstrndx := Elf64.e_shstrndx _ h |};
  set_e_phoff v h := {|
    Elf64.e_ident := Elf64.e_ident _ h;
    Elf64.e_type := Elf64.e_type _ h;
    Elf64.e_machine := Elf64.e_machine _ h;
    Elf64.e_version := Elf64.e_version _ h;
    Elf64.e_entry := Elf64.e_entry _ h;
    Elf64.e_phoff := assign v;
    Elf64.e_shoff := Elf64.e_shoff _ h;
    Elf64.e_flags := Elf64.e_flags _ h;
    Elf64.e_ehsize := Elf64.e_ehsize _ h;
    Elf64.e_phentsize := Elf64.e_phentsize _ h;
    Elf64.e_phnum := Elf64.e_phnum _ h;
    Elf64.e_shentsize := Elf64.e_shentsize _ h;
    Elf64.e_shnum := Elf64.e_shnum _ h;
    Elf64.e_shstrndx := Elf64.e_shstrndx _ h |};
  set_e_phnum v h := {|
    Elf64.e_ident := Elf64.e_ident _ h;
    Elf64.e_type := Elf64.e_type _ h;
    Elf64.e_machine := Elf64.e_machine _ h;
    Elf64.e_version := Elf64.e_version _ h;
    Elf64.e_entry := Elf64.e_entry _ h;
    Elf64.e_phoff := Elf64.e_phoff _ h;
    Elf64.e_shoff := Elf64.e_shoff _ h;
    Elf64.e_flags := Elf64.e_flags _ h;
    Elf64.e_ehsize := Elf64.e_ehsize _ h;
    Elf64.e_phentsize := Elf64.e_phentsize _ h;
    Elf64.e_phnum := assign v;
    Elf64.e_shentsize := Elf64.e_shentsize _ h;
    Elf64.e_shnum := Elf64.e_shnum _ h;
    Elf64.e_shstrndx := Elf64.e_shstrndx _ h |};
  make_phdr f := {|
    Elf64.p_type := assign (p_type f);
    Elf64.p_flags := assign (p_flags f);
    Elf64.p_offset := assign (p_offset f);
    Elf64.p_vaddr := assign (p_vaddr f);
    Elf64.p_paddr := assign (p_paddr f);
    Elf64.p_filesz := assign (p_filesz f);
    Elf64.p_memsz := assign (p_memsz f);
    Elf64.p_align := assign (p_align f) |}
}.
Solve Obligations with elf_class.

(** ** The compile-time checks *)

Definition static_asserts : bool :=
  (sizeof_struct (Elf32.Elf32_Ehdr Little) =? 52) &&
  (sizeof_struct (Elf32.Elf32_Phdr Little) =? 32) &&
  (sizeof_struct (Elf32.Elf32_Shdr Little) =? 40) &&
  (sizeof_struct (Elf64.Elf64_Ehdr Little) =? 64) &&
  (sizeof_struct (Elf64.Elf64_Phdr Little) =? 56) &&
  (sizeof_struct (Elf64.Elf64_Shdr Little) =? 64).

Lemma static_asserts_hold : static_asserts = true.
Proof. reflexivity. Qed.
