(* ===== verification/ElfLayout.v ===== *)
(** * The layout of a structure by the rules of the language

    types.hpp relies on the compiler to place the members of its structures
    where the ELF specification has the fields.  Here is where a compiler with
    natural alignment places them, computed from the members in the order of
    their declaration ([offsets], [c_sizeof]), and the six structures compared
    with it ([laid_out]): the offsets of [ElfTypes.from_bytes] and the order of
    [to_bytes] are these, in the byte order of the file and with no padding. *)

From S2P Require Import Prelude.
From S2P Require Import EndianInt.
From S2P Require Import ElfTypes.

(** ** Offsets, alignment and size *)

(** The next multiple of [n]. *)
Definition round_up (pos n : Z) : Z := pos + - pos mod n.

(** A member is aligned to its own size. *)
Fixpoint offsets (pos : Z) (Ts : list uint_t) : list Z :=
  match Ts with
  | [] => []
  | T :: Ts' =>
      let n := Z.of_nat (sizeof T) in
      let o := round_up pos n in
      o :: offsets (o + n) Ts'
  end.

Fixpoint stop (pos : Z) (Ts : list uint_t) : Z :=
  match Ts with
  | [] => pos
  | T :: Ts' => let n := Z.of_nat (sizeof T) in stop (round_up pos n + n) Ts'
  end.

Definition alignment (Ts : list uint_t) : Z :=
  foldr (fun T a => Z.max (Z.of_nat (sizeof T)) a) 1 Ts.

(** The size of a structure that starts with [lead] characters. *)
Definition c_sizeof (lead : Z) (Ts : list uint_t) : Z :=
  round_up (stop lead Ts) (alignment Ts).

(** The integers found there, in the byte order [E]. *)
Definition c_fields (E : Endian) (lead : Z) (Ts : list uint_t) (bs : list byte) : list Z :=
  zip_with (fun o T => value_of E (slice o (Z.of_nat (sizeof T)) bs)) (offsets lead Ts) Ts.

Lemma round_up_spec pos n :
  0 < n -> pos <= round_up pos n < pos + n /\ round_up pos n mod n = 0.
Proof.
  intros Hn. unfold round_up. pose proof (Z.mod_pos_bound (- pos) n Hn).
  split; [lia|]. rewrite Zplus_mod_idemp_r, Z.add_opp_diag_r. reflexivity.
Qed.

(** ** Structures as lists of members *)

Section members.
Context {E : Endian}.

Definition slot : Type := {T : uint_t & Endianed T E}.
Definition slot_type (x : slot) : uint_t := projT1 x.
Definition slot_value (x : slot) : Z := get (projT2 x).
Definition slot_bytes (x : slot) : list byte := bytes_of E (sizeof (slot_type x)) (slot_value x).

(** The characters a structure starts with and its members in the order they
    are declared. *)
Class Declared (S : Type) := {
  lead_size : Z;
  lead : S -> list byte;
  slots : S -> list slot
}.

(** The structure has [n] bytes; a copy of the file's bytes has the integers at
    the offsets of the language as its members; and its own bytes are those of
    its members, one after the other. *)
Definition laid_out (S : Type) `{Layout S} `{Declared S} (n : Z) : Prop :=
  sizeof_struct S = n /\
  (forall bs, size bs = n ->
     let t : S := from_bytes bs in
     let Ts := slot_type <$> slots t in
     c_sizeof lead_size Ts = n /\
     lead t = slice 0 lead_size bs /\
     slot_value <$> slots t = c_fields E lead_size Ts bs) /\
  (forall t : S, struct_ok t -> to_bytes t = lead t ++ concat (slot_bytes <$> slots t)).

Lemma store_bytes T (e : Endianed T E) :
  endianed_ok e -> store Little e = bytes_of E (sizeof T) (get e).
Proof.
  intros H. rewrite <- store_set by (apply get_range; exact H). rewrite set_get by exact H. reflexivity.
Qed.
End members.
Arguments slot E : clear implicits.
Arguments Declared E S : clear implicits.
Arguments lead_size E S {Declared}.
Arguments laid_out E S {_ _} n.

(** ** The six structures *)

#[export] Instance Elf32_Ehdr_declared E : Declared E (Elf32.Elf32_Ehdr E) := {
  lead_size := 16;
  lead t := Elf32.e_ident _ t;
  slots t :=
    [existT _ (Elf32.e_type _ t); existT _ (Elf32.e_machine _ t);
     existT _ (Elf32.e_version _ t); existT _ (Elf32.e_entry _ t); existT _ (Elf32.e_phoff _ t);
     existT _ (Elf32.e_shoff _ t); existT _ (Elf32.e_flags _ t); existT _ (Elf32.e_ehsize _ t);
     existT _ (Elf32.e_phentsize _ t); existT _ (Elf32.e_phnum _ t);
     existT _ (Elf32.e_shentsize _ t); existT _ (Elf32.e_shnum _ t);
     existT _ (Elf32.e_shstrndx _ t)]
}.

#[export] Instance Elf64_Ehdr_declared E : Declared E (Elf64.Elf64_Ehdr E) := {
  lead_size := 16;
  lead t := Elf64.e_ident _ t;
  slots t :=
    [existT _ (Elf64.e_type _ t); existT _ (Elf64.e_machine _ t);
     existT _ (Elf64.e_version _ t); existT _ (Elf64.e_entry _ t); existT _ (Elf64.e_phoff _ t);
     existT _ (Elf64.e_shoff _ t); existT _ (Elf64.e_flags _ t); existT _ (Elf64.e_ehsize _ t);
     existT _ (Elf64.e_phentsize _ t); existT _ (Elf64.e_phnum _ t);
     existT _ (Elf64.e_shentsize _ t); existT _ (Elf64.e_shnum _ t);
     existT _ (Elf64.e_shstrndx _ t)]
}.

#[export] Instance Elf32_Phdr_declared E : Declared E (Elf32.Elf32_Phdr E) := {
  lead_size := 0;
  lead t := [];
  slots t :=
    [existT _ (Elf32.p_type _ t); existT _ (Elf32.p_offset _ t); existT _ (Elf32.p_vaddr _ t);
     existT _ (Elf32.p_paddr _ t); existT _ (Elf32.p_filesz _ t); existT _ (Elf32.p_memsz _ t);
     existT _ (Elf32.p_flags _ t); existT _ (Elf32.p_align _ t)]
}.

#[export] Instance Elf64_Phdr_declared E : Declared E (Elf64.Elf64_Phdr E) := {
  lead_size := 0;
  lead t := [];
  slots t :=
    [existT _ (Elf64.p_type _ t); existT _ (Elf64.p_flags _ t); existT _ (Elf64.p_offset _ t);
     existT _ (Elf64.p_vaddr _ t); existT _ (Elf64.p_paddr _ t); existT _ (Elf64.p_filesz _ t);
     existT _ (Elf64.p_memsz _ t); existT _ (Elf64.p_align _ t)]
}.

#[export] Instance Elf32_Shdr_declared E : Declared E (Elf32.Elf32_Shdr E) := {
  lead_size := 0;
  lead t := [];
  slots t :=
    [existT _ (Elf32.sh_name _ t); existT _ (Elf32.sh_type _ t); existT _ (Elf32.sh_flags _ t);
     existT _ (Elf32.sh_addr _ t); existT _ (Elf32.sh_offset _ t); existT _ (Elf32.sh_size _ t);
     existT _ (Elf32.sh_link _ t); existT _ (Elf32.sh_info _ t);
     existT _ (Elf32.sh_addralign _ t); existT _ (Elf32.sh_entsize _ t)]
}.

#[export] Instance Elf64_Shdr_declared E : Declared E (Elf64.Elf64_Shdr E) := {
  lead_size := 0;
  lead t := [];
  slots t :=
    [existT _ (Elf64.sh_name _ t); existT _ (Elf64.sh_type _ t); existT _ (Elf64.sh_flags _ t);
     existT _ (Elf64.sh_addr _ t); existT _ (Elf64.sh_offset _ t); existT _ (Elf64.sh_size _ t);
     existT _ (Elf64.sh_link _ t); existT _ (Elf64.sh_info _ t);
     existT _ (Elf64.sh_addralign _ t); existT _ (Elf64.sh_entsize _ t)]
}.

(** A structure read member by member, and written member by member. *)
Ltac by_members :=
  split; [reflexivity|]; split;
  [ intros bs Hbs; cbv zeta; split; [reflexivity|split; [reflexivity|]];
    cbn; unfold slot_value, slot_type; cbn [projT1 projT2];
    rewrite !get_member by (cbn [sizeof]; lia); reflexivity
  | intros t Ht; destruct t; cbn in *; destruct_and? Ht;
    unfold slot_bytes, slot_value, slot_type; cbn [projT1 projT2];
    rewrite <- !store_bytes by assumption; rewrite ?app_nil_r; reflexivity ].

Section structures.
Context (E : Endian).

Lemma Elf32_Ehdr_laid_out : laid_out E (Elf32.Elf32_Ehdr E) 52.
Proof. by_members. Qed.

Lemma Elf64_Ehdr_laid_out : laid_out E (Elf64.Elf64_Ehdr E) 64.
Proof. by_members. Qed.

Lemma Elf32_Phdr_laid_out : laid_out E (Elf32.Elf32_Phdr E) 32.
Proof. by_members. Qed.

Lemma Elf64_Phdr_laid_out : laid_out E (Elf64.Elf64_Phdr E) 56.
Proof. by_members. Qed.

Lemma Elf32_Shdr_laid_out : laid_out E (Elf32.Elf32_Shdr E) 40.
Proof. by_members. Qed.

Lemma Elf64_Shdr_laid_out : laid_out E (Elf64.Elf64_Shdr E) 64.
Proof. by_members. Qed.
End structures.

#[export] Hint Resolve Elf32_Ehdr_laid_out Elf64_Ehdr_laid_out Elf32_Phdr_laid_out
  Elf64_Phdr_laid_out Elf32_Shdr_laid_out Elf64_Shdr_laid_out : elf.

(** ** The order of the fields in the file *)

Definition ehdr_values (h : EhdrFields) : list Z :=
  [e_type h; e_machine h; e_version h; e_entry h; e_phoff h; e_shoff h; e_flags h; e_ehsize h;
   e_phentsize h; e_phnum h; e_shentsize h; e_shnum h; e_shstrndx h].

(** The flags follow the type in the 64-bit form and the sizes in the 32-bit one. *)
Definition phdr_values (Is64 : bool) (p : PhdrFields) : list Z :=
  if Is64
  then [p_type p; p_flags p; p_offset p; p_vaddr p; p_paddr p; p_filesz p; p_memsz p; p_align p]
  else [p_type p; p_offset p; p_vaddr p; p_paddr p; p_filesz p; p_memsz p; p_flags p; p_align p].
