(* ===== verification/PpcEncode.v ===== *)
(** * Instruction encoders: ppc/include/ppc/encode.hpp

    Every encoder returns a 32-bit word as a [Z]; [uint32_t] shifts are
    [shl32], [int32_t] division and remainder are [Z.quot] and [Z.rem].  The
    encoders that may throw [std::invalid_argument] return [exc].  The lemmas
    give each word as a sum of disjoint fields, the form every later proof
    uses. *)

From S2P Require Import Prelude.
From S2P Require Import Errors.

Abbreviation Instruction := Z.

Definition SPR_LR : Z := 8.
Definition SPR_CTR : Z := 9.

(** ** Fields *)

Definition bits (value width : Z) : Z :=
  Z.land value (if 32 <=? width then 0xFFFFFFFF else u32 (shl32 1 width - 1)).

Definition encodeSprField (sprNumber : Z) : Z :=
  let lo5 := Z.land sprNumber 0x1F in
  let hi5 := Z.land (Z.shiftr sprNumber 5) 0x1F in
  Z.lor (shl32 lo5 5) hi5.

(** ** D-form and XFX-form instructions *)

Definition encodeAddi (rd ra simm : Z) : Instruction :=
  Z.lor (Z.lor (Z.lor (shl32 (bits 14 6) 26) (shl32 (bits rd 5) 21)) (shl32 (bits ra 5) 16))
    (bits (u16 simm) 16).

Definition encodeLi (rd simm : Z) : Instruction := encodeAddi rd 0 simm.

Definition encodeAddis (rd ra simm : Z) : Instruction :=
  Z.lor (Z.lor (Z.lor (shl32 (bits 15 6) 26) (shl32 (bits rd 5) 21)) (shl32 (bits ra 5) 16))
    (bits (u16 simm) 16).

Definition encodeLis (rd simm : Z) : Instruction := encodeAddis rd 0 simm.

Definition encodeOri (ra rs uimm : Z) : Instruction :=
  Z.lor (Z.lor (Z.lor (shl32 (bits 24 6) 26) (shl32 (bits rs 5) 21)) (shl32 (bits ra 5) 16))
    (bits uimm 16).

Definition encodeMtspr (rs sprNumber : Z) : Instruction :=
  Z.lor (Z.lor (Z.lor (shl32 (bits 31 6) 26) (shl32 (bits rs 5) 21))
    (shl32 (bits (encodeSprField sprNumber) 10) 11)) (shl32 (bits 467 10) 1).

Definition encodeMfspr (rt sprNumber : Z) : Instruction :=
  Z.lor (Z.lor (Z.lor (shl32 (bits 31 6) 26) (shl32 (bits rt 5) 21))
    (shl32 (bits (encodeSprField sprNumber) 10) 11)) (shl32 (bits 339 10) 1).

Definition encodeMtlr (rs : Z) : Instruction := encodeMtspr rs SPR_LR.
Definition encodeMflr (rt : Z) : Instruction := encodeMfspr rt SPR_LR.
Definition encodeMtctrSpr (rs : Z) : Instruction := encodeMtspr rs SPR_CTR.
Definition encodeMfctr (rt : Z) : Instruction := encodeMfspr rt SPR_CTR.

(** ** DS-form instructions *)

Definition encodeStdForm (primaryOpcode xo rsOrRt ra d : Z) : exc Instruction :=
  if negb (Z.rem d 4 =? 0) then Throw "std/ld displacement must be a multiple of 4"
  else
    let kMax := (Z.shiftl 1 13 - 1) * 4 in
    let kMin := - Z.shiftl 1 13 * 4 in
    if (kMax <? d) || (d <? kMin)
    then Throw "std/ld displacement out of range for the 14-bit DS field"
    else
      let ds14 := bits (u32 (Z.quot d 4)) 14 in
      Ret (Z.lor (Z.lor (Z.lor (Z.lor (shl32 (bits primaryOpcode 6) 26)
        (shl32 (bits rsOrRt 5) 21)) (shl32 (bits ra 5) 16)) (shl32 ds14 2)) (bits xo 2)).

Definition encodeStd (rs ra d : Z) : exc Instruction := encodeStdForm 62 0 rs ra d.
Definition encodeStdu (rs ra d : Z) : exc Instruction := encodeStdForm 62 1 rs ra d.
Definition encodeLd (rt ra d : Z) : exc Instruction := encodeStdForm 58 0 rt ra d.
Definition encodeLdu (rt ra d : Z) : exc Instruction := encodeStdForm 58 1 rt ra d.

(** ** MD-form and XL-form instructions *)

Definition encodeRldicl (ra rs sh6 mb6 : Z) (rc : bool) : Instruction :=
  let shLo5 := Z.land sh6 0x1F in
  let shHi1 := Z.land (Z.shiftr sh6 5) 0x1 in
  Z.lor (Z.lor (Z.lor (Z.lor (Z.lor (Z.lor (Z.lor (shl32 (bits 30 6) 26) (shl32 (bits rs 5) 21))
    (shl32 (bits ra 5) 16)) (shl32 (bits shLo5 5) 11)) (shl32 (bits mb6 6) 5))
    (shl32 (bits 0 3) 2)) (shl32 (bits shHi1 1) 1)) (if rc then 1 else 0).

Definition encodeClrldi (ra rs n : Z) : Instruction := encodeRldicl ra rs 0 n false.

Definition encodeMtctr (rs : Z) : Instruction := encodeMtspr rs SPR_CTR.

Definition encodeBctr : Instruction :=
  let BO_ALWAYS := 20 in
  Z.lor (Z.lor (Z.lor (Z.lor (shl32 (bits 19 6) 26) (shl32 (bits BO_ALWAYS 5) 21))
    (shl32 (bits 0 5) 16)) (shl32 (bits 0 5) 11)) (shl32 (bits 528 10) 1).

(** ** I-form and B-form branches *)

Definition encodeBranch (target : Z) (absolute link : bool) : exc Instruction :=
  if negb (Z.rem target 4 =? 0) then Throw "branch target must be 4-byte aligned"
  else
    let kMaxBytes := Z.shiftl 1 25 - 4 in
    let kMinBytes := - Z.shiftl 1 25 in
    if (kMaxBytes <? target) || (target <? kMinBytes)
    then Throw "branch target out of range for a direct b/ba instruction"
    else
      let li := Z.land (bits (u32 target) 26) 0xFFFFFFFC in
      Ret (Z.lor (Z.lor (Z.lor (shl32 (bits 18 6) 26) li) (if absolute then 2 else 0))
        (if link then 1 else 0)).

Definition encodeBranchConditional (bo bi target : Z) (absolute link : bool) : exc Instruction :=
  if negb (Z.rem target 4 =? 0) then Throw "branch target must be 4-byte aligned"
  else
    let kMaxBytes := Z.shiftl 1 15 - 4 in
    let kMinBytes := - Z.shiftl 1 15 in
    if (kMaxBytes <? target) || (target <? kMinBytes)
    then Throw "branch target out of range for a bc/bca instruction's 14-bit BD field"
    else
      let bd := Z.land (bits (u32 target) 16) 0xFFFC in
      Ret (Z.lor (Z.lor (Z.lor (Z.lor (Z.lor (shl32 (bits 16 6) 26) (shl32 (bits bo 5) 21))
        (shl32 (bits bi 5) 16)) bd) (if absolute then 2 else 0)) (if link then 1 else 0)).

(** ** Instruction sequences *)

Definition loadImmediate32 (reg value : Z) : list Instruction :=
  let hi := i16 (Z.land (Z.shiftr value 16) 0xFFFF) in
  let lo := u16 (Z.land value 0xFFFF) in
  [encodeLis reg hi; encodeOri reg reg lo; encodeClrldi reg reg 32].

Definition makeAbsoluteJump (targetAddress scratchReg : Z) : list Instruction :=
  loadImmediate32 scratchReg targetAddress ++ [encodeMtctr scratchReg; encodeBctr].

(** ** Words as sums of fields *)

Lemma bits_mod value width : 0 <= width <= 31 -> bits value width = value mod 2 ^ width.
Proof.
  intros H. unfold bits, shl32.
  replace (32 <=? width) with false by lia.
  rewrite Z.shiftl_1_l.
  assert (2 ^ width <= 2 ^ 31) by (apply Z.pow_le_mono_r; lia).
  assert (0 < 2 ^ width) by lia.
  rewrite (u32_small (2 ^ width)), u32_small by lia. apply land_low; lia.
Qed.

Lemma shl32_bits value width n :
  0 <= width <= 31 -> 0 <= n -> width + n <= 32 ->
  shl32 (bits value width) n = (value mod 2 ^ width) * 2 ^ n.
Proof.
  intros Hw Hn Hs. rewrite bits_mod by lia. unfold shl32.
  rewrite Z.shiftl_mul_pow2 by lia. apply u32_small.
  pose proof (Z.mod_pos_bound value (2 ^ width)).
  assert (2 ^ width * 2 ^ n <= 2 ^ 32) by (rewrite <- Z.pow_add_r by lia; apply Z.pow_le_mono_r; lia).
  nia.
Qed.

(** Disjoint fields: [n] is the position of the lowest bit of [a]. *)
Ltac fields_at n :=
  match goal with
  | |- context [Z.lor ?a ?b] =>
      lazymatch a with
      | context [Z.lor _ _] => fail
      | _ => rewrite (lor_disjoint_add n a b) by (Z.div_mod_to_equations; lia)
      end
  end.

(** Normalise the fields, then add them from the left, at the given positions. *)
Ltac field_values := rewrite ?shl32_bits, ?bits_mod by lia.

Lemma encodeSprField_sum spr :
  encodeSprField spr = spr mod 2 ^ 5 * 2 ^ 5 + spr / 2 ^ 5 mod 2 ^ 5.
Proof.
  unfold encodeSprField, shl32.
  rewrite !(land_low 5) by lia. rewrite Z.shiftl_mul_pow2, Z.shiftr_div_pow2 by lia.
  rewrite u32_small by (Z.div_mod_to_equations; lia). fields_at 5. reflexivity.
Qed.

Lemma encodeAddi_sum rd ra simm :
  encodeAddi rd ra simm = 14 * 2 ^ 26 + rd mod 2 ^ 5 * 2 ^ 21 + ra mod 2 ^ 5 * 2 ^ 16 + u16 simm.
Proof.
  unfold encodeAddi, u16. field_values. fields_at 26. fields_at 21. fields_at 16.
  rewrite Z.mod_mod by lia. reflexivity.
Qed.

Lemma encodeAddis_sum rd ra simm :
  encodeAddis rd ra simm = 15 * 2 ^ 26 + rd mod 2 ^ 5 * 2 ^ 21 + ra mod 2 ^ 5 * 2 ^ 16 + u16 simm.
Proof.
  unfold encodeAddis, u16. field_values. fields_at 26. fields_at 21. fields_at 16.
  rewrite Z.mod_mod by lia. reflexivity.
Qed.

Lemma encodeOri_sum ra rs uimm :
  encodeOri ra rs uimm = 24 * 2 ^ 26 + rs mod 2 ^ 5 * 2 ^ 21 + ra mod 2 ^ 5 * 2 ^ 16 + u16 uimm.
Proof. unfold encodeOri, u16. field_values. fields_at 26. fields_at 21. fields_at 16. reflexivity. Qed.

Lemma encodeMtspr_sum rs spr :
  encodeMtspr rs spr =
  31 * 2 ^ 26 + rs mod 2 ^ 5 * 2 ^ 21 +
  (spr mod 2 ^ 5 * 2 ^ 5 + spr / 2 ^ 5 mod 2 ^ 5) * 2 ^ 11 + 467 * 2.
Proof.
  unfold encodeMtspr. field_values. rewrite encodeSprField_sum.
  rewrite (Z.mod_small (_ + _) (2 ^ 10)) by (Z.div_mod_to_equations; lia).
  fields_at 26. fields_at 21. fields_at 11. reflexivity.
Qed.

Lemma encodeMfspr_sum rt spr :
  encodeMfspr rt spr =
  31 * 2 ^ 26 + rt mod 2 ^ 5 * 2 ^ 21 +
  (spr mod 2 ^ 5 * 2 ^ 5 + spr / 2 ^ 5 mod 2 ^ 5) * 2 ^ 11 + 339 * 2.
Proof.
  unfold encodeMfspr. field_values. rewrite encodeSprField_sum.
  rewrite (Z.mod_small (_ + _) (2 ^ 10)) by (Z.div_mod_to_equations; lia).
  fields_at 26. fields_at 21. fields_at 11. reflexivity.
Qed.

Lemma encodeRldicl_sum ra rs sh mb rc :
  encodeRldicl ra rs sh mb rc =
  30 * 2 ^ 26 + rs mod 2 ^ 5 * 2 ^ 21 + ra mod 2 ^ 5 * 2 ^ 16 + sh mod 2 ^ 5 * 2 ^ 11 +
  mb mod 2 ^ 6 * 2 ^ 5 + sh / 2 ^ 5 mod 2 * 2 + Z.b2z rc.
Proof.
  unfold encodeRldicl. rewrite (land_low 5), (land_low 1) by lia.
  rewrite Z.shiftr_div_pow2 by lia. field_values. rewrite !Z.mod_mod by lia.
  fields_at 26. fields_at 21. fields_at 16. fields_at 11. rewrite Z.mod_0_l, Z.mul_0_l, Z.lor_0_r by lia.
  fields_at 5. rewrite (lor_disjoint_add 1); [destruct rc; reflexivity|lia|destruct rc; lia|].
  Z.div_mod_to_equations; lia.
Qed.

Lemma encodeBctr_value : encodeBctr = 0x4E800420.
Proof. reflexivity. Qed.

(** ** Displacements

    [fits_signed n d]: [d] is a multiple of 4 that an [n]-bit two's-complement
    displacement field with two implicit zero bits can hold. *)

Definition fits_signed (n d : Z) : bool :=
  (d mod 4 =? 0) && (- 2 ^ (n - 1) <=? d) && (d <? 2 ^ (n - 1)).

Lemma rem_mod4 d : (Z.rem d 4 =? 0) = (d mod 4 =? 0).
Proof. zcase; try reflexivity; exfalso; Z.quot_rem_to_equations; Z.div_mod_to_equations; lia. Qed.

Lemma quot4 d : d mod 4 = 0 -> Z.quot d 4 = d / 4.
Proof. intros. Z.quot_rem_to_equations; Z.div_mod_to_equations; lia. Qed.

(** The aligned part of a displacement kept by the encoders' masks. *)
Lemma aligned_field n d : 2 <= n <= 32 -> d mod 4 = 0 -> (d / 4) mod 2 ^ (n - 2) * 4 = d mod 2 ^ n.
Proof.
  intros Hn H. replace (2 ^ n) with (4 * 2 ^ (n - 2)).
  - rewrite Z.rem_mul_r by lia. lia.
  - change 4 with (2 ^ 2). rewrite <- Z.pow_add_r by lia. f_equal. lia.
Qed.

Lemma mod_aligned n d : 2 <= n -> d mod 4 = 0 -> (d mod 2 ^ n) mod 4 = 0.
Proof.
  intros Hn H. replace (2 ^ n) with (4 * 2 ^ (n - 2)).
  - rewrite Z.rem_mul_r by lia. rewrite H, Z.add_0_l, Z.mul_comm. apply Z_mod_mult.
  - change 4 with (2 ^ 2). rewrite <- Z.pow_add_r by lia. f_equal. lia.
Qed.

Lemma encodeStdForm_spec op xo rs ra d :
  encodeStdForm op xo rs ra d =
  if fits_signed 16 d then
    Ret (op mod 2 ^ 6 * 2 ^ 26 + rs mod 2 ^ 5 * 2 ^ 21 + ra mod 2 ^ 5 * 2 ^ 16 +
         d mod 2 ^ 16 + xo mod 2 ^ 2)
  else if d mod 4 =? 0 then Throw "std/ld displacement out of range for the 14-bit DS field"
  else Throw "std/ld displacement must be a multiple of 4".
Proof.
  unfold fits_signed, encodeStdForm. rewrite rem_mod4.
  change ((Z.shiftl 1 13 - 1) * 4) with 32764. change (- Z.shiftl 1 13 * 4) with (-32768).
  destruct (Z.eqb_spec (d mod 4) 0) as [Ha|Ha]; [|reflexivity]. cbn [negb andb].
  replace ((32764 <? d) || (d <? -32768)) with (negb ((-2 ^ (16 - 1) <=? d) && (d <? 2 ^ (16 - 1))))
    by (zcase; try reflexivity; Z.div_mod_to_equations; lia).
  destruct ((-2 ^ (16 - 1) <=? d) && (d <? 2 ^ (16 - 1))); [|reflexivity]. cbn [negb].
  field_values. f_equal. rewrite quot4 by lia. pose proof (mod_aligned 16 d).
  replace (u32 (d / 4) mod 2 ^ 14 * 2 ^ 2) with (d mod 2 ^ 16) by zarith.
  fields_at 26. fields_at 21. fields_at 16. fields_at 2. reflexivity.
Qed.

Lemma land_high30 x : 0 <= x < 2 ^ 32 -> x mod 4 = 0 -> Z.land x 0xFFFFFFFC = x.
Proof. intros. rewrite (land_field 2 30) by reflexivity || lia. zarith. Qed.

Lemma encodeBranch_spec target absolute link :
  encodeBranch target absolute link =
  if fits_signed 26 target then
    Ret (18 * 2 ^ 26 + target mod 2 ^ 26 + Z.b2z absolute * 2 + Z.b2z link)
  else if target mod 4 =? 0 then Throw "branch target out of range for a direct b/ba instruction"
  else Throw "branch target must be 4-byte aligned".
Proof.
  unfold fits_signed, encodeBranch. rewrite rem_mod4.
  change (Z.shiftl 1 25 - 4) with 33554428. change (- Z.shiftl 1 25) with (-33554432).
  destruct (Z.eqb_spec (target mod 4) 0) as [Ha|Ha]; [|reflexivity]. cbn [negb andb].
  replace ((33554428 <? target) || (target <? -33554432))
    with (negb ((-2 ^ (26 - 1) <=? target) && (target <? 2 ^ (26 - 1))))
    by (zcase; try reflexivity; Z.div_mod_to_equations; lia).
  destruct ((-2 ^ (26 - 1) <=? target) && (target <? 2 ^ (26 - 1))); [|reflexivity]. cbn [negb].
  field_values. f_equal. pose proof (mod_aligned 26 target).
  replace (u32 target mod 2 ^ 26) with (target mod 2 ^ 26) by zarith.
  rewrite land_high30 by (Z.div_mod_to_equations; lia).
  fields_at 26. destruct absolute, link; cbn [Z.b2z]; fields_at 2; fields_at 1; reflexivity.
Qed.

Lemma encodeBranchConditional_spec bo bi target absolute link :
  encodeBranchConditional bo bi target absolute link =
  if fits_signed 16 target then
    Ret (16 * 2 ^ 26 + bo mod 2 ^ 5 * 2 ^ 21 + bi mod 2 ^ 5 * 2 ^ 16 + target mod 2 ^ 16 +
         Z.b2z absolute * 2 + Z.b2z link)
  else if target mod 4 =? 0 then
    Throw "branch target out of range for a bc/bca instruction's 14-bit BD field"
  else Throw "branch target must be 4-byte aligned".
Proof.
  unfold fits_signed, encodeBranchConditional. rewrite rem_mod4.
  change (Z.shiftl 1 15 - 4) with 32764. change (- Z.shiftl 1 15) with (-32768).
  destruct (Z.eqb_spec (target mod 4) 0) as [Ha|Ha]; [|reflexivity]. cbn [negb andb].
  replace ((32764 <? target) || (target <? -32768))
    with (negb ((-2 ^ (16 - 1) <=? target) && (target <? 2 ^ (16 - 1))))
    by (zcase; try reflexivity; Z.div_mod_to_equations; lia).
  destruct ((-2 ^ (16 - 1) <=? target) && (target <? 2 ^ (16 - 1))); [|reflexivity]. cbn [negb].
  field_values. f_equal. pose proof (mod_aligned 16 target).
  replace (u32 target mod 2 ^ 16) with (target mod 2 ^ 16) by zarith.
  rewrite (land_field 2 14) by reflexivity || lia.
  replace (target mod 2 ^ 16 / 2 ^ 2 mod 2 ^ 14 * 2 ^ 2) with (target mod 2 ^ 16) by zarith.
  fields_at 26. fields_at 21. fields_at 16.
  destruct absolute, link; cbn [Z.b2z]; fields_at 2; fields_at 1; reflexivity.
Qed.

(** Every word an encoder returns is a 32-bit value. *)
Lemma encodeBranch_range target absolute link w :
  encodeBranch target absolute link = Ret w -> 0 <= w < 2 ^ 32.
Proof.
  rewrite encodeBranch_spec. destruct (fits_signed 26 target); [|destruct (_ =? _); discriminate].
  intros [= <-]. destruct absolute, link; cbn [Z.b2z]; Z.div_mod_to_equations; lia.
Qed.
