(* ===== verification/PpcDecode.v ===== *)
(** * Branch decoding and relocation: ppc/include/ppc/decode.hpp

    [classify] reads an instruction word as one of the branch forms and
    [relocateBranch] re-encodes a relative branch for a new address.  The
    lemmas describe both by arithmetic on the fields: [classify] is inverted
    by the encoders, and [relocateBranch] succeeds exactly when the corrected
    displacement fits the field of the form. *)

From S2P Require Import Prelude.
From S2P Require Import Errors.
From S2P Require Import PpcEncode.

Inductive BranchKind :=
| NotABranch
| DirectRelative
| DirectAbsolute
| ToLinkRegister
| ToCountRegister.

#[export] Instance BranchKind_eq_dec : EqDecision BranchKind.
Proof. solve_decision. Defined.

Record DecodedBranch := mkDecodedBranch {
  kind : BranchKind;
  link : bool;
  isConditionalForm : bool;
  bo : Z;
  bi : Z;
  displacement : Z;
  absoluteTarget : Z
}.

#[export] Instance DecodedBranch_eq_dec : EqDecision DecodedBranch.
Proof. solve_decision. Defined.

Definition signExtend (value bitWidth : Z) : Z :=
  let signBit := shl32 1 (bitWidth - 1) in
  i32 (u32 (Z.lxor value signBit - signBit)).

Definition classify (instr : Instruction) : DecodedBranch :=
  let opcode := Z.land (Z.shiftr instr 26) 0x3F in
  let result := mkDecodedBranch NotABranch false false 0 0 0 0 in
  if opcode =? 18 then
    let aa := negb (Z.land instr 0x2 =? 0) in
    let lk := negb (Z.land instr 0x1 =? 0) in
    let liRaw := Z.land instr 0x03FFFFFC in
    let li := signExtend liRaw 26 in
    if aa then mkDecodedBranch DirectAbsolute lk false 0 0 0 (u32 li)
    else mkDecodedBranch DirectRelative lk false 0 0 li 0
  else if opcode =? 16 then
    let aa := negb (Z.land instr 0x2 =? 0) in
    let lk := negb (Z.land instr 0x1 =? 0) in
    let bo := Z.land (Z.shiftr instr 21) 0x1F in
    let bi := Z.land (Z.shiftr instr 16) 0x1F in
    let bdRaw := Z.land instr 0x0000FFFC in
    let bd := signExtend bdRaw 16 in
    if aa then mkDecodedBranch DirectAbsolute lk true bo bi 0 (u32 bd)
    else mkDecodedBranch DirectRelative lk true bo bi bd 0
  else if opcode =? 19 then
    let xo := Z.land (Z.shiftr instr 1) 0x3FF in
    let lk := negb (Z.land instr 0x1 =? 0) in
    if xo =? 16 then mkDecodedBranch ToLinkRegister lk false 0 0 0 0
    else if xo =? 528 then mkDecodedBranch ToCountRegister lk false 0 0 0 0
    else result
  else result.

(** [try { return f; } catch (const std::invalid_argument&) { return nullopt; }] *)
Definition caught {T} (r : exc T) : option T :=
  match r with Ret v => Some v | Throw _ => None end.

Definition relocateBranch (branch : DecodedBranch) (originalAddr newAddr : Z) : option Instruction :=
  if bool_decide (kind branch <> DirectRelative) then None
  else
    let originalTarget := u32 (originalAddr + u32 (displacement branch)) in
    let newDisplacement := originalTarget - newAddr in
    if (newDisplacement <? - 2 ^ 31) || (2 ^ 31 - 1 <? newDisplacement) then None
    else
      caught
        (if isConditionalForm branch
         then encodeBranchConditional (bo branch) (bi branch) (i32 newDisplacement) false (link branch)
         else encodeBranch (i32 newDisplacement) false (link branch)).

(** ** Fields of a word *)

(** Two's-complement reading of the low [n] bits. *)
Definition sext (n z : Z) : Z := (z + 2 ^ (n - 1)) mod 2 ^ n - 2 ^ (n - 1).

Lemma sext_range n z : 1 <= n -> - 2 ^ (n - 1) <= sext n z < 2 ^ (n - 1).
Proof.
  intros H. unfold sext. replace (2 ^ n) with (2 * 2 ^ (n - 1))
    by (rewrite <- Z.pow_succ_r by lia; f_equal; lia).
  pose proof (Z.mod_pos_bound (z + 2 ^ (n - 1)) (2 * 2 ^ (n - 1))). lia.
Qed.

Lemma sext_mod n z : 1 <= n -> sext n z mod 2 ^ n = z mod 2 ^ n.
Proof. intros. unfold sext. rewrite Zminus_mod_idemp_l. f_equal. lia. Qed.

Lemma sext_small n z : 1 <= n -> - 2 ^ (n - 1) <= z < 2 ^ (n - 1) -> sext n (z mod 2 ^ n) = z.
Proof.
  intros. unfold sext. rewrite Zplus_mod_idemp_l, Z.mod_small; [lia|].
  replace (2 ^ n) with (2 * 2 ^ (n - 1))
    by (rewrite <- Z.pow_succ_r by lia; f_equal; lia). lia.
Qed.

Lemma lxor_sign_bit n v :
  0 <= n -> 0 <= v < 2 ^ (n + 1) -> Z.lxor v (2 ^ n) = (v + 2 ^ n) mod 2 ^ (n + 1).
Proof.
  intros Hn Hv. rewrite Z.pow_add_r in * by lia. change (2 ^ 1) with 2 in *.
  assert (forall w, 0 <= w < 2 ^ n -> Z.lxor w (2 ^ n) = w + 2 ^ n) as Hlow.
  { intros w Hw. rewrite Z.lxor_comm, Z.lxor_lor.
    - rewrite (lor_disjoint_add n) by (rewrite ?Z_mod_same_full; lia). lia.
    - apply Z.bits_inj'. intros i Hi. rewrite Z.land_spec, Z.bits_0, Z.pow2_bits_eqb by lia.
      destruct (Z.eqb_spec n i) as [->|]; [|reflexivity].
      rewrite <- (Z.mod_small w (2 ^ i)) by lia. apply Z.mod_pow2_bits_high. lia. }
  destruct (Z.lt_ge_cases v (2 ^ n)) as [Hlt|Hge].
  - rewrite Hlow by lia. rewrite Z.mod_small by lia. reflexivity.
  - replace v with (Z.lxor (v - 2 ^ n) (2 ^ n)) at 1 by (rewrite Hlow by lia; lia).
    rewrite Z.lxor_assoc, Z.lxor_nilpotent, Z.lxor_0_r.
    replace (v + 2 ^ n) with (v - 2 ^ n + 1 * (2 ^ n * 2)) by lia.
    rewrite Z.mod_add, Z.mod_small by lia. reflexivity.
Qed.

Lemma signExtend_sext v n : 1 <= n <= 32 -> 0 <= v < 2 ^ n -> signExtend v n = sext n v.
Proof.
  intros Hn Hv. unfold signExtend, shl32. rewrite Z.shiftl_1_l.
  assert (2 ^ (n - 1) <= 2 ^ 31) by (apply Z.pow_le_mono_r; lia).
  assert (0 < 2 ^ (n - 1)) by lia.
  rewrite (u32_small (2 ^ (n - 1))) by lia.
  replace n with (n - 1 + 1) in Hv by lia. rewrite lxor_sign_bit by lia.
  pose proof (sext_range n v). unfold sext in *. replace (n - 1 + 1) with n by lia.
  assert (forall z, - 2 ^ 31 <= z < 2 ^ 31 -> i32 (u32 z) = z) as Hi.
  { intros z Hz. unfold i32. zcase; zarith. }
  apply Hi. lia.
Qed.

Definition bit (i w : Z) : bool := w / 2 ^ i mod 2 =? 1.

Lemma land_bit i w m : 0 <= i -> m = 2 ^ i -> negb (Z.land w m =? 0) = bit i w.
Proof.
  intros Hi ->. rewrite (land_field i 1) by lia. unfold bit.
  pose proof (Z.mod_pos_bound (w / 2 ^ i) 2). change (2 ^ 1) with 2. nia.
Qed.

(** [classify] on the fields of a word. *)
Definition opcode_of (w : Z) : Z := w / 2 ^ 26.
Definition li_of (w : Z) : Z := sext 26 (w / 4 mod 2 ^ 24 * 4).
Definition bd_of (w : Z) : Z := sext 16 (w / 4 mod 2 ^ 14 * 4).

Lemma classify_fields w :
  0 <= w < 2 ^ 32 ->
  classify w =
  if opcode_of w =? 18 then
    if bit 1 w then mkDecodedBranch DirectAbsolute (bit 0 w) false 0 0 0 (u32 (li_of w))
    else mkDecodedBranch DirectRelative (bit 0 w) false 0 0 (li_of w) 0
  else if opcode_of w =? 16 then
    let bo := w / 2 ^ 21 mod 2 ^ 5 in
    let bi := w / 2 ^ 16 mod 2 ^ 5 in
    if bit 1 w then mkDecodedBranch DirectAbsolute (bit 0 w) true bo bi 0 (u32 (bd_of w))
    else mkDecodedBranch DirectRelative (bit 0 w) true bo bi (bd_of w) 0
  else if (opcode_of w =? 19) && (w / 2 mod 2 ^ 10 =? 16) then
    mkDecodedBranch ToLinkRegister (bit 0 w) false 0 0 0 0
  else if (opcode_of w =? 19) && (w / 2 mod 2 ^ 10 =? 528) then
    mkDecodedBranch ToCountRegister (bit 0 w) false 0 0 0 0
  else mkDecodedBranch NotABranch false false 0 0 0 0.
Proof.
  intros Hw. unfold classify, opcode_of, li_of, bd_of.
  rewrite !Z.shiftr_div_pow2 by lia.
  rewrite (land_low 6 _ 63), !(land_low 5 _ 31), (land_low 10 _ 1023) by lia.
  rewrite !(land_bit 1 _ 2), !(land_bit 0 _ 1) by lia.
  rewrite (land_field 2 24 _ 67108860), (land_field 2 14 _ 65532) by lia.
  rewrite (Z.mod_small (w / 2 ^ 26)) by zarith.
  rewrite !signExtend_sext by zarith.
  change (2 ^ 1) with 2. change (2 ^ 2) with 4.
  destruct (w / 2 ^ 26 =? 18); [reflexivity|].
  destruct (w / 2 ^ 26 =? 16); [reflexivity|].
  destruct (w / 2 ^ 26 =? 19); reflexivity.
Qed.

(** ** Decoding inverts encoding *)

Definition direct_branch (absolute : bool) (target : Z) (lk cond : bool) (o i : Z) : DecodedBranch :=
  if absolute then mkDecodedBranch DirectAbsolute lk cond o i 0 (u32 target)
  else mkDecodedBranch DirectRelative lk cond o i target 0.

Lemma fits_signed_spec n d :
  fits_signed n d = true <-> d mod 4 = 0 /\ - 2 ^ (n - 1) <= d < 2 ^ (n - 1).
Proof. unfold fits_signed. lia. Qed.

Lemma encodeBranch_Ret target absolute lk w :
  encodeBranch target absolute lk = Ret w <->
  fits_signed 26 target = true /\
  w = 18 * 2 ^ 26 + target mod 2 ^ 26 + Z.b2z absolute * 2 + Z.b2z lk.
Proof.
  rewrite encodeBranch_spec. destruct (fits_signed 26 target).
  - split; [intros [= <-]; auto|intros [_ ->]; reflexivity].
  - split; [destruct (_ =? _); discriminate|intros [? _]; discriminate].
Qed.

Lemma encodeBranchConditional_Ret o i target absolute lk w :
  encodeBranchConditional o i target absolute lk = Ret w <->
  fits_signed 16 target = true /\
  w = 16 * 2 ^ 26 + o mod 2 ^ 5 * 2 ^ 21 + i mod 2 ^ 5 * 2 ^ 16 + target mod 2 ^ 16 +
      Z.b2z absolute * 2 + Z.b2z lk.
Proof.
  rewrite encodeBranchConditional_spec. destruct (fits_signed 16 target).
  - split; [intros [= <-]; auto|intros [_ ->]; reflexivity].
  - split; [destruct (_ =? _); discriminate|intros [? _]; discriminate].
Qed.

Lemma bit_b2z i w b : w / 2 ^ i mod 2 = Z.b2z b -> bit i w = b.
Proof. unfold bit. intros ->. destruct b; reflexivity. Qed.

Lemma classify_encodeBranch target absolute lk w :
  encodeBranch target absolute lk = Ret w ->
  0 <= w < 2 ^ 32 /\ classify w = direct_branch absolute target lk false 0 0.
Proof.
  intros [Hf Hw]%encodeBranch_Ret. apply fits_signed_spec in Hf as [Ha Hr].
  pose proof (mod_aligned 26 target) as Hm.
  assert (0 <= Z.b2z absolute * 2 + Z.b2z lk < 4) as Hl by (destruct absolute, lk; cbn; lia).
  assert (0 <= Z.b2z lk < 2) as Hk by (destruct lk; cbn; lia).
  assert (0 <= w < 2 ^ 32) as Hb by (Z.div_mod_to_equations; lia).
  split; [exact Hb|]. rewrite classify_fields by exact Hb.
  assert (w / 2 ^ 26 = 18) as H18 by (Z.div_mod_to_equations; lia).
  assert (li_of w = target) as Hli.
  { unfold li_of. replace (w / 4 mod 2 ^ 24 * 4) with (target mod 2 ^ 26)
      by (Z.div_mod_to_equations; lia).
    apply sext_small; lia. }
  unfold opcode_of. rewrite H18, Hli.
  rewrite (bit_b2z 0 w lk), (bit_b2z 1 w absolute) by (Z.div_mod_to_equations; lia).
  destruct absolute; reflexivity.
Qed.

Lemma classify_encodeBranchConditional o i target absolute lk w :
  0 <= o < 2 ^ 5 -> 0 <= i < 2 ^ 5 ->
  encodeBranchConditional o i target absolute lk = Ret w ->
  0 <= w < 2 ^ 32 /\ classify w = direct_branch absolute target lk true o i.
Proof.
  intros Ho Hi [Hf Hw]%encodeBranchConditional_Ret. apply fits_signed_spec in Hf as [Ha Hr].
  pose proof (mod_aligned 16 target) as Hm.
  rewrite (Z.mod_small o), (Z.mod_small i) in Hw by lia.
  assert (0 <= Z.b2z absolute * 2 + Z.b2z lk < 4) as Hl by (destruct absolute, lk; cbn; lia).
  assert (0 <= Z.b2z lk < 2) as Hk by (destruct lk; cbn; lia).
  assert (0 <= w < 2 ^ 32) as Hb by (Z.div_mod_to_equations; lia).
  split; [exact Hb|]. rewrite classify_fields by exact Hb.
  assert (w / 2 ^ 26 = 16) as H16 by (Z.div_mod_to_equations; lia).
  assert (bd_of w = target) as Hbd.
  { unfold bd_of. replace (w / 4 mod 2 ^ 14 * 4) with (target mod 2 ^ 16)
      by (Z.div_mod_to_equations; lia).
    apply sext_small; lia. }
  unfold opcode_of. rewrite H16, Hbd.
  replace (w / 2 ^ 21 mod 2 ^ 5) with o by (Z.div_mod_to_equations; lia).
  replace (w / 2 ^ 16 mod 2 ^ 5) with i by (Z.div_mod_to_equations; lia).
  rewrite (bit_b2z 0 w lk), (bit_b2z 1 w absolute) by (Z.div_mod_to_equations; lia).
  destruct absolute; reflexivity.
Qed.

(** ** Encoding inverts decoding *)

Lemma bit_value i w : Z.b2z (bit i w) = w / 2 ^ i mod 2.
Proof.
  unfold bit. pose proof (Z.mod_pos_bound (w / 2 ^ i) 2).
  destruct (Z.eqb_spec (w / 2 ^ i mod 2) 1); cbn; lia.
Qed.

Lemma li_of_spec w : fits_signed 26 (li_of w) = true /\ li_of w mod 2 ^ 26 = w / 4 mod 2 ^ 24 * 4.
Proof.
  unfold li_of. pose proof (sext_range 26 (w / 4 mod 2 ^ 24 * 4)).
  rewrite fits_signed_spec, sext_mod by lia.
  unfold sext in *. repeat split; try lia; Z.div_mod_to_equations; lia.
Qed.

Lemma bd_of_spec w : fits_signed 16 (bd_of w) = true /\ bd_of w mod 2 ^ 16 = w / 4 mod 2 ^ 14 * 4.
Proof.
  unfold bd_of. pose proof (sext_range 16 (w / 4 mod 2 ^ 14 * 4)).
  rewrite fits_signed_spec, sext_mod by lia.
  unfold sext in *. repeat split; try lia; Z.div_mod_to_equations; lia.
Qed.

Lemma encodeBranch_li_of w :
  opcode_of w = 18 -> encodeBranch (li_of w) (bit 1 w) (bit 0 w) = Ret w.
Proof.
  unfold opcode_of. intros H. destruct (li_of_spec w) as [Hf Hm].
  apply encodeBranch_Ret. split; [exact Hf|].
  rewrite Hm, !bit_value. Z.div_mod_to_equations; lia.
Qed.

Lemma encodeBranchConditional_bd_of w :
  opcode_of w = 16 ->
  encodeBranchConditional (w / 2 ^ 21 mod 2 ^ 5) (w / 2 ^ 16 mod 2 ^ 5) (bd_of w)
    (bit 1 w) (bit 0 w) = Ret w.
Proof.
  unfold opcode_of. intros H. destruct (bd_of_spec w) as [Hf Hm].
  apply encodeBranchConditional_Ret. split; [exact Hf|].
  rewrite Hm, !bit_value, !Z.mod_mod by lia. Z.div_mod_to_equations; lia.
Qed.

(** ** Relative branches *)

(** The width of the displacement field, with its implicit zero bits. *)
Definition form_width (b : DecodedBranch) : Z := if isConditionalForm b then 16 else 26.

(** The relative branch of the same form, condition and link bit. *)
Definition reencode (b : DecodedBranch) (d : Z) : exc Instruction :=
  if isConditionalForm b then encodeBranchConditional (bo b) (bi b) d false (link b)
  else encodeBranch d false (link b).

Definition with_displacement (b : DecodedBranch) (d : Z) : DecodedBranch :=
  mkDecodedBranch (kind b) (link b) (isConditionalForm b) (bo b) (bi b) d (absoluteTarget b).

(** What [classify] returns for a relative branch. *)
Record relative_branch (b : DecodedBranch) : Prop := {
  rb_kind : kind b = DirectRelative;
  rb_bo : 0 <= bo b < 2 ^ 5;
  rb_bi : 0 <= bi b < 2 ^ 5;
  rb_iform : isConditionalForm b = false -> bo b = 0 /\ bi b = 0;
  rb_target : absoluteTarget b = 0;
  rb_fits : fits_signed (form_width b) (displacement b) = true
}.

Lemma classify_relative w :
  0 <= w < 2 ^ 32 -> kind (classify w) = DirectRelative ->
  relative_branch (classify w) /\ reencode (classify w) (displacement (classify w)) = Ret w.
Proof.
  intros Hw. rewrite classify_fields by exact Hw.
  destruct (Z.eqb_spec (opcode_of w) 18) as [H18|_].
  { destruct (bit 1 w) eqn:Haa; [discriminate|]. intros _. split.
    - split; cbn; auto; try lia. apply li_of_spec.
    - unfold reencode. cbn. rewrite <- Haa. apply encodeBranch_li_of. exact H18. }
  destruct (Z.eqb_spec (opcode_of w) 16) as [H16|_].
  { cbv zeta. destruct (bit 1 w) eqn:Haa; [discriminate|]. intros _. split.
    - split; cbn; auto; try discriminate; try (apply Z.mod_pos_bound; lia). apply bd_of_spec.
    - unfold reencode. cbn. rewrite <- Haa. apply encodeBranchConditional_bd_of. exact H16. }
  repeat (match goal with |- context [if ?c then _ else _] => destruct c end; [discriminate|]).
  discriminate.
Qed.

Lemma classify_reencode b d w :
  relative_branch b -> reencode b d = Ret w ->
  0 <= w < 2 ^ 32 /\ classify w = with_displacement b d.
Proof.
  intros [Hk Ho Hi Hz Ht _]. unfold reencode, with_displacement.
  destruct b as [k l c o i d' t]; cbn in *. subst k t. destruct c.
  - intros H. apply classify_encodeBranchConditional in H as [? ->]; auto.
  - intros H. destruct Hz as [-> ->]; [reflexivity|].
    apply classify_encodeBranch in H as [? ->]. auto.
Qed.

Lemma reencode_fits b d :
  if fits_signed (form_width b) d
  then exists w, reencode b d = Ret w
  else caught (reencode b d) = None.
Proof.
  unfold form_width, reencode. destruct (isConditionalForm b).
  - rewrite encodeBranchConditional_spec. destruct (fits_signed 16 d); [eauto|].
    destruct (_ =? _); reflexivity.
  - rewrite encodeBranch_spec. destruct (fits_signed 26 d); [eauto|].
    destruct (_ =? _); reflexivity.
Qed.

Lemma fits_signed_small b d : fits_signed (form_width b) d = true -> - 2 ^ 31 <= d < 2 ^ 31.
Proof.
  rewrite fits_signed_spec. unfold form_width. destruct (isConditionalForm b); lia.
Qed.

Lemma relocateBranch_spec b originalAddr newAddr :
  kind b = DirectRelative ->
  let d := u32 (originalAddr + displacement b) - newAddr in
  relocateBranch b originalAddr newAddr =
  if fits_signed (form_width b) d then caught (reencode b d) else None.
Proof.
  intros Hk d. unfold relocateBranch. rewrite bool_decide_false by (rewrite Hk; auto).
  replace (u32 (originalAddr + u32 (displacement b))) with (u32 (originalAddr + displacement b))
    by zarith.
  fold d. pose proof (reencode_fits b d) as Hr.
  destruct ((d <? - 2 ^ 31) || (2 ^ 31 - 1 <? d)) eqn:Hd.
  - destruct (fits_signed (form_width b) d) eqn:Hf; [|reflexivity].
    apply fits_signed_small in Hf. lia.
  - rewrite (i32_small d) by lia. fold (reencode b d).
    destruct (fits_signed (form_width b) d); [reflexivity|exact Hr].
Qed.
