(* ===== verification/Syscalls.v ===== *)
(** * System calls: ps3patch/include/ps3patch/syscalls.hpp

    The instruction sequences that load and start a module. *)

From S2P Require Import Prelude.
From S2P Require Import PpcEncode.

Definition SYS_PRX_LOAD_MODULE : Z := 480.
Definition SYS_PRX_START_MODULE : Z := 481.

Definition SYSCALL_SEQUENCE_INSTR_COUNT : Z := 14.

Definition REG_SYSCALL_NUMBER_DEFAULT : Z := 11.
Definition REG_ARG0 : Z := 3.
Definition REG_ARG1 : Z := 4.
Definition REG_ARG2 : Z := 5.
Definition REG_ARG3 : Z := 6.
Definition REG_ARG4 : Z := 7.
Definition REG_ARG5 : Z := 8.
Definition REG_RETURN : Z := 3.

Definition encodeSc : Instruction := Z.lor (Z.lor (shl32 17 26) (shl32 0 5)) (shl32 1 1).

Definition makeSyscallTrap (syscallNumber syscallNumberReg : Z) : list Instruction :=
  [encodeLi syscallNumberReg (i16 syscallNumber); encodeSc].

Definition makeLoadModuleCall (pathAddress : Z) : list Instruction :=
  loadImmediate32 REG_ARG0 pathAddress ++ [encodeLi REG_ARG1 0] ++ [encodeLi REG_ARG2 0] ++
  makeSyscallTrap SYS_PRX_LOAD_MODULE REG_SYSCALL_NUMBER_DEFAULT.

Definition makeStartModuleCall : list Instruction :=
  [encodeLi REG_ARG1 0] ++ [encodeLi REG_ARG2 0] ++ [encodeLi REG_ARG3 0] ++
  [encodeLi REG_ARG4 0] ++ [encodeLi REG_ARG5 0] ++
  makeSyscallTrap SYS_PRX_START_MODULE REG_SYSCALL_NUMBER_DEFAULT.

Definition makeLoadAndStartModule (pathAddress : Z) : list Instruction :=
  makeLoadModuleCall pathAddress ++ makeStartModuleCall.

Lemma makeLoadAndStartModule_size pathAddress :
  size (makeLoadAndStartModule pathAddress) = SYSCALL_SEQUENCE_INSTR_COUNT.
Proof. reflexivity. Qed.
