(* ===== verification/PpcSpec.v ===== *)
(** * The PowerPC instructions of the program, as a specification

    The documented meaning of the instruction words the encoders build, stated
    independently of the encoders: fields by the instruction set's own bit
    numbering (bit 0 is the most significant), [decode] to an instruction and
    [exec] on a machine state of 64-bit registers and byte memory.  Two things
    are parameters: [lv2], what a system call does to the state, and [other],
    what an instruction outside this subset does.  Nothing here models a
    source file; it is what the theorems on encode.hpp, decode.hpp,
    syscalls.hpp and trampoline.hpp are stated against. *)

From S2P Require Import Prelude.
From S2P Require Import PpcEncode.
From S2P Require Import PpcDecode.

(** ** Instructions *)

Inductive insn :=
| Addi (rt ra si : Z)
| Addis (rt ra si : Z)
| Ori (ra rs ui : Z)
| Rldicl (ra rs sh mb : Z) (rc : bool)
| Mtlr (rs : Z)
| Mtctr (rs : Z)
| Mflr (rt : Z)
| Mfctr (rt : Z)
| Ld (rt ra ds : Z) (update : bool)
| Std (rs ra ds : Z) (update : bool)
| Sc
| B (li : Z) (aa lk : bool)
| Bc (bo bi bd : Z) (aa lk : bool)
| Bclr (bo bi : Z) (lk : bool)
| Bcctr (bo bi : Z) (lk : bool)
| Other (w : Z).

(** Bits [i .. i+n-1] of a word. *)
Definition fld (w i n : Z) : Z := w / 2 ^ (32 - i - n) mod 2 ^ n.

Definition flag (w i : Z) : bool := fld w i 1 =? 1.

Definition decode_spr (w : Z) (lr ctr : insn) : insn :=
  let spr := fld w 16 5 * 2 ^ 5 + fld w 11 5 in
  if flag w 31 then Other w
  else if spr =? 8 then lr
  else if spr =? 9 then ctr
  else Other w.

Definition decode (w : Z) : insn :=
  let opcd := fld w 0 6 in
  let rt := fld w 6 5 in
  let ra := fld w 11 5 in
  if opcd =? 14 then Addi rt ra (sext 16 (fld w 16 16))
  else if opcd =? 15 then Addis rt ra (sext 16 (fld w 16 16))
  else if opcd =? 16 then Bc rt ra (sext 16 (fld w 16 14 * 4)) (flag w 30) (flag w 31)
  else if opcd =? 17 then if flag w 30 then Sc else Other w
  else if opcd =? 18 then B (sext 26 (fld w 6 24 * 4)) (flag w 30) (flag w 31)
  else if opcd =? 19 then
    if fld w 21 10 =? 16 then Bclr rt ra (flag w 31)
    else if fld w 21 10 =? 528 then Bcctr rt ra (flag w 31)
    else Other w
  else if opcd =? 24 then Ori ra rt (fld w 16 16)
  else if opcd =? 30 then
    if fld w 27 3 =? 0
    then Rldicl ra rt (fld w 30 1 * 2 ^ 5 + fld w 16 5) (fld w 26 1 * 2 ^ 5 + fld w 21 5) (flag w 31)
    else Other w
  else if opcd =? 31 then
    if fld w 21 10 =? 467 then decode_spr w (Mtlr rt) (Mtctr rt)
    else if fld w 21 10 =? 339 then decode_spr w (Mflr rt) (Mfctr rt)
    else Other w
  else if opcd =? 58 then
    if fld w 30 2 =? 0 then Ld rt ra (sext 16 (fld w 16 14 * 4)) false
    else if fld w 30 2 =? 1 then Ld rt ra (sext 16 (fld w 16 14 * 4)) true
    else Other w
  else if opcd =? 62 then
    if fld w 30 2 =? 0 then Std rt ra (sext 16 (fld w 16 14 * 4)) false
    else if fld w 30 2 =? 1 then Std rt ra (sext 16 (fld w 16 14 * 4)) true
    else Other w
  else Other w.

(** ** Machine states *)

Record machine := mkMachine {
  gpr : Z -> Z;
  lr : Z;
  ctr : Z;
  cr : Z;
  pc : Z;
  mem : Z -> byte
}.

Definition upd {A} (f : Z -> A) (k : Z) (v : A) : Z -> A := fun x => if x =? k then v else f x.

Definition set_gpr (r v : Z) (s : machine) : machine :=
  mkMachine (upd (gpr s) r v) (lr s) (ctr s) (cr s) (pc s) (mem s).
Definition set_lr (v : Z) (s : machine) : machine :=
  mkMachine (gpr s) v (ctr s) (cr s) (pc s) (mem s).
Definition set_ctr (v : Z) (s : machine) : machine :=
  mkMachine (gpr s) (lr s) v (cr s) (pc s) (mem s).
Definition set_cr (v : Z) (s : machine) : machine :=
  mkMachine (gpr s) (lr s) (ctr s) v (pc s) (mem s).
Definition set_pc (v : Z) (s : machine) : machine :=
  mkMachine (gpr s) (lr s) (ctr s) (cr s) v (mem s).
Definition set_mem (m : Z -> byte) (s : machine) : machine :=
  mkMachine (gpr s) (lr s) (ctr s) (cr s) (pc s) m.

(** Big-endian doublewords; addresses wrap at [2^64]. *)
Definition read64 (m : Z -> byte) (a : Z) : Z :=
  be_load ((fun i => m (u64 (a + Z.of_nat i))) <$> seq 0 8).

Definition write64 (m : Z -> byte) (a v : Z) : Z -> byte :=
  fun x => let i := u64 (x - a) in
    if i <? 8 then nth (Z.to_nat i) (be_store 8 v) Byte.x00 else m x.

(** Big-endian words, and the one the program counter points at. *)
Definition word_at (m : Z -> byte) (a : Z) : Z :=
  be_load ((fun i => m (u64 (a + Z.of_nat i))) <$> seq 0 4).

Definition fetch (s : machine) : Z := word_at (mem s) (pc s).

Definition next (s : machine) : machine := set_pc (u64 (pc s + 4)) s.

Definition rotl64 (x n : Z) : Z := u64 (x * 2 ^ n) + x / 2 ^ (64 - n).

(** Bit [i] of a field of width [n], numbered from the most significant. *)
Definition bit_of (n x i : Z) : bool := x / 2 ^ (n - 1 - i) mod 2 =? 1.

(** The condition-register test of a conditional branch. *)
Definition cond_ok (o i : Z) (s : machine) : bool :=
  bit_of 5 o 0 || Bool.eqb (bit_of 32 (cr s) i) (bit_of 5 o 1).

(** The count-register test, on the already decremented register. *)
Definition ctr_ok (o : Z) (s : machine) : bool :=
  bit_of 5 o 2 || xorb (negb (ctr s =? 0)) (bit_of 5 o 3).

Definition count_down (o : Z) (s : machine) : machine :=
  if bit_of 5 o 2 then s else set_ctr (u64 (ctr s - 1)) s.

(** Branch to [target] when [taken]; [lk] sets the link register. *)
Definition branch_to (taken lk : bool) (target : Z) (s : machine) : machine :=
  let s' := if lk then set_lr (u64 (pc s + 4)) s else s in
  if taken then set_pc target s' else next s'.

Definition ea (s : machine) (ra d : Z) : Z := u64 ((if ra =? 0 then 0 else gpr s ra) + d).

(** CR field 0 after an instruction with its record bit set: the result's sign. *)
Definition record_cr0 (v : Z) (s : machine) : machine :=
  let c := if v =? 0 then 2 else if v <? 2 ^ 63 then 4 else 8 in
  set_cr (c * 2 ^ 28 + cr s mod 2 ^ 28) s.

Section machine.
Variable lv2 : machine -> machine.
Variable other : Z -> machine -> machine.

Definition exec (i : insn) (s : machine) : machine :=
  match i with
  | Addi rt ra si => next (set_gpr rt (ea s ra si) s)
  | Addis rt ra si => next (set_gpr rt (ea s ra (si * 2 ^ 16)) s)
  | Ori ra rs ui => next (set_gpr ra (Z.lor (gpr s rs) ui) s)
  | Rldicl ra rs sh mb rc =>
      let v := rotl64 (gpr s rs) sh mod 2 ^ (64 - mb) in
      next (let s' := set_gpr ra v s in if rc then record_cr0 v s' else s')
  | Mtlr rs => next (set_lr (gpr s rs) s)
  | Mtctr rs => next (set_ctr (gpr s rs) s)
  | Mflr rt => next (set_gpr rt (lr s) s)
  | Mfctr rt => next (set_gpr rt (ctr s) s)
  | Ld rt ra ds update =>
      let a := ea s ra ds in
      let s' := set_gpr rt (read64 (mem s) a) s in
      next (if update then set_gpr ra a s' else s')
  | Std rs ra ds update =>
      let a := ea s ra ds in
      let s' := set_mem (write64 (mem s) a (gpr s rs)) s in
      next (if update then set_gpr ra a s' else s')
  | Sc => lv2 (next s)
  | B li aa lk => branch_to true lk (if aa then u64 li else u64 (pc s + li)) s
  | Bc o i bd aa lk =>
      let s' := count_down o s in
      branch_to (ctr_ok o s' && cond_ok o i s') lk (if aa then u64 bd else u64 (pc s + bd)) s'
  | Bclr o i lk =>
      let s' := count_down o s in
      branch_to (ctr_ok o s' && cond_ok o i s') lk (lr s / 4 * 4) s'
  | Bcctr o i lk => branch_to (cond_ok o i s) lk (ctr s / 4 * 4) s
  | Other w => other w s
  end.

(** Steps of the machine, and straight-line execution of a list of words. *)
Definition step (s : machine) : machine := exec (decode (fetch s)) s.

Fixpoint steps (n : nat) (s : machine) : machine :=
  match n with O => s | S n' => steps n' (step s) end.

Definition exec_words (ws : list Z) (s : machine) : machine :=
  fold_left (fun s w => exec (decode w) s) ws s.

Lemma exec_words_app ws ws' s : exec_words (ws ++ ws') s = exec_words ws' (exec_words ws s).
Proof. apply fold_left_app. Qed.

Lemma exec_words_cons w ws s : exec_words (w :: ws) s = exec_words ws (exec (decode w) s).
Proof. reflexivity. Qed.

Lemma exec_words_nil s : exec_words [] s = s.
Proof. reflexivity. Qed.

End machine.

Arguments word_at : simpl never.
Arguments read64 : simpl never.
Arguments write64 : simpl never.
