(* ===== verification/PpcSpecFacts.v ===== *)
(** * The encoders against the instruction set

    [decode_*]: the word each encoder builds decodes to the instruction it is
    named after.  [exec_*]: what the sequences of encode.hpp do to a machine
    state, read off one instruction at a time. *)

From Stdlib Require Import FunctionalExtensionality.
From S2P Require Import Prelude.
From S2P Require Import Errors.
From S2P Require Import PpcEncode.
From S2P Require Import PpcDecode.
From S2P Require Import PpcSpec.

(** Fields of a word given as a sum. *)
Ltac fld_value w i n v :=
  let k := eval vm_compute in (32 - i - n) in
  let H := fresh "Hfld" in
  assert (fld w i n = v) as H by
    (unfold fld; change (32 - i - n) with k; Z.div_mod_to_equations; lia);
  rewrite !H.

Section decode_encode.
Implicit Types (w rd ra rs rt d target : Z).

Definition reg (r : Z) : Prop := 0 <= r < 2 ^ 5.

Lemma decode_D op rt ra imm w :
  reg rt -> reg ra -> 0 <= imm < 2 ^ 16 -> 0 <= op < 2 ^ 6 ->
  w = op * 2 ^ 26 + rt * 2 ^ 21 + ra * 2 ^ 16 + imm ->
  fld w 0 6 = op /\ fld w 6 5 = rt /\ fld w 11 5 = ra /\ fld w 16 16 = imm.
Proof.
  unfold reg. intros Ht Ha Hi Ho ->. unfold fld.
  change (32 - 0 - 6) with 26. change (32 - 6 - 5) with 21. change (32 - 11 - 5) with 16.
  change (32 - 16 - 16) with 0.
  repeat split; Z.div_mod_to_equations; lia.
Qed.

Lemma decode_encodeAddi rd ra simm :
  reg rd -> reg ra -> - 2 ^ 15 <= simm < 2 ^ 15 -> decode (encodeAddi rd ra simm) = Addi rd ra simm.
Proof.
  unfold reg. intros Hd Ha Hs. rewrite encodeAddi_sum, !Z.mod_small by lia.
  edestruct (decode_D 14 rd ra (u16 simm)) as (E1 & E2 & E3 & E4);
    [exact Hd|exact Ha|apply u16_range|lia|reflexivity|].
  unfold decode. rewrite E1, E2, E3, E4. cbn. f_equal. apply (sext_small 16); lia.
Qed.

Lemma decode_encodeAddis rd ra simm :
  reg rd -> reg ra -> - 2 ^ 15 <= simm < 2 ^ 15 ->
  decode (encodeAddis rd ra simm) = Addis rd ra simm.
Proof.
  unfold reg. intros Hd Ha Hs. rewrite encodeAddis_sum, !Z.mod_small by lia.
  edestruct (decode_D 15 rd ra (u16 simm)) as (E1 & E2 & E3 & E4);
    [exact Hd|exact Ha|apply u16_range|lia|reflexivity|].
  unfold decode. rewrite E1, E2, E3, E4. cbn. f_equal. apply (sext_small 16); lia.
Qed.

Lemma decode_encodeOri ra rs uimm :
  reg ra -> reg rs -> 0 <= uimm < 2 ^ 16 -> decode (encodeOri ra rs uimm) = Ori ra rs uimm.
Proof.
  unfold reg. intros Ha Hs Hu. rewrite encodeOri_sum, !Z.mod_small by lia.
  edestruct (decode_D 24 rs ra (u16 uimm)) as (E1 & E2 & E3 & E4);
    [exact Hs|exact Ha|apply u16_range|lia|reflexivity|].
  unfold decode. rewrite E1, E2, E3, E4, u16_small by lia. reflexivity.
Qed.

Lemma decode_D31 rt spr xo w :
  reg rt -> 0 <= spr < 2 ^ 5 -> 0 <= xo < 2 ^ 10 ->
  w = 31 * 2 ^ 26 + rt * 2 ^ 21 + (spr * 2 ^ 5 + 0) * 2 ^ 11 + xo * 2 ->
  fld w 0 6 = 31 /\ fld w 6 5 = rt /\ fld w 11 5 = spr /\ fld w 16 5 = 0 /\
  fld w 21 10 = xo /\ fld w 31 1 = 0.
Proof.
  unfold reg. intros Ht Hs Hx ->. unfold fld.
  change (32 - 0 - 6) with 26. change (32 - 6 - 5) with 21. change (32 - 11 - 5) with 16.
  change (32 - 16 - 5) with 11. change (32 - 21 - 10) with 1. change (32 - 31 - 1) with 0.
  repeat split; Z.div_mod_to_equations; lia.
Qed.

Lemma decode_spr_move rt spr w lr ctr :
  fld w 31 1 = 0 -> fld w 16 5 = 0 -> fld w 11 5 = spr ->
  decode_spr w lr ctr = if spr =? 8 then lr else if spr =? 9 then ctr else Other w.
Proof. intros H1 H2 H3. unfold decode_spr, flag. rewrite H1, H2, H3. reflexivity. Qed.

Lemma decode_encodeMtlr rs : reg rs -> decode (encodeMtlr rs) = Mtlr rs.
Proof.
  unfold reg. intros Hs. unfold encodeMtlr. rewrite encodeMtspr_sum, (Z.mod_small rs) by lia.
  match goal with |- decode ?w = _ => edestruct (decode_D31 rs 8 467 w) as (E1 & E2 & E3 & E4 & E5 & E6) end;
    [exact Hs|lia|lia|reflexivity|].
  unfold decode, decode_spr, flag. rewrite E1, E2, E5, E3, E4, E6. reflexivity.
Qed.

Lemma decode_encodeMtctr rs : reg rs -> decode (encodeMtctr rs) = Mtctr rs.
Proof.
  unfold reg. intros Hs. unfold encodeMtctr. rewrite encodeMtspr_sum, (Z.mod_small rs) by lia.
  match goal with |- decode ?w = _ => edestruct (decode_D31 rs 9 467 w) as (E1 & E2 & E3 & E4 & E5 & E6) end;
    [exact Hs|lia|lia|reflexivity|].
  unfold decode, decode_spr, flag. rewrite E1, E2, E5, E3, E4, E6. reflexivity.
Qed.

Lemma decode_encodeMflr rt : reg rt -> decode (encodeMflr rt) = Mflr rt.
Proof.
  unfold reg. intros Hs. unfold encodeMflr. rewrite encodeMfspr_sum, (Z.mod_small rt) by lia.
  match goal with |- decode ?w = _ => edestruct (decode_D31 rt 8 339 w) as (E1 & E2 & E3 & E4 & E5 & E6) end;
    [exact Hs|lia|lia|reflexivity|].
  unfold decode, decode_spr, flag. rewrite E1, E2, E5, E3, E4, E6. reflexivity.
Qed.

Lemma decode_encodeMfctr rt : reg rt -> decode (encodeMfctr rt) = Mfctr rt.
Proof.
  unfold reg. intros Hs. unfold encodeMfctr. rewrite encodeMfspr_sum, (Z.mod_small rt) by lia.
  match goal with |- decode ?w = _ => edestruct (decode_D31 rt 9 339 w) as (E1 & E2 & E3 & E4 & E5 & E6) end;
    [exact Hs|lia|lia|reflexivity|].
  unfold decode, decode_spr, flag. rewrite E1, E2, E5, E3, E4, E6. reflexivity.
Qed.

Lemma decode_DS op rt ra d xo w :
  reg rt -> reg ra -> d mod 4 = 0 -> 0 <= xo < 2 ^ 2 -> 0 <= op < 2 ^ 6 ->
  w = op * 2 ^ 26 + rt * 2 ^ 21 + ra * 2 ^ 16 + d mod 2 ^ 16 + xo ->
  fld w 0 6 = op /\ fld w 6 5 = rt /\ fld w 11 5 = ra /\
  fld w 16 14 * 4 = d mod 2 ^ 16 /\ fld w 30 2 = xo.
Proof.
  unfold reg. intros Ht Ha Hd Hx Ho ->. pose proof (mod_aligned 16 d). unfold fld.
  change (32 - 0 - 6) with 26. change (32 - 6 - 5) with 21. change (32 - 11 - 5) with 16.
  change (32 - 16 - 14) with 2. change (32 - 30 - 2) with 0.
  repeat split; Z.div_mod_to_equations; lia.
Qed.

Lemma encodeStdForm_Ret op xo rs ra d w :
  encodeStdForm op xo rs ra d = Ret w <->
  fits_signed 16 d = true /\
  w = op mod 2 ^ 6 * 2 ^ 26 + rs mod 2 ^ 5 * 2 ^ 21 + ra mod 2 ^ 5 * 2 ^ 16 +
      d mod 2 ^ 16 + xo mod 2 ^ 2.
Proof.
  rewrite encodeStdForm_spec. destruct (fits_signed 16 d).
  - split; [intros [= <-]; auto|intros [_ ->]; reflexivity].
  - split; [destruct (_ =? _); discriminate|intros [? _]; discriminate].
Qed.

Lemma decode_encodeStdForm op xo rs ra d w :
  reg rs -> reg ra -> (op = 62 \/ op = 58) -> (xo = 0 \/ xo = 1) ->
  encodeStdForm op xo rs ra d = Ret w ->
  decode w = if op =? 62 then Std rs ra d (xo =? 1) else Ld rs ra d (xo =? 1).
Proof.
  unfold reg. intros Hs Ha Ho Hx [Hf Hw]%encodeStdForm_Ret. apply fits_signed_spec in Hf as [Hd Hr].
  rewrite (Z.mod_small op), (Z.mod_small rs), (Z.mod_small ra), (Z.mod_small xo) in Hw by lia.
  edestruct (decode_DS op rs ra d xo w) as (E1 & E2 & E3 & E4 & E5); [exact Hs|exact Ha|lia..|].
  unfold decode. rewrite E1, E2, E3, E5, E4, sext_small by lia.
  destruct Ho as [->| ->], Hx as [->| ->]; reflexivity.
Qed.

Lemma decode_MD ra rs sh mb rc w :
  reg ra -> reg rs -> 0 <= sh < 2 ^ 6 -> 0 <= mb < 2 ^ 6 ->
  w = 30 * 2 ^ 26 + rs * 2 ^ 21 + ra * 2 ^ 16 + sh mod 2 ^ 5 * 2 ^ 11 +
      mb * 2 ^ 5 + sh / 2 ^ 5 mod 2 * 2 + Z.b2z rc ->
  fld w 0 6 = 30 /\ fld w 6 5 = rs /\ fld w 11 5 = ra /\ fld w 27 3 = 0 /\
  fld w 30 1 * 2 ^ 5 + fld w 16 5 = sh /\
  fld w 26 1 * 2 ^ 5 + fld w 21 5 = mb mod 2 * 2 ^ 5 + mb / 2 /\ fld w 31 1 = Z.b2z rc.
Proof.
  unfold reg. intros Ha Hs Hsh Hmb ->.
  assert (0 <= Z.b2z rc < 2) as Hk by (destruct rc; cbn; lia). unfold fld.
  change (32 - 0 - 6) with 26. change (32 - 6 - 5) with 21. change (32 - 11 - 5) with 16.
  change (32 - 27 - 3) with 2. change (32 - 30 - 1) with 1. change (32 - 16 - 5) with 11.
  change (32 - 26 - 1) with 5. change (32 - 21 - 5) with 6. change (32 - 31 - 1) with 0.
  repeat split; Z.div_mod_to_equations; lia.
Qed.

(** The instruction set splits the mask field as [mb5 || mb0:4], with the low
    bit of the number last in the word; the encoder stores the number
    unsplit, so the word means the rotated value. *)
Lemma decode_encodeRldicl ra rs sh mb rc :
  reg ra -> reg rs -> 0 <= sh < 2 ^ 6 -> 0 <= mb < 2 ^ 6 ->
  decode (encodeRldicl ra rs sh mb rc) = Rldicl ra rs sh (mb mod 2 * 2 ^ 5 + mb / 2) rc.
Proof.
  unfold reg. intros Ha Hs Hsh Hmb.
  rewrite encodeRldicl_sum, (Z.mod_small rs), (Z.mod_small ra), (Z.mod_small mb) by lia.
  edestruct (decode_MD ra rs sh mb rc) as (E1 & E2 & E3 & E4 & E5 & E6 & E7);
    [exact Ha|exact Hs|lia|lia|reflexivity|].
  unfold decode, flag. rewrite E1, E2, E3, E4, E5, E6, E7. destruct rc; reflexivity.
Qed.

Lemma decode_encodeBctr : decode encodeBctr = Bcctr 20 0 false.
Proof. reflexivity. Qed.

(** ** Branches *)

Lemma flag_bit w i : 0 <= i < 32 -> flag w i = bit (31 - i) w.
Proof. intros. unfold flag, fld, bit. change (2 ^ 1) with 2. do 4 f_equal. lia. Qed.

(** The decoder's view of a word [classify] reads as a relative branch. *)
Lemma decode_relative w :
  0 <= w < 2 ^ 32 -> kind (classify w) = DirectRelative ->
  let b := classify w in
  decode w = if isConditionalForm b then Bc (bo b) (bi b) (displacement b) false (link b)
             else B (displacement b) false (link b).
Proof.
  intros Hw. rewrite classify_fields by exact Hw. unfold decode.
  rewrite !(flag_bit w) by lia. change (31 - 30) with 1. change (31 - 31) with 0.
  assert (fld w 0 6 = opcode_of w) as ->.
  { unfold fld, opcode_of. change (32 - 0 - 6) with 26. apply Z.mod_small. zarith. }
  destruct (Z.eqb_spec (opcode_of w) 18) as [->|_].
  { destruct (bit 1 w); [discriminate|]. intros _. reflexivity. }
  destruct (Z.eqb_spec (opcode_of w) 16) as [->|_].
  { cbv zeta. destruct (bit 1 w); [discriminate|]. intros _. reflexivity. }
  repeat (match goal with |- context [if ?c then mkDecodedBranch _ _ _ _ _ _ _ else _] =>
    destruct c end; [discriminate|]).
  discriminate.
Qed.

(** The fields of the two forms of direct branches. *)
Lemma decode_direct op rt ra d aa lk w :
  reg rt -> reg ra -> d mod 4 = 0 -> 0 <= op < 2 ^ 6 ->
  (w = op * 2 ^ 26 + d mod 2 ^ 26 + Z.b2z aa * 2 + Z.b2z lk ->
   fld w 0 6 = op /\ fld w 6 24 * 4 = d mod 2 ^ 26 /\
   fld w 30 1 = Z.b2z aa /\ fld w 31 1 = Z.b2z lk) /\
  (w = op * 2 ^ 26 + rt * 2 ^ 21 + ra * 2 ^ 16 + d mod 2 ^ 16 + Z.b2z aa * 2 + Z.b2z lk ->
   fld w 0 6 = op /\ fld w 6 5 = rt /\ fld w 11 5 = ra /\ fld w 16 14 * 4 = d mod 2 ^ 16 /\
   fld w 30 1 = Z.b2z aa /\ fld w 31 1 = Z.b2z lk).
Proof.
  unfold reg. intros Ht Ha Hd Ho. pose proof (mod_aligned 16 d). pose proof (mod_aligned 26 d).
  assert (0 <= Z.b2z aa < 2 /\ 0 <= Z.b2z lk < 2) as [Hx Hk] by (destruct aa, lk; cbn; lia). unfold fld.
  change (32 - 0 - 6) with 26. change (32 - 6 - 24) with 2. change (32 - 6 - 5) with 21.
  change (32 - 11 - 5) with 16. change (32 - 16 - 14) with 2. change (32 - 30 - 1) with 1.
  change (32 - 31 - 1) with 0. split; intros ->; repeat split; Z.div_mod_to_equations; lia.
Qed.

Lemma decode_encodeBranch target absolute lk w :
  encodeBranch target absolute lk = Ret w -> decode w = B target absolute lk.
Proof.
  intros [Hf Hw]%encodeBranch_Ret. apply fits_signed_spec in Hf as [Ha Hr].
  destruct (decode_direct 18 0 0 target absolute lk w) as [H _]; [unfold reg; lia..|exact Ha|lia|].
  destruct (H Hw) as (E1 & E2 & E3 & E4). unfold decode, flag. rewrite E1, E2, E3, E4.
  rewrite sext_small by lia. destruct absolute, lk; reflexivity.
Qed.

Lemma decode_encodeBranchConditional o i target absolute lk w :
  reg o -> reg i -> encodeBranchConditional o i target absolute lk = Ret w ->
  decode w = Bc o i target absolute lk.
Proof.
  intros Ho Hi [Hf Hw]%encodeBranchConditional_Ret. apply fits_signed_spec in Hf as [Ha Hr].
  rewrite (Z.mod_small o), (Z.mod_small i) in Hw by (unfold reg in *; lia).
  destruct (decode_direct 16 o i target absolute lk w) as [_ H]; [exact Ho|exact Hi|exact Ha|lia|].
  destruct (H Hw) as (E1 & E2 & E3 & E4 & E5 & E6). unfold decode, flag. rewrite E1, E2, E3, E4, E5, E6.
  rewrite sext_small by lia. destruct absolute, lk; reflexivity.
Qed.

End decode_encode.

(** ** Execution *)

Lemma machine_eq (s t : machine) :
  (forall r, gpr s r = gpr t r) -> lr s = lr t -> ctr s = ctr t -> cr s = cr t -> pc s = pc t ->
  (forall a, mem s a = mem t a) -> s = t.
Proof.
  destruct s, t. cbn. intros Hg -> -> -> -> Hm. f_equal; apply functional_extensionality; assumption.
Qed.

Lemma upd_eq {A} (f : Z -> A) k v : upd f k v k = v.
Proof. unfold upd. rewrite Z.eqb_refl. reflexivity. Qed.

Lemma upd_ne {A} (f : Z -> A) k v x : x <> k -> upd f k v x = f x.
Proof. unfold upd. intros. destruct (Z.eqb_spec x k); [contradiction|reflexivity]. Qed.

Lemma upd_upd {A} (f : Z -> A) k v w : upd (upd f k v) k w = upd f k w.
Proof. apply functional_extensionality. intros x. unfold upd. destruct (x =? k); reflexivity. Qed.

(** What loadImmediate32 leaves in its register: the value itself below
    [2^31]; above, the sign extension of [lis] survives in bits 32 to 47. *)
Definition loaded (v : Z) : Z := if v <? 2 ^ 31 then v else v + 0xFFFF * 2 ^ 32.

Lemma loaded_range v : 0 <= v < 2 ^ 32 -> 0 <= loaded v < 2 ^ 64.
Proof. intros. unfold loaded. zcase; lia. Qed.

Lemma rotl64_0 x : 0 <= x < 2 ^ 64 -> rotl64 x 0 = x.
Proof. intros H. unfold rotl64. change (64 - 0) with 64. change (2 ^ 0) with 1. zarith. Qed.

Lemma high_half v : 0 <= v < 2 ^ 32 ->
  let hi := i16 (Z.land (Z.shiftr v 16) 0xFFFF) in
  - 2 ^ 15 <= hi < 2 ^ 15 /\
  u64 (hi * 2 ^ 16) = if v <? 2 ^ 31 then v / 2 ^ 16 * 2 ^ 16
                      else v / 2 ^ 16 * 2 ^ 16 + (2 ^ 64 - 2 ^ 32).
Proof.
  intros H. cbv zeta. rewrite (land_low 16), Z.shiftr_div_pow2 by lia.
  unfold i16, u16. zcase; split; zarith.
Qed.

Section exec.
Variable lv2 : machine -> machine.
Variable other : Z -> machine -> machine.

Definition advance (n : Z) (s : machine) : machine := set_pc (u64 (pc s + 4 * n)) s.

Lemma exec_loadImmediate32 r v s :
  reg r -> 0 <= v < 2 ^ 32 ->
  exec_words lv2 other (loadImmediate32 r v) s = advance 3 (set_gpr r (loaded v) s).
Proof.
  intros Hr Hv. destruct (high_half v Hv) as [Hhi Hval]. unfold loadImmediate32.
  cbv zeta. set (hi := i16 _) in *. rewrite (land_low 16) by lia.
  set (lo := u16 _). assert (0 <= lo < 2 ^ 16) by apply u16_range.
  unfold encodeLis, encodeClrldi. rewrite !exec_words_cons, exec_words_nil.
  rewrite decode_encodeAddis, decode_encodeOri, decode_encodeRldicl by (unfold reg in *; lia).
  cbn [exec]. unfold next, set_pc, set_gpr, ea, advance. cbn. rewrite !upd_eq, !upd_upd.
  unfold set_pc. cbn. rewrite Z.add_0_l, Hval. f_equal; [f_equal|zarith].
  change (64 - (32 mod 2 * 2 ^ 5 + 32 / 2)) with 48. unfold loaded.
  assert (lo = v mod 2 ^ 16) as Hlo by (unfold lo, u16; apply Z.mod_mod; lia).
  destruct (v <? 2 ^ 31) eqn:?; rewrite (lor_disjoint_add 16) by zarith;
    rewrite rotl64_0 by zarith; zarith.
Qed.

Lemma exec_makeAbsoluteJump r target s :
  reg r -> 0 <= target < 2 ^ 32 ->
  exec_words lv2 other (makeAbsoluteJump target r) s =
  set_pc (loaded target / 4 * 4) (set_ctr (loaded target) (set_gpr r (loaded target) s)).
Proof.
  intros Hr Ht. unfold makeAbsoluteJump. rewrite exec_words_app, exec_loadImmediate32 by assumption.
  rewrite !exec_words_cons, exec_words_nil.
  rewrite decode_encodeMtctr by assumption. rewrite decode_encodeBctr.
  cbn. rewrite upd_eq. reflexivity.
Qed.

Lemma exec_encodeBranch target w s :
  encodeBranch target false false = Ret w ->
  exec lv2 other (decode w) s = set_pc (u64 (pc s + target)) s.
Proof. intros ->%decode_encodeBranch. reflexivity. Qed.

(** A word read as a relative branch acts as one. *)
Lemma exec_relative w s :
  0 <= w < 2 ^ 32 -> kind (classify w) = DirectRelative ->
  let b := classify w in
  exec lv2 other (decode w) s =
  let s' := if isConditionalForm b then count_down (bo b) s else s in
  let taken := if isConditionalForm b then ctr_ok (bo b) s' && cond_ok (bo b) (bi b) s' else true in
  branch_to taken (link b) (u64 (pc s + displacement b)) s'.
Proof.
  intros Hw Hk. cbv zeta. rewrite (decode_relative w Hw Hk).
  destruct (isConditionalForm (classify w)); reflexivity.
Qed.

End exec.
