(* ===== verification/PpcMoveFacts.v ===== *)
(** * Instructions at another address

    What an instruction does when it, or the relative branch [relocateBranch]
    makes of it, is executed at another address than its own: the same, but for
    the address of the word that follows it, which a branch not taken continues
    at and a branch with its link bit set records. *)

From S2P Require Import Prelude.
From S2P Require Import Errors.
From S2P Require Import PpcEncode.
From S2P Require Import PpcDecode.
From S2P Require Import PpcSpec.
From S2P Require Import PpcSpecFacts.

(** The branch an instruction is, in the terms of [classify]. *)
Definition branch_of (i : insn) : DecodedBranch :=
  match i with
  | B li aa lk => direct_branch aa li lk false 0 0
  | Bc o i bd aa lk => direct_branch aa bd lk true o i
  | Bclr _ _ lk => mkDecodedBranch ToLinkRegister lk false 0 0 0 0
  | Bcctr _ _ lk => mkDecodedBranch ToCountRegister lk false 0 0 0 0
  | _ => mkDecodedBranch NotABranch false false 0 0 0 0
  end.

Lemma classify_decode (w : Z) : 0 <= w < 2 ^ 32 -> classify w = branch_of (decode w).
Proof.
  intros Hw. rewrite classify_fields by exact Hw. unfold decode.
  rewrite !(flag_bit w) by lia. change (31 - 30) with 1. change (31 - 31) with 0.
  assert (fld w 0 6 = opcode_of w) as ->.
  { unfold fld, opcode_of. change (32 - 0 - 6) with 26. apply Z.mod_small. zarith. }
  assert (w / 2 mod 2 ^ 10 = fld w 21 10) as -> by reflexivity.
  destruct (Z.eqb_spec (opcode_of w) 18) as [->|_].
  { cbn. unfold direct_branch. destruct (bit 1 w); reflexivity. }
  destruct (Z.eqb_spec (opcode_of w) 16) as [->|_].
  { cbn. unfold direct_branch. destruct (bit 1 w); reflexivity. }
  destruct (Z.eqb_spec (opcode_of w) 19) as [->|_].
  { cbn [Z.eqb Pos.eqb andb]. destruct (fld w 21 10 =? 16); [reflexivity|].
    destruct (fld w 21 10 =? 528); reflexivity. }
  cbn [andb]. unfold decode_spr.
  repeat match goal with |- context [if ?c then _ else _] => destruct c end; reflexivity.
Qed.

(** ** Moved instructions *)

Definition links (i : insn) : bool :=
  match i with B _ _ lk | Bc _ _ _ _ lk | Bclr _ _ lk | Bcctr _ _ lk => lk | _ => false end.

(** The link register of an instruction that sets it, replaced. *)
Definition relink (i : insn) (v : Z) (s : machine) : machine := if links i then set_lr v s else s.

(** Whether an instruction executed in [s] branches. *)
Definition taken (i : insn) (s : machine) : bool :=
  match i with
  | B _ _ _ => true
  | Bc o i _ _ _ | Bclr o i _ => let s' := count_down o s in ctr_ok o s' && cond_ok o i s'
  | Bcctr o i _ => cond_ok o i s
  | _ => false
  end.

(** [s'] is what the instruction leaves at [p] when [s] is what it leaves at
    [a]: the same when it branches, otherwise with [p]'s next word to come. *)
Definition moved (i : insn) (branches : bool) (a p : Z) (s s' : machine) : Prop :=
  if branches then s' = relink i (u64 (p + 4)) s
  else pc s = u64 (a + 4) /\ s' = set_pc (u64 (p + 4)) (relink i (u64 (p + 4)) s).

(** The instructions whose effect is known here. *)
Definition known (i : insn) : bool := match i with Sc | Other _ => false | _ => true end.

Definition relative (i : insn) : bool :=
  match i with B _ aa _ | Bc _ _ _ aa _ => negb aa | _ => false end.

(** The words [classify] calls relative branches. *)
Lemma relative_classify w :
  0 <= w < 2 ^ 32 -> relative (decode w) = true <-> kind (classify w) = DirectRelative.
Proof.
  intros Hw. rewrite classify_decode by exact Hw.
  destruct (decode w); cbn; try (split; congruence); destruct aa; cbn; split; congruence.
Qed.

(** The word an instruction becomes at its new address. *)
Definition relocated (w originalAddr newAddr : Z) : option Z :=
  if bool_decide (kind (classify w) = DirectRelative)
  then relocateBranch (classify w) originalAddr newAddr
  else Some w.

Section moved.
Variable lv2 : machine -> machine.
Variable other : Z -> machine -> machine.

Lemma moved_branch i a p branches lk target s :
  links i = lk ->
  moved i branches a p (branch_to branches lk target (set_pc a s))
    (branch_to branches lk target (set_pc p s)).
Proof.
  intros Hl. unfold moved, relink. rewrite Hl. unfold branch_to, next.
  destruct branches; destruct lk; cbn; auto.
Qed.

(** The count register's part of a branch does not look at the address. *)
Lemma count_down_pc o a s : count_down o (set_pc a s) = set_pc a (count_down o s).
Proof. unfold count_down. destruct (bit_of 5 o 2); reflexivity. Qed.

(** Every known instruction but a relative branch, word for word. *)
Lemma moved_same i a p s :
  known i = true -> relative i = false ->
  moved i (taken i s) a p (exec lv2 other i (set_pc a s)) (exec lv2 other i (set_pc p s)).
Proof.
  intros Hk Hr.
  destruct i; try discriminate Hk; cbn [exec relative taken] in *; try (cbn; split; reflexivity).
  - destruct rc; cbn; split; reflexivity.
  - destruct update; cbn; split; reflexivity.
  - destruct update; cbn; split; reflexivity.
  - destruct aa; [|discriminate Hr]. apply moved_branch. reflexivity.
  - destruct aa; [|discriminate Hr]. rewrite !count_down_pc. apply moved_branch. reflexivity.
  - rewrite !count_down_pc. apply moved_branch. reflexivity.
  - apply moved_branch. reflexivity.
Qed.

(** A relative branch, relocated. *)
Lemma moved_relative w w' a p s :
  0 <= w < 2 ^ 32 -> 0 <= p < 2 ^ 32 ->
  relocateBranch (classify w) a p = Some w' -> 0 <= a + displacement (classify w) < 2 ^ 32 ->
  moved (decode w) (taken (decode w) s) a p (exec lv2 other (decode w) (set_pc a s))
    (exec lv2 other (decode w') (set_pc p s)).
Proof.
  intros Hw Hn Hr Ht. assert (kind (classify w) = DirectRelative) as Hk.
  { unfold relocateBranch in Hr. case_bool_decide as Hb; [discriminate|].
    destruct (decide (kind (classify w) = DirectRelative)); [assumption|contradiction]. }
  destruct (classify_relative w Hw Hk) as [Hb _].
  rewrite relocateBranch_spec in Hr by exact Hk. rewrite u32_small in Hr by lia.
  destruct (fits_signed _ _); [|discriminate].
  destruct (reencode (classify w) _) as [v|] eqn:He; [|discriminate]. injection Hr as ->.
  destruct (classify_reencode _ _ _ Hb He) as [Hw' Hc].
  rewrite (exec_relative lv2 other w _ Hw Hk).
  rewrite (exec_relative lv2 other w' _ Hw') by (rewrite Hc; exact Hk). rewrite Hc.
  cbn [with_displacement isConditionalForm bo bi link displacement].
  change (pc (set_pc a s)) with a. change (pc (set_pc p s)) with p.
  replace (p + (a + displacement (classify w) - p)) with (a + displacement (classify w)) by lia.
  rewrite (decode_relative w Hw Hk).
  destruct (isConditionalForm (classify w)); cbn [taken];
    [rewrite !count_down_pc|]; apply moved_branch; reflexivity.
Qed.

(** A word and what it becomes. *)
Lemma moved_relocated w w' a p s :
  0 <= w < 2 ^ 32 -> 0 <= p < 2 ^ 32 -> known (decode w) = true ->
  0 <= a + displacement (classify w) < 2 ^ 32 -> relocated w a p = Some w' ->
  moved (decode w) (taken (decode w) s) a p (exec lv2 other (decode w) (set_pc a s))
    (exec lv2 other (decode w') (set_pc p s)).
Proof.
  intros Hw Hp Hk Ht Hr. unfold relocated in Hr. case_bool_decide as Hkind.
  - apply moved_relative; assumption.
  - injection Hr as <-. apply moved_same; [exact Hk|].
    apply not_true_is_false. rewrite (relative_classify w Hw). exact Hkind.
Qed.
End moved.
