(* ===== verification/PpcProperties.v ===== *)
(** * Properties of the instruction encoders and of branch relocation *)

From S2P Require Import Prelude.
From S2P Require Import Errors.
From S2P Require Import PpcEncode.
From S2P Require Import PpcDecode.
From S2P Require Import Syscalls.
From S2P Require Import PpcSpec.
From S2P Require Import PpcSpecFacts.
From S2P Require Import PpcMoveFacts.

(** A state to run witnesses on, with no system calls and no other instructions. *)
Definition blank : machine := mkMachine (fun _ => 0) 0 0 0 0x10000 (fun _ => Byte.x00).
Definition no_lv2 (s : machine) : machine := s.
Definition no_other (_ : Z) (s : machine) : machine := s.

(** The 32-bit word [w] is the instruction [i]. *)
Definition builds (w : Z) (i : insn) : Prop := 0 <= w < 2 ^ 32 /\ decode w = i.

Ltac word_range := Z.div_mod_to_equations; lia.

(** [spec] gives the word as a sum of fields, [dec] what it decodes to. *)
Ltac by_fields spec dec :=
  split; [unfold encodeMtlr, encodeMflr, encodeMtctr, encodeMfctr; rewrite spec; unfold u16; word_range
         |apply dec; assumption].

Lemma builds_moves (r : Z) :
  reg r ->
  builds (encodeMtlr r) (Mtlr r) /\ builds (encodeMflr r) (Mflr r) /\
  builds (encodeMtctr r) (Mtctr r) /\ builds (encodeMfctr r) (Mfctr r).
Proof.
  intros Hr. conj; [by_fields encodeMtspr_sum decode_encodeMtlr|by_fields encodeMfspr_sum decode_encodeMflr|
    by_fields encodeMtspr_sum decode_encodeMtctr|by_fields encodeMfspr_sum decode_encodeMfctr].
Qed.

Lemma builds_immediates (rd ra simm uimm : Z) :
  reg rd -> reg ra -> - 2 ^ 15 <= simm < 2 ^ 15 -> 0 <= uimm < 2 ^ 16 ->
  builds (encodeAddi rd ra simm) (Addi rd ra simm) /\
  builds (encodeAddis rd ra simm) (Addis rd ra simm) /\
  builds (encodeOri ra rd uimm) (Ori ra rd uimm).
Proof.
  intros Hd Ha Hs Hu. conj; [by_fields encodeAddi_sum decode_encodeAddi|
    by_fields encodeAddis_sum decode_encodeAddis|by_fields encodeOri_sum decode_encodeOri].
Qed.

Lemma encodeRldicl_range (ra rs sh mb : Z) (rc : bool) : 0 <= encodeRldicl ra rs sh mb rc < 2 ^ 32.
Proof. rewrite encodeRldicl_sum. assert (0 <= Z.b2z rc < 2) by (destruct rc; cbn; lia). word_range. Qed.

(** The word of [encodeRldicl], which is the named instruction for two masks only. *)
Lemma builds_rldicl (ra rs sh mb : Z) (rc : bool) :
  reg ra -> reg rs -> 0 <= sh < 2 ^ 6 -> 0 <= mb < 2 ^ 6 ->
  builds (encodeRldicl ra rs sh mb rc) (Rldicl ra rs sh (mb mod 2 * 2 ^ 5 + mb / 2) rc) /\
  (builds (encodeRldicl ra rs sh mb rc) (Rldicl ra rs sh mb rc) <-> mb = 0 \/ mb = 63).
Proof.
  intros Ha Hs Hsh Hmb. unfold builds. rewrite decode_encodeRldicl by assumption.
  pose proof (encodeRldicl_range ra rs sh mb rc) as Hw. split; [auto|]. split.
  - intros [_ [= H]]. word_range.
  - intros [->| ->]; auto.
Qed.

(** C22: the encoders without a displacement.  All of them but [encodeRldicl]
    and [encodeClrldi], at the registers and in the ranges of their operand
    types, build the 32-bit word that the instruction set decodes to the
    instruction the encoder is named after, with the operands it was given
    ([encodeMtspr] and [encodeMfspr] at the two registers the program moves, the
    link and the count register).  [encodeRldicl] builds the instruction with
    the mask rotated by one bit ([encodeClrldi] likewise), which is the named
    one for the masks 0 and 63 and for no other. *)
Theorem encoders_decode (rd ra simm uimm sh mb : Z) (rc : bool) :
  reg rd -> reg ra -> - 2 ^ 15 <= simm < 2 ^ 15 -> 0 <= uimm < 2 ^ 16 ->
  0 <= sh < 2 ^ 6 -> 0 <= mb < 2 ^ 6 ->
  let rotated := mb mod 2 * 2 ^ 5 + mb / 2 in
  builds (encodeAddi rd ra simm) (Addi rd ra simm) /\
  builds (encodeLi rd simm) (Addi rd 0 simm) /\
  builds (encodeAddis rd ra simm) (Addis rd ra simm) /\
  builds (encodeLis rd simm) (Addis rd 0 simm) /\
  builds (encodeOri ra rd uimm) (Ori ra rd uimm) /\
  builds (encodeMtspr rd SPR_LR) (Mtlr rd) /\ builds (encodeMtspr rd SPR_CTR) (Mtctr rd) /\
  builds (encodeMfspr rd SPR_LR) (Mflr rd) /\ builds (encodeMfspr rd SPR_CTR) (Mfctr rd) /\
  builds (encodeMtlr rd) (Mtlr rd) /\ builds (encodeMflr rd) (Mflr rd) /\
  builds (encodeMtctr rd) (Mtctr rd) /\ builds (encodeMtctrSpr rd) (Mtctr rd) /\
  builds (encodeMfctr rd) (Mfctr rd) /\
  builds encodeBctr (Bcctr 20 0 false) /\ builds encodeSc Sc /\
  builds (encodeRldicl ra rd sh mb rc) (Rldicl ra rd sh rotated rc) /\
  builds (encodeClrldi ra rd mb) (Rldicl ra rd 0 rotated false) /\
  (builds (encodeRldicl ra rd sh mb rc) (Rldicl ra rd sh mb rc) <-> mb = 0 \/ mb = 63) /\
  (builds (encodeClrldi ra rd mb) (Rldicl ra rd 0 mb false) <-> mb = 0 \/ mb = 63).
Proof.
  intros Hd Ha Hs Hu Hsh Hmb. cbv zeta. assert (reg 0) as H0 by (unfold reg; lia).
  destruct (builds_moves rd Hd) as (M1 & M2 & M3 & M4).
  destruct (builds_immediates rd ra simm uimm Hd Ha Hs Hu) as (I1 & I2 & I3).
  destruct (builds_immediates rd 0 simm uimm Hd H0 Hs Hu) as (I4 & I5 & _).
  destruct (builds_rldicl ra rd sh mb rc Ha Hd Hsh Hmb) as [R1 R2].
  destruct (builds_rldicl ra rd 0 mb false Ha Hd ltac:(lia) Hmb) as [R3 R4].
  conj; try assumption; (split; [vm_compute; split; congruence|reflexivity]).
Qed.

Lemma encoders_decode_witness :
  reg 3 /\ builds (encodeAddi 3 1 (-256)) (Addi 3 1 (-256)) /\ encodeAddi 3 1 (-256) = 0x3861FF00 /\
  builds (encodeClrldi 3 3 32) (Rldicl 3 3 0 16 false).
Proof.
  destruct (encoders_decode 3 1 (-256) 0 0 32 false) as (H & _); [unfold reg; lia..|].
  destruct (encoders_decode 3 3 (-256) 0 0 32 false)
    as (_ & _ & _ & _ & _ & _ & _ & _ & _ & _ & _ & _ & _ & _ & _ & _ & _ & H' & _); [unfold reg; lia..|].
  split; [unfold reg; lia|]. split; [exact H|]. split; [reflexivity|exact H'].
Defined.

(** A displacement that a 16-bit field holds, and one that the field of [b] holds. *)
Definition fits16 (d : Z) : Prop := d mod 4 = 0 /\ - 2 ^ 15 <= d < 2 ^ 15.
Definition fits26 (d : Z) : Prop := d mod 4 = 0 /\ - 2 ^ 25 <= d < 2 ^ 25.

Lemma fits16_spec d : fits_signed 16 d = true <-> fits16 d.
Proof. apply fits_signed_spec. Qed.
Lemma fits26_spec d : fits_signed 26 d = true <-> fits26 d.
Proof. apply fits_signed_spec. Qed.

Lemma encodeBranch_exact (d : Z) (aa lk : bool) :
  match encodeBranch d aa lk with
  | Ret w => fits26 d /\ builds w (B d aa lk)
  | Throw _ => ~ fits26 d
  end.
Proof.
  pose proof (decode_encodeBranch d aa lk) as Hd. pose proof (classify_encodeBranch d aa lk) as Hc.
  destruct (encodeBranch d aa lk) as [w|m] eqn:E.
  - specialize (Hd w eq_refl). specialize (Hc w eq_refl) as [Hw _].
    apply encodeBranch_Ret in E as [Hf _]. apply fits26_spec in Hf. repeat split; try apply Hf; try apply Hw; exact Hd.
  - rewrite encodeBranch_spec in E. destruct (fits_signed 26 d) eqn:Hf; [discriminate|].
    intros H. apply fits26_spec in H. congruence.
Qed.

Lemma encodeBranchConditional_exact (o i d : Z) (aa lk : bool) :
  reg o -> reg i ->
  match encodeBranchConditional o i d aa lk with
  | Ret w => fits16 d /\ builds w (Bc o i d aa lk)
  | Throw _ => ~ fits16 d
  end.
Proof.
  intros Ho Hi. pose proof (decode_encodeBranchConditional o i d aa lk) as Hd.
  pose proof (classify_encodeBranchConditional o i d aa lk) as Hc.
  destruct (encodeBranchConditional o i d aa lk) as [w|m] eqn:E.
  - specialize (Hd w Ho Hi eq_refl). specialize (Hc w Ho Hi eq_refl) as [Hw _].
    apply encodeBranchConditional_Ret in E as [Hf _]. apply fits16_spec in Hf.
    repeat split; try apply Hf; try apply Hw; exact Hd.
  - rewrite encodeBranchConditional_spec in E. destruct (fits_signed 16 d) eqn:Hf; [discriminate|].
    intros H. apply fits16_spec in H. congruence.
Qed.

Lemma encodeStdForm_exact (op xo rt ra d : Z) :
  reg rt -> reg ra -> op = 62 \/ op = 58 -> xo = 0 \/ xo = 1 ->
  match encodeStdForm op xo rt ra d with
  | Ret w => fits16 d /\
      builds w (if op =? 62 then Std rt ra d (xo =? 1) else Ld rt ra d (xo =? 1))
  | Throw _ => ~ fits16 d
  end.
Proof.
  intros Ht Ha Ho Hx. pose proof (decode_encodeStdForm op xo rt ra d) as Hd.
  destruct (encodeStdForm op xo rt ra d) as [w|m] eqn:E.
  - specialize (Hd w Ht Ha Ho Hx eq_refl). apply encodeStdForm_Ret in E as [Hf Hw].
    apply fits16_spec in Hf. pose proof (mod_aligned 16 d ltac:(lia) (proj1 Hf)).
    split; [exact Hf|]. split; [rewrite Hw; word_range|exact Hd].
  - rewrite encodeStdForm_spec in E. destruct (fits_signed 16 d) eqn:Hf; [discriminate|].
    intros H. apply fits16_spec in H. congruence.
Qed.

(** C21: the encoders with a displacement (or, for an absolute branch, a target)
    throw exactly when it is not a multiple of 4 or does not fit the signed
    field (16 bits for std, stdu, ld, ldu and the conditional branches, 26 bits
    for b), and otherwise build the 32-bit word that the instruction set decodes
    to the instruction they are named after, with the displacement, registers,
    condition, absolute bit and link bit they were given. *)
Theorem displacement_encoders_exact (rt ra o i d : Z) (aa lk : bool) :
  reg rt -> reg ra -> reg o -> reg i ->
  match encodeBranch d aa lk with
  | Ret w => fits26 d /\ builds w (B d aa lk)
  | Throw _ => ~ fits26 d
  end /\
  match encodeBranchConditional o i d aa lk with
  | Ret w => fits16 d /\ builds w (Bc o i d aa lk)
  | Throw _ => ~ fits16 d
  end /\
  match encodeStd rt ra d, encodeStdu rt ra d, encodeLd rt ra d, encodeLdu rt ra d with
  | Ret std, Ret stdu, Ret ld, Ret ldu => fits16 d /\
      builds std (Std rt ra d false) /\ builds stdu (Std rt ra d true) /\
      builds ld (Ld rt ra d false) /\ builds ldu (Ld rt ra d true)
  | Throw _, Throw _, Throw _, Throw _ => ~ fits16 d
  | _, _, _, _ => False
  end.
Proof.
  intros Ht Ha Ho Hi. split; [apply encodeBranch_exact|].
  split; [apply encodeBranchConditional_exact; assumption|].
  pose proof (encodeStdForm_exact 62 0 rt ra d Ht Ha) as H1.
  pose proof (encodeStdForm_exact 62 1 rt ra d Ht Ha) as H2.
  pose proof (encodeStdForm_exact 58 0 rt ra d Ht Ha) as H3.
  pose proof (encodeStdForm_exact 58 1 rt ra d Ht Ha) as H4.
  unfold encodeStd, encodeStdu, encodeLd, encodeLdu.
  repeat match goal with H : ?a = _ \/ _ -> ?b = _ \/ _ -> _ |- _ => specialize (H ltac:(auto) ltac:(auto)) end.
  destruct (encodeStdForm 62 0 rt ra d), (encodeStdForm 62 1 rt ra d), (encodeStdForm 58 0 rt ra d),
    (encodeStdForm 58 1 rt ra d); cbn in H1, H2, H3, H4; tauto.
Qed.

Lemma displacement_encoders_exact_witness :
  builds 0xF821FF01 (Std 1 1 (-256) true) /\ builds 0x4182FF01 (Bc 12 2 (-256) false true) /\
  builds 0x4BFFFF02 (B (-256) true false) /\ ~ fits26 6.
Proof.
  destruct (displacement_encoders_exact 1 1 12 2 (-256) false true) as (_ & H2 & H3); [unfold reg; lia..|].
  destruct (displacement_encoders_exact 1 1 12 2 (-256) true false) as (H1 & _); [unfold reg; lia..|].
  destruct (displacement_encoders_exact 1 1 12 2 6 false false) as (H4 & _); [unfold reg; lia..|].
  split; [apply H3|]. split; [apply H2|]. split; [apply H1|exact H4].
Defined.

(** A branch is classified with the target, link bit, form and condition it was
    encoded with. *)
Lemma classify_encoded (o i target : Z) (absolute lk : bool) (w : Z) :
  reg o -> reg i ->
  (encodeBranch target absolute lk = Ret w ->
   classify w = direct_branch absolute target lk false 0 0) /\
  (encodeBranchConditional o i target absolute lk = Ret w ->
   classify w = direct_branch absolute target lk true o i).
Proof.
  intros Ho Hi. split; intros H.
  - apply (classify_encodeBranch target absolute lk w H).
  - apply (classify_encodeBranchConditional o i target absolute lk w Ho Hi H).
Qed.

(** A word classified as a direct branch is rebuilt from what [classify] returns. *)
Lemma encode_classified (w : Z) :
  0 <= w < 2 ^ 32 ->
  let b := classify w in
  kind b = DirectRelative \/ kind b = DirectAbsolute ->
  let absolute := bool_decide (kind b = DirectAbsolute) in
  let target := if absolute then i32 (absoluteTarget b) else displacement b in
  (if isConditionalForm b
   then encodeBranchConditional (bo b) (bi b) target absolute (link b)
   else encodeBranch target absolute (link b)) = Ret w.
Proof.
  intros Hw. rewrite classify_fields by exact Hw.
  assert (forall z, - 2 ^ 31 <= z < 2 ^ 31 -> i32 (u32 z) = z) as Hi.
  { intros z Hz. unfold i32. zcase; zarith. }
  destruct (Z.eqb_spec (opcode_of w) 18) as [H18|_].
  { pose proof (encodeBranch_li_of w H18) as He. destruct (li_of_spec w) as [Hr%fits_signed_spec _].
    destruct (bit 1 w); cbn; intros _; [rewrite Hi by lia|]; exact He. }
  destruct (Z.eqb_spec (opcode_of w) 16) as [H16|_].
  { pose proof (encodeBranchConditional_bd_of w H16) as He.
    destruct (bd_of_spec w) as [Hr%fits_signed_spec _].
    cbv zeta. destruct (bit 1 w); cbn [kind isConditionalForm bo bi link displacement absoluteTarget];
      intros _; [rewrite bool_decide_true by reflexivity; rewrite Hi by lia|]; exact He. }
  repeat (match goal with |- context [if ?c then mkDecodedBranch _ _ _ _ _ _ _ else _] =>
    destruct c end; [cbv zeta; intros [H|H]; discriminate H|]).
  cbv zeta. intros [H|H]; discriminate H.
Qed.

(** C30: [classify] and the branch encoders invert each other.  A branch encoded
    by [encodeBranch] or [encodeBranchConditional] is classified with the
    target, link bit, form and condition it was encoded with; and every word
    [classify] calls a relative or absolute branch is rebuilt, bit for bit, by
    encoding what [classify] returned. *)
Theorem classify_inverts (o i target : Z) (absolute lk : bool) (w : Z) :
  reg o -> reg i -> 0 <= w < 2 ^ 32 ->
  (encodeBranch target absolute lk = Ret w ->
   classify w = direct_branch absolute target lk false 0 0) /\
  (encodeBranchConditional o i target absolute lk = Ret w ->
   classify w = direct_branch absolute target lk true o i) /\
  let b := classify w in
  (kind b = DirectRelative \/ kind b = DirectAbsolute ->
   let absolute := bool_decide (kind b = DirectAbsolute) in
   let target := if absolute then i32 (absoluteTarget b) else displacement b in
   (if isConditionalForm b
    then encodeBranchConditional (bo b) (bi b) target absolute (link b)
    else encodeBranch target absolute (link b)) = Ret w).
Proof.
  intros Ho Hi Hw. destruct (classify_encoded o i target absolute lk w Ho Hi) as [H1 H2].
  conj; [exact H1|exact H2|exact (encode_classified w Hw)].
Qed.

Lemma classify_inverts_witness :
  classify 0x41828001 = direct_branch false (-32768) true true 12 2 /\
  encodeBranchConditional 12 2 (-32768) false true = Ret 0x41828001.
Proof.
  destruct (classify_inverts 12 2 (-32768) false true 0x41828001) as (_ & H2 & H3);
    [unfold reg; lia..|lia|]. split.
  - apply H2. reflexivity.
  - apply H3. left. reflexivity.
Defined.

(** C16: [classify] agrees with the instruction set on every 32-bit word: it
    reports the branch the word decodes to, and no branch for every other word. *)
Theorem classify_is_decode (w : Z) : 0 <= w < 2 ^ 32 -> classify w = branch_of (decode w).
Proof. apply classify_decode. Qed.

Lemma classify_is_decode_witness : classify 0x4E800020 = branch_of (decode 0x4E800020) /\
  kind (classify 0x4E800020) = ToLinkRegister.
Proof. split; [apply (classify_is_decode 0x4E800020); lia|reflexivity]. Defined.

(** C10: a relative branch relocated from one address to another does there what
    the original does in place: same decision, same target when taken, same
    registers and memory; a branch not taken continues at the word after the new
    place instead of the old one, and the link register, when the branch sets
    it, holds the address of that word. *)
Theorem relocateBranch_executes lv2 other (w w' originalAddr newAddr : Z) (s : machine) :
  0 <= w < 2 ^ 32 -> 0 <= newAddr < 2 ^ 32 ->
  relocateBranch (classify w) originalAddr newAddr = Some w' ->
  0 <= originalAddr + displacement (classify w) < 2 ^ 32 ->
  moved (decode w) (taken (decode w) s) originalAddr newAddr
    (exec lv2 other (decode w) (set_pc originalAddr s))
    (exec lv2 other (decode w') (set_pc newAddr s)).
Proof. apply moved_relative. Qed.

(** A conditional branch back by 16 bytes, moved forward by 0x4000. *)
Lemma relocateBranch_executes_witness :
  relocateBranch (classify 0x4182FFF0) 0x10000 0x14000 = Some 0x4182BFF0 /\
  moved (decode 0x4182FFF0) false 0x10000 0x14000
    (exec no_lv2 no_other (decode 0x4182FFF0) (set_pc 0x10000 blank))
    (exec no_lv2 no_other (decode 0x4182BFF0) (set_pc 0x14000 blank)).
Proof.
  split; [vm_compute; reflexivity|].
  apply (relocateBranch_executes no_lv2 no_other 0x4182FFF0 0x4182BFF0 0x10000 0x14000 blank);
    vm_compute; try reflexivity; split; congruence.
Defined.

(** C20: [relocateBranch] refuses a relative branch exactly when no instruction
    of the same form, condition and link bit placed at the new address reaches
    the branch's target. *)
Theorem relocateBranch_refuses_exactly (w originalAddr newAddr : Z) :
  0 <= w < 2 ^ 32 -> kind (classify w) = DirectRelative ->
  relocateBranch (classify w) originalAddr newAddr = None <->
  ~ exists w' d, 0 <= w' < 2 ^ 32 /\ classify w' = with_displacement (classify w) d /\
      newAddr + d = u32 (originalAddr + displacement (classify w)).
Proof.
  intros Hw Hk. rewrite relocateBranch_spec by exact Hk. cbv zeta.
  destruct (classify_relative w Hw Hk) as [Hb _]. set (b := classify w) in *.
  set (t := u32 _). pose proof (reencode_fits b (t - newAddr)) as Hf.
  destruct (fits_signed (form_width b) (t - newAddr)) eqn:Hfit.
  - destruct Hf as [w' Hw']. rewrite Hw'. split; [discriminate|]. intros Hno. exfalso. apply Hno.
    exists w', (t - newAddr). destruct (classify_reencode _ _ _ Hb Hw'). split; [auto|]. split; [auto|lia].
  - split; [|reflexivity]. intros _ (w' & d & Hw' & Hc & Ht).
    assert (kind (classify w') = DirectRelative) as Hk' by (rewrite Hc; exact Hk).
    destruct (classify_relative w' Hw' Hk') as [Hb' _]. pose proof (rb_fits _ Hb') as Hfit'.
    rewrite Hc in Hfit'. change (fits_signed (form_width b) d = true) in Hfit'.
    replace d with (t - newAddr) in Hfit' by lia. congruence.
Qed.

Lemma relocateBranch_refuses_exactly_witness :
  kind (classify 0x4182FFF0) = DirectRelative /\
  ~ exists w' d, 0 <= w' < 2 ^ 32 /\ classify w' = with_displacement (classify 0x4182FFF0) d /\
      0x20000 + d = u32 (0x10000 + displacement (classify 0x4182FFF0)).
Proof.
  split; [reflexivity|].
  apply (relocateBranch_refuses_exactly 0x4182FFF0 0x10000 0x20000); [lia|reflexivity..].
Defined.

(** C23: [loadImmediate32] changes nothing but its register and the program
    counter.  A value below [2^31] is left there with clear upper bits.  At
    [2^31] and above bits 32 to 47 of the register are left set: the mask of
    [encodeClrldi ra rs 32] is written to its field unsplit, and the word is the
    one the instruction set reads as clearing 16 bits, not 32. *)
Theorem loadImmediate32_result lv2 other (r v : Z) (s : machine) :
  reg r -> 0 <= v < 2 ^ 32 ->
  (v < 2 ^ 31 -> exec_words lv2 other (loadImmediate32 r v) s = advance 3 (set_gpr r v s)) /\
  (2 ^ 31 <= v ->
   exec_words lv2 other (loadImmediate32 r v) s = advance 3 (set_gpr r (0x0000FFFF00000000 + v) s)) /\
  decode (encodeClrldi r r 32) = Rldicl r r 0 16 false.
Proof.
  intros Hr Hv. rewrite exec_loadImmediate32 by (auto; lia). unfold loaded. split; [|split].
  - intros Hl. replace (v <? 2 ^ 31) with true by lia. reflexivity.
  - intros Hl. replace (v <? 2 ^ 31) with false by lia. do 2 f_equal. lia.
  - unfold encodeClrldi. rewrite decode_encodeRldicl by (auto; lia). reflexivity.
Qed.

Lemma loadImmediate32_result_witness :
  loadImmediate32 3 0x1234ABCD = [0x3C601234; 0x6063ABCD; 0x78630400] /\
  exec_words no_lv2 no_other (loadImmediate32 3 0x1234ABCD) blank =
  advance 3 (set_gpr 3 0x1234ABCD blank) /\
  exec_words no_lv2 no_other (loadImmediate32 3 0x80010000) blank =
  advance 3 (set_gpr 3 0x0000FFFF80010000 blank).
Proof.
  split; [reflexivity|]. split.
  - apply (loadImmediate32_result no_lv2 no_other 3 0x1234ABCD blank); unfold reg; lia.
  - apply (loadImmediate32_result no_lv2 no_other 3 0x80010000 blank); unfold reg; lia.
Defined.

(** C24: [makeAbsoluteJump] reaches an aligned target below [2^31], leaving the
    target in the scratch register and the count register and nothing else
    changed; at [2^31] and above it never reaches it. *)
Theorem makeAbsoluteJump_reaches lv2 other (target r : Z) (s : machine) :
  reg r -> 0 <= target < 2 ^ 32 -> target mod 4 = 0 ->
  let s' := exec_words lv2 other (makeAbsoluteJump target r) s in
  (target < 2 ^ 31 -> s' = set_pc target (set_ctr target (set_gpr r target s))) /\
  (2 ^ 31 <= target -> pc s' = 0x0000FFFF00000000 + target).
Proof.
  intros Hr Ht Ha. cbv zeta. rewrite exec_makeAbsoluteJump by assumption. unfold loaded. split; intros H.
  - replace (target <? 2 ^ 31) with true by lia. f_equal. Z.div_mod_to_equations; lia.
  - replace (target <? 2 ^ 31) with false by lia. cbn. Z.div_mod_to_equations; lia.
Qed.

Lemma makeAbsoluteJump_reaches_witness :
  exec_words no_lv2 no_other (makeAbsoluteJump 0x00720008 12) blank =
    set_pc 0x00720008 (set_ctr 0x00720008 (set_gpr 12 0x00720008 blank)) /\
  pc (exec_words no_lv2 no_other (makeAbsoluteJump 0x80010000 12) blank) = 0x0000FFFF80010000.
Proof.
  split.
  - apply (makeAbsoluteJump_reaches no_lv2 no_other 0x00720008 12 blank);
      [unfold reg; lia|lia|reflexivity|lia].
  - apply (makeAbsoluteJump_reaches no_lv2 no_other 0x80010000 12 blank);
      [unfold reg; lia|lia|reflexivity|lia].
Defined.
