(* ===== verification/Fixtures.v ===== *)
(** * Test files

    The bytes of the two fixtures under tests/fixtures/ and of a third file,
    the PS3 fixture with the 8-byte entry descriptor the program reads in place
    of the 24-byte one the generator writes.  They are the inputs the witnesses
    of the properties run on.  The generators of the two are modelled too, and
    write just these bytes. *)

From S2P Require Import Prelude.

Definition to_file (l : list Z) : list byte := byte_of <$> l.

(** The bytes of a sequence of [n]-byte big-endian numbers. *)
Definition rows (n : nat) (l : list Z) : list byte := concat (be_store n <$> l).

(** tests/fixtures/synthetic_be64.elf *)
Definition synthetic_be64 : list byte :=
  rows 16
  [0x7f454c46020201000000000000000000;
   0x00020015000000010000000000010000;
   0x00000000000000400000000000000097;
   0x00000000004000380001004000020000;
   0x00000001000000050000000000000078;
   0x00000000000100000000000000010000;
   0x000000000000001f000000000000001f;
   0x000000000000001048454c4c4f5f5053;
   0x335f5345474d454e545f444154415f50;
   0x414444494e475f000000000000000000;
   0x00000000000000000000000000000000;
   0x00000000000000000000000000000000;
   0x00000000000000000000000000000000;
   0x00000000000000000000000000000100;
   0x00000000000002000000000001000000;
   0x00000000000078000000000000001f00;
   0x00000000000000000000000000000100] ++
  be_store 7 0x00000000000000.

(** tests/fixtures/synthetic_ps3_opd.elf *)
Definition synthetic_ps3_opd : list byte :=
  rows 16
  [0x7f454c46020201000000000000000000;
   0x00020015000000010000000000020000;
   0x000000000000004000000000000000e8;
   0x00000000004000380002004000010000;
   0x000000010000000500000000000000b0;
   0x00000000000100000000000000010000;
   0x00000000000000200000000000000020;
   0x00000000000000100000000100000006;
   0x00000000000000d00000000000020000;
   0x00000000000200000000000000000018;
   0x00000000000000180000000000000010;
   0x60000000600000006000000060000000;
   0x60000000600000006000000060000000;
   0x00000000000100080000000000030000;
   0x00000000000000000000000000000000;
   0x00000000000000000000000000000000;
   0x00000000000000000000000000000000;
   0x00000000000000000000000000000000] ++
  be_store 8 0x0000000000000000.

(** A file of the same shape with code address 0x10008 and TOC 0x30000 in
    consecutive 4-byte words at the entry descriptor. *)
Definition ps3_exe : list byte :=
  splice 0xd0 (to_file [0x00; 0x01; 0x00; 0x08; 0x00; 0x03; 0x00; 0x00]) synthetic_ps3_opd.

(** ** The generators: tests/gen_fixture.py, tests/gen_ps3_fixture.py

    [struct.pack] with a [">..."] format: big-endian numbers of 2 ([H]), 4 ([I])
    and 8 ([Q]) bytes. *)

Definition width_of (c : ascii) : nat :=
  if Ascii.eqb c "H" then 2%nat else if Ascii.eqb c "I" then 4%nat else 8%nat.

Fixpoint pack (format : string) (fields : list Z) : list byte :=
  match format, fields with
  | String c format', v :: fields' => be_store (width_of c) v ++ pack format' fields'
  | _, _ => []
  end.

Definition gen_e_ident : list byte :=
  to_file [0x7F; 0x45; 0x4C; 0x46; 2; 2; 1; 0] ++ to_file (replicate 8 0).

(** The header both generators pack: [ET_EXEC], [EM_PPC64], version 1. *)
Definition gen_ehdr (e_entry phoff shoff phnum shnum : Z) : list byte :=
  gen_e_ident ++
  pack "HHIQQQIHHHHHH" [2; 21; 1; e_entry; phoff; shoff; 0; 64; 56; phnum; 64; shnum; 0].

Definition gen_phdr (p_type p_flags p_offset p_vaddr p_filesz p_memsz p_align : Z) : list byte :=
  pack "IIQQQQQQ" [p_type; p_flags; p_offset; p_vaddr; p_vaddr; p_filesz; p_memsz; p_align].

Definition gen_shdr (name stype flags addr offset sz link info align entsize : Z) : list byte :=
  pack "IIQQQQIIQQ" [name; stype; flags; addr; offset; sz; link; info; align; entsize].

Definition make_be_elf64 : list byte :=
  let segment_data := list_byte_of_string "HELLO_PS3_SEGMENT_DATA_PADDING_" in
  let phoff := 64 in
  let data_off := phoff + 56 * 1 in
  let shoff := data_off + size segment_data in
  let e_entry := 0x10000 in
  gen_ehdr e_entry phoff shoff 1 2 ++
  gen_phdr 1 5 data_off e_entry (size segment_data) (size segment_data) 0x10 ++
  segment_data ++
  gen_shdr 0 0 0 0 0 0 0 0 0 0 ++
  gen_shdr 0 1 2 e_entry data_off (size segment_data) 0 0 1 0.

Definition make_ps3_fixture : list byte :=
  let phoff := 64 in
  let text_data_off := phoff + 56 * 2 in
  let text_data := concat (replicate 8 (to_file [0x60; 0; 0; 0])) in
  let TEXT_VADDR := 0x10000 in
  let CODE_ENTRY_VADDR := TEXT_VADDR + 8 in
  let opd_data_off := text_data_off + size text_data in
  let OPD_VADDR := 0x20000 in
  let TOC_VALUE := 0x30000 in
  let opd_descriptor := pack "QQQ" [CODE_ENTRY_VADDR; TOC_VALUE; 0] in
  let shoff := opd_data_off + size opd_descriptor in
  gen_ehdr OPD_VADDR phoff shoff 2 1 ++
  gen_phdr 1 5 text_data_off TEXT_VADDR (size text_data) (size text_data) 0x10 ++
  gen_phdr 1 6 opd_data_off OPD_VADDR (size opd_descriptor) (size opd_descriptor) 0x10 ++
  text_data ++ opd_descriptor ++ gen_shdr 0 0 0 0 0 0 0 0 0 0.

(** The committed fixtures are what the generators write. *)
Lemma synthetic_be64_generated : make_be_elf64 = synthetic_be64.
Proof. vm_compute. reflexivity. Qed.

Lemma synthetic_ps3_opd_generated : make_ps3_fixture = synthetic_ps3_opd.
Proof. vm_compute. reflexivity. Qed.
