(* ===== verification/ElfFile.v ===== *)
(** * ELF files: libelf/include/elf/file.hpp

    [ElfFile] is the class template [ElfFile<Is64, E>]: the parsed header, the
    program and section header tables and the raw bytes.  A member function
    that may mutate the object returns the object with its result.  [size_t]
    is [uint64_t]: sizes of vectors are below [2^64]. *)

From S2P Require Import Prelude.
From S2P Require Import Text.
From S2P Require Import Errors.
From S2P Require Import EndianInt.
From S2P Require Import ElfTypes.

Definition UINT64_MAX : Z := 2 ^ 64 - 1.

(** [v[i]] for an index in range. *)
Definition at_ (i : nat) (v : list byte) : byte := nth i v Byte.x00.

(** ** Bounds-checked reads *)

Definition readStruct (T : Type) `{Layout T} (bytes : list byte) (offset : Z) : Result T :=
  if (size bytes <? offset) || (u64 (size bytes - offset) <? sizeof_struct T) then
    Err (make TruncatedFile
      ("need " +:+ to_string (sizeof_struct T) +:+ " bytes at offset 0x" +:+
       snprintf 32 (to_hex offset) +:+ ", but file is only " +:+
       to_string (size bytes) +:+ " bytes"))
  else Ok (from_bytes (slice offset (sizeof_struct T) bytes)).

Definition regionFits (bufferSize offset count elemSize : Z) : bool :=
  if negb (count =? 0) && (UINT64_MAX / count <? elemSize) then false
  else
    let span := u64 (count * elemSize) in
    if bufferSize <? offset then false
    else if bufferSize - offset <? span then false
    else true.

(** The table loops of [parse]: [n] iterations are left and [i] is the value of
    the [uint16_t] counter. *)
Fixpoint readTable (T : Type) `{Layout T} (bytes : list byte) (base : Z) (n : nat) (i : Z)
    : Result (list T) :=
  match n with
  | O => Ok []
  | S n' =>
      let? r := readStruct T bytes (u64 (base + u64 (i * sizeof_struct T))) in
      let? rest := readTable T bytes base n' (u16 (i + 1)) in
      Ok (r :: rest)
  end.

(** The same loop with its test [i < count] and its [uint16_t] counter, run for
    at most [fuel] tests; [None] when the fuel runs out. *)
Fixpoint tableLoop (T : Type) `{Layout T} (fuel : nat) (bytes : list byte) (base count i : Z)
    : option (Result (list T)) :=
  match fuel with
  | O => None
  | S fuel' =>
      if i <? count then
        match readStruct T bytes (u64 (base + u64 (i * sizeof_struct T))) with
        | Err e => Some (Err e)
        | Ok r =>
            match tableLoop T fuel' bytes base count (u16 (i + 1)) with
            | None => None
            | Some rest => Some (let? l := rest in Ok (r :: l))
            end
        end
      else Some (Ok [])
  end.

(** ** Writes into a growing buffer *)

Definition ensureCapacity (buf : list byte) (requiredSize : Z) : list byte :=
  if size buf <? requiredSize
  then buf ++ replicate (Z.to_nat (requiredSize - size buf)) Byte.x00
  else buf.

Definition writeStruct {T : Type} `{Layout T} (buf : list byte) (offset : Z) (value : T)
    : list byte :=
  splice offset (to_bytes value) (ensureCapacity buf (u64 (offset + sizeof_struct T))).

(** [i] is the index of the head of [items] in the table. *)
Fixpoint writeTable_from {T : Type} `{Layout T} (buf : list byte) (offset i : Z) (items : list T)
    : list byte :=
  match items with
  | [] => buf
  | x :: items' =>
      writeTable_from (writeStruct buf (u64 (offset + u64 (i * sizeof_struct T))) x)
        offset (i + 1) items'
  end.

Definition writeTable {T : Type} `{Layout T} (buf : list byte) (offset : Z) (items : list T)
    : list byte :=
  writeTable_from buf offset 0 items.

(** ** The class template *)

Section ElfFile.
Context (Is64 : bool) (E : Endian) `{C : ElfClass Is64 E}.

Record ElfFile := mkElfFile {
  header_ : Ehdr;
  phdrs_ : list Phdr;
  shdrs_ : list Shdr;
  raw_ : list byte
}.

Definition expectedClass : byte := if Is64 then ELFCLASS64 else ELFCLASS32.

Definition expectedData : byte :=
  match E with Big => ELFDATA2MSB | Little => ELFDATA2LSB end.

Definition bad_magic (ident : list byte) : bool :=
  bool_decide (at_ EI_MAG0 ident <> ELFMAG0) || bool_decide (at_ EI_MAG1 ident <> ELFMAG1) ||
  bool_decide (at_ EI_MAG2 ident <> ELFMAG2) || bool_decide (at_ EI_MAG3 ident <> ELFMAG3).

Definition parse (bytes : list byte) : Result ElfFile :=
  let? header := readStruct Ehdr bytes 0 in
  let h := ehdr header in
  fail_if bad_magic (e_ident h)
    with BadMagic, "missing 0x7F 'E' 'L' 'F' magic" ;;
  fail_if bool_decide (at_ EI_CLASS (e_ident h) <> expectedClass)
    with UnsupportedClass,
      "EI_CLASS byte does not match the requested ElfFile<Is64> instantiation" ;;
  fail_if bool_decide (at_ EI_DATA (e_ident h) <> expectedData)
    with UnsupportedDataEncoding,
      "EI_DATA byte does not match the requested ElfFile<E> instantiation" ;;
  fail_if negb (e_ehsize h =? sizeof_struct Ehdr)
    with InconsistentHeaderSize,
      ("e_ehsize (" +:+ to_string (e_ehsize h) +:+ ") != sizeof(Ehdr) (" +:+
       to_string (sizeof_struct Ehdr) +:+ ")") ;;
  fail_if (0 <? e_phnum h) && negb (e_phentsize h =? sizeof_struct Phdr)
    with InconsistentHeaderSize, "e_phentsize does not match sizeof(Phdr)" ;;
  fail_if (0 <? e_shnum h) && negb (e_shentsize h =? sizeof_struct Shdr)
    with InconsistentHeaderSize, "e_shentsize does not match sizeof(Shdr)" ;;
  fail_if negb (regionFits (size bytes) (e_phoff h) (e_phnum h) (sizeof_struct Phdr))
    with OffsetOutOfBounds, "program header table falls outside the file" ;;
  fail_if negb (regionFits (size bytes) (e_shoff h) (e_shnum h) (sizeof_struct Shdr))
    with OffsetOutOfBounds, "section header table falls outside the file" ;;
  let? phdrs := readTable Phdr bytes (e_phoff h) (Z.to_nat (e_phnum h)) 0 in
  let? shdrs := readTable Shdr bytes (e_shoff h) (Z.to_nat (e_shnum h)) 0 in
  fail_if (0 <? e_shnum h) && (e_shnum h <=? e_shstrndx h)
    with IndexOutOfBounds, "e_shstrndx >= e_shnum" ;;
  Ok (mkElfFile header phdrs shdrs bytes).

Definition header (f : ElfFile) : EhdrFields := ehdr (header_ f).
Definition segments (f : ElfFile) : list PhdrFields := phdr <$> phdrs_ f.
Definition sections (f : ElfFile) : list Shdr := shdrs_ f.

Definition entry (f : ElfFile) : Z := e_entry (header f).

Definition setEntry (f : ElfFile) (addr : Z) : ElfFile :=
  mkElfFile (set_e_entry addr (header_ f)) (phdrs_ f) (shdrs_ f) (raw_ f).

Definition patchBytesAt (f : ElfFile) (offset : Z) (newBytes : list byte) : VoidResult * ElfFile :=
  if negb (regionFits (size (raw_ f)) offset (size newBytes) 1) then
    (Err (make OffsetOutOfBounds "patch region falls outside the current file"), f)
  else
    (ok, mkElfFile (header_ f) (phdrs_ f) (shdrs_ f) (splice offset newBytes (raw_ f))).

Definition addLoadSegment (f : ElfFile) (vaddr : Z) (data : list byte) (flags align : Z)
    : VoidResult * ElfFile :=
  let newOffset := size (raw_ f) in
  let raw := raw_ f ++ data in
  let ph := make_phdr {|
    p_type := PT_LOAD;
    p_flags := flags;
    p_offset := newOffset;
    p_vaddr := vaddr;
    p_paddr := vaddr;
    p_filesz := size data;
    p_memsz := size data;
    p_align := align |} in
  let phdrs := phdrs_ f ++ [ph] in
  let header := set_e_phoff (size raw) (set_e_phnum (u16 (size phdrs)) (header_ f)) in
  (ok, mkElfFile header phdrs (shdrs_ f) raw).

Definition readAt (f : ElfFile) (offset length : Z) : Result (list byte) :=
  if negb (regionFits (size (raw_ f)) offset length 1) then
    Err (make OffsetOutOfBounds
      ("requested read of " +:+ to_string length +:+ " bytes at offset 0x" +:+
       snprintf 32 (to_hex offset) +:+ " falls outside the file"))
  else Ok (slice offset length (raw_ f)).

(** The loop of [vaddrToFileOffset] over the segments. *)
Fixpoint find_segment (rawSize : Z) (phs : list PhdrFields) (vaddr : Z) : Result Z :=
  match phs with
  | [] =>
      Err (make OffsetOutOfBounds "virtual address not found in any file-backed PT_LOAD segment")
  | ph :: phs' =>
      if negb (p_type ph =? PT_LOAD) then find_segment rawSize phs' vaddr
      else
        let vstart := p_vaddr ph in
        let vend := u64 (vstart + p_filesz ph) in
        if (vstart <=? vaddr) && (vaddr <? vend) then
          let delta := vaddr - vstart in
          let offset := u64 (p_offset ph + delta) in
          if rawSize <? offset then
            Err (make OffsetOutOfBounds "computed file offset for vaddr exceeds file size")
          else Ok offset
        else find_segment rawSize phs' vaddr
  end.

Definition vaddrToFileOffset (f : ElfFile) (vaddr : Z) : Result Z :=
  find_segment (size (raw_ f)) (segments f) vaddr.

Definition segmentData (f : ElfFile) (index : nat) : Result (list byte) :=
  match segments f !! index with
  | None => Err (make IndexOutOfBounds "segment index out of range")
  | Some ph =>
      if negb (regionFits (size (raw_ f)) (p_offset ph) (p_filesz ph) 1) then
        Err (make OffsetOutOfBounds "segment data falls outside the file")
      else Ok (slice (p_offset ph) (p_filesz ph) (raw_ f))
  end.

Definition serialize (f : ElfFile) : list byte :=
  let out := raw_ f in
  let out := writeStruct out 0 (header_ f) in
  let out := writeTable out (e_phoff (header f)) (phdrs_ f) in
  writeTable out (e_shoff (header f)) (shdrs_ f).

End ElfFile.

(** ** Files of any class and byte order *)

(** [std::variant] over the four instantiations. *)
Inductive AnyElfFile :=
| Any32LE (file : ElfFile false Little)
| Any32BE (file : ElfFile false Big)
| Any64LE (file : ElfFile true Little)
| Any64BE (file : ElfFile true Big).

Definition parseAny (bytes : list byte) : Result AnyElfFile :=
  if size bytes <? EI_NIDENT then
    Err (make TruncatedFile "file smaller than e_ident (16 bytes)")
  else if bad_magic bytes then
    Err (make BadMagic "missing 0x7F 'E' 'L' 'F' magic")
  else
    let elfClass := at_ EI_CLASS bytes in
    let elfData := at_ EI_DATA bytes in
    if bool_decide (elfClass <> ELFCLASS32) && bool_decide (elfClass <> ELFCLASS64) then
      Err (make UnsupportedClass "EI_CLASS is neither ELFCLASS32 nor ELFCLASS64")
    else if bool_decide (elfData <> ELFDATA2LSB) && bool_decide (elfData <> ELFDATA2MSB) then
      Err (make UnsupportedDataEncoding "EI_DATA is neither ELFDATA2LSB nor ELFDATA2MSB")
    else if bool_decide (elfClass = ELFCLASS32) && bool_decide (elfData = ELFDATA2LSB) then
      let? r := parse false Little bytes in Ok (Any32LE r)
    else if bool_decide (elfClass = ELFCLASS32) && bool_decide (elfData = ELFDATA2MSB) then
      let? r := parse false Big bytes in Ok (Any32BE r)
    else if bool_decide (elfClass = ELFCLASS64) && bool_decide (elfData = ELFDATA2LSB) then
      let? r := parse true Little bytes in Ok (Any64LE r)
    else
      let? r := parse true Big bytes in Ok (Any64BE r).
