(* ===== verification/ElfFileFacts.v ===== *)
(** * Properties of ELF files

    The bounds-checked reads and the growing writes in terms of slices, the
    declarative description of the files [parse] accepts, the invariant of the
    class and its preservation, the round trips between [parse] and
    [serialize], and the translation of addresses. *)

From S2P Require Import Prelude.
From S2P Require Import Text.
From S2P Require Import Errors.
From S2P Require Import EndianInt.
From S2P Require Import ElfTypes.
From S2P Require Import ElfFile.

(** ** Specifications *)

(** Entry [i] of a table of [T] at [base]. *)
Definition table_entry (T : Type) `{Layout T} (bytes : list byte) (base i : Z) : T :=
  from_bytes (slice (base + i * sizeof_struct T) (sizeof_struct T) bytes).

(** Entries [i], ..., [i + n - 1]. *)
Fixpoint table_from (T : Type) `{Layout T} (bytes : list byte) (base i : Z) (n : nat) : list T :=
  match n with
  | O => []
  | S n' => table_entry T bytes base i :: table_from T bytes base (i + 1) n'
  end.

(** The bytes of a table. *)
Definition table_image {T : Type} `{Layout T} (items : list T) : list byte :=
  concat (to_bytes <$> items).

(** ** Reads *)

Lemma regionFits_true bufferSize offset count elemSize :
  0 <= bufferSize < 2 ^ 64 -> 0 <= offset < 2 ^ 64 ->
  0 <= count < 2 ^ 64 -> 0 <= elemSize < 2 ^ 64 ->
  regionFits bufferSize offset count elemSize = true <->
  offset + count * elemSize <= bufferSize.
Proof.
  intros Hb Ho Hc He. unfold regionFits, UINT64_MAX.
  destruct (Z.eqb_spec count 0) as [->|Hnz]; cbn [negb andb].
  - rewrite Z.mul_0_l. zcase; try change (u64 0) with 0 in *; split; intros; try lia; discriminate.
  - destruct (Z.ltb_spec ((2 ^ 64 - 1) / count) elemSize) as [Hlt|Hge].
    + split; [discriminate|]. intros.
      assert (2 ^ 64 - 1 < count * elemSize); [|lia].
      apply Z.lt_nge. intros Hle.
      assert (elemSize <= (2 ^ 64 - 1) / count) by (apply Z.div_le_lower_bound; lia). lia.
    + assert (0 <= count * elemSize < 2 ^ 64).
      { pose proof (Z.mul_div_le (2 ^ 64 - 1) count). nia. }
      rewrite u64_small by lia. zcase; split; intros; try lia; discriminate.
Qed.

Lemma regionFits_bool bufferSize offset count elemSize :
  0 <= bufferSize < 2 ^ 64 -> 0 <= offset < 2 ^ 64 ->
  0 <= count < 2 ^ 64 -> 0 <= elemSize < 2 ^ 64 ->
  regionFits bufferSize offset count elemSize = (offset + count * elemSize <=? bufferSize).
Proof.
  intros. apply eq_true_iff_eq. rewrite regionFits_true, Z.leb_le by assumption. reflexivity.
Qed.

Section reads.
Context {T : Type} `{Layout T}.
Implicit Types bytes : list byte.

Lemma readStruct_ok bytes offset :
  0 <= offset -> offset + sizeof_struct T <= size bytes -> size bytes < 2 ^ 64 ->
  readStruct T bytes offset = Ok (from_bytes (slice offset (sizeof_struct T) bytes)).
Proof.
  intros. pose proof sizeof_struct_pos. unfold readStruct.
  destruct (Z.ltb_spec (size bytes) offset); [lia|]. cbn [orb].
  rewrite u64_small by lia. destruct (Z.ltb_spec (size bytes - offset) (sizeof_struct T)); [lia|].
  reflexivity.
Qed.

Lemma readStruct_inv bytes offset t :
  0 <= offset -> size bytes < 2 ^ 64 -> readStruct T bytes offset = Ok t ->
  offset + sizeof_struct T <= size bytes /\
  t = from_bytes (slice offset (sizeof_struct T) bytes).
Proof.
  intros Ho Hs. unfold readStruct. destruct (Z.ltb_spec (size bytes) offset); [discriminate|].
  cbn [orb]. rewrite u64_small by lia.
  destruct (Z.ltb_spec (size bytes - offset) (sizeof_struct T)); [discriminate|].
  intros [= <-]. split; [lia|reflexivity].
Qed.

Lemma readStruct_error bytes offset e :
  readStruct T bytes offset = Err e -> code e = TruncatedFile.
Proof. unfold readStruct. destruct (_ || _); [|discriminate]. intros [= <-]. reflexivity. Qed.

(** Once the table is known to fit, no read of the loop fails. *)
Lemma readTable_ok bytes base n i :
  size bytes < 2 ^ 64 -> 0 <= base -> 0 <= i -> i + Z.of_nat n < 2 ^ 16 ->
  base + (i + Z.of_nat n) * sizeof_struct T <= size bytes ->
  readTable T bytes base n i = Ok (table_from T bytes base i n).
Proof.
  pose proof (sizeof_struct_pos (T := T)) as Hp.
  revert i. induction n as [|n IH]; intros i Hs Hb Hi Hn Hf; [reflexivity|].
  rewrite Nat2Z.inj_succ in Hn, Hf. cbn [readTable table_from].
  assert (0 <= i * sizeof_struct T <= (i + Z.of_nat n) * sizeof_struct T) by nia.
  rewrite (u64_small (i * _)), (u16_small (i + 1)) by nia. rewrite u64_small by nia.
  rewrite readStruct_ok by nia. cbn [bind].
  rewrite IH by nia. reflexivity.
Qed.

Lemma table_from_length bytes base i n : length (table_from T bytes base i n) = n.
Proof. revert i. induction n; intros; cbn; auto. Qed.

Lemma table_from_lookup bytes base i n k x :
  table_from T bytes base i n !! k = Some x -> x = table_entry T bytes base (i + Z.of_nat k).
Proof.
  revert i k. induction n as [|n IH]; intros i k; [discriminate|]. cbn [table_from].
  destruct k as [|k]; [intros [= <-]; f_equal; lia|]. cbn [lookup list_lookup].
  intros ->%IH. f_equal. lia.
Qed.

Lemma size_table_from bytes base i n : size (table_from T bytes base i n) = Z.of_nat n.
Proof. unfold size. rewrite table_from_length. reflexivity. Qed.

Lemma table_entry_ok bytes base i :
  0 <= base -> 0 <= i -> base + (i + 1) * sizeof_struct T <= size bytes ->
  struct_ok (table_entry T bytes base i).
Proof.
  intros. pose proof (sizeof_struct_pos (T := T)). apply from_bytes_ok.
  apply size_slice; nia.
Qed.

Lemma table_from_ok bytes base i n :
  0 <= base -> 0 <= i -> base + (i + Z.of_nat n) * sizeof_struct T <= size bytes ->
  Forall struct_ok (table_from T bytes base i n).
Proof.
  pose proof (sizeof_struct_pos (T := T)).
  revert i. induction n as [|n IH]; intros i Hb Hi Hf; cbn; constructor.
  - apply table_entry_ok; nia.
  - apply IH; lia.
Qed.

(** Writing a table that was read gives the bytes it was read from. *)
Lemma table_image_from bytes base i n :
  0 <= base -> 0 <= i -> base + (i + Z.of_nat n) * sizeof_struct T <= size bytes ->
  table_image (table_from T bytes base i n) =
  slice (base + i * sizeof_struct T) (Z.of_nat n * sizeof_struct T) bytes.
Proof.
  pose proof (sizeof_struct_pos (T := T)).
  revert i. induction n as [|n IH]; intros i Hb Hi Hf; [reflexivity|].
  rewrite Nat2Z.inj_succ in Hf |- *. unfold table_image. cbn [table_from fmap list_fmap concat].
  change (concat _) with (table_image (table_from T bytes base (i + 1) n)).
  rewrite IH by lia. unfold table_entry. rewrite to_from_bytes by (apply size_slice; nia).
  replace (base + (i + 1) * sizeof_struct T) with
    (base + i * sizeof_struct T + sizeof_struct T) by lia.
  rewrite slice_cat by nia. f_equal. lia.
Qed.

Lemma table_image_size (items : list T) :
  Forall struct_ok items -> size (table_image items) = size items * sizeof_struct T.
Proof.
  induction 1 as [|x l Hx Hl IH]; [reflexivity|].
  unfold table_image in *. cbn [fmap list_fmap concat].
  rewrite size_app, size_cons, IH, to_bytes_size by exact Hx. lia.
Qed.

(** Reading a table back from its image. *)
Lemma table_from_image (items : list T) bytes base i :
  Forall struct_ok items -> 0 <= base -> 0 <= i ->
  slice (base + i * sizeof_struct T) (size items * sizeof_struct T) bytes = table_image items ->
  table_from T bytes base i (length items) = items.
Proof.
  pose proof (sizeof_struct_pos (T := T)) as Hp.
  revert i. induction items as [|x l IH]; intros i Hok Hb Hi Hs; [reflexivity|].
  inversion Hok as [|? ? Hx Hl]; subst. cbn [length table_from].
  unfold table_image in Hs. cbn [fmap list_fmap concat] in Hs. rewrite size_cons in Hs.
  pose proof (size_nonneg l).
  f_equal.
  - unfold table_entry. rewrite <- (from_to_bytes x) by exact Hx. f_equal.
    rewrite <- (slice_here (sizeof_struct T) (to_bytes x)) by (apply to_bytes_size; exact Hx).
    rewrite <- (slice_app_l 0 _ (to_bytes x) (concat (to_bytes <$> l)))
      by (rewrite ?to_bytes_size by exact Hx; lia).
    rewrite <- Hs, slice_slice by nia. f_equal; lia.
  - apply IH; [exact Hl|lia|lia|].
    unfold table_image. transitivity (slice (sizeof_struct T) (size l * sizeof_struct T)
      (to_bytes x ++ concat (to_bytes <$> l))).
    + rewrite <- Hs, slice_slice by nia. f_equal; lia.
    + rewrite (slice_app_skip _ (sizeof_struct T)) by (rewrite ?to_bytes_size by exact Hx; lia).
      rewrite Z.sub_diag. apply slice_here. apply table_image_size. exact Hl.
Qed.

(** The counter never wraps, so [count + 1] tests are enough. *)
Lemma tableLoop_readTable bytes base count n i fuel :
  0 <= i -> count < 2 ^ 16 -> i + Z.of_nat n = count -> (n < fuel)%nat ->
  tableLoop T fuel bytes base count i = Some (readTable T bytes base n i).
Proof.
  revert i fuel. induction n as [|n IH]; intros i [|fuel] Hi Hc Hn Hf; try lia; cbn [tableLoop readTable].
  - destruct (Z.ltb_spec i count); [lia|reflexivity].
  - destruct (Z.ltb_spec i count); [|lia].
    destruct (readStruct _ _ _); cbn [bind]; [|reflexivity].
    rewrite u16_small, IH by lia. reflexivity.
Qed.

End reads.

(** ** Writes *)

Section writes.
Context {T : Type} `{Layout T}.
Implicit Types (buf : list byte) (items : list T).

Lemma writeStruct_splice buf offset (x : T) :
  struct_ok x -> 0 <= offset <= size buf -> offset + sizeof_struct T < 2 ^ 64 ->
  writeStruct buf offset x = splice offset (to_bytes x) buf.
Proof.
  intros Hx Ho Hn. pose proof (sizeof_struct_pos (T := T)). pose proof (to_bytes_size x Hx).
  unfold writeStruct, ensureCapacity. rewrite u64_small by lia.
  destruct (Z.ltb_spec (size buf) (offset + sizeof_struct T)); [|reflexivity].
  apply splice_pad; lia.
Qed.

Lemma writeTable_from_splice buf offset i items pre :
  Forall struct_ok items -> 0 <= offset <= size buf -> size pre = i * sizeof_struct T ->
  0 <= i -> offset + (i + size items) * sizeof_struct T < 2 ^ 64 ->
  writeTable_from (splice offset pre buf) offset i items =
  splice offset (pre ++ table_image items) buf.
Proof.
  pose proof (sizeof_struct_pos (T := T)) as Hp.
  revert i pre. induction items as [|x l IH]; intros i pre Hok Ho Hpre Hi Hn.
  - unfold table_image. cbn [writeTable_from fmap list_fmap concat]. rewrite app_nil_r. reflexivity.
  - inversion Hok as [|? ? Hx Hl]; subst. cbn [writeTable_from].
    rewrite size_cons in Hn. pose proof (size_nonneg l).
    rewrite (u64_small (i * _)) by nia. rewrite (u64_small (offset + _)) by nia.
    rewrite writeStruct_splice by (rewrite ?size_splice_max by lia; first [exact Hx | nia]).
    rewrite <- Hpre, splice_splice by lia.
    rewrite IH; rewrite ?size_app, ?to_bytes_size by exact Hx; try assumption; try lia.
    unfold table_image. cbn [fmap list_fmap concat]. rewrite <- app_assoc. reflexivity.
Qed.

Lemma writeTable_splice buf offset items :
  Forall struct_ok items -> 0 <= offset -> (items = [] \/ offset <= size buf) ->
  offset + size items * sizeof_struct T < 2 ^ 64 ->
  writeTable buf offset items = splice offset (table_image items) buf.
Proof.
  intros Hok Ho [->|Hs] Hn; unfold writeTable.
  - cbn. symmetry. apply splice_nil. exact Ho.
  - rewrite <- (splice_nil offset buf) at 1 by exact Ho.
    apply (writeTable_from_splice buf offset 0 items []); first [assumption | rewrite ?size_nil; lia].
Qed.

End writes.

(** ** The files [parse] accepts *)

Section ElfFile.
Context (Is64 : bool) (E : Endian) `{C : ElfClass Is64 E}.
Abbreviation ElfFile := (ElfFile Is64 E).
Implicit Types (f : ElfFile) (bytes : list byte).

(** The header at the start of a file. *)
Definition header_at bytes : Ehdr := from_bytes (slice 0 (sizeof_struct Ehdr) bytes).

(** The conditions the ELF specification and [parse] put on a header, [n]
    being the size of the file. *)
Record valid_header (n : Z) (h : EhdrFields) : Prop := {
  valid_magic : bad_magic (e_ident h) = false;
  valid_class : at_ EI_CLASS (e_ident h) = expectedClass Is64;
  valid_data : at_ EI_DATA (e_ident h) = expectedData E;
  valid_ehsize : e_ehsize h = sizeof_struct Ehdr;
  valid_phentsize : 0 < e_phnum h -> e_phentsize h = sizeof_struct Phdr;
  valid_shentsize : 0 < e_shnum h -> e_shentsize h = sizeof_struct Shdr;
  valid_phoff : e_phoff h + e_phnum h * sizeof_struct Phdr <= n;
  valid_shoff : e_shoff h + e_shnum h * sizeof_struct Shdr <= n;
  valid_shstrndx : 0 < e_shnum h -> e_shstrndx h < e_shnum h
}.

(** The object [parse] builds from a file it accepts. *)
Definition file_of bytes : ElfFile :=
  let h := ehdr (header_at bytes) in
  mkElfFile Is64 E (header_at bytes)
    (table_from Phdr bytes (e_phoff h) 0 (Z.to_nat (e_phnum h)))
    (table_from Shdr bytes (e_shoff h) 0 (Z.to_nat (e_shnum h)))
    bytes.

Definition valid_file bytes : Prop :=
  sizeof_struct Ehdr <= size bytes /\ valid_header (size bytes) (ehdr (header_at bytes)).

Lemma header_at_ok bytes : sizeof_struct Ehdr <= size bytes -> struct_ok (header_at bytes).
Proof.
  intros. pose proof (sizeof_struct_pos (T := Ehdr)). apply from_bytes_ok.
  apply size_slice; lia.
Qed.

Lemma addr_bound z : 0 <= z < 256 ^ Z.of_nat (sizeof addr_t) -> 0 <= z < 2 ^ 64.
Proof. destruct addr_t; cbn [sizeof]; lia. Qed.

Lemma struct_size_bound T `{Layout T} : 0 < sizeof_struct T < 2 ^ 64.
Proof. pose proof (sizeof_struct_range (T := T)). lia. Qed.

Lemma neqb_decide {A} `{EqDecision A} (a b : A) : bool_decide (a <> b) = false <-> a = b.
Proof. rewrite bool_decide_eq_false. destruct (decide (a = b)); naive_solver. Qed.

(** [regionFits] at the table of a header in range. *)
Lemma table_fits n T `{Layout T} off cnt :
  0 <= n < 2 ^ 64 -> 0 <= off < 256 ^ Z.of_nat (sizeof addr_t) -> 0 <= cnt < 2 ^ 16 ->
  regionFits n off cnt (sizeof_struct T) = (off + cnt * sizeof_struct T <=? n).
Proof.
  intros Hn Ho Hc. pose proof (struct_size_bound T). apply addr_bound in Ho.
  apply regionFits_bool; lia.
Qed.

Lemma header_tables_read bytes :
  size bytes < 2 ^ 64 -> valid_file bytes ->
  let h := ehdr (header_at bytes) in
  readTable Phdr bytes (e_phoff h) (Z.to_nat (e_phnum h)) 0 =
    Ok (table_from Phdr bytes (e_phoff h) 0 (Z.to_nat (e_phnum h))) /\
  readTable Shdr bytes (e_shoff h) (Z.to_nat (e_shnum h)) 0 =
    Ok (table_from Shdr bytes (e_shoff h) 0 (Z.to_nat (e_shnum h))).
Proof.
  intros Hs [Hsz Hv]. destruct (ehdr_fields_range _ (header_at_ok _ Hsz)). destruct Hv.
  cbn. split; apply readTable_ok; rewrite ?Z2Nat.id; lia.
Qed.

Lemma parse_valid bytes :
  size bytes < 2 ^ 64 -> valid_file bytes -> parse Is64 E bytes = Ok (file_of bytes).
Proof.
  intros Hs Hvf. destruct (header_tables_read bytes Hs Hvf) as [Hp Hsh].
  destruct Hvf as [Hsz Hv]. pose proof (size_nonneg bytes).
  pose proof (ehdr_fields_range _ (header_at_ok _ Hsz)) as [].
  destruct Hv as [Hm Hc Hd Hes Hpe Hse Hpo Hso Hx].
  unfold parse. rewrite readStruct_ok by (try lia; exact Hs). cbn [bind].
  fold (header_at bytes). rewrite Hm.
  rewrite (proj2 (neqb_decide _ _) Hc), (proj2 (neqb_decide _ _) Hd), Hes, Z.eqb_refl.
  cbn [negb]. rewrite !table_fits by lia.
  rewrite (proj2 (Z.leb_le _ _) Hpo), (proj2 (Z.leb_le _ _) Hso), Hp, Hsh. cbn [bind negb].
  zcase; cbn [negb andb]; try reflexivity; lia.
Qed.

Lemma parse_inv bytes f :
  size bytes < 2 ^ 64 -> parse Is64 E bytes = Ok f -> valid_file bytes /\ f = file_of bytes.
Proof.
  intros Hs Hp. assert (valid_file bytes) as Hvf.
  { unfold parse in Hp. inv_ok Hp. pose proof (size_nonneg bytes).
    apply readStruct_inv in Hv as [Hsz ->]; [|lia..]. fold (header_at bytes) in *.
    rewrite Z.add_0_l in Hsz.
    pose proof (ehdr_fields_range _ (header_at_ok _ Hsz)) as [].
    rewrite table_fits in Hb5, Hb6 by lia.
    rewrite neqb_decide in Hb0, Hb1.
    split; [exact Hsz|]. constructor; first [assumption | intros; lia]. }
  split; [exact Hvf|]. rewrite parse_valid in Hp by assumption. congruence.
Qed.

(** The form the runs on concrete files use: only a boolean is computed. *)
Lemma parse_is_ok bytes :
  size bytes < 2 ^ 64 -> is_ok (parse Is64 E bytes) = true ->
  parse Is64 E bytes = Ok (file_of bytes).
Proof.
  intros Hs Hok. destruct (parse Is64 E bytes) as [f|] eqn:Hp; [|discriminate].
  apply parse_inv in Hp as [_ ->]; [reflexivity|exact Hs].
Qed.

(** ** The invariant *)

Record file_ok f : Prop := {
  ok_header : struct_ok (header_ _ _ f);
  ok_phdrs : Forall struct_ok (phdrs_ _ _ f);
  ok_shdrs : Forall struct_ok (shdrs_ _ _ f);
  ok_phnum : e_phnum (header _ _ f) = size (phdrs_ _ _ f);
  ok_shnum : e_shnum (header _ _ f) = size (shdrs_ _ _ f);
  ok_magic : bad_magic (e_ident (header _ _ f)) = false;
  ok_class : at_ EI_CLASS (e_ident (header _ _ f)) = expectedClass Is64;
  ok_data : at_ EI_DATA (e_ident (header _ _ f)) = expectedData E;
  ok_ehsize : e_ehsize (header _ _ f) = sizeof_struct Ehdr;
  ok_phentsize : 0 < e_phnum (header _ _ f) -> e_phentsize (header _ _ f) = sizeof_struct Phdr;
  ok_shentsize : 0 < e_shnum (header _ _ f) -> e_shentsize (header _ _ f) = sizeof_struct Shdr;
  ok_shstrndx : 0 < e_shnum (header _ _ f) -> e_shstrndx (header _ _ f) < e_shnum (header _ _ f);
  ok_raw : sizeof_struct Ehdr <= size (raw_ _ _ f);
  ok_phoff : e_phoff (header _ _ f) <= size (raw_ _ _ f);
  ok_shoff : e_shoff (header _ _ f) + size (shdrs_ _ _ f) * sizeof_struct Shdr
             <= size (raw_ _ _ f)
}.

(** The header and the two tables occupy disjoint ranges of the file. *)
Record tables_disjoint f : Prop := {
  dis_header_ph : phdrs_ _ _ f = [] \/ sizeof_struct Ehdr <= e_phoff (header _ _ f);
  dis_header_sh : shdrs_ _ _ f = [] \/ sizeof_struct Ehdr <= e_shoff (header _ _ f);
  dis_ph_sh : phdrs_ _ _ f = [] \/ shdrs_ _ _ f = [] \/
    e_phoff (header _ _ f) + size (phdrs_ _ _ f) * sizeof_struct Phdr <= e_shoff (header _ _ f) \/
    e_shoff (header _ _ f) + size (shdrs_ _ _ f) * sizeof_struct Shdr <= e_phoff (header _ _ f)
}.

Lemma header_range f : file_ok f -> ehdr_range addr_t (header _ _ f).
Proof. intros Hf. apply ehdr_fields_range. apply (ok_header f Hf). Qed.

Lemma file_of_ok bytes : size bytes < 2 ^ 64 -> valid_file bytes -> file_ok (file_of bytes).
Proof.
  intros Hs [Hsz Hv]. pose proof (header_at_ok _ Hsz) as Hh.
  destruct (ehdr_fields_range _ Hh), Hv.
  pose proof (struct_size_bound Phdr). pose proof (struct_size_bound Shdr).
  constructor; unfold header; cbn [header_ phdrs_ shdrs_ raw_ file_of];
    rewrite ?size_table_from, ?Z2Nat.id by lia; try assumption; try lia.
  - apply table_from_ok; rewrite ?Z2Nat.id; lia.
  - apply table_from_ok; rewrite ?Z2Nat.id; lia.
Qed.

Lemma parse_ok bytes f : size bytes < 2 ^ 64 -> parse Is64 E bytes = Ok f -> file_ok f.
Proof. intros Hs Hp. apply parse_inv in Hp as [Hv ->]; [|exact Hs]. apply file_of_ok; assumption. Qed.

(** What [serialize] writes, as three overwrites of the raw bytes. *)
Lemma serialize_splice f :
  file_ok f -> size (raw_ _ _ f) < 2 ^ 63 ->
  serialize Is64 E f =
  splice (e_shoff (header _ _ f)) (table_image (shdrs_ _ _ f))
    (splice (e_phoff (header _ _ f)) (table_image (phdrs_ _ _ f))
      (splice 0 (to_bytes (header_ _ _ f)) (raw_ _ _ f))).
Proof.
  intros Hf Hs. pose proof (header_range f Hf) as [].
  pose proof (sizeof_struct_range (T := Ehdr)). pose proof (sizeof_struct_range (T := Phdr)).
  pose proof (sizeof_struct_range (T := Shdr)).
  pose proof (to_bytes_size _ (ok_header f Hf)) as Hh.
  destruct Hf. unfold serialize.
  rewrite writeStruct_splice by (try assumption; lia).
  rewrite (writeTable_splice (splice 0 _ _)) by
    (rewrite ?size_splice by lia; try assumption; first [lia | right; lia | nia]).
  rewrite writeTable_splice; [reflexivity|assumption|lia|right|nia].
  rewrite size_splice_max; rewrite size_splice by lia; nia.
Qed.

(** Serializing a file that was just parsed gives the input back. *)
Lemma serialize_file_of bytes :
  size bytes < 2 ^ 63 -> valid_file bytes -> serialize Is64 E (file_of bytes) = bytes.
Proof.
  intros Hs Hv. rewrite serialize_splice by
    (try apply file_of_ok; cbn [file_of raw_]; first [assumption | lia]).
  unfold header. cbn [file_of header_ phdrs_ shdrs_ raw_]. destruct Hv as [Hsz Hv].
  pose proof (sizeof_struct_pos (T := Ehdr)). pose proof (sizeof_struct_pos (T := Phdr)).
  pose proof (sizeof_struct_pos (T := Shdr)).
  destruct (ehdr_fields_range _ (header_at_ok _ Hsz)), Hv.
  rewrite !table_image_from by (rewrite ?Z2Nat.id; lia). rewrite !Z2Nat.id, !Z.mul_0_l, !Z.add_0_r by lia.
  assert (to_bytes (header_at bytes) = slice 0 (sizeof_struct Ehdr) bytes) as ->
    by (apply to_from_bytes, size_slice; lia).
  rewrite (splice_same 0), (splice_same (e_phoff _)), (splice_same (e_shoff _));
    rewrite ?size_slice by nia; first [reflexivity | nia].
Qed.

(** ** Reading a serialized file back *)

(** The output in three stages, with the sizes of each. *)
Lemma serialize_stages f :
  file_ok f -> size (raw_ _ _ f) < 2 ^ 63 ->
  exists B1 B2,
    B1 = splice 0 (to_bytes (header_ _ _ f)) (raw_ _ _ f) /\
    B2 = splice (e_phoff (header _ _ f)) (table_image (phdrs_ _ _ f)) B1 /\
    serialize Is64 E f = splice (e_shoff (header _ _ f)) (table_image (shdrs_ _ _ f)) B2 /\
    size B1 = size (raw_ _ _ f) /\
    size B2 = Z.max (size (raw_ _ _ f))
      (e_phoff (header _ _ f) + size (phdrs_ _ _ f) * sizeof_struct Phdr).
Proof.
  intros Hf Hs. rewrite serialize_splice by assumption.
  pose proof (header_range f Hf) as []. pose proof (to_bytes_size _ (ok_header f Hf)).
  pose proof (table_image_size _ (ok_phdrs f Hf)) as Hp. destruct Hf.
  eexists _, _. split; [reflexivity|]. split; [reflexivity|]. split; [reflexivity|].
  assert (size (splice 0 (to_bytes (header_ _ _ f)) (raw_ _ _ f)) = size (raw_ _ _ f)) as Hb
    by (apply size_splice; lia).
  split; [exact Hb|]. rewrite size_splice_max, Hb, Hp by lia. reflexivity.
Qed.

Ltac stages f Hf Hs :=
  destruct (serialize_stages f Hf Hs) as (B1 & B2 & HB1 & HB2 & HS & Hz1 & Hz2);
  pose proof (header_range f Hf) as [];
  pose proof (to_bytes_size _ (ok_header f Hf)) as Hh;
  pose proof (table_image_size _ (ok_phdrs f Hf)) as Hp;
  pose proof (table_image_size _ (ok_shdrs f Hf)) as Hsh;
  pose proof (sizeof_struct_pos (T := Ehdr)) as Ee;
  pose proof (sizeof_struct_pos (T := Phdr)) as Ep;
  pose proof (sizeof_struct_pos (T := Shdr)) as Es;
  pose proof (size_nonneg (phdrs_ _ _ f)) as Np;
  pose proof (size_nonneg (shdrs_ _ _ f)) as Ns;
  pose proof (Z.mul_nonneg_nonneg _ _ Np (Z.lt_le_incl _ _ Ep)) as Mp;
  pose proof (Z.mul_nonneg_nonneg _ _ Ns (Z.lt_le_incl _ _ Es)) as Ms;
  destruct Hf; rewrite HS.

Lemma serialize_size f :
  file_ok f -> size (raw_ _ _ f) < 2 ^ 63 ->
  size (serialize Is64 E f) =
  Z.max (size (raw_ _ _ f))
    (e_phoff (header _ _ f) + size (phdrs_ _ _ f) * sizeof_struct Phdr).
Proof. intros Hf Hs. stages f Hf Hs. rewrite size_splice; lia. Qed.

(** A range of the raw bytes that no structure overlaps is copied verbatim. *)
Lemma serialize_slice_raw f off len :
  file_ok f -> size (raw_ _ _ f) < 2 ^ 63 ->
  sizeof_struct Ehdr <= off ->
  (off + len <= e_phoff (header _ _ f) \/
   e_phoff (header _ _ f) + size (phdrs_ _ _ f) * sizeof_struct Phdr <= off) ->
  (off + len <= e_shoff (header _ _ f) \/
   e_shoff (header _ _ f) + size (shdrs_ _ _ f) * sizeof_struct Shdr <= off) ->
  slice off len (serialize Is64 E f) = slice off len (raw_ _ _ f).
Proof.
  intros Hf Hs H0 H1 H2. stages f Hf Hs.
  rewrite slice_splice_ne, HB2, slice_splice_ne, HB1, slice_splice_ne by lia. reflexivity.
Qed.

(** Overwriting a table that is empty or starts past [n] keeps the first [n] bytes. *)
Lemma slice_splice_head n off (new l : list byte) :
  new = [] \/ n <= off -> 0 <= off <= size l ->
  slice 0 n (splice off new l) = slice 0 n l.
Proof.
  intros [->|Ho] Hr; [rewrite splice_nil by lia; reflexivity|].
  apply slice_splice_ne; lia.
Qed.

Lemma image_nil_or {T} `{Layout T} (items : list T) (P : Prop) :
  items = [] \/ P -> table_image items = [] \/ P.
Proof. intros [->|]; [left; reflexivity|right; assumption]. Qed.

Lemma serialize_header f :
  file_ok f -> tables_disjoint f -> size (raw_ _ _ f) < 2 ^ 63 ->
  slice 0 (sizeof_struct Ehdr) (serialize Is64 E f) = to_bytes (header_ _ _ f).
Proof.
  intros Hf [Hd1 Hd2 _] Hs. stages f Hf Hs.
  rewrite slice_splice_head by (try (apply image_nil_or; exact Hd2); lia).
  rewrite HB2, slice_splice_head by (try (apply image_nil_or; exact Hd1); lia).
  rewrite HB1, <- Hh. apply slice_splice_eq. lia.
Qed.

Lemma serialize_phdrs f :
  file_ok f -> tables_disjoint f -> size (raw_ _ _ f) < 2 ^ 63 ->
  slice (e_phoff (header _ _ f)) (size (phdrs_ _ _ f) * sizeof_struct Phdr)
    (serialize Is64 E f) = table_image (phdrs_ _ _ f).
Proof.
  intros Hf [_ _ Hd] Hs. stages f Hf Hs.
  destruct Hd as [->|[Hd|Hd]]; [reflexivity| |].
  - rewrite Hd. change (table_image []) with (@nil byte). rewrite splice_nil by lia.
    rewrite HB2, <- Hp. apply slice_splice_eq. lia.
  - rewrite slice_splice_ne by lia. rewrite HB2, <- Hp. apply slice_splice_eq. lia.
Qed.

Lemma serialize_shdrs f :
  file_ok f -> size (raw_ _ _ f) < 2 ^ 63 ->
  slice (e_shoff (header _ _ f)) (size (shdrs_ _ _ f) * sizeof_struct Shdr)
    (serialize Is64 E f) = table_image (shdrs_ _ _ f).
Proof. intros Hf Hs. stages f Hf Hs. rewrite <- Hsh. apply slice_splice_eq. lia. Qed.

Lemma parse_serialize f :
  file_ok f -> tables_disjoint f -> size (raw_ _ _ f) < 2 ^ 62 ->
  parse Is64 E (serialize Is64 E f) =
  Ok (mkElfFile Is64 E (header_ _ _ f) (phdrs_ _ _ f) (shdrs_ _ _ f) (serialize Is64 E f)).
Proof.
  intros Hf Hd Hs. assert (size (raw_ _ _ f) < 2 ^ 63) as Hs' by lia.
  pose proof (serialize_header f Hf Hd Hs') as Hh.
  pose proof (serialize_phdrs f Hf Hd Hs') as Hp.
  pose proof (serialize_shdrs f Hf Hs') as Hsh.
  pose proof (serialize_size f Hf Hs') as Hz.
  pose proof (header_range f Hf) as [].
  pose proof (sizeof_struct_range (T := Phdr)). pose proof (sizeof_struct_range (T := Shdr)).
  assert (header_at (serialize Is64 E f) = header_ _ _ f) as Hat.
  { unfold header_at. rewrite Hh. apply from_to_bytes. apply (ok_header f Hf). }
  destruct Hf. rewrite parse_valid; [|nia|].
  - unfold file_of. rewrite Hat. change (ehdr (header_ _ _ f)) with (header _ _ f).
    rewrite ok_phnum0, ok_shnum0, !to_nat_size.
    rewrite !table_from_image by (rewrite ?Z.mul_0_l, ?Z.add_0_r; assumption || lia).
    reflexivity.
  - split; [lia|]. rewrite Hat. change (ehdr (header_ _ _ f)) with (header _ _ f).
    constructor; try assumption; lia.
Qed.

(** ** Mutations *)

Lemma setEntry_ok f addr : file_ok f -> file_ok (setEntry Is64 E f addr).
Proof.
  intros []. constructor; unfold header, setEntry in *; cbn [header_ phdrs_ shdrs_ raw_];
    rewrite ?ehdr_set_entry; unfold with_entry; cbn; try assumption.
  apply set_entry_ok. assumption.
Qed.

Lemma patch_raw_ok f raw :
  file_ok f -> size raw = size (raw_ _ _ f) ->
  file_ok (mkElfFile Is64 E (header_ _ _ f) (phdrs_ _ _ f) (shdrs_ _ _ f) raw).
Proof.
  intros [] Hr. constructor; unfold header in *; cbn [header_ phdrs_ shdrs_ raw_];
    rewrite ?Hr; assumption.
Qed.

Lemma patchBytesAt_fits f offset new :
  0 <= offset -> offset + size new <= size (raw_ _ _ f) -> size (raw_ _ _ f) < 2 ^ 64 ->
  patchBytesAt Is64 E f offset new =
  (ok, mkElfFile Is64 E (header_ _ _ f) (phdrs_ _ _ f) (shdrs_ _ _ f)
         (splice offset new (raw_ _ _ f))).
Proof.
  intros. unfold patchBytesAt. pose proof (size_nonneg new).
  rewrite regionFits_bool by lia. destruct (Z.leb_spec (offset + size new * 1) (size (raw_ _ _ f)));
    [reflexivity|lia].
Qed.

Lemma readAt_fits f offset len :
  0 <= offset -> 0 <= len -> offset + len <= size (raw_ _ _ f) -> size (raw_ _ _ f) < 2 ^ 64 ->
  readAt Is64 E f offset len = Ok (slice offset len (raw_ _ _ f)).
Proof.
  intros. unfold readAt. rewrite regionFits_bool by lia.
  destruct (Z.leb_spec (offset + len * 1) (size (raw_ _ _ f))); [reflexivity|lia].
Qed.

Lemma readAt_inv f offset len bs :
  0 <= offset < 2 ^ 64 -> 0 <= len < 2 ^ 64 -> size (raw_ _ _ f) < 2 ^ 64 ->
  readAt Is64 E f offset len = Ok bs ->
  offset + len <= size (raw_ _ _ f) /\ bs = slice offset len (raw_ _ _ f).
Proof.
  intros Ho Hl Hs. unfold readAt. pose proof (size_nonneg (raw_ _ _ f)).
  rewrite regionFits_bool by lia.
  destruct (Z.leb_spec (offset + len * 1) (size (raw_ _ _ f))); cbn; intros Heq;
    [injection Heq as <-; split; [lia|reflexivity]|discriminate].
Qed.

(** The new program header of [addLoadSegment]. *)
Definition new_segment (rawSize vaddr dataSize flags align : Z) : PhdrFields :=
  convert_phdr addr_t (mkPhdrFields PT_LOAD flags rawSize vaddr vaddr dataSize dataSize align).

Definition extended f vaddr data flags align : ElfFile :=
  snd (addLoadSegment Is64 E f vaddr data flags align).

Lemma addLoadSegment_segments f vaddr data flags align :
  segments Is64 E (extended f vaddr data flags align) =
  segments Is64 E f ++ [new_segment (size (raw_ _ _ f)) vaddr (size data) flags align].
Proof.
  unfold segments, extended, addLoadSegment. cbn [snd phdrs_]. rewrite fmap_app. cbn.
  rewrite phdr_make_phdr. reflexivity.
Qed.

Lemma addLoadSegment_header f vaddr data flags align :
  header Is64 E (extended f vaddr data flags align) =
  with_phoff (convert addr_t (size (raw_ _ _ f) + size data))
    (with_phnum (u16 (u16 (size (phdrs_ _ _ f) + 1))) (header Is64 E f)).
Proof.
  unfold header, extended, addLoadSegment. cbn [snd header_].
  rewrite ehdr_set_phoff, ehdr_set_phnum, !size_app. reflexivity.
Qed.

(** The bounds under which a segment can be added to a file: the count fits
    the 16-bit field, the new table offset fits the address width. *)
Record can_extend f (data : list byte) : Prop := {
  ext_phnum : size (phdrs_ _ _ f) + 1 < 2 ^ 16;
  ext_phentsize : e_phentsize (header _ _ f) = sizeof_struct Phdr;
  ext_phoff : size (raw_ _ _ f) + size data < 256 ^ Z.of_nat (sizeof addr_t)
}.

Lemma addLoadSegment_ok f vaddr data flags align :
  file_ok f -> can_extend f data -> file_ok (extended f vaddr data flags align).
Proof.
  intros Hf [H1 H2 H3]. pose proof (size_nonneg (raw_ _ _ f)). pose proof (size_nonneg data).
  pose proof (size_nonneg (phdrs_ _ _ f)). destruct Hf.
  constructor; rewrite ?addLoadSegment_header; unfold with_phoff, with_phnum; cbn;
    rewrite ?size_app, ?size_cons, ?size_nil; try assumption; try lia.
  - apply set_phoff_ok, set_phnum_ok. assumption.
  - apply Forall_app. split; [assumption|]. constructor; [apply make_phdr_ok|constructor].
  - rewrite !u16_small; rewrite ?u16_small; lia.
  - rewrite convert_small; lia.
Qed.

Lemma addLoadSegment_disjoint f vaddr data flags align :
  file_ok f -> can_extend f data ->
  (shdrs_ _ _ f = [] \/ sizeof_struct Ehdr <= e_shoff (header _ _ f)) ->
  tables_disjoint (extended f vaddr data flags align).
Proof.
  intros [] [H1 H2 H3] Hsh. pose proof (size_nonneg data). pose proof (size_nonneg (raw_ _ _ f)).
  constructor; rewrite ?addLoadSegment_header; unfold with_phoff, with_phnum; cbn;
    rewrite ?convert_small by lia; [right; lia|exact Hsh|].
  right. right. right. lia.
Qed.

(** ** Addresses *)

Definition covers (vaddr : Z) (ph : PhdrFields) : bool :=
  (p_type ph =? PT_LOAD) && (p_vaddr ph <=? vaddr) && (vaddr <? u64 (p_vaddr ph + p_filesz ph)).

Lemma find_segment_find n phs vaddr :
  find_segment n phs vaddr =
  match List.find (covers vaddr) phs with
  | Some ph =>
      if n <? u64 (p_offset ph + (vaddr - p_vaddr ph))
      then Err (make OffsetOutOfBounds "computed file offset for vaddr exceeds file size")
      else Ok (u64 (p_offset ph + (vaddr - p_vaddr ph)))
  | None =>
      Err (make OffsetOutOfBounds "virtual address not found in any file-backed PT_LOAD segment")
  end.
Proof.
  induction phs as [|ph phs IH]; [reflexivity|]. cbn [find_segment List.find]. unfold covers at 1.
  destruct (p_type ph =? PT_LOAD); cbn [negb andb]; [|exact IH].
  destruct (_ && _); [reflexivity|exact IH].
Qed.

Lemma find_app {A} (p : A -> bool) l m :
  List.find p (l ++ m) =
  match List.find p l with Some x => Some x | None => List.find p m end.
Proof. induction l as [|x l IH]; cbn; [reflexivity|]. destruct (p x); [reflexivity|exact IH]. Qed.

Lemma vaddr_extended_old f vaddr data flags align v off :
  vaddrToFileOffset Is64 E f v = Ok off ->
  vaddrToFileOffset Is64 E (extended f vaddr data flags align) v = Ok off.
Proof.
  unfold vaddrToFileOffset. rewrite addLoadSegment_segments, !find_segment_find, find_app.
  destruct (List.find _ (segments Is64 E f)) as [ph|]; [|discriminate].
  unfold extended, addLoadSegment. cbn [snd raw_]. rewrite size_app.
  pose proof (size_nonneg data).
  destruct (Z.ltb_spec (size (raw_ _ _ f)) (u64 (p_offset ph + (v - p_vaddr ph)))); [discriminate|].
  destruct (Z.ltb_spec (size (raw_ _ _ f) + size data) (u64 (p_offset ph + (v - p_vaddr ph))));
    [lia|exact id].
Qed.

Lemma vaddr_extended_new f vaddr data flags align v :
  List.find (covers v) (segments Is64 E f) = None ->
  0 <= vaddr <= v -> v < vaddr + size data ->
  vaddr + size data < 256 ^ Z.of_nat (sizeof addr_t) ->
  size (raw_ _ _ f) + size data < 256 ^ Z.of_nat (sizeof addr_t) ->
  vaddrToFileOffset Is64 E (extended f vaddr data flags align) v =
  Ok (size (raw_ _ _ f) + (v - vaddr)).
Proof.
  intros Hn H1 H2 H3 H4. pose proof (size_nonneg (raw_ _ _ f)). pose proof (size_nonneg data).
  assert (256 ^ Z.of_nat (sizeof addr_t) <= 2 ^ 64) by (destruct addr_t; cbn [sizeof]; lia).
  unfold vaddrToFileOffset. rewrite addLoadSegment_segments, find_segment_find, find_app, Hn.
  set (ph := new_segment _ _ _ _ _).
  assert (p_type ph = PT_LOAD /\ p_vaddr ph = vaddr /\ p_filesz ph = size data /\
          p_offset ph = size (raw_ _ _ f)) as (Ht & Hv & Hz & Ho).
  { subst ph. unfold new_segment, convert_phdr. cbn [p_type p_vaddr p_filesz p_offset].
    rewrite !convert_small by lia. repeat split. }
  clearbody ph. assert (covers v ph = true) as Hc.
  { unfold covers. rewrite Ht, Hv, Hz, u64_small by lia. unfold PT_LOAD. lia. }
  cbn [List.find]. rewrite Hc, Hv, Ho, !u64_small by lia.
  unfold extended, addLoadSegment. cbn [snd raw_]. rewrite size_app.
  destruct (Z.ltb_spec (size (raw_ _ _ f) + size data) (size (raw_ _ _ f) + (v - vaddr)));
    [lia|reflexivity].
Qed.

(** The first segment with a property, in context. *)
Lemma find_split {A} (p : A -> bool) l x :
  List.find p l = Some x <->
  exists pre post, l = pre ++ x :: post /\ p x = true /\ Forall (fun y => p y = false) pre.
Proof.
  split.
  - induction l as [|y l IH]; cbn; [discriminate|]. destruct (p y) eqn:Hy.
    + intros [= <-]. exists [], l. auto.
    + intros (pre & post & -> & Hx & Hpre)%IH. exists (y :: pre), post. auto.
  - intros (pre & post & -> & Hx & Hpre). induction Hpre as [|y pre Hy _ IH]; cbn.
    + rewrite Hx. reflexivity.
    + rewrite Hy. exact IH.
Qed.

Lemma find_none_Forall {A} (p : A -> bool) l :
  List.find p l = None <-> Forall (fun y => p y = false) l.
Proof.
  induction l as [|y l IH]; cbn; [split; auto|]. rewrite Forall_cons, <- IH.
  destruct (p y); split; [discriminate|intros []; discriminate|auto|intros []; auto].
Qed.

(** ** Writing out an extended file *)

Section extended.
Context (f : ElfFile) (vaddr : Z) (data : list byte) (flags align : Z).
Context (Hok : file_ok f) (Hext : can_extend f data).
Context (Hsize : size (raw_ _ _ f) + size data < 2 ^ 62).
Abbreviation f' := (extended f vaddr data flags align).

Lemma extended_raw_size : size (raw_ _ _ f') = size (raw_ _ _ f) + size data.
Proof. apply size_app. Qed.

Lemma extended_phoff : e_phoff (header _ _ f') = size (raw_ _ _ f) + size data.
Proof.
  rewrite addLoadSegment_header. unfold with_phoff. cbn. apply convert_small.
  destruct Hext. pose proof (size_nonneg (raw_ _ _ f)). pose proof (size_nonneg data). lia.
Qed.

Lemma extended_slice o k :
  sizeof_struct Ehdr <= o -> 0 <= k -> o + k <= size (raw_ _ _ f) + size data ->
  (o + k <= e_shoff (header _ _ f) \/
   e_shoff (header _ _ f) + size (shdrs_ _ _ f) * sizeof_struct Shdr <= o) ->
  slice o k (serialize Is64 E f') = slice o k (raw_ _ _ f ++ data).
Proof.
  intros Ho Hk Hn Hsh. rewrite serialize_slice_raw; try assumption; try reflexivity.
  - apply addLoadSegment_ok; assumption.
  - rewrite extended_raw_size. lia.
  - rewrite extended_phoff. left. exact Hn.
  - rewrite addLoadSegment_header. exact Hsh.
Qed.

Lemma extended_out_size :
  size (raw_ _ _ f) + size data <= size (serialize Is64 E f') < 2 ^ 63.
Proof.
  pose proof (extended_raw_size) as Hr. pose proof extended_phoff as Hp.
  pose proof (sizeof_struct_range (T := Phdr)).
  rewrite serialize_size by (try apply addLoadSegment_ok; try assumption; lia).
  rewrite Hr, Hp. unfold extended, addLoadSegment. cbn [snd phdrs_].
  rewrite size_app, size_cons, size_nil. destruct Hext.
  pose proof (size_nonneg (phdrs_ _ _ f)). nia.
Qed.

End extended.

(** ** The identification bytes *)

Lemma at_slice i n bytes : (Z.of_nat i < n) -> at_ i (slice 0 n bytes) = at_ i bytes.
Proof.
  intros H. unfold at_. rewrite !nth_lookup, lookup_slice, decide_True by exact H. reflexivity.
Qed.

Lemma bad_magic_slice n bytes : 4 <= n -> bad_magic (slice 0 n bytes) = bad_magic bytes.
Proof.
  intros H. unfold bad_magic, EI_MAG0, EI_MAG1, EI_MAG2, EI_MAG3.
  rewrite !at_slice by lia. reflexivity.
Qed.

Lemma parse_ident bytes f :
  size bytes < 2 ^ 64 -> parse Is64 E bytes = Ok f ->
  16 <= size bytes /\ bad_magic bytes = false /\
  at_ EI_CLASS bytes = expectedClass Is64 /\ at_ EI_DATA bytes = expectedData E.
Proof.
  intros Hs Hp. apply parse_inv in Hp as [[Hsz Hv] _]; [|exact Hs].
  destruct (ehdr_fields_range _ (header_at_ok _ Hsz)) as [Hi _ _ _ _ _ _].
  destruct Hv as [Hm Hc Hd _ _ _ _ _ _]. unfold header_at in *.
  rewrite ehdr_ident_bytes in *. rewrite bad_magic_slice, !at_slice in * by
    (unfold EI_CLASS, EI_DATA; lia).
  unfold size, slice in Hi. rewrite !length_take, !length_drop, length_take in Hi.
  assert (16 <= sizeof_struct Ehdr) by lia. rewrite bad_magic_slice, !at_slice in * by
    (unfold EI_CLASS, EI_DATA; lia).
  split; [lia|auto].
Qed.

End ElfFile.
