(* ===== verification/ElfProperties.v ===== *)
(** * What the ELF layer guarantees

    The properties of endian.hpp and file.hpp, proved for every class and byte
    order from the lemmas of [ElfFileFacts], each with a run on a test file. *)

From S2P Require Import Prelude.
From S2P Require Import Text.
From S2P Require Import Errors.
From S2P Require Import EndianInt.
From S2P Require Import ElfTypes.
From S2P Require Import ElfLayout.
From S2P Require Import Fixtures.
From S2P Require Import ElfFile.
From S2P Require Import ElfFileFacts.

(** ** Scalars *)

(** C32: on a little-endian host, reading a member gives the integer its bytes
    denote in the byte order of the file, and assigning a member stores the
    bytes of the value in that order, for every width.  On a big-endian host,
    where [host_is_little_endian] is true all the same, every member reads as
    the integer of its bytes in the other order. *)
Theorem Endianed_exact (T : uint_t) (Order : Endian) (bs : list byte) (v : Z)
    (Hlen : length bs = sizeof T) (Hv : 0 <= v < 256 ^ Z.of_nat (sizeof T)) :
  get (@load Little T Order bs) = value_of Order bs /\
  store Little (@set T Order v) = bytes_of Order (sizeof T) v /\
  get (@load Big T Order bs) = value_of (match Order with Big => Little | Little => Big end) bs.
Proof.
  conj; [apply get_load; exact Hlen|apply store_set; exact Hv|].
  unfold get, load. cbn [storage_]. destruct Order.
  - change (needs_swap Little) with false. reflexivity.
  - change (needs_swap Big) with true. cbn iota. rewrite byteswap_be by exact Hlen. reflexivity.
Qed.

Lemma Endianed_exact_witness :
  get (@load Little uint32_t Big (to_file [0x12; 0x34; 0x56; 0x78])) = 0x12345678 /\
  store Little (@set uint32_t Big 0x12345678) = to_file [0x12; 0x34; 0x56; 0x78] /\
  get (@load Big uint32_t Big (to_file [0x12; 0x34; 0x56; 0x78])) = 0x78563412.
Proof.
  destruct (Endianed_exact uint32_t Big (to_file [0x12; 0x34; 0x56; 0x78]) 0x12345678)
    as (H1 & H2 & H3); [reflexivity|cbn; lia|].
  split; [exact H1|]. split; [exact H2|exact H3].
Defined.

(** A parsed object holds the structures of its file: the header from its start
    and the entries of both tables one after the other from their offsets. *)
Lemma parsed_structures Is64 E `{C : ElfClass Is64 E} bytes f :
  size bytes < 2 ^ 64 -> parse Is64 E bytes = Ok f ->
  header_ _ _ f = from_bytes (slice 0 (sizeof_struct Ehdr) bytes) /\
  (forall i p, phdrs_ _ _ f !! i = Some p ->
     p = from_bytes (slice (e_phoff (header _ _ f) + Z.of_nat i * sizeof_struct Phdr)
           (sizeof_struct Phdr) bytes)) /\
  (forall i s, sections _ _ f !! i = Some s ->
     s = from_bytes (slice (e_shoff (header _ _ f) + Z.of_nat i * sizeof_struct Shdr)
           (sizeof_struct Shdr) bytes)).
Proof.
  intros Hs Hp. destruct (parse_inv Is64 E bytes f Hs Hp) as [_ ->].
  conj; [reflexivity|intros i p H%table_from_lookup..]; exact H.
Qed.

(** C25: the six structures are laid out as the ELF specification asks: with the
    alignment rules of the language, the members in the order of their
    declaration take 52, 32 and 40 bytes (64, 56 and 64 in the 64-bit forms) with
    no padding to spare; a structure copied from the bytes of a file has at each
    member the integer, in the byte order of the file, found at the offset these
    rules give the member, and copied to a file it is its members' bytes in that
    order.  The fields the program reads are those members, and the structures
    of a parsed object are copied from the start of the file and from the
    consecutive entries of the two tables. *)
Theorem wire_format (E : Endian) :
  laid_out E (Elf32.Elf32_Ehdr E) 52 /\ laid_out E (Elf64.Elf64_Ehdr E) 64 /\
  laid_out E (Elf32.Elf32_Phdr E) 32 /\ laid_out E (Elf64.Elf64_Phdr E) 56 /\
  laid_out E (Elf32.Elf32_Shdr E) 40 /\ laid_out E (Elf64.Elf64_Shdr E) 64 /\
  (forall t : Elf32.Elf32_Ehdr E, e_ident (ehdr (Is64 := false) t) = lead t /\
     ehdr_values (ehdr (Is64 := false) t) = slot_value <$> slots t) /\
  (forall t : Elf64.Elf64_Ehdr E, e_ident (ehdr (Is64 := true) t) = lead t /\
     ehdr_values (ehdr (Is64 := true) t) = slot_value <$> slots t) /\
  (forall t : Elf32.Elf32_Phdr E, phdr_values false (phdr (Is64 := false) t) = slot_value <$> slots t) /\
  (forall t : Elf64.Elf64_Phdr E, phdr_values true (phdr (Is64 := true) t) = slot_value <$> slots t) /\
  forall Is64 (C : ElfClass Is64 E) bytes f, size bytes < 2 ^ 64 -> parse Is64 E bytes = Ok f ->
    header_ _ _ f = from_bytes (slice 0 (sizeof_struct Ehdr) bytes) /\
    (forall i p, phdrs_ _ _ f !! i = Some p ->
       p = from_bytes (slice (e_phoff (header _ _ f) + Z.of_nat i * sizeof_struct Phdr)
             (sizeof_struct Phdr) bytes)) /\
    (forall i s, sections _ _ f !! i = Some s ->
       s = from_bytes (slice (e_shoff (header _ _ f) + Z.of_nat i * sizeof_struct Shdr)
             (sizeof_struct Shdr) bytes)).
Proof.
  conj; auto with elf; intros; [split; reflexivity..|].
  apply parsed_structures; assumption.
Qed.

(** The machine number of the big-endian test file, read by the rules. *)
Lemma wire_format_witness :
  (slot_value <$> slots (from_bytes (T := Elf64.Elf64_Ehdr Big) (slice 0 64 synthetic_be64))) !! 1%nat =
  Some 21.
Proof.
  destruct (wire_format Big) as (_ & (_ & H & _) & _).
  destruct (H (slice 0 64 synthetic_be64) ltac:(vm_compute; reflexivity)) as (_ & _ & ->).
  vm_compute. reflexivity.
Defined.

(** ** Bounds *)

(** C37: on the values the types can hold, [regionFits] holds exactly when the
    range [offset, offset + count * elemSize) lies in the buffer; the overflow
    guard never rejects a range that fits nor accepts one that does not. *)
Theorem regionFits_exact (bufferSize offset count elemSize : Z)
    (Hb : 0 <= bufferSize < 2 ^ 64) (Ho : 0 <= offset < 2 ^ 64)
    (Hc : 0 <= count < 2 ^ 64) (He : 0 <= elemSize < 2 ^ 64) :
  regionFits bufferSize offset count elemSize = true <->
  offset + count * elemSize <= bufferSize.
Proof. apply regionFits_true; assumption. Qed.

Lemma regionFits_exact_witness :
  regionFits 100 36 (2 ^ 63) (2 ^ 63) = true <-> 36 + 2 ^ 63 * 2 ^ 63 <= 100.
Proof. apply regionFits_exact; lia. Defined.

(** ** Parsing and serializing *)

Section generic.
Context {Is64 : bool} {E : Endian} `{C : ElfClass Is64 E}.

(** C9: [parse] accepts exactly the files whose header and tables are
    consistent with the ELF specification and with the size of the file, and
    the object it returns holds the header, the entries of both tables at their
    offsets and the bytes; every other file gives an error. *)
Theorem parse_exact (bytes : list byte) (Hsize : size bytes < 2 ^ 64) :
  (valid_file Is64 E bytes /\ parse Is64 E bytes = Ok (file_of Is64 E bytes)) \/
  (~ valid_file Is64 E bytes /\ exists e, parse Is64 E bytes = Err e).
Proof.
  destruct (parse Is64 E bytes) as [f|e] eqn:Hp.
  - left. destruct (parse_inv Is64 E bytes f Hsize Hp) as [Hv ->]. auto.
  - right. split; [|eauto]. intros Hv. rewrite parse_valid in Hp by assumption. discriminate.
Qed.

(** C18: a file that was parsed and not mutated serializes to the bytes it was
    parsed from. *)
Theorem serialize_parsed (bytes : list byte) (f : ElfFile Is64 E)
    (Hsize : size bytes < 2 ^ 63) (Hparse : parse Is64 E bytes = Ok f) :
  serialize Is64 E f = bytes.
Proof.
  apply parse_inv in Hparse as [Hv ->]; [|lia]. apply serialize_file_of; assumption.
Qed.

(** C17: serializing an object in the invariant whose header and tables do not
    overlap gives a file that parses to the same header and tables. *)
Theorem parse_serialized (f : ElfFile Is64 E)
    (Hok : file_ok Is64 E f) (Hd : tables_disjoint Is64 E f) (Hsize : size (raw_ _ _ f) < 2 ^ 62) :
  exists g, parse Is64 E (serialize Is64 E f) = Ok g /\
    header_ _ _ g = header_ _ _ f /\ phdrs_ _ _ g = phdrs_ _ _ f /\ sections _ _ g = sections _ _ f.
Proof. eexists. split; [apply parse_serialize; assumption|repeat split]. Qed.

(** The number of program headers written is the true count modulo [2^16]. *)
Lemma addLoadSegment_phnum (f : ElfFile Is64 E) (vaddr : Z) (data : list byte) (flags align : Z) :
  e_phnum (header _ _ (snd (addLoadSegment Is64 E f vaddr data flags align))) =
  (size (phdrs_ _ _ f) + 1) mod 2 ^ 16 /\
  size (phdrs_ _ _ (snd (addLoadSegment Is64 E f vaddr data flags align))) =
  size (phdrs_ _ _ f) + 1.
Proof.
  split.
  - fold (extended Is64 E f vaddr data flags align). rewrite addLoadSegment_header.
    unfold with_phoff, with_phnum. cbn. unfold u16. rewrite Z.mod_mod by lia. reflexivity.
  - unfold addLoadSegment. cbn [snd phdrs_]. rewrite size_app. reflexivity.
Qed.

(** C28: [parse] establishes the invariant of the class, and the entry setter,
    the in-place patch (successful or refused) and, within its bounds, the
    addition of a segment preserve it.  Outside them it is lost: the segment
    count is written modulo [2^16] without a check, so the 65536th segment makes
    it 0. *)
Theorem invariant_preserved (bytes : list byte) (f : ElfFile Is64 E)
    (Hsize : size bytes < 2 ^ 64) (Hparse : parse Is64 E bytes = Ok f) :
  file_ok Is64 E f /\
  forall g, file_ok Is64 E g -> size (raw_ _ _ g) < 2 ^ 64 ->
    (forall addr, file_ok Is64 E (setEntry Is64 E g addr)) /\
    (forall off new, 0 <= off < 2 ^ 64 -> size new < 2 ^ 64 ->
       file_ok Is64 E (snd (patchBytesAt Is64 E g off new))) /\
    (forall vaddr data flags align, can_extend Is64 E g data ->
       file_ok Is64 E (snd (addLoadSegment Is64 E g vaddr data flags align))) /\
    (forall vaddr data flags align, size (phdrs_ _ _ g) + 1 = 2 ^ 16 ->
       let g' := snd (addLoadSegment Is64 E g vaddr data flags align) in
       fst (addLoadSegment Is64 E g vaddr data flags align) = ok /\
       e_phnum (header _ _ g') = 0 /\ ~ file_ok Is64 E g').
Proof.
  split; [eapply parse_ok; eassumption|]. intros g Hg Hs.
  split; [intros; apply setEntry_ok; exact Hg|].
  split; [|split; [intros; apply addLoadSegment_ok; assumption|]].
  - intros off new Ho Hn. unfold patchBytesAt. pose proof (size_nonneg new).
    pose proof (size_nonneg (raw_ _ _ g)). rewrite regionFits_bool by lia.
    destruct (Z.leb_spec (off + size new * 1) (size (raw_ _ _ g))); cbn [negb snd]; [|exact Hg].
    apply patch_raw_ok; [exact Hg|]. apply size_splice; lia.
  - intros vaddr data flags align Hn.
    destruct (addLoadSegment_phnum g vaddr data flags align) as [H1 H2]. rewrite Hn in H1, H2.
    split; [reflexivity|]. split; [exact H1|]. intros Hok. apply ok_phnum in Hok.
    rewrite H1, H2 in Hok. discriminate Hok.
Qed.

(** C29: a successful in-place patch changes exactly the patched bytes; a
    refused one, which happens exactly when the range leaves the file, changes
    nothing. *)
Theorem patchBytesAt_frame (f : ElfFile Is64 E) (offset : Z) (new : list byte)
    (Ho : 0 <= offset < 2 ^ 64) (Hn : size new < 2 ^ 64) (Hr : size (raw_ _ _ f) < 2 ^ 64) :
  let '(r, g) := patchBytesAt Is64 E f offset new in
  if offset + size new <=? size (raw_ _ _ f) then
    r = ok /\ header_ _ _ g = header_ _ _ f /\ phdrs_ _ _ g = phdrs_ _ _ f /\
    size (raw_ _ _ g) = size (raw_ _ _ f) /\ readAt Is64 E g offset (size new) = Ok new /\
    forall o n, 0 <= o -> 0 <= n -> o + n <= offset \/ offset + size new <= o ->
      slice o n (raw_ _ _ g) = slice o n (raw_ _ _ f)
  else error_code r = Some OffsetOutOfBounds /\ g = f.
Proof.
  pose proof (size_nonneg new). pose proof (size_nonneg (raw_ _ _ f)).
  destruct (Z.leb_spec (offset + size new) (size (raw_ _ _ f))).
  - rewrite patchBytesAt_fits by lia. cbn [header_ phdrs_ raw_].
    rewrite size_splice, readAt_fits by (cbn [raw_]; rewrite ?size_splice; lia). cbn [raw_].
    rewrite slice_splice_eq by lia. repeat split. intros. apply slice_splice_ne; lia.
  - unfold patchBytesAt. rewrite regionFits_bool by lia.
    destruct (Z.leb_spec (offset + size new * 1) (size (raw_ _ _ f))); [lia|]. cbn. auto.
Qed.

(** C19: adding a segment and writing the file out gives a file that parses to
    the old program headers followed by the new one, with the new data readable
    at its offset, the same entry point and sections, and every byte of the old
    file outside the header and the section table where it was. *)
Theorem addLoadSegment_written (f : ElfFile Is64 E) (vaddr : Z) (data : list byte) (flags align : Z)
    (Hok : file_ok Is64 E f) (Hext : can_extend Is64 E f data)
    (Hsh : shdrs_ _ _ f = [] \/ sizeof_struct Ehdr <= e_shoff (header _ _ f))
    (Hsize : size (raw_ _ _ f) + size data < 2 ^ 62) :
  let n := size (raw_ _ _ f) in
  exists g,
    parse Is64 E (serialize Is64 E (snd (addLoadSegment Is64 E f vaddr data flags align))) = Ok g /\
    segments _ _ g = segments _ _ f ++ [new_segment Is64 E n vaddr (size data) flags align] /\
    readAt _ _ g n (size data) = Ok data /\
    entry _ _ g = entry _ _ f /\ sections _ _ g = sections _ _ f /\
    forall o k, sizeof_struct Ehdr <= o -> 0 <= k -> o + k <= n ->
      o + k <= e_shoff (header _ _ f) \/
      e_shoff (header _ _ f) + size (shdrs_ _ _ f) * sizeof_struct Shdr <= o ->
      readAt _ _ g o k = readAt _ _ f o k.
Proof.
  intros n. fold (extended Is64 E f vaddr data flags align).
  pose proof (addLoadSegment_ok _ _ f vaddr data flags align Hok Hext) as Hok'.
  pose proof (addLoadSegment_disjoint _ _ f vaddr data flags align Hok Hext Hsh) as Hd.
  pose proof (extended_out_size _ _ f vaddr data flags align Hok Hext Hsize) as Hout.
  pose proof (size_nonneg data) as Hnd. pose proof (size_nonneg (raw_ _ _ f)) as Hnr.
  pose proof (sizeof_struct_pos (T := Ehdr)) as He. pose proof (ok_raw _ _ f Hok) as Hraw.
  pose proof (ok_shoff _ _ f Hok) as Hso.
  eexists. split; [apply parse_serialize; try assumption; rewrite extended_raw_size; lia|].
  split; [apply addLoadSegment_segments|]. split; [|split; [|split; [reflexivity|]]].
  - rewrite readAt_fits by (cbn [raw_]; lia). cbn [raw_].
    rewrite extended_slice by (try assumption; lia). rewrite slice_app_r by lia.
    rewrite Z.sub_diag, slice_all. reflexivity.
  - change (e_entry (header _ _ (extended Is64 E f vaddr data flags align)) = entry _ _ f).
    rewrite addLoadSegment_header. reflexivity.
  - intros o k Ho Hk Hn Hdis. rewrite !readAt_fits by (cbn [raw_]; lia). cbn [raw_].
    rewrite extended_slice by (try assumption; lia). rewrite slice_app_l by lia. reflexivity.
Qed.

(** C39: the table loops terminate: the [uint16_t] counter reaches the entry
    count without wrapping, after at most 65536 tests, with the result the
    parser uses. *)
Theorem table_loop_terminates (T : Type) `{Layout T} (bytes : list byte) (base count : Z)
    (Hc : 0 <= count < 2 ^ 16) :
  tableLoop T (Z.to_nat (2 ^ 16)) bytes base count 0 =
  Some (readTable T bytes base (Z.to_nat count) 0).
Proof. apply tableLoop_readTable; lia. Qed.

(** Every segment lies in the address space and in the offset space. *)
Definition segment_bounded (ph : PhdrFields) : Prop :=
  0 <= p_filesz ph /\ 0 <= p_vaddr ph /\ p_vaddr ph + p_filesz ph < 2 ^ 64 /\
  0 <= p_offset ph /\ p_offset ph + p_filesz ph < 2 ^ 64.

(** The address is in the part of a PT_LOAD segment that the file backs. *)
Definition in_file_part (v : Z) (ph : PhdrFields) : Prop :=
  p_type ph = PT_LOAD /\ p_vaddr ph <= v < p_vaddr ph + p_filesz ph.

(** C27: an address translates to a file offset exactly when some segment's
    file-backed part holds it; the first such segment decides, the offset is
    the segment's offset plus the distance from its start, and it is refused
    when it lies past the end of the file.  Addresses in the zero-initialised
    tail of a segment do not translate. *)
Theorem vaddrToFileOffset_exact (f : ElfFile Is64 E) (v off : Z)
    (Hb : Forall segment_bounded (segments _ _ f)) (Hv : 0 <= v) :
  vaddrToFileOffset Is64 E f v = Ok off <->
  exists pre ph post,
    segments _ _ f = pre ++ ph :: post /\ in_file_part v ph /\
    Forall (fun q => ~ in_file_part v q) pre /\
    off = p_offset ph + (v - p_vaddr ph) /\ off <= size (raw_ _ _ f).
Proof.
  assert (forall ph, segment_bounded ph -> covers v ph = true <-> in_file_part v ph) as Hc.
  { intros ph (H0 & H1 & H2 & H3 & H4). unfold covers, in_file_part.
    rewrite u64_small by lia. lia. }
  unfold vaddrToFileOffset. rewrite find_segment_find. split.
  - destruct (List.find _ _) as [ph|] eqn:Hfind; [|discriminate].
    apply find_split in Hfind as (pre & post & Heq & Hph & Hpre).
    rewrite Heq in Hb. apply Forall_middle in Hb as [Hbs Hbp].
    apply Hc in Hph; [|exact Hbp]. destruct Hbp as (?&?&?&?&?), Hph as [? ?].
    rewrite u64_small by lia. destruct (Z.ltb_spec (size (raw_ _ _ f)) (p_offset ph + (v - p_vaddr ph)));
      [discriminate|]. intros [= <-]. exists pre, ph, post.
    repeat split; try assumption; try lia.
    rewrite Forall_forall in *. intros q Hq Hin. apply Hc in Hin; [|auto].
    rewrite Hpre in Hin by exact Hq. discriminate.
  - intros (pre & ph & post & Heq & Hin & Hpre & -> & Hle).
    rewrite Heq in Hb. apply Forall_middle in Hb as [Hbs Hbp].
    rewrite (proj2 (find_split (covers v) (segments _ _ f) ph)).
    + destruct Hbp as (?&?&?&?&?), Hin as [? ?]. rewrite u64_small by lia.
      destruct (Z.ltb_spec (size (raw_ _ _ f)) (p_offset ph + (v - p_vaddr ph))); [lia|reflexivity].
    + exists pre, post. split; [exact Heq|]. split; [apply Hc; assumption|].
      rewrite Forall_forall in *. intros q Hq. apply not_true_is_false. intros Hcq.
      apply (Hpre q Hq). apply Hc; [auto|exact Hcq].
Qed.

(** [segmentData] returns the file-backed bytes of a segment exactly when
    the segment exists and lies in the file, and reports which of the two
    failed otherwise. *)
Theorem segmentData_exact (f : ElfFile Is64 E) (index : nat)
    (Hok : file_ok Is64 E f) (Hsize : size (raw_ _ _ f) < 2 ^ 64) :
  segmentData Is64 E f index =
  match segments _ _ f !! index with
  | None => Err (make IndexOutOfBounds "segment index out of range")
  | Some ph =>
      if p_offset ph + p_filesz ph <=? size (raw_ _ _ f)
      then Ok (slice (p_offset ph) (p_filesz ph) (raw_ _ _ f))
      else Err (make OffsetOutOfBounds "segment data falls outside the file")
  end.
Proof.
  unfold segmentData. destruct (segments _ _ f !! index) as [ph|] eqn:Hi; [|reflexivity].
  assert (phdr_range addr_t ph) as [].
  { unfold segments in Hi. apply list_lookup_fmap_Some in Hi as (p & -> & Hp).
    apply phdr_fields_range. destruct Hok. rewrite Forall_lookup in ok_phdrs. eauto. }
  apply addr_bound in p_offset_range, p_filesz_range.
  pose proof (size_nonneg (raw_ _ _ f)). rewrite regionFits_bool, Z.mul_1_r by lia.
  destruct (_ <=? _); reflexivity.
Qed.

End generic.

(** ** Dispatch *)

(** C38: [parseAny] succeeds exactly when one of the four instantiations does,
    with the object of that instantiation. *)
Theorem parseAny_dispatch (bytes : list byte) (a : AnyElfFile) (Hsize : size bytes < 2 ^ 64) :
  parseAny bytes = Ok a <->
  match a with
  | Any32LE f => parse false Little bytes = Ok f
  | Any32BE f => parse false Big bytes = Ok f
  | Any64LE f => parse true Little bytes = Ok f
  | Any64BE f => parse true Big bytes = Ok f
  end.
Proof.
  split.
  - unfold parseAny. intros H. inv_ok H.
    repeat match type of H with
    | (if ?b then _ else _) = Ok _ => destruct b
    | bind ?r _ = Ok _ => destruct r eqn:?; [cbn [bind] in H|discriminate H]
    end; injection H as <-; reflexivity.
  - intros H. assert (16 <= size bytes /\ bad_magic bytes = false) as [Hs Hm].
    { destruct a; apply parse_ident in H; tauto. }
    unfold parseAny, EI_NIDENT. rewrite Hm. destruct (Z.ltb_spec (size bytes) 16); [lia|].
    destruct a; pose proof H as H'; apply parse_ident in H' as (_ & _ & -> & ->); try exact Hsize;
      rewrite H; reflexivity.
Qed.

(** [parse] checks the tables but not the ranges the program headers
    describe: a file whose segment extends past its end is accepted, and only
    [segmentData] reports it. *)
Lemma parse_accepts_segment_past_end :
  exists bytes f, parse true Big bytes = Ok f /\
    error_code (segmentData true Big f 0) = Some OffsetOutOfBounds.
Proof.
  set (bytes := splice 96 (be_store 8 0x1000) synthetic_be64).
  exists bytes, (file_of true Big bytes).
  split; [apply parse_is_ok|]; vm_compute; reflexivity.
Qed.

(** ** Runs on the test files *)

Definition be64_file : ElfFile true Big := file_of true Big synthetic_be64.

Lemma be64_small : size synthetic_be64 < 2 ^ 62.
Proof. vm_compute. reflexivity. Qed.

Lemma be64_parses : parse true Big synthetic_be64 = Ok be64_file.
Proof. apply parse_is_ok; vm_compute; reflexivity. Qed.

Lemma be64_ok : file_ok true Big be64_file.
Proof. apply (parse_ok _ _ synthetic_be64); [vm_compute; reflexivity|exact be64_parses]. Qed.

Lemma be64_disjoint : tables_disjoint true Big be64_file.
Proof.
  constructor; [right|right|right; right; left]; vm_compute; discriminate.
Qed.

Definition blob8 : list byte := to_file [1; 2; 3; 4; 5; 6; 7; 8].

Lemma be64_can_extend : can_extend true Big be64_file blob8.
Proof. constructor; vm_compute; reflexivity. Qed.

Lemma parse_exact_witness :
  parse true Big synthetic_be64 = Ok (file_of true Big synthetic_be64).
Proof.
  destruct (parse_exact (Is64 := true) (E := Big) synthetic_be64) as [[_ H]|[_ [e He]]].
  - vm_compute. reflexivity.
  - exact H.
  - exfalso. assert (is_ok (parse true Big synthetic_be64) = true) as Hok
      by (vm_compute; reflexivity). rewrite He in Hok. discriminate Hok.
Defined.

Lemma serialize_parsed_witness : serialize true Big be64_file = synthetic_be64.
Proof.
  apply (serialize_parsed synthetic_be64 be64_file); [vm_compute; reflexivity|exact be64_parses].
Defined.

Lemma parse_serialized_witness :
  exists g, parse true Big (serialize true Big (setEntry true Big be64_file 0x10004)) = Ok g /\
    entry true Big g = 0x10004.
Proof.
  destruct (parse_serialized (setEntry true Big be64_file 0x10004)) as (g & Hp & Hh & _).
  - apply setEntry_ok, be64_ok.
  - constructor; [right|right|right; right; left]; vm_compute; discriminate.
  - vm_compute. reflexivity.
  - exists g. split; [exact Hp|]. unfold entry, header. rewrite Hh. vm_compute. reflexivity.
Defined.

Lemma invariant_preserved_witness :
  file_ok true Big be64_file /\
  file_ok true Big (snd (addLoadSegment true Big be64_file 0x20000 blob8 5 16)).
Proof.
  destruct (invariant_preserved synthetic_be64 be64_file) as [H1 H2];
    [vm_compute; reflexivity|exact be64_parses|].
  split; [exact H1|]. apply (H2 be64_file H1); [vm_compute; reflexivity|exact be64_can_extend].
Defined.

Lemma patchBytesAt_frame_witness :
  size (raw_ _ _ (snd (patchBytesAt true Big be64_file 0x78 blob8))) = 279 /\
  snd (patchBytesAt true Big be64_file 275 blob8) = be64_file.
Proof.
  split.
  - pose proof (patchBytesAt_frame be64_file 0x78 blob8) as H.
    destruct (patchBytesAt true Big be64_file 0x78 blob8) as [r g]. cbn [snd].
    change (0x78 + size blob8 <=? size (raw_ true Big be64_file)) with true in H. cbn iota in H.
    destruct H as (_ & _ & _ & Hs & _); [lia|vm_compute; reflexivity|vm_compute; reflexivity|].
    rewrite Hs. vm_compute. reflexivity.
  - pose proof (patchBytesAt_frame be64_file 275 blob8) as H.
    destruct (patchBytesAt true Big be64_file 275 blob8) as [r g]. cbn [snd].
    change (275 + size blob8 <=? size (raw_ true Big be64_file)) with false in H. cbn iota in H.
    apply H; [lia|vm_compute; reflexivity|vm_compute; reflexivity].
Defined.

Lemma addLoadSegment_written_witness :
  exists g,
    parse true Big (serialize true Big (snd (addLoadSegment true Big be64_file 0x20000 blob8 5 16)))
      = Ok g /\ readAt true Big g 279 8 = Ok blob8.
Proof.
  destruct (addLoadSegment_written be64_file 0x20000 blob8 5 16) as (g & Hp & _ & Hr & _).
  - exact be64_ok.
  - exact be64_can_extend.
  - right. vm_compute. discriminate.
  - vm_compute. reflexivity.
  - exists g. split; [exact Hp|exact Hr].
Defined.

Lemma table_loop_terminates_witness :
  tableLoop (Elf64.Elf64_Phdr Big) (Z.to_nat (2 ^ 16)) synthetic_be64 64 1 0 =
  Some (Ok (table_from (Elf64.Elf64_Phdr Big) synthetic_be64 64 0 1)).
Proof.
  rewrite (table_loop_terminates (Elf64.Elf64_Phdr Big) synthetic_be64 64 1) by lia.
  rewrite readTable_ok; [reflexivity|vm_compute; reflexivity|lia|lia|lia|vm_compute; discriminate].
Defined.

Lemma vaddrToFileOffset_exact_witness :
  vaddrToFileOffset true Big be64_file 0x10005 = Ok 0x7d.
Proof.
  apply (vaddrToFileOffset_exact be64_file).
  - assert (segments true Big be64_file = [mkPhdrFields 1 5 120 65536 65536 31 31 16]) as ->
      by (vm_compute; reflexivity).
    repeat constructor; cbn; lia.
  - lia.
  - exists [], (mkPhdrFields 1 5 120 65536 65536 31 31 16), [].
    repeat split; try (vm_compute; congruence). constructor.
Defined.

Lemma segmentData_exact_witness :
  segmentData true Big be64_file 0 = Ok (slice 120 31 synthetic_be64).
Proof.
  rewrite (segmentData_exact be64_file 0 be64_ok) by (vm_compute; reflexivity).
  vm_compute. reflexivity.
Defined.

Lemma parseAny_dispatch_witness : parseAny synthetic_be64 = Ok (Any64BE be64_file).
Proof. apply parseAny_dispatch; [vm_compute; reflexivity|exact be64_parses]. Defined.
