(* ===== verification/Image.v ===== *)
(** * What a file promises a loader

    An abstract specification of the ELF layer, by virtual address: an entry
    point and a finite map from addresses to bytes.  The four things a client
    of [ElfFile] does to a file (set the entry, overwrite bytes at an address,
    add a segment, write the file out and read it back) are functions on it;
    the concrete ones are the calls main.cpp makes.  A file represents an image
    when its entry is the image's and every byte of the image is at its address
    in the file-backed part of a loadable segment, outside the header and the
    two tables, which [serialize] overwrites. *)

From stdpp Require Import gmap.
From S2P Require Import Prelude.
From S2P Require Import Errors.
From S2P Require Import EndianInt.
From S2P Require Import ElfTypes.
From S2P Require Import ElfFile.
From S2P Require Import ElfFileFacts.

(** ** The specification *)

(** The bytes of a list from an address on. *)
Fixpoint bytes_from (a : Z) (bs : list byte) : gmap Z byte :=
  match bs with
  | [] => ∅
  | b :: bs' => <[a := b]> (bytes_from (a + 1) bs')
  end.

Lemma lookup_bytes_from bs a x :
  bytes_from a bs !! x = if a <=? x then bs !! Z.to_nat (x - a) else None.
Proof.
  revert a. induction bs as [|b bs IH]; intros a; cbn [bytes_from].
  - rewrite lookup_empty. destruct (a <=? x); reflexivity.
  - destruct (Z.eq_dec a x) as [<-|Hne].
    + rewrite lookup_insert_eq, Z.leb_refl, Z.sub_diag. reflexivity.
    + rewrite lookup_insert_ne by exact Hne. rewrite IH.
      destruct (Z.leb_spec (a + 1) x), (Z.leb_spec a x); try lia; [|reflexivity].
      replace (Z.to_nat (x - a)) with (S (Z.to_nat (x - (a + 1)))) by lia. reflexivity.
Qed.

Record image := mkImage { im_entry : Z; im_bytes : gmap Z byte }.

Inductive command :=
| SetEntry (addr : Z)
| Patch (vaddr : Z) (bs : list byte)
| AddSegment (vaddr : Z) (data : list byte) (flags align : Z)
| Save.

Definition spec_step (i : image) (c : command) : image :=
  match c with
  | SetEntry addr => mkImage addr (im_bytes i)
  | Patch vaddr bs => mkImage (im_entry i) (bytes_from vaddr bs ∪ im_bytes i)
  | AddSegment vaddr data _ _ => mkImage (im_entry i) (im_bytes i ∪ bytes_from vaddr data)
  | Save => i
  end.

(** ** The implementation *)

Section Image.
Context (Is64 : bool) (E : Endian) `{C : ElfClass Is64 E}.
Abbreviation ElfFile := (ElfFile Is64 E).
Implicit Types f g : ElfFile.

Definition run_command (f : ElfFile) (c : command) : Result ElfFile :=
  match c with
  | SetEntry addr => Ok (setEntry _ _ f addr)
  | Patch vaddr bs =>
      let? off := vaddrToFileOffset _ _ f vaddr in
      let '(r, g) := patchBytesAt _ _ f off bs in
      let? _ := r in Ok g
  | AddSegment vaddr data flags align =>
      let '(r, g) := addLoadSegment _ _ f vaddr data flags align in
      let? _ := r in Ok g
  | Save => parse _ _ (serialize _ _ f)
  end.

(** Where the byte at an address is in the file. *)
Definition offset_of f (a : Z) : option Z :=
  match vaddrToFileOffset _ _ f a with
  | Ok o => if o <? size (raw_ _ _ f) then Some o else None
  | Err _ => None
  end.

(** The header and the tables. *)
Definition metadata f (o : Z) : bool :=
  let within start len := (start <=? o) && (o <? start + len) in
  (o <? sizeof_struct Ehdr) ||
  within (e_phoff (header _ _ f)) (size (phdrs_ _ _ f) * sizeof_struct Phdr) ||
  within (e_shoff (header _ _ f)) (size (shdrs_ _ _ f) * sizeof_struct Shdr).

Definition byte_at f (a : Z) : option byte :=
  match offset_of f a with
  | Some o => if metadata f o then None else raw_ _ _ f !! Z.to_nat o
  | None => None
  end.

Definition represents f (i : image) : Prop :=
  entry _ _ f = im_entry i /\ map_Forall (fun a b => byte_at f a = Some b) (im_bytes i).

(** ** Loadable files *)

Definition segment_inside (n : Z) (ph : PhdrFields) : Prop :=
  p_type ph = PT_LOAD -> p_vaddr ph + p_filesz ph < 2 ^ 64 /\ p_offset ph + p_filesz ph <= n.

(** The class invariant, with no table over another, loadable segments inside
    the file, and no byte of the file at two addresses. *)
Record loadable f : Prop := {
  ld_ok : file_ok Is64 E f;
  ld_tables : tables_disjoint Is64 E f;
  ld_inside : Forall (segment_inside (size (raw_ _ _ f))) (segments _ _ f);
  ld_alias : forall a a' o, offset_of f a = Some o -> offset_of f a' = Some o -> a = a'
}.

Abbreviation addr_max := (256 ^ Z.of_nat (sizeof addr_t)).

(** What a command asks of the file it is run on. *)
Definition allowed f (c : command) : Prop :=
  size (raw_ _ _ f) < 2 ^ 61 /\
  match c with
  | SetEntry addr => 0 <= addr < addr_max
  | Patch vaddr bs =>
      exists off, vaddrToFileOffset _ _ f vaddr = Ok off /\
        off + size bs <= size (raw_ _ _ f) /\
        forall k, 0 <= k < size bs ->
          offset_of f (vaddr + k) = Some (off + k) /\ metadata f (off + k) = false
  | AddSegment vaddr data _ _ =>
      can_extend Is64 E f data /\ size data < 2 ^ 61 /\
      0 <= vaddr /\ vaddr + size data < addr_max /\
      forall a, vaddr <= a < vaddr + size data -> List.find (covers a) (segments _ _ f) = None
  | Save => True
  end.

(** Sequences of commands, each allowed where it is run. *)
Inductive session : list command -> ElfFile -> ElfFile -> Prop :=
| session_nil f : session [] f f
| session_cons c cs f g h :
    allowed f c -> run_command f c = Ok g -> session cs g h -> session (c :: cs) f h.

(** ** Addresses of a loadable file *)

Definition file_pos (a : Z) (ph : PhdrFields) : Z := p_offset ph + (a - p_vaddr ph).

Lemma segment_ranges f : file_ok Is64 E f -> Forall (phdr_range addr_t) (segments _ _ f).
Proof.
  intros Hok. apply Forall_fmap, (Forall_impl _ _ _ (ok_phdrs _ _ f Hok)).
  intros p Hp. apply (phdr_fields_range p Hp).
Qed.

Lemma covers_spec a ph n :
  phdr_range addr_t ph -> segment_inside n ph -> covers a ph = true ->
  p_vaddr ph <= a < p_vaddr ph + p_filesz ph /\ 0 <= file_pos a ph < n.
Proof.
  intros [] Hin Hc. unfold covers, segment_inside, file_pos in *.
  destruct (Z.eqb_spec (p_type ph) PT_LOAD) as [Ht|]; [|discriminate]. specialize (Hin Ht).
  rewrite u64_small in Hc by lia. cbn [andb] in Hc. lia.
Qed.

(** Any file with at least the segments' bytes gives the same offsets. *)
Lemma offset_of_segments f g a :
  Forall (phdr_range addr_t) (segments _ _ f) ->
  Forall (segment_inside (size (raw_ _ _ f))) (segments _ _ f) ->
  segments _ _ g = segments _ _ f -> size (raw_ _ _ f) <= size (raw_ _ _ g) < 2 ^ 64 ->
  offset_of g a = file_pos a <$> List.find (covers a) (segments _ _ f).
Proof.
  intros Hr Hin Hsegs Hs. unfold offset_of, vaddrToFileOffset. rewrite find_segment_find, Hsegs.
  destruct (List.find _ _) as [ph|] eqn:Hf; [|reflexivity].
  apply find_some in Hf as [Hm Hc]. apply list_elem_of_In in Hm.
  rewrite Forall_forall in Hr, Hin.
  destruct (covers_spec a ph _ (Hr ph Hm) (Hin ph Hm) Hc) as [_ Hp].
  fold (file_pos a ph). rewrite u64_small by lia.
  destruct (Z.ltb_spec (size (raw_ _ _ g)) (file_pos a ph)); [lia|].
  destruct (Z.ltb_spec (file_pos a ph) (size (raw_ _ _ g))); [reflexivity|lia].
Qed.

Lemma offset_of_range f a o :
  offset_of f a = Some o -> 0 <= o < size (raw_ _ _ f).
Proof.
  unfold offset_of, vaddrToFileOffset. rewrite find_segment_find.
  destruct (List.find _ _) as [ph|]; [|discriminate].
  pose proof (u64_range (p_offset ph + (a - p_vaddr ph))).
  destruct (_ <? _); [discriminate|]. destruct (Z.ltb_spec (u64 (p_offset ph + (a - p_vaddr ph))) (size (raw_ _ _ f)));
    [|discriminate]. intros [= <-]. lia.
Qed.

Lemma loadable_offset f a :
  loadable f -> size (raw_ _ _ f) < 2 ^ 64 ->
  offset_of f a = file_pos a <$> List.find (covers a) (segments _ _ f).
Proof.
  intros [] Hs. apply offset_of_segments; [apply segment_ranges|..]; try assumption; [reflexivity|lia].
Qed.

(** A byte that is where it was, in the same place of the file. *)
Lemma byte_at_keep f g a :
  offset_of g a = offset_of f a ->
  (forall o, offset_of f a = Some o -> metadata f o = false ->
     metadata g o = false /\ raw_ _ _ g !! Z.to_nat o = raw_ _ _ f !! Z.to_nat o) ->
  forall b, byte_at f a = Some b -> byte_at g a = Some b.
Proof.
  intros Ho Hk b. unfold byte_at. rewrite Ho. destruct (offset_of f a) as [o|]; [|discriminate].
  specialize (Hk o eq_refl). destruct (metadata f o); [discriminate|].
  destruct Hk as [-> ->]; auto.
Qed.
End Image.
