(* ===== verification/ImageFacts.v ===== *)
(** * The ELF layer implements its specification

    Each command keeps a file loadable and takes a file that represents an
    image to one that represents the specified image; so does every session. *)

From stdpp Require Import gmap.
From S2P Require Import Prelude.
From S2P Require Import Errors.
From S2P Require Import EndianInt.
From S2P Require Import ElfTypes.
From S2P Require Import ElfFile.
From S2P Require Import ElfFileFacts.
From S2P Require Import Image.

Section ImageFacts.
Context (Is64 : bool) (E : Endian) `{C : ElfClass Is64 E}.
Abbreviation ElfFile := (ElfFile Is64 E).
Abbreviation offset_of := (offset_of Is64 E).
Abbreviation metadata := (metadata Is64 E).
Abbreviation byte_at := (byte_at Is64 E).
Abbreviation loadable := (loadable Is64 E).
Abbreviation represents := (represents Is64 E).
Abbreviation allowed := (allowed Is64 E).
Implicit Types f g : ElfFile.

(** A command that succeeds and simulates its specification. *)
Definition simulated f (c : command) : Prop :=
  exists g, run_command Is64 E f c = Ok g /\ loadable g /\
    forall i, represents f i -> represents g (spec_step i c).

(** ** Mutations that keep the layout *)

Record same_layout f g : Prop := {
  sl_phdrs : phdrs_ _ _ g = phdrs_ _ _ f;
  sl_shdrs : shdrs_ _ _ g = shdrs_ _ _ f;
  sl_phoff : e_phoff (header _ _ g) = e_phoff (header _ _ f);
  sl_shoff : e_shoff (header _ _ g) = e_shoff (header _ _ f);
  sl_size : size (raw_ _ _ g) = size (raw_ _ _ f)
}.

Lemma same_layout_offset f g a : same_layout f g -> offset_of g a = offset_of f a.
Proof.
  intros []. unfold Image.offset_of, vaddrToFileOffset, segments. rewrite sl_phdrs0, sl_size0. reflexivity.
Qed.

Lemma same_layout_metadata f g o : same_layout f g -> metadata g o = metadata f o.
Proof. intros []. unfold Image.metadata. congruence. Qed.

Lemma same_layout_loadable f g :
  loadable f -> file_ok Is64 E g -> same_layout f g -> loadable g.
Proof.
  intros [_ [T1 T2 T3] Hin Hal] Hok Hl. constructor; [exact Hok| | |].
  - destruct Hl. constructor; congruence.
  - destruct Hl. unfold segments in *. rewrite sl_phdrs0, sl_size0. exact Hin.
  - intros a a' o. rewrite !(same_layout_offset f g) by exact Hl. apply Hal.
Qed.

Lemma setEntry_simulated f addr :
  loadable f -> allowed f (SetEntry addr) -> simulated f (SetEntry addr).
Proof.
  intros Hf [_ Ha]. exists (setEntry _ _ f addr). split; [reflexivity|].
  assert (header Is64 E (setEntry Is64 E f addr) = with_entry addr (header Is64 E f)) as Hh.
  { unfold header, setEntry. cbn [header_]. rewrite ehdr_set_entry, convert_small by exact Ha. reflexivity. }
  assert (same_layout f (setEntry _ _ f addr)) as Hl by (constructor; rewrite ?Hh; reflexivity).
  split; [eapply same_layout_loadable; [exact Hf|apply setEntry_ok, Hf|exact Hl]|].
  intros i [_ Hm]. split; [unfold entry; rewrite Hh; reflexivity|].
  intros a b Hb. apply (byte_at_keep _ _ f); [apply same_layout_offset, Hl| |apply Hm, Hb].
  intros o _ Ho. rewrite same_layout_metadata with (f := f) by exact Hl. split; [exact Ho|reflexivity].
Qed.

Lemma patch_simulated f vaddr bs :
  loadable f -> allowed f (Patch vaddr bs) -> simulated f (Patch vaddr bs).
Proof.
  intros Hf (Hs & off & Hv & Hfit & Hmap).
  assert (0 <= off) as H0.
  { unfold vaddrToFileOffset in Hv. rewrite find_segment_find in Hv.
    destruct (List.find _ _) as [ph|]; [|discriminate]. case_match; [discriminate|].
    injection Hv as <-. apply u64_range. }
  set (g := mkElfFile Is64 E (header_ _ _ f) (phdrs_ _ _ f) (shdrs_ _ _ f) (splice off bs (raw_ _ _ f))).
  exists g. cbn [run_command]. rewrite Hv. cbn [bind].
  rewrite patchBytesAt_fits by lia. split; [reflexivity|].
  assert (size (splice off bs (raw_ _ _ f)) = size (raw_ _ _ f)) as Hsz by (apply size_splice; lia).
  assert (same_layout f g) as Hl by (constructor; first [reflexivity | exact Hsz]).
  split.
  { eapply same_layout_loadable; [exact Hf|apply patch_raw_ok; [apply Hf|exact Hsz]|exact Hl]. }
  intros i [He Hm]. split; [exact He|]. cbn [im_bytes spec_step].
  intros a b Hb. pose proof (size_nonneg bs).
  assert (forall o k, 0 <= o -> offset_of f a = Some o -> 0 <= k < size bs -> o = off + k -> a = vaddr + k) as Hal.
  { intros o k Ho Ha Hk ->. apply (ld_alias _ _ f Hf a (vaddr + k) (off + k)); [exact Ha|apply Hmap; exact Hk]. }
  apply lookup_union_Some_raw in Hb as [Hb|[Hnone Hb]].
  - rewrite lookup_bytes_from in Hb. destruct (Z.leb_spec vaddr a) as [Hle|]; [|discriminate].
    apply lookup_lt_Some in Hb as Hlt. destruct (Hmap (a - vaddr)) as [Ho Hd]; [unfold size; lia|].
    replace (vaddr + (a - vaddr)) with a in Ho by lia.
    unfold Image.byte_at. rewrite (same_layout_offset f g), Ho by exact Hl.
    rewrite (same_layout_metadata f g), Hd by exact Hl. unfold g. cbn [raw_].
    rewrite lookup_splice, decide_True by (unfold size in *; lia). rewrite <- Hb. f_equal. lia.
  - apply (byte_at_keep _ _ f); [apply same_layout_offset, Hl| |apply Hm, Hb].
    intros o Ho Hd. rewrite (same_layout_metadata f g) by exact Hl. split; [exact Hd|].
    pose proof (offset_of_range _ _ f a o Ho). unfold g. cbn [raw_].
    rewrite lookup_splice by lia. case_decide as Hin; [|reflexivity]. exfalso.
    specialize (Hal o (o - off) ltac:(lia) Ho ltac:(lia) ltac:(lia)).
    rewrite lookup_bytes_from in Hnone. destruct (Z.leb_spec vaddr a); [|lia].
    apply lookup_ge_None in Hnone. unfold size in *. lia.
Qed.
(** ** Adding a segment *)

Section extended.
Context (f : ElfFile) (vaddr : Z) (data : list byte) (flags align : Z).
Context (Hf : loadable f) (Ha : allowed f (AddSegment vaddr data flags align)).
Abbreviation g := (extended Is64 E f vaddr data flags align).
Abbreviation n := (size (raw_ _ _ f)).

Lemma addr_max_bound : 256 ^ Z.of_nat (sizeof addr_t) <= 2 ^ 64.
Proof. destruct addr_t; cbn [sizeof]; lia. Qed.

Definition added_ph : PhdrFields := new_segment Is64 E n vaddr (size data) flags align.

Lemma added_ph_fields :
  p_type added_ph = PT_LOAD /\ p_offset added_ph = n /\ p_vaddr added_ph = vaddr /\
  p_filesz added_ph = size data.
Proof.
  destruct Ha as (_ & [_ _ He] & _ & Hv & Hvs & _). pose proof (size_nonneg data).
  pose proof (size_nonneg (raw_ _ _ f)).
  unfold added_ph, new_segment, convert_phdr. cbn [p_type p_offset p_vaddr p_filesz].
  rewrite !convert_small by lia. conj; reflexivity.
Qed.

Lemma added_ph_inside : segment_inside (n + size data) added_ph.
Proof.
  intros _. destruct added_ph_fields as (_ & -> & -> & ->). pose proof addr_max_bound.
  destruct Ha as (_ & _ & _ & Hv & Hvs & _). lia.
Qed.

Lemma extended_inside : Forall (segment_inside (size (raw_ _ _ g))) (segments _ _ g).
Proof.
  rewrite extended_raw_size, addLoadSegment_segments. pose proof (size_nonneg data).
  apply Forall_app. split; [|constructor; [exact added_ph_inside|constructor]].
  apply (Forall_impl _ _ _ (ld_inside _ _ f Hf)). unfold segment_inside. intros ph Hi Ht.
  specialize (Hi Ht). lia.
Qed.

Lemma extended_offset a :
  offset_of g a =
  match offset_of f a with
  | Some o => Some o
  | None => if (vaddr <=? a) && (a <? vaddr + size data) then Some (n + (a - vaddr)) else None
  end.
Proof.
  destruct Ha as (Hs & Hext & Hd & Hv & Hvs & Hfresh). pose proof addr_max_bound.
  pose proof (size_nonneg data). pose proof (size_nonneg (raw_ _ _ f)).
  pose proof (addLoadSegment_ok _ _ f vaddr data flags align (ld_ok _ _ f Hf) Hext) as Hok.
  assert (size (raw_ _ _ g) = n + size data) as Hr by apply extended_raw_size.
  rewrite (offset_of_segments _ _ g g a (segment_ranges _ _ g Hok) extended_inside eq_refl) by lia.
  rewrite loadable_offset by (try exact Hf; lia).
  rewrite addLoadSegment_segments, find_app. fold added_ph.
  destruct (List.find (covers a) (segments _ _ f)) as [ph|]; [reflexivity|].
  cbn [List.find fmap option_fmap option_map]. unfold covers.
  destruct added_ph_fields as (-> & Ho & -> & ->). rewrite u64_small by lia.
  cbn [Z.eqb PT_LOAD Pos.eqb andb].
  destruct ((vaddr <=? a) && (a <? vaddr + size data)) eqn:Hc; [|reflexivity].
  unfold file_pos. cbn [fmap option_fmap option_map]. destruct added_ph_fields as (_ & -> & -> & _). reflexivity.
Qed.

Lemma extended_metadata o :
  0 <= o < n + size data -> metadata g o = true -> metadata f o = true.
Proof.
  intros Ho. destruct Ha as (Hs & Hext & Hd & _).
  unfold Image.metadata. rewrite extended_phoff by assumption. rewrite addLoadSegment_header.
  unfold with_phoff, with_phnum. cbn [e_shoff].
  unfold extended, addLoadSegment. cbn [snd phdrs_ shdrs_]. lia.
Qed.

Lemma extended_metadata_new o : n <= o < n + size data -> metadata g o = false.
Proof.
  intros Ho. destruct Ha as (Hs & Hext & Hd & _). destruct (ld_ok _ _ f Hf).
  unfold Image.metadata. rewrite extended_phoff by assumption. rewrite addLoadSegment_header.
  unfold with_phoff, with_phnum. cbn [e_shoff].
  unfold extended, addLoadSegment. cbn [snd phdrs_ shdrs_]. lia.
Qed.

Lemma extended_loadable : loadable g.
Proof.
  destruct Ha as (Hs & Hext & Hd & Hv & Hvs & Hfresh).
  pose proof (size_nonneg data).
  constructor.
  - apply addLoadSegment_ok; [apply Hf|exact Hext].
  - apply addLoadSegment_disjoint; [apply Hf|exact Hext|apply (ld_tables _ _ f Hf)].
  - exact extended_inside.
  - intros a a' o. rewrite !extended_offset.
    destruct (offset_of f a) as [o1|] eqn:E1, (offset_of f a') as [o2|] eqn:E2.
    + intros [= ->] [= ->]. exact (ld_alias _ _ f Hf a a' o E1 E2).
    + apply offset_of_range in E1. case_match; [|discriminate]. intros [= ->] [= ?]. lia.
    + apply offset_of_range in E2. case_match; [|discriminate]. intros [= ?] [= ->]. lia.
    + do 2 (case_match; [|discriminate]). intros [= ?] [= ?]. lia.
Qed.

Lemma addSegment_simulated : simulated f (AddSegment vaddr data flags align).
Proof.
  exists g. split; [reflexivity|]. split; [exact extended_loadable|].
  intros i [He Hm]. split.
  { change (e_entry (header _ _ g) = im_entry i). rewrite addLoadSegment_header. exact He. }
  pose proof (size_nonneg (raw_ _ _ f)).
  intros a b Hb. apply lookup_union_Some_raw in Hb as [Hb|[Hnone Hb]].
  - apply Hm in Hb. revert Hb. unfold Image.byte_at. rewrite extended_offset.
    destruct (offset_of f a) as [o|] eqn:Ho; [|discriminate]. apply offset_of_range in Ho.
    pose proof (size_nonneg data). pose proof (extended_metadata o ltac:(lia)) as Hmd.
    destruct (metadata f o), (metadata g o); try discriminate; [specialize (Hmd eq_refl); discriminate|].
    intros <-. apply lookup_app_l. unfold size in *. lia.
  - rewrite lookup_bytes_from in Hb. destruct (Z.leb_spec vaddr a) as [Hle|]; [|discriminate].
    apply lookup_lt_Some in Hb as Hlt. destruct Ha as (Hs & _ & _ & Hv & _ & Hfresh).
    assert (vaddr <= a < vaddr + size data) as Hr by (unfold size; lia).
    unfold Image.byte_at. rewrite extended_offset, loadable_offset by (try exact Hf; lia).
    rewrite Hfresh by exact Hr. cbn [fmap option_fmap option_map].
    replace ((vaddr <=? a) && (a <? vaddr + size data)) with true by lia.
    rewrite extended_metadata_new by lia. unfold extended, addLoadSegment. cbn [snd raw_].
    rewrite lookup_app_r by (unfold size in *; lia). rewrite <- Hb. f_equal. unfold size in *. lia.
Qed.
End extended.

(** ** Writing out and reading back *)

Lemma save_simulated f : loadable f -> allowed f Save -> simulated f Save.
Proof.
  intros Hf [Hs _]. pose proof (ld_ok _ _ f Hf) as Hok.
  set (g := mkElfFile Is64 E (header_ _ _ f) (phdrs_ _ _ f) (shdrs_ _ _ f) (serialize Is64 E f)).
  assert (parse Is64 E (serialize Is64 E f) = Ok g) as Hp
    by (apply parse_serialize; [exact Hok|apply Hf|lia]).
  assert (size (raw_ _ _ f) <= size (serialize Is64 E f) < 2 ^ 64) as Hsz.
  { rewrite serialize_size by (try exact Hok; lia). pose proof (header_range _ _ f Hok) as [].
    pose proof (sizeof_struct_range (T := Phdr)). pose proof (ok_phoff _ _ f Hok).
    assert (size (phdrs_ _ _ f) * sizeof_struct Phdr <= 2 ^ 16 * 2 ^ 16)
      by (rewrite <- (ok_phnum _ _ f Hok); apply Z.mul_le_mono_nonneg; lia).
    lia. }
  assert (forall a, offset_of g a = offset_of f a) as Ho.
  { intros a. rewrite (loadable_offset _ _ f) by (try exact Hf; lia).
    apply offset_of_segments; [apply segment_ranges, Hok|apply Hf|reflexivity|exact Hsz]. }
  exists g. split; [exact Hp|]. split.
  - destruct Hf as [_ [] Hin Hal]. constructor.
    + eapply parse_ok; [|exact Hp]. lia.
    + constructor; assumption.
    + apply (Forall_impl _ _ _ Hin). unfold segment_inside. cbn [raw_ g]. intros ph Hi Ht.
      specialize (Hi Ht). lia.
    + intros a a' o. rewrite !Ho. apply Hal.
  - intros i [He Hm]. split; [exact He|]. intros a b Hb. apply Hm in Hb. revert Hb.
    apply byte_at_keep; [apply Ho|]. intros o Hoff Hmd. split; [exact Hmd|].
    apply offset_of_range in Hoff. unfold Image.metadata in Hmd.
    pose proof (serialize_slice_raw Is64 E f o 1 Hok ltac:(lia) ltac:(lia) ltac:(lia) ltac:(lia)) as Hsl.
    apply (f_equal (fun l => l !! 0%nat)) in Hsl. rewrite !lookup_slice in Hsl.
    rewrite Nat.add_0_r in Hsl. exact Hsl.
Qed.

(** ** Sessions *)

Lemma command_simulated f c : loadable f -> allowed f c -> simulated f c.
Proof.
  destruct c; auto using setEntry_simulated, patch_simulated, addSegment_simulated, save_simulated.
Qed.

Lemma session_simulated cs f g :
  session Is64 E cs f g -> loadable f ->
  loadable g /\ forall i, represents f i -> represents g (fold_left spec_step cs i).
Proof.
  induction 1 as [f|c cs f g h Ha Hrun _ IH]; intros Hf; [auto|].
  destruct (command_simulated f c Hf Ha) as (g' & Hrun' & Hg & Hsim).
  rewrite Hrun in Hrun'. injection Hrun' as <-. destruct (IH Hg) as [Hh Hrep].
  split; [exact Hh|]. intros i Hi. apply Hrep, Hsim, Hi.
Qed.

End ImageFacts.
