(* ===== verification/Toc.v ===== *)
(** * Entry descriptors: ps3patch/include/ps3patch/toc.hpp

    [Ps3ElfFile] is the 64-bit big-endian instantiation.  [e_entry] points at
    a descriptor of two 4-byte words, the code address and the TOC value. *)

From S2P Require Import Prelude.
From S2P Require Import Text.
From S2P Require Import Errors.
From S2P Require Import EndianInt.
From S2P Require Import ElfTypes.
From S2P Require Import ElfFile.
From S2P Require Import ElfFileFacts.

Abbreviation Ps3ElfFile := (ElfFile true Big).

Record EntryDescriptor := mkEntryDescriptor {
  codeAddress : Z;
  tocValue : Z;
  envPointer : Z
}.

#[export] Instance EntryDescriptor_eq_dec : EqDecision EntryDescriptor.
Proof. solve_decision. Defined.

Definition readBigEndian32 (bytes : list byte) (offset : nat) : Z :=
  fold_left (fun v i => Z.lor (shl32 v 8) (byte_val (at_ (offset + i) bytes))) (seq 0 4) 0.

Definition validatePs3Executable (file : Ps3ElfFile) : VoidResult :=
  if negb (e_machine (header true Big file) =? EM_PPC64) then
    Err (make Unsupported
      "e_machine is not EM_PPC64 -- this does not look like a PS3/PPU executable")
  else ok.

Definition hasTypicalEFlags (file : Ps3ElfFile) : bool :=
  e_flags (header true Big file) =? 0.

Definition resolveEntryDescriptor (file : Ps3ElfFile) : Result EntryDescriptor :=
  let? _ := validatePs3Executable file in
  let descriptorVaddr := entry true Big file in
  match vaddrToFileOffset true Big file descriptorVaddr with
  | Err e =>
      Err (make OffsetOutOfBounds
        ("e_entry (0x" +:+ to_string descriptorVaddr +:+
         ") does not resolve to any file-backed segment -- cannot locate the " +:+
         "entry function descriptor: " +:+ message e))
  | Ok descriptorOffset =>
      match readAt true Big file descriptorOffset 8 with
      | Err e =>
          Err (make TruncatedFile
            ("entry function descriptor at file offset 0x" +:+ to_string descriptorOffset +:+
             " is truncated: " +:+ message e))
      | Ok bytes =>
          Ok (mkEntryDescriptor (readBigEndian32 bytes 0) (readBigEndian32 bytes 4) 0)
      end
  end.

(** ** Lemmas *)

Lemma lookup_at_ bytes i : Z.of_nat i < size bytes -> bytes !! i = Some (at_ i bytes).
Proof.
  unfold size, at_. intros H. rewrite nth_lookup.
  destruct (bytes !! i) eqn:E; [reflexivity|]. apply lookup_ge_None in E. lia.
Qed.

Lemma slice4 bytes offset :
  Z.of_nat offset + 4 <= size bytes ->
  slice (Z.of_nat offset) 4 bytes =
  [at_ offset bytes; at_ (offset + 1) bytes; at_ (offset + 2) bytes; at_ (offset + 3) bytes].
Proof.
  intros H. apply list_eq. intros i. rewrite lookup_slice, Nat2Z.id.
  case_decide as Hi.
  - rewrite lookup_at_ by lia.
    do 4 (destruct i as [|i]; [cbn; do 2 f_equal; lia|]). lia.
  - symmetry. apply lookup_ge_None. cbn. lia.
Qed.

Lemma be_load4 b0 b1 b2 b3 :
  be_load [b0; b1; b2; b3] =
  byte_val b0 * 2 ^ 24 + byte_val b1 * 2 ^ 16 + byte_val b2 * 2 ^ 8 + byte_val b3.
Proof. unfold be_load. cbn [reverse rev_append le_load]. cbn. lia. Qed.

Lemma shl8_or v b : 0 <= v < 2 ^ 24 -> Z.lor (shl32 v 8) (byte_val b) = v * 2 ^ 8 + byte_val b.
Proof.
  intros H. pose proof (byte_val_range b). unfold shl32. rewrite Z.shiftl_mul_pow2 by lia.
  rewrite u32_small by lia. apply (lor_disjoint_add 8); zarith.
Qed.

Lemma readBigEndian32_load bytes offset :
  Z.of_nat offset + 4 <= size bytes ->
  readBigEndian32 bytes offset = be_load (slice (Z.of_nat offset) 4 bytes).
Proof.
  intros H. rewrite slice4, be_load4 by exact H.
  unfold readBigEndian32. cbn [seq fold_left]. rewrite Nat.add_0_r.
  set (b0 := at_ offset bytes). set (b1 := at_ (offset + 1) bytes).
  set (b2 := at_ (offset + 2) bytes). set (b3 := at_ (offset + 3) bytes).
  pose proof (byte_val_range b0). pose proof (byte_val_range b1).
  pose proof (byte_val_range b2). pose proof (byte_val_range b3).
  rewrite (shl8_or 0), (shl8_or _ b1), (shl8_or _ b2), (shl8_or _ b3) by lia. lia.
Qed.

(** The descriptor the two words at an offset of the file give. *)
Definition descriptor_at (file : Ps3ElfFile) (off : Z) : EntryDescriptor :=
  mkEntryDescriptor (be_load (slice off 4 (raw_ _ _ file)))
    (be_load (slice (off + 4) 4 (raw_ _ _ file))) 0.

Lemma resolveEntryDescriptor_spec file :
  size (raw_ _ _ file) < 2 ^ 64 ->
  match resolveEntryDescriptor file with
  | Ok d =>
      exists off, e_machine (header _ _ file) = EM_PPC64 /\
        vaddrToFileOffset _ _ file (entry _ _ file) = Ok off /\
        off + 8 <= size (raw_ _ _ file) /\ d = descriptor_at file off
  | Err e =>
      (code e = Unsupported /\ e_machine (header _ _ file) <> EM_PPC64) \/
      (code e = OffsetOutOfBounds /\ e_machine (header _ _ file) = EM_PPC64 /\
       is_ok (vaddrToFileOffset _ _ file (entry _ _ file)) = false) \/
      (code e = TruncatedFile /\ e_machine (header _ _ file) = EM_PPC64 /\
       exists off, vaddrToFileOffset _ _ file (entry _ _ file) = Ok off /\
         size (raw_ _ _ file) < off + 8)
  end.
Proof.
  intros Hs. unfold resolveEntryDescriptor, validatePs3Executable.
  destruct (Z.eqb_spec (e_machine (header true Big file)) EM_PPC64) as [Hm|Hm]; cbn [negb bind];
    [|left; auto].
  destruct (vaddrToFileOffset _ _ file _) as [off|e] eqn:Hv; cbn [bind]; [|right; left; auto].
  assert (0 <= off < 2 ^ 64) as Ho.
  { unfold vaddrToFileOffset in Hv. rewrite find_segment_find in Hv.
    destruct (List.find _ _); [|discriminate].
    destruct (_ <? _); [discriminate|]. injection Hv as <-. apply u64_range. }
  destruct (readAt _ _ file off 8) as [bs|e] eqn:Hr.
  - apply readAt_inv in Hr as [Hf ->]; [|lia..]. exists off. split; [exact Hm|].
    split; [reflexivity|]. split; [exact Hf|]. unfold descriptor_at.
    rewrite !readBigEndian32_load by (rewrite size_slice by lia; cbn; lia).
    rewrite !slice_slice by lia. cbn. rewrite Z.add_0_r. reflexivity.
  - right; right. unfold readAt in Hr. rewrite regionFits_bool in Hr by (pose proof (size_nonneg (raw_ _ _ file)); lia).
    destruct (Z.leb_spec (off + 8 * 1) (size (raw_ _ _ file))); [discriminate|].
    split; [reflexivity|]. split; [exact Hm|]. exists off. split; [reflexivity|lia].
Qed.
