(* ===== verification/Trampoline.v ===== *)
(** * The trampoline: ps3patch/include/ps3patch/trampoline.hpp

    The injected payload and the jump into it.  A function that runs encoders
    which may throw returns [exc]; [buildTrampoline] returns the [Result] of
    the code inside the exception channel.  [std::string] is [string] and its
    bytes are [list_byte_of_string]. *)

From S2P Require Import Prelude.
From S2P Require Import Text.
From S2P Require Import Errors.
From S2P Require Import EndianInt.
From S2P Require Import ElfTypes.
From S2P Require Import PpcEncode.
From S2P Require Import PpcDecode.
From S2P Require Import ElfFile.
From S2P Require Import Toc.
From S2P Require Import Syscalls.

Record TrampolineResult := mkTrampolineResult {
  blob : list byte;
  entryPatchBytes : list byte;
  trampolineAddr : Z;
  entryPatchAddr : Z;
  displacedInstructionCount : Z
}.

Definition TRAMPOLINE_MAGIC : list byte := list_byte_of_string "SP3PATCH".

(** ** Detection of patched files *)

Definition isAlreadyPatched (file : Ps3ElfFile) : bool :=
  existsb (fun ph =>
    if negb (p_type ph =? PT_LOAD) then false
    else if p_filesz ph <? size TRAMPOLINE_MAGIC then false
    else
      match readAt true Big file (p_offset ph) (size TRAMPOLINE_MAGIC) with
      | Err _ => false
      | Ok bytes => bool_decide (TRAMPOLINE_MAGIC = take (length TRAMPOLINE_MAGIC) bytes)
      end) (segments true Big file).

(** ** Instruction sequences *)

Definition FRAME_SIZE : Z := 256.
Definition SAVE_BASE : Z := 128.
Definition PROLOGUE_INSTR_COUNT : Z := 16.
Definition EPILOGUE_INSTR_COUNT : Z := 16.
Definition TOC_FIXUP_INSTR_COUNT : Z := 3.

Definition buildPrologue : exc (list Instruction) :=
  exc_list
    [encodeStdu 1 1 (- i32 FRAME_SIZE);
     encodeStd 0 1 (SAVE_BASE + 0);
     Ret (encodeMflr 0); encodeStd 0 1 (SAVE_BASE + 8);
     Ret (encodeMfctr 0); encodeStd 0 1 (SAVE_BASE + 16);
     encodeStd 3 1 (SAVE_BASE + 24); encodeStd 4 1 (SAVE_BASE + 32);
     encodeStd 5 1 (SAVE_BASE + 40); encodeStd 6 1 (SAVE_BASE + 48);
     encodeStd 7 1 (SAVE_BASE + 56); encodeStd 8 1 (SAVE_BASE + 64);
     encodeStd 9 1 (SAVE_BASE + 72); encodeStd 10 1 (SAVE_BASE + 80);
     encodeStd 11 1 (SAVE_BASE + 88); encodeStd 12 1 (SAVE_BASE + 96)].

Definition buildEpilogue : exc (list Instruction) :=
  exc_list
    [encodeLd 0 1 (SAVE_BASE + 8); Ret (encodeMtlr 0);
     encodeLd 0 1 (SAVE_BASE + 16); Ret (encodeMtctr 0);
     encodeLd 3 1 (SAVE_BASE + 24); encodeLd 4 1 (SAVE_BASE + 32);
     encodeLd 5 1 (SAVE_BASE + 40); encodeLd 6 1 (SAVE_BASE + 48);
     encodeLd 7 1 (SAVE_BASE + 56); encodeLd 8 1 (SAVE_BASE + 64);
     encodeLd 9 1 (SAVE_BASE + 72); encodeLd 10 1 (SAVE_BASE + 80);
     encodeLd 11 1 (SAVE_BASE + 88); encodeLd 12 1 (SAVE_BASE + 96);
     encodeLd 0 1 (SAVE_BASE + 0);
     Ret (encodeAddi 1 1 (i16 FRAME_SIZE))].

(** The [catch] falls through to the long jump. *)
Definition makeMinimalJump (fromAddr toAddr : Z) : list Instruction :=
  let disp := toAddr - fromAddr in
  let longJump := makeAbsoluteJump toAddr 12 in
  if (Z.rem disp 4 =? 0) && (-33554432 <=? disp) && (disp <=? 33554428) then
    match encodeBranch (i32 disp) false false with
    | Ret w => [w]
    | Throw _ => longJump
    end
  else longJump.

Fixpoint toBigEndianBytes (instrs : list Instruction) : list byte :=
  match instrs with
  | [] => []
  | instr :: instrs' =>
      byte_of (Z.shiftr instr 24) :: byte_of (Z.shiftr instr 16) ::
      byte_of (Z.shiftr instr 8) :: byte_of instr :: toBigEndianBytes instrs'
  end.

(** ** Relocation of the displaced instructions *)

Definition relocation_failed (i : Z) : Error :=
  make RelocationFailed
    ("instruction " +:+ to_string i +:+
     " at the entrypoint is a relative branch whose displacement can't be corrected " +:+
     "after relocation -- refusing to patch rather than emit a broken jump").

(** [i] is the index of the head of [original] in the vector. *)
Fixpoint relocate_from (original : list Instruction) (originalBaseAddr newBaseAddr i : Z)
    : Result (list Instruction) :=
  match original with
  | [] => Ok []
  | w :: original' =>
      let originalAddr := u32 (originalBaseAddr + u32 (i * 4)) in
      let newAddr := u32 (newBaseAddr + u32 (i * 4)) in
      let decoded := classify w in
      let? w' :=
        if bool_decide (kind decoded = DirectRelative) then
          match relocateBranch decoded originalAddr newAddr with
          | None => Err (relocation_failed i)
          | Some fixed => Ok fixed
          end
        else Ok w in
      let? out := relocate_from original' originalBaseAddr newBaseAddr (i + 1) in
      Ok (w' :: out)
  end.

Definition relocateDisplacedInstructions (original : list Instruction)
    (originalBaseAddr newBaseAddr : Z) : Result (list Instruction) :=
  relocate_from original originalBaseAddr newBaseAddr 0.

(** ** The payload *)

Definition kMaxPathLength : Z := 1023.

Definition displaced_word (entryBytes : list byte) (i : nat) : Instruction :=
  let b k := byte_val (at_ (i * 4 + k) entryBytes) in
  Z.lor (Z.lor (Z.lor (shl32 (b 0%nat) 24) (shl32 (b 1%nat) 16)) (shl32 (b 2%nat) 8)) (b 3%nat).

(** [while (blob.size() % 4 != 0) blob.push_back(0);], at most [fuel] times. *)
Fixpoint pad_to_word (fuel : nat) (b : list byte) : list byte :=
  match fuel with
  | O => b
  | S fuel' => if size b mod 4 =? 0 then b else pad_to_word fuel' (b ++ [Byte.x00])
  end.

(** Four tests are enough: at most three bytes are missing. *)
Definition make_blob (code : list Instruction) (sprxPath : string) : list byte :=
  pad_to_word 4
    (TRAMPOLINE_MAGIC ++ toBigEndianBytes code ++ list_byte_of_string sprxPath ++ [Byte.x00]).

Definition fixedPrefixInstrCount : Z :=
  PROLOGUE_INSTR_COUNT + SYSCALL_SEQUENCE_INSTR_COUNT + EPILOGUE_INSTR_COUNT +
  TOC_FIXUP_INSTR_COUNT.

(** Steps 3 to 9 of [buildTrampoline], from the displaced instructions on. *)
Definition assemble (entry : EntryDescriptor) (trampolineAddr : Z) (sprxPath : string)
    (jumpIn displacedInstructions : list Instruction) : exc (Result TrampolineResult) :=
  let codeBaseAddr := u32 (trampolineAddr + u32 (size TRAMPOLINE_MAGIC)) in
  let displacedCount := size jumpIn in
  let resumeAddr := u32 (codeBaseAddr + u32 (fixedPrefixInstrCount * 4)) in
  match relocateDisplacedInstructions displacedInstructions (u32 (codeAddress entry)) resumeAddr with
  | Err e => Ret (Err e)
  | Ok relocated =>
      let jumpBackAddr := u32 (resumeAddr + u32 (displacedCount * 4)) in
      let remainderAddr := u32 (u32 (codeAddress entry) + u32 (displacedCount * 4)) in
      let jumpBack := makeMinimalJump jumpBackAddr remainderAddr in
      let totalCodeInstrCount := fixedPrefixInstrCount + displacedCount + size jumpBack in
      let pathAddress := u32 (codeBaseAddr + u32 (totalCodeInstrCount * 4)) in
      let syscallInstrs := makeLoadAndStartModule pathAddress in
      if negb (size syscallInstrs =? SYSCALL_SEQUENCE_INSTR_COUNT) then
        Ret (Err (make Unsupported
          "internal inconsistency: syscall sequence length changed unexpectedly"))
      else
        let! prologue := buildPrologue in
        let! epilogue := buildEpilogue in
        let tocFixup := loadImmediate32 2 (u32 (tocValue entry)) in
        let code := prologue ++ syscallInstrs ++ epilogue ++ tocFixup ++ relocated ++ jumpBack in
        if negb (size code =? totalCodeInstrCount) then
          Ret (Err (make Unsupported
            ("internal inconsistency: assembled code size does not match " +:+
             "the planned layout")))
        else
          Ret (Ok {|
            blob := make_blob code sprxPath;
            entryPatchBytes := toBigEndianBytes jumpIn;
            trampolineAddr := trampolineAddr;
            entryPatchAddr := u32 (codeAddress entry);
            displacedInstructionCount := displacedCount |})
  end.

Definition buildTrampoline (file : Ps3ElfFile) (entry : EntryDescriptor) (trampolineAddr : Z)
    (sprxPath : string) : exc (Result TrampolineResult) :=
  if bool_decide (sprxPath = EmptyString) then
    Ret (Err (make InvalidArgument "sprxPath must not be empty"))
  else if kMaxPathLength <? Z.of_nat (String.length sprxPath) then
    Ret (Err (make InvalidArgument
      ("sprxPath exceeds the maximum supported length (" +:+ to_string kMaxPathLength +:+
       " bytes)")))
  else if negb (trampolineAddr mod 4 =? 0) then
    Ret (Err (make InvalidArgument "trampolineAddr must be 4-byte aligned"))
  else if negb (codeAddress entry mod 4 =? 0) then
    Ret (Err (make InvalidArgument "entry.codeAddress must be 4-byte aligned"))
  else if isAlreadyPatched file then
    Ret (Err (make AlreadyPatched
      ("this file already contains a ps3patch trampoline segment -- refusing to patch " +:+
       "an already-patched file (use the original, unmodified EBOOT.elf)")))
  else
    let codeBaseAddr := u32 (trampolineAddr + u32 (size TRAMPOLINE_MAGIC)) in
    let jumpIn := makeMinimalJump (u32 (codeAddress entry)) codeBaseAddr in
    let displacedCount := size jumpIn in
    match vaddrToFileOffset true Big file (codeAddress entry) with
    | Err e =>
        Ret (Err (make OffsetOutOfBounds
          ("entry.codeAddress does not resolve to a file-backed segment: " +:+ message e)))
    | Ok entryOffset =>
        match readAt true Big file entryOffset (displacedCount * 4) with
        | Err e =>
            Ret (Err (make TruncatedFile
              ("not enough file data at the entrypoint to read " +:+ to_string displacedCount +:+
               " instruction(s): " +:+ message e)))
        | Ok entryBytes =>
            let displacedInstructions := displaced_word entryBytes <$> seq 0 (length jumpIn) in
            assemble entry trampolineAddr sprxPath jumpIn displacedInstructions
        end
    end.
