(* ===== verification/Info.v ===== *)
(** * The inspection report: ps3patch/include/ps3patch/info.hpp *)

From S2P Require Import Prelude.
From S2P Require Import Text.
From S2P Require Import Errors.
From S2P Require Import EndianInt.
From S2P Require Import ElfTypes.
From S2P Require Import ElfFile.
From S2P Require Import Toc.
From S2P Require Import Syscalls.
From S2P Require Import Trampoline.

(** The newline character. *)
Definition nl : string := String "010" EmptyString.

Definition segmentFlagsToString (flags : Z) : string :=
  (if negb (Z.land flags PF_R =? 0) then "R" else "-") +:+
  (if negb (Z.land flags PF_W =? 0) then "W" else "-") +:+
  (if negb (Z.land flags PF_X =? 0) then "X" else "-").

Definition segmentTypeToString (type : Z) : string :=
  if type =? PT_NULL then "NULL"
  else if type =? PT_LOAD then "LOAD"
  else if type =? PT_DYNAMIC then "DYNAMIC"
  else if type =? PT_INTERP then "INTERP"
  else if type =? PT_NOTE then "NOTE"
  else snprintf 16 ("0x" +:+ to_hex type).

Definition hex (v : Z) : string := snprintf 24 ("0x" +:+ to_hex v).

(** One row of the segment table:
    ["  %-3zu %-9s %-6s %-18s %-18s %-11s %s\n"]. *)
Definition segment_line (idx : Z) (ph : PhdrFields) : string :=
  snprintf 256
    ("  " +:+ pad_right 3 (to_string idx) +:+
     " " +:+ pad_right 9 (segmentTypeToString (p_type ph)) +:+
     " " +:+ pad_right 6 (segmentFlagsToString (p_flags ph)) +:+
     " " +:+ pad_right 18 (hex (p_vaddr ph)) +:+
     " " +:+ pad_right 18 (hex (p_offset ph)) +:+
     " " +:+ pad_right 11 (hex (p_filesz ph)) +:+
     " " +:+ hex (p_memsz ph) +:+ nl).

Fixpoint segment_lines (idx : Z) (phs : list PhdrFields) : string :=
  match phs with
  | [] => EmptyString
  | ph :: phs' => segment_line idx ph +:+ segment_lines (idx + 1) phs'
  end.

Definition formatInfo (file : Ps3ElfFile) : Result string :=
  let? entry_ := resolveEntryDescriptor file in
  let h := header true Big file in
  let patched := isAlreadyPatched file in
  Ok (
    "=== ELF Header ===" +:+ nl +:+
    "  Class:        ELF64" +:+ nl +:+
    "  Data:         big-endian" +:+ nl +:+
    "  Machine:      EM_PPC64 (" +:+ to_string (e_machine h) +:+ ")" +:+ nl +:+
    "  Type:         " +:+ to_string (e_type h) +:+ nl +:+
    "  Flags:        " +:+ hex (e_flags h) +:+ nl +:+
    (if negb (hasTypicalEFlags file) then
       "                (unusual -- real PS3 EBOOTs observed so far all have e_flags == 0x0; " +:+
       "this doesn't necessarily mean the file is invalid, just that it differs from what " +:+
       "this tool has empirically seen)" +:+ nl
     else EmptyString) +:+
    "  Entry (raw):  " +:+ hex (entry true Big file) +:+
    "  (OPD descriptor address, not code)" +:+ nl +:+
    nl +:+
    "=== Entry Function Descriptor (OPD) ===" +:+ nl +:+
    "  Code address: " +:+ hex (codeAddress entry_) +:+ nl +:+
    "  TOC value:    " +:+ hex (tocValue entry_) +:+ nl +:+
    "  Env pointer:  " +:+ hex (envPointer entry_) +:+ nl +:+
    nl +:+
    "=== ps3patch status ===" +:+ nl +:+
    "  Already patched by ps3patch: " +:+ (if patched then "YES" else "no") +:+ nl +:+
    nl +:+
    "=== Program Headers (" +:+ to_string (size (segments true Big file)) +:+ ") ===" +:+ nl +:+
    "  #   Type      Flags  VirtAddr            Offset              FileSz      MemSz" +:+ nl +:+
    segment_lines 0 (segments true Big file) +:+
    nl +:+
    "=== Syscalls ps3patch's trampoline uses ===" +:+ nl +:+
    "  " +:+ to_string SYS_PRX_LOAD_MODULE +:+ "  sys_prx_load_module" +:+ nl +:+
    "  " +:+ to_string SYS_PRX_START_MODULE +:+ "  sys_prx_start_module" +:+ nl +:+
    "  (syscall number passed in r11, per LV2 convention, confirmed on real hardware)" +:+ nl).
