(* ===== verification/Main.v ===== *)
(** * The command line: ps3patch/src/main.cpp

    [main] is a function of the file system and the argument vector to an exit
    code, what is printed on each stream and the file system left behind.  The
    file system is a parameter: [FileSystem] is the interface of
    [std::ifstream] and [std::ofstream] the program uses. *)

From S2P Require Import Prelude.
From S2P Require Import Text.
From S2P Require Import Errors.
From S2P Require Import EndianInt.
From S2P Require Import ElfTypes.
From S2P Require Import ElfFile.
From S2P Require Import Toc.
From S2P Require Import Trampoline.
From S2P Require Import Info.

(** [open_read] opens a file and reads it to its end; [open_write] opens it for
    writing, truncating it; [write] writes to it and says whether the stream is
    still good. *)
Class FileSystem (fs : Type) := {
  open_read : fs -> string -> option (list byte);
  open_write : fs -> string -> option fs;
  write : fs -> string -> list byte -> fs * bool
}.

Section main.
Context {fs : Type} `{FileSystem fs}.

(** The bytes and the [bool& ok] out-parameter. *)
Definition readFile (w : fs) (path : string) : list byte * bool :=
  match open_read w path with
  | None => ([], false)
  | Some bytes => (bytes, true)
  end.

Definition writeFile (w : fs) (path : string) (bytes : list byte) : fs * bool :=
  match open_write w path with
  | None => (w, false)
  | Some w' => write w' path bytes
  end.

Definition alignUp (value align : Z) : Z :=
  if align =? 0 then value else u64 (u64 (u64 (value + align) - 1) / align * align).

Definition usage (argv0 : string) : string :=
  "usage: " +:+ argv0 +:+ " <input EBOOT.elf> <output EBOOT.elf> <sprx path>" +:+ nl +:+
  "       " +:+ argv0 +:+ " --info <EBOOT.elf>" +:+ nl +:+
  "example: " +:+ argv0 +:+ " EBOOT.elf EBOOT.patched.elf /dev_hdd0/tmp/debug.sprx" +:+ nl +:+
  "         " +:+ argv0 +:+ " --info EBOOT.elf" +:+ nl.

Record outcome := mkOutcome {
  exit_code : Z;
  stdout : string;
  stderr : string;
  files : fs
}.

(** [std::fprintf(stderr, "error: ...\n"); return 1;] *)
Definition failed (w : fs) (out : string) (what : string) : outcome :=
  mkOutcome 1 out ("error: " +:+ what +:+ nl) w.

Definition not_ps3 : string :=
  "input is not a 64-bit big-endian ELF (PS3 executables always are) -- " +:+
  "this doesn't look like a PS3 EBOOT.elf".

(** [std::get_if<ElfFile<true, Endian::Big>>] *)
Definition get_64be (f : AnyElfFile) : option Ps3ElfFile :=
  match f with Any64BE file => Some file | _ => None end.

(** The [--info] command. *)
Definition main_info (w : fs) (inputPath : string) : outcome :=
  let (bytes, readOk) := readFile w inputPath in
  if negb readOk then
    failed w EmptyString ("could not open '" +:+ inputPath +:+ "' for reading")
  else
    match parseAny bytes with
    | Err e => failed w EmptyString ("failed to parse ELF: " +:+ message e)
    | Ok parsed =>
        match get_64be parsed with
        | None => failed w EmptyString not_ps3
        | Some file =>
            match formatInfo file with
            | Err e => failed w EmptyString ("could not build info report: " +:+ message e)
            | Ok info => mkOutcome 0 info EmptyString w
            end
        end
    end.

(** The end of the highest [PT_LOAD] segment. *)
Definition highest_end (phs : list PhdrFields) : Z :=
  fold_left (fun highestEnd ph =>
    if negb (p_type ph =? PT_LOAD) then highestEnd
    else
      let end_ := u64 (p_vaddr ph + p_memsz ph) in
      if highestEnd <? end_ then end_ else highestEnd) phs 0.

(** The last part of the patch command: add the segment, overwrite the
    entrypoint, serialise and write. *)
Definition apply_patch (w : fs) (out : string) (file : Ps3ElfFile) (tramp : TrampolineResult)
    (trampAddr : Z) (outputPath sprxPath : string) : outcome :=
  let (addSegResult, file1) :=
    addLoadSegment true Big file trampAddr (blob tramp) (Z.lor PF_R PF_X) 0x10000 in
  match addSegResult with
  | Err e => failed w out ("failed to add trampoline segment: " +:+ message e)
  | Ok _ =>
      match vaddrToFileOffset true Big file1 (entryPatchAddr tramp) with
      | Err e => failed w out ("could not locate the entrypoint to patch: " +:+ message e)
      | Ok entryOffset =>
          let (patchResult, file2) :=
            patchBytesAt true Big file1 entryOffset (entryPatchBytes tramp) in
          match patchResult with
          | Err e => failed w out ("failed to patch the entrypoint: " +:+ message e)
          | Ok _ =>
              let outBytes := serialize true Big file2 in
              let (w', written) := writeFile w outputPath outBytes in
              if negb written then
                failed w' out ("could not write output file '" +:+ outputPath +:+ "'")
              else
                mkOutcome 0
                  (out +:+ "Wrote " +:+ to_string (size outBytes) +:+ " bytes to " +:+
                   outputPath +:+ nl +:+
                   "Patched successfully. On boot, this EBOOT will load and start: " +:+
                   sprxPath +:+ nl)
                  EmptyString w'
          end
      end
  end.

(** The patch command. *)
Definition main_patch (w : fs) (inputPath outputPath sprxPath : string) : exc outcome :=
  let (bytes, readOk) := readFile w inputPath in
  if negb readOk then
    Ret (failed w EmptyString ("could not open '" +:+ inputPath +:+ "' for reading"))
  else
    let out := "Read " +:+ to_string (size bytes) +:+ " bytes from " +:+ inputPath +:+ nl in
    match parseAny bytes with
    | Err e => Ret (failed w out ("failed to parse ELF: " +:+ message e))
    | Ok parsed =>
        match get_64be parsed with
        | None => Ret (failed w out not_ps3)
        | Some file =>
            match resolveEntryDescriptor file with
            | Err e =>
                Ret (failed w out
                  ("could not resolve the entry function descriptor: " +:+ message e))
            | Ok entry =>
                let out := out +:+ "Resolved entrypoint: codeAddress=0x" +:+
                  to_hex (codeAddress entry) +:+ " tocValue=0x" +:+ to_hex (tocValue entry) +:+ nl in
                if isAlreadyPatched file then
                  Ret (failed w out
                    ("'" +:+ inputPath +:+ "' has already been patched by ps3patch. " +:+
                     "Refusing to patch it again -- " +:+
                     "use the original, unmodified EBOOT.elf. " +:+
                     "(Run with --info to inspect this file first.)"))
                else
                  let trampAddr :=
                    u32 (alignUp (highest_end (segments true Big file)) 0x10000) in
                  let out := out +:+ "Placing trampoline segment at vaddr=0x" +:+
                    to_hex trampAddr +:+ nl in
                  let! built := buildTrampoline file entry trampAddr sprxPath in
                  match built with
                  | Err e => Ret (failed w out ("failed to build trampoline: " +:+ message e))
                  | Ok tramp =>
                      let out := out +:+ "Trampoline blob: " +:+ to_string (size (blob tramp)) +:+
                        " bytes, displaced " +:+ to_string (displacedInstructionCount tramp) +:+
                        " instruction(s) at the entrypoint" +:+ nl in
                      Ret (apply_patch w out file tramp trampAddr outputPath sprxPath)
                  end
            end
        end
    end.

Definition main (w : fs) (argv : list string) : exc outcome :=
  let arg i := nth i argv EmptyString in
  let argc := length argv in
  if (Nat.eqb argc 3) && String.eqb (arg 1%nat) "--info" then
    Ret (main_info w (arg 2%nat))
  else if negb (Nat.eqb argc 4) then
    Ret (mkOutcome 1 EmptyString (usage (arg 0%nat)) w)
  else
    main_patch w (arg 1%nat) (arg 2%nat) (arg 3%nat).

End main.
Arguments outcome : clear implicits.
