(* ===== verification/TrampolineFacts.v ===== *)
(** * Lemmas on the trampoline

    Jumps, the byte image of an instruction stream, relocation of the displaced
    instructions, and the decomposition of a successful [buildTrampoline]. *)

From S2P Require Import Prelude.
From S2P Require Import Text.
From S2P Require Import Errors.
From S2P Require Import EndianInt.
From S2P Require Import ElfTypes.
From S2P Require Import PpcEncode.
From S2P Require Import PpcDecode.
From S2P Require Import PpcSpec.
From S2P Require Import PpcSpecFacts.
From S2P Require Import PpcMoveFacts.
From S2P Require Import ElfFile.
From S2P Require Import ElfFileFacts.
From S2P Require Import Toc.
From S2P Require Import Syscalls.
From S2P Require Import Trampoline.

(** ** Jumps *)

Lemma makeMinimalJump_spec fromAddr toAddr :
  - 2 ^ 32 < toAddr - fromAddr < 2 ^ 32 ->
  (exists w, fits_signed 26 (toAddr - fromAddr) = true /\
     encodeBranch (toAddr - fromAddr) false false = Ret w /\ makeMinimalJump fromAddr toAddr = [w]) \/
  (fits_signed 26 (toAddr - fromAddr) = false /\
   makeMinimalJump fromAddr toAddr = makeAbsoluteJump toAddr 12).
Proof.
  intros H. unfold makeMinimalJump. rewrite rem_mod4.
  set (d := toAddr - fromAddr) in *. pose proof (encodeBranch_spec d false false) as He.
  destruct (fits_signed 26 d) eqn:Hf.
  - left. apply fits_signed_spec in Hf as [Ha Hr].
    replace ((d mod 4 =? 0) && (-33554432 <=? d) && (d <=? 33554428)) with true
      by (zcase; try reflexivity; Z.div_mod_to_equations; lia).
    rewrite i32_small by lia. rewrite He. eauto.
  - right. split; [reflexivity|].
    replace ((d mod 4 =? 0) && (-33554432 <=? d) && (d <=? 33554428)) with false; [reflexivity|].
    unfold fits_signed in Hf. zcase; cbn in *; try reflexivity; Z.div_mod_to_equations; lia.
Qed.

Lemma makeMinimalJump_length fromAddr toAddr :
  - 2 ^ 32 < toAddr - fromAddr < 2 ^ 32 ->
  length (makeMinimalJump fromAddr toAddr) = 1%nat \/ length (makeMinimalJump fromAddr toAddr) = 5%nat.
Proof.
  intros H. destruct (makeMinimalJump_spec fromAddr toAddr H) as [(w & _ & _ & ->)|[_ ->]]; auto.
Qed.

(** ** Instruction bytes *)

Lemma be_store_S n w : be_store (S n) w = be_store n (w / 256) ++ [byte_of w].
Proof. unfold be_store. cbn [le_store]. apply reverse_cons. Qed.

Lemma toBigEndianBytes_cons w ws : toBigEndianBytes (w :: ws) = be_store 4 w ++ toBigEndianBytes ws.
Proof.
  cbn [toBigEndianBytes]. rewrite !be_store_S, !Z.shiftr_div_pow2 by lia.
  rewrite !Z.div_div by lia. reflexivity.
Qed.

Lemma toBigEndianBytes_length ws : size (toBigEndianBytes ws) = 4 * size ws.
Proof. induction ws as [|w ws IH]; [reflexivity|]. cbn [toBigEndianBytes]. rewrite !size_cons. lia. Qed.

Lemma toBigEndianBytes_app ws ws' :
  toBigEndianBytes (ws ++ ws') = toBigEndianBytes ws ++ toBigEndianBytes ws'.
Proof. induction ws as [|w ws IH]; [reflexivity|]. cbn. rewrite IH. reflexivity. Qed.

(** The words a byte range holds, most significant byte first. *)
Definition words_at (n : nat) (off : Z) (bytes : list byte) : list Z :=
  (fun i => be_load (slice (off + Z.of_nat i * 4) 4 bytes)) <$> seq 0 n.

Lemma words_at_S n off bytes :
  words_at (S n) off bytes = be_load (slice off 4 bytes) :: words_at n (off + 4) bytes.
Proof.
  unfold words_at. cbn [seq fmap list_fmap]. f_equal; [do 2 f_equal; lia|].
  rewrite <- fmap_S_seq, <- list_fmap_compose. apply list_fmap_ext. intros i x _. cbn.
  do 2 f_equal. lia.
Qed.

(** The byte image of a stream of 32-bit words, read back from where it lies. *)
Lemma words_at_image ws pre post :
  Forall (fun w => 0 <= w < 2 ^ 32) ws ->
  words_at (length ws) (size pre) (pre ++ toBigEndianBytes ws ++ post) = ws.
Proof.
  revert pre. induction ws as [|w ws IH]; intros pre Hr; [reflexivity|].
  inversion Hr as [|? ? Hw Hws]; subst. cbn [length]. rewrite words_at_S, toBigEndianBytes_cons.
  f_equal.
  - rewrite slice_app_r, Z.sub_diag by lia. rewrite <- app_assoc, slice_app_l by szl.
    replace 4 with (size (be_store 4 w)) by szl. rewrite slice_all, be_load_store.
    change (256 ^ Z.of_nat 4) with (2 ^ 32). apply Z.mod_small. lia.
  - specialize (IH (pre ++ be_store 4 w) Hws). rewrite <- app_assoc in IH.
    rewrite <- app_assoc. replace (size pre + 4) with (size (pre ++ be_store 4 w)) by szl. exact IH.
Qed.

Lemma displaced_word_load bytes i :
  Z.of_nat i * 4 + 4 <= size bytes ->
  displaced_word bytes i = be_load (slice (Z.of_nat i * 4) 4 bytes).
Proof.
  intros H. replace (Z.of_nat i * 4) with (Z.of_nat (i * 4)) in * by lia.
  rewrite slice4, be_load4 by lia. unfold displaced_word. rewrite Nat.add_0_r.
  set (b0 := at_ (i * 4) bytes). set (b1 := at_ (i * 4 + 1) bytes).
  set (b2 := at_ (i * 4 + 2) bytes). set (b3 := at_ (i * 4 + 3) bytes).
  pose proof (byte_val_range b0). pose proof (byte_val_range b1).
  pose proof (byte_val_range b2). pose proof (byte_val_range b3).
  unfold shl32. rewrite !Z.shiftl_mul_pow2, !u32_small by lia.
  rewrite (lor_disjoint_add 24 (byte_val b0 * _)) by zarith.
  rewrite (lor_disjoint_add 16 (_ + _)) by zarith.
  apply (lor_disjoint_add 8); zarith.
Qed.

Lemma displaced_words bytes n :
  Z.of_nat n * 4 <= size bytes -> displaced_word bytes <$> seq 0 n = words_at n 0 bytes.
Proof.
  intros H. apply list_fmap_ext. intros i x [-> Hi]%lookup_seq.
  rewrite displaced_word_load by lia. reflexivity.
Qed.

Lemma words_at_range n off bytes :
  0 <= off -> off + Z.of_nat n * 4 <= size bytes ->
  Forall (fun w => 0 <= w < 2 ^ 32) (words_at n off bytes).
Proof.
  intros H1 H2. apply Forall_fmap, Forall_forall. intros i Hi%elem_of_seq. cbn.
  pose proof (be_load_range (slice (off + Z.of_nat i * 4) 4 bytes)) as Hb.
  pose proof (size_slice (off + Z.of_nat i * 4) 4 bytes) as Hs. unfold size in Hs at 2.
  rewrite Hs in Hb by lia. exact Hb.
Qed.

Lemma words_at_slice n off len o bytes :
  0 <= off -> 0 <= o -> o + Z.of_nat n * 4 <= len ->
  words_at n o (slice off len bytes) = words_at n (off + o) bytes.
Proof.
  intros. apply list_fmap_ext. intros i x [-> Hi]%lookup_seq.
  rewrite slice_slice by lia. do 2 f_equal. lia.
Qed.

(** ** Padding *)

Lemma pad_to_word_spec b :
  exists n, (n < 4)%nat /\ pad_to_word 4 b = b ++ replicate n Byte.x00 /\
    size (pad_to_word 4 b) mod 4 = 0.
Proof.
  assert (forall fuel b, (4 - size b) mod 4 < Z.of_nat fuel ->
    exists n, (n < fuel)%nat /\ pad_to_word fuel b = b ++ replicate n Byte.x00 /\
      size (pad_to_word fuel b) mod 4 = 0) as Hgen.
  { clear b. induction fuel as [|fuel IH]; intros b Hb; [Z.div_mod_to_equations; lia|].
    cbn [pad_to_word]. destruct (Z.eqb_spec (size b mod 4) 0) as [Hz|Hz].
    - exists 0%nat. rewrite app_nil_r. split; [lia|auto].
    - destruct (IH (b ++ [Byte.x00])) as (n & Hn & E & Hm).
      { autorewrite with elf. Z.div_mod_to_equations; lia. }
      exists (S n). split; [lia|]. rewrite E in *. rewrite <- app_assoc in *. auto. }
  apply (Hgen 4%nat). Z.div_mod_to_equations; lia.
Qed.

(** ** Relocation *)

(** The word at index [i] and what it becomes. *)
Definition relocated_at (base base' : Z) (i : nat) (w : Z) : option Z :=
  relocated w (u32 (base + 4 * Z.of_nat i)) (u32 (base' + 4 * Z.of_nat i)).

Lemma u32_index base i : u32 (base + u32 (i * 4)) = u32 (base + 4 * i).
Proof. zarith. Qed.

Lemma relocate_from_step w ws base base' k :
  relocate_from (w :: ws) base base' k =
  match relocated w (u32 (base + 4 * k)) (u32 (base' + 4 * k)) with
  | None => Err (relocation_failed k)
  | Some w' => let? out := relocate_from ws base base' (k + 1) in Ok (w' :: out)
  end.
Proof.
  cbn [relocate_from]. rewrite !u32_index. unfold relocated.
  case_bool_decide; [|reflexivity]. destruct (relocateBranch _ _ _); reflexivity.
Qed.

(** Success is the word-wise image; failure is at the first word without one. *)
Lemma relocate_from_spec ws base base' k :
  match relocate_from ws base base' (Z.of_nat k) with
  | Ok out =>
      length out = length ws /\
      forall i w, ws !! i = Some w -> out !! i = relocated_at base base' (k + i) w
  | Err e =>
      exists i w, ws !! i = Some w /\ relocated_at base base' (k + i) w = None /\
        e = relocation_failed (Z.of_nat (k + i)) /\
        forall j v, (j < i)%nat -> ws !! j = Some v -> relocated_at base base' (k + j) v <> None
  end.
Proof.
  revert k. induction ws as [|w ws IH]; intros k; [split; [reflexivity|intros i w; discriminate]|].
  rewrite relocate_from_step.
  change (relocated w _ _) with (relocated_at base base' k w).
  destruct (relocated_at base base' k w) as [w'|] eqn:Hw.
  - replace (Z.of_nat k + 1) with (Z.of_nat (S k)) by lia. specialize (IH (S k)).
    destruct (relocate_from ws base base' (Z.of_nat (S k))) as [out|e]; cbn [bind].
    + destruct IH as [Hl Hi]. split; [cbn; auto|]. intros [|i] v; cbn; intros Hv.
      * injection Hv as ->. rewrite Nat.add_0_r. auto.
      * rewrite Nat.add_succ_r. apply (Hi i v Hv).
    + destruct IH as (i & v & Hv & Hn & -> & Hj). exists (S i), v. rewrite Nat.add_succ_r.
      repeat split; auto. intros [|j] u Hji; cbn; intros Hu.
      * injection Hu as ->. rewrite Nat.add_0_r. congruence.
      * rewrite Nat.add_succ_r. apply (Hj j u); [lia|exact Hu].
  - exists 0%nat, w. rewrite Nat.add_0_r. repeat split; auto. intros j v Hj. lia.
Qed.

Lemma relocate_spec ws base base' :
  match relocateDisplacedInstructions ws base base' with
  | Ok out =>
      length out = length ws /\
      forall i w, ws !! i = Some w -> out !! i = relocated_at base base' i w
  | Err e =>
      exists i w, ws !! i = Some w /\ relocated_at base base' i w = None /\
        e = relocation_failed (Z.of_nat i) /\
        forall j v, (j < i)%nat -> ws !! j = Some v -> relocated_at base base' j v <> None
  end.
Proof. apply (relocate_from_spec ws base base' 0). Qed.

Lemma relocated_range w a a' w' :
  0 <= w < 2 ^ 32 -> relocated w a a' = Some w' -> 0 <= w' < 2 ^ 32.
Proof.
  intros Hw. unfold relocated. case_bool_decide as Hk; [|congruence].
  rewrite relocateBranch_spec by exact Hk. destruct (fits_signed _ _); [|discriminate].
  destruct (reencode _ _) as [v|] eqn:He; [|discriminate]. intros [= <-].
  destruct (classify_relative w Hw Hk) as [Hb _]. apply (classify_reencode _ _ _ Hb He).
Qed.

Lemma relocate_range ws base base' out :
  Forall (fun w => 0 <= w < 2 ^ 32) ws ->
  relocateDisplacedInstructions ws base base' = Ok out -> Forall (fun w => 0 <= w < 2 ^ 32) out.
Proof.
  intros Hr Ho. pose proof (relocate_spec ws base base') as Hs. rewrite Ho in Hs.
  destruct Hs as [Hl Hi]. apply Forall_lookup_2. intros i w' Hw'.
  destruct (ws !! i) as [w|] eqn:Hw.
  - rewrite (Hi i w Hw) in Hw'. apply relocated_range in Hw'; [exact Hw'|].
    apply (Forall_lookup_1 _ _ i w Hr Hw).
  - apply lookup_ge_None in Hw. apply lookup_lt_Some in Hw'. lia.
Qed.

(** ** The parts of the payload *)

Definition prologue : list Z :=
  [0xF821FF01; 0xF8010080; 0x7C0802A6; 0xF8010088; 0x7C0902A6; 0xF8010090; 0xF8610098; 0xF88100A0;
   0xF8A100A8; 0xF8C100B0; 0xF8E100B8; 0xF90100C0; 0xF92100C8; 0xF94100D0; 0xF96100D8; 0xF98100E0].

Definition epilogue : list Z :=
  [0xE8010088; 0x7C0803A6; 0xE8010090; 0x7C0903A6; 0xE8610098; 0xE88100A0; 0xE8A100A8; 0xE8C100B0;
   0xE8E100B8; 0xE90100C0; 0xE92100C8; 0xE94100D0; 0xE96100D8; 0xE98100E0; 0xE8010080; 0x38210100].

Lemma buildPrologue_words : buildPrologue = Ret prologue.
Proof. vm_compute. reflexivity. Qed.

Lemma buildEpilogue_words : buildEpilogue = Ret epilogue.
Proof. vm_compute. reflexivity. Qed.

(** The addresses of the layout, from the trampoline's. *)
Definition code_base (tramp : Z) : Z := u32 (tramp + 8).
Definition resume_addr (tramp : Z) : Z := u32 (tramp + 204).

(** The instruction stream of a payload that displaces [n] instructions. *)
Definition payload_code (tramp toc : Z) (rel jumpBack : list Z) : list Z :=
  prologue ++
  makeLoadAndStartModule (u32 (tramp + 204 + 4 * (size rel + size jumpBack))) ++
  epilogue ++ loadImmediate32 2 toc ++ rel ++ jumpBack.

Lemma payload_code_size tramp toc rel jumpBack :
  size (payload_code tramp toc rel jumpBack) = 49 + size rel + size jumpBack.
Proof. unfold payload_code. autorewrite with elf. rewrite makeLoadAndStartModule_size.
  change (size prologue) with 16. change (size epilogue) with 16.
  change (size (loadImmediate32 2 toc)) with 3. change SYSCALL_SEQUENCE_INSTR_COUNT with 14. lia.
Qed.

Definition jump_in (entry : EntryDescriptor) (tramp : Z) : list Z :=
  makeMinimalJump (u32 (codeAddress entry)) (code_base tramp).

(** The jump from after the [n] resumed instructions to after the displaced ones. *)
Definition jump_back (entry : EntryDescriptor) (tramp n : Z) : list Z :=
  makeMinimalJump (u32 (resume_addr tramp + 4 * n)) (u32 (codeAddress entry + 4 * n)).

Definition result_of (entry : EntryDescriptor) (tramp : Z) (path : string) (rel : list Z)
    : TrampolineResult := {|
  blob := make_blob (payload_code tramp (u32 (tocValue entry)) rel
            (jump_back entry tramp (size rel))) path;
  entryPatchBytes := toBigEndianBytes (jump_in entry tramp);
  trampolineAddr := tramp;
  entryPatchAddr := u32 (codeAddress entry);
  displacedInstructionCount := size (jump_in entry tramp) |}.

Lemma assemble_spec entry tramp path jumpIn displaced :
  jumpIn = jump_in entry tramp -> length displaced = length jumpIn ->
  assemble entry tramp path jumpIn displaced =
  match relocateDisplacedInstructions displaced (u32 (codeAddress entry)) (resume_addr tramp) with
  | Err e => Ret (Err e)
  | Ok rel => Ret (Ok (result_of entry tramp path rel))
  end.
Proof.
  intros Hj Hl. unfold assemble.
  change (size TRAMPOLINE_MAGIC) with 8. change (fixedPrefixInstrCount * 4) with 196.
  replace (u32 (u32 (tramp + u32 8) + u32 196)) with (resume_addr tramp)
    by (unfold resume_addr; zarith).
  pose proof (relocate_spec displaced (u32 (codeAddress entry)) (resume_addr tramp)) as Hrel.
  destruct (relocateDisplacedInstructions _ _ _) as [rel|e]; [|reflexivity].
  destruct Hrel as [Hlr _]. assert (size jumpIn = size rel) as Hs by (unfold size; lia).
  rewrite makeLoadAndStartModule_size. cbn [Z.eqb Pos.eqb negb SYSCALL_SEQUENCE_INSTR_COUNT].
  rewrite buildPrologue_words, buildEpilogue_words. cbn [exc_bind].
  replace (u32 (resume_addr tramp + u32 (size jumpIn * 4)))
    with (u32 (resume_addr tramp + 4 * size rel)) by (rewrite Hs; zarith).
  replace (u32 (u32 (codeAddress entry) + u32 (size jumpIn * 4)))
    with (u32 (codeAddress entry + 4 * size rel)) by (rewrite Hs; zarith).
  fold (jump_back entry tramp (size rel)).
  replace (u32 (u32 (tramp + u32 8) + _))
    with (u32 (tramp + 204 + 4 * (size rel + size (jump_back entry tramp (size rel)))))
    by (rewrite Hs; change fixedPrefixInstrCount with 49; zarith).
  fold (payload_code tramp (u32 (tocValue entry)) rel (jump_back entry tramp (size rel))).
  rewrite payload_code_size. change fixedPrefixInstrCount with 49. rewrite Hs, Z.eqb_refl.
  cbn [negb]. unfold result_of. rewrite Hj in *. rewrite Hs. reflexivity.
Qed.

(** ** The function as a whole *)

Lemma codeAddress_u32_mod4 z : u32 z mod 4 = z mod 4.
Proof. zarith. Qed.

Lemma jump_difference a b : - 2 ^ 32 < u32 a - u32 b < 2 ^ 32.
Proof. pose proof (u32_range a). pose proof (u32_range b). lia. Qed.

Lemma jump_in_length entry tramp :
  length (jump_in entry tramp) = 1%nat \/ length (jump_in entry tramp) = 5%nat.
Proof. apply makeMinimalJump_length. apply jump_difference. Qed.

Lemma find_segment_range n phs v off : find_segment n phs v = Ok off -> 0 <= off <= n /\ off < 2 ^ 64.
Proof.
  rewrite find_segment_find. destruct (List.find _ phs); [|discriminate].
  destruct (Z.ltb_spec n (u64 (p_offset p + (v - p_vaddr p)))); [discriminate|].
  intros [= <-]. pose proof (u64_range (p_offset p + (v - p_vaddr p))). lia.
Qed.

(** A request with an argument the function refuses. *)
Definition bad_request (entry : EntryDescriptor) (tramp : Z) (path : string) : Prop :=
  path = EmptyString \/ 1023 < Z.of_nat (String.length path) \/ tramp mod 4 <> 0 \/
  codeAddress entry mod 4 <> 0.

(** The instructions the jump-in overwrites. *)
Definition displaced_at (file : Ps3ElfFile) (entry : EntryDescriptor) (tramp off : Z) : list Z :=
  words_at (length (jump_in entry tramp)) off (raw_ _ _ file).

(** Every way [buildTrampoline] can end, with the condition it ends that way. *)
Inductive build_spec (file : Ps3ElfFile) (entry : EntryDescriptor) (tramp : Z) (path : string)
    : Result TrampolineResult -> Prop :=
| build_bad m :
    bad_request entry tramp path ->
    build_spec file entry tramp path (Err (make InvalidArgument m))
| build_patched m :
    ~ bad_request entry tramp path -> isAlreadyPatched file = true ->
    build_spec file entry tramp path (Err (make AlreadyPatched m))
| build_unmapped m :
    ~ bad_request entry tramp path -> isAlreadyPatched file = false ->
    is_ok (vaddrToFileOffset _ _ file (codeAddress entry)) = false ->
    build_spec file entry tramp path (Err (make OffsetOutOfBounds m))
| build_truncated off m :
    ~ bad_request entry tramp path -> isAlreadyPatched file = false ->
    vaddrToFileOffset _ _ file (codeAddress entry) = Ok off ->
    size (raw_ _ _ file) < off + 4 * size (jump_in entry tramp) ->
    build_spec file entry tramp path (Err (make TruncatedFile m))
| build_unrelocatable off i w :
    ~ bad_request entry tramp path -> isAlreadyPatched file = false ->
    vaddrToFileOffset _ _ file (codeAddress entry) = Ok off ->
    off + 4 * size (jump_in entry tramp) <= size (raw_ _ _ file) ->
    displaced_at file entry tramp off !! i = Some w ->
    relocated_at (u32 (codeAddress entry)) (resume_addr tramp) i w = None ->
    build_spec file entry tramp path (Err (relocation_failed (Z.of_nat i)))
| build_done off rel :
    ~ bad_request entry tramp path -> isAlreadyPatched file = false ->
    vaddrToFileOffset _ _ file (codeAddress entry) = Ok off ->
    off + 4 * size (jump_in entry tramp) <= size (raw_ _ _ file) ->
    relocateDisplacedInstructions (displaced_at file entry tramp off)
      (u32 (codeAddress entry)) (resume_addr tramp) = Ok rel ->
    build_spec file entry tramp path (Ok (result_of entry tramp path rel)).

Lemma code_base_magic tramp : u32 (tramp + u32 (size TRAMPOLINE_MAGIC)) = code_base tramp.
Proof. unfold code_base. change (size TRAMPOLINE_MAGIC) with 8. zarith. Qed.

Lemma buildTrampoline_spec file entry tramp path :
  size (raw_ _ _ file) < 2 ^ 63 ->
  exists r, buildTrampoline file entry tramp path = Ret r /\ build_spec file entry tramp path r.
Proof.
  intros Hs. unfold buildTrampoline. rewrite code_base_magic. fold (jump_in entry tramp).
  case_bool_decide as He; [eexists; split; [reflexivity|constructor; left; exact He]|].
  destruct (Z.ltb_spec kMaxPathLength (Z.of_nat (String.length path))) as [Hp|Hp];
    [eexists; split; [reflexivity|constructor; right; left; exact Hp]|].
  destruct (Z.eqb_spec (tramp mod 4) 0) as [Ht|Ht]; cbn [negb];
    [|eexists; split; [reflexivity|constructor; right; right; left; exact Ht]].
  destruct (Z.eqb_spec (codeAddress entry mod 4) 0) as [Hc|Hc]; cbn [negb];
    [|eexists; split; [reflexivity|constructor; right; right; right; exact Hc]].
  assert (~ bad_request entry tramp path) as Hb
    by (intros [?|[?|[?|?]]]; [contradiction|unfold kMaxPathLength in Hp; lia|contradiction..]).
  destruct (isAlreadyPatched file) eqn:Hpa;
    [eexists; split; [reflexivity|apply build_patched; assumption]|].
  destruct (vaddrToFileOffset _ _ file (codeAddress entry)) as [off|e] eqn:Hv;
    [|eexists; split; [reflexivity|apply build_unmapped; rewrite ?Hv; auto]].
  assert (0 <= off <= size (raw_ _ _ file)) as [Ho1 Ho2]
    by (eapply find_segment_range in Hv; lia).
  assert (0 <= size (jump_in entry tramp) <= 5) as Hn
    by (unfold size; destruct (jump_in_length entry tramp) as [->| ->]; lia).
  destruct (Z.le_gt_cases (off + size (jump_in entry tramp) * 4) (size (raw_ _ _ file))) as [Hf|Hf].
  - rewrite readAt_fits by lia. rewrite displaced_words by (rewrite size_slice by lia; unfold size; lia).
    rewrite words_at_slice by (unfold size; lia). rewrite Z.add_0_r.
    fold (displaced_at file entry tramp off).
    rewrite assemble_spec by (auto; unfold displaced_at, words_at; autorewrite with elf;
      rewrite length_seq; reflexivity).
    pose proof (relocate_spec (displaced_at file entry tramp off) (u32 (codeAddress entry))
      (resume_addr tramp)) as Hr.
    destruct (relocateDisplacedInstructions _ _ _) as [rel|e] eqn:Hrel; eexists;
      (split; [reflexivity|]).
    + eapply build_done; eauto. lia.
    + destruct Hr as (i & w & Hi & Hno & -> & _).
      eapply build_unrelocatable; eauto. lia.
  - unfold readAt. rewrite regionFits_bool by lia.
    replace (off + size (jump_in entry tramp) * 4 * 1 <=? size (raw_ _ _ file)) with false by lia.
    cbn [negb]. eexists. split; [reflexivity|]. eapply build_truncated; eauto. lia.
Qed.

(** ** Detection *)

Definition starts_with_magic (file : Ps3ElfFile) (ph : PhdrFields) : Prop :=
  p_type ph = PT_LOAD /\ 8 <= p_filesz ph /\ p_offset ph + 8 <= size (raw_ _ _ file) /\
  slice (p_offset ph) 8 (raw_ _ _ file) = TRAMPOLINE_MAGIC.

Lemma isAlreadyPatched_spec file :
  Forall (fun ph => 0 <= p_offset ph < 2 ^ 64) (segments _ _ file) ->
  size (raw_ _ _ file) < 2 ^ 64 ->
  isAlreadyPatched file = true <-> Exists (starts_with_magic file) (segments _ _ file).
Proof.
  intros Hr Hs. unfold isAlreadyPatched. rewrite existsb_exists, Exists_exists.
  rewrite Forall_forall in Hr.
  change (size TRAMPOLINE_MAGIC) with 8. change (length TRAMPOLINE_MAGIC) with 8%nat.
  split; intros (ph & Hin & H); exists ph; rewrite list_elem_of_In in *; (split; [exact Hin|]);
    specialize (Hr ph); rewrite list_elem_of_In in Hr; specialize (Hr Hin).
  - destruct (Z.eqb_spec (p_type ph) PT_LOAD); [|discriminate]. cbn [negb] in H.
    destruct (Z.ltb_spec (p_filesz ph) 8); [discriminate|].
    destruct (readAt true Big file (p_offset ph) 8) as [bs|] eqn:Hread; [|discriminate].
    apply readAt_inv in Hread as [Hf ->]; [|lia..]. apply bool_decide_eq_true in H.
    repeat split; auto; try lia. rewrite H. symmetry. apply take_ge.
    unfold slice. rewrite length_take. lia.
  - destruct H as (Ht & Hz & Hf & Hm). rewrite Ht. cbn [Z.eqb negb PT_LOAD Pos.eqb].
    replace (p_filesz ph <? 8) with false by lia.
    rewrite readAt_fits by lia. apply bool_decide_eq_true. rewrite Hm. reflexivity.
Qed.

Lemma segments_range file : file_ok true Big file ->
  Forall (phdr_range uint64_t) (segments true Big file).
Proof.
  intros Hok. apply Forall_fmap, (Forall_impl _ _ _ (ok_phdrs _ _ file Hok)).
  intros p Hp. apply (phdr_fields_range p Hp).
Qed.

(** ** The bytes of a payload *)

Definition word (w : Z) : Prop := 0 <= w < 2 ^ 32.

Lemma loadImmediate32_words r v : Forall word (loadImmediate32 r v).
Proof.
  unfold loadImmediate32, encodeLis, encodeClrldi, word. repeat constructor;
    rewrite ?encodeAddis_sum, ?encodeOri_sum, ?encodeRldicl_sum;
    unfold u16; cbn [Z.b2z]; Z.div_mod_to_equations; lia.
Qed.

Lemma makeMinimalJump_words fromAddr toAddr :
  - 2 ^ 32 < toAddr - fromAddr < 2 ^ 32 -> Forall word (makeMinimalJump fromAddr toAddr).
Proof.
  intros H. destruct (makeMinimalJump_spec fromAddr toAddr H) as [(w & _ & He & ->)|[_ ->]].
  - constructor; [|constructor]. apply encodeBranch_range in He. exact He.
  - unfold makeAbsoluteJump. apply Forall_app. split; [apply loadImmediate32_words|].
    repeat constructor; vm_compute; try reflexivity; discriminate.
Qed.

Lemma makeLoadAndStartModule_words p : Forall word (makeLoadAndStartModule p).
Proof.
  unfold makeLoadAndStartModule, makeLoadModuleCall.
  repeat (apply Forall_app; split); [apply loadImmediate32_words|..];
    repeat constructor; vm_compute; try reflexivity; discriminate.
Qed.

Lemma payload_code_words tramp toc rel jumpBack :
  Forall word rel -> Forall word jumpBack -> Forall word (payload_code tramp toc rel jumpBack).
Proof.
  intros Hr Hj. unfold payload_code.
  repeat (apply Forall_app; split); auto using makeLoadAndStartModule_words, loadImmediate32_words;
    repeat constructor; vm_compute; try reflexivity; discriminate.
Qed.

Lemma make_blob_shape code path :
  exists n, (n < 4)%nat /\
    make_blob code path =
      TRAMPOLINE_MAGIC ++ toBigEndianBytes code ++ list_byte_of_string path ++
      [Byte.x00] ++ replicate n Byte.x00 /\
    size (make_blob code path) mod 4 = 0.
Proof.
  unfold make_blob. destruct (pad_to_word_spec
    (TRAMPOLINE_MAGIC ++ toBigEndianBytes code ++ list_byte_of_string path ++ [Byte.x00]))
    as (n & Hn & He & Hm).
  exists n. split; [exact Hn|]. rewrite He in *. rewrite <- !app_assoc in *. auto.
Qed.

(** The words of a blob from an index of its code on. *)
Lemma blob_words pre code post path :
  Forall word (pre ++ code ++ post) ->
  words_at (length code) (8 + 4 * size pre) (make_blob (pre ++ code ++ post) path) = code.
Proof.
  intros Hw. destruct (make_blob_shape (pre ++ code ++ post) path) as (n & _ & -> & _).
  rewrite !toBigEndianBytes_app, <- !app_assoc. rewrite (app_assoc TRAMPOLINE_MAGIC).
  replace (8 + 4 * size pre) with (size (TRAMPOLINE_MAGIC ++ toBigEndianBytes pre))
    by (rewrite size_app, toBigEndianBytes_length; reflexivity).
  apply words_at_image. apply Forall_app in Hw as [_ Hw]. apply Forall_app in Hw as [Hw _]. exact Hw.
Qed.

Lemma list_byte_of_string_size s : size (list_byte_of_string s) = Z.of_nat (String.length s).
Proof.
  induction s as [|c s IH]; [reflexivity|].
  change (list_byte_of_string (String c s)) with (byte_of_ascii c :: list_byte_of_string s).
  rewrite size_cons, IH. cbn [String.length]. lia.
Qed.
