(* ===== verification/PayloadFacts.v ===== *)
(** * What the payload does to the machine

    The prologue, the two system calls, the epilogue and the TOC load executed
    one after the other, for any kernel that keeps [kernel_contract]. *)

From Stdlib Require Import FunctionalExtensionality.
From S2P Require Import Prelude.
From S2P Require Import PpcEncode.
From S2P Require Import PpcSpec.
From S2P Require Import PpcSpecFacts.
From S2P Require Import Syscalls.
From S2P Require Import Trampoline.
From S2P Require Import TrampolineFacts.

(** ** Memory *)

Lemma u64_sub_u64 a b c : u64 (u64 (a + b) - u64 (a + c)) = u64 (b - c).
Proof. zarith. Qed.

Lemma read64_write64_eq m a v : 0 <= v < 2 ^ 64 -> read64 (write64 m a v) a = v.
Proof.
  intros Hv. unfold read64.
  transitivity (be_load (be_store 8 v)); [f_equal|].
  - apply list_eq. intros i. rewrite list_lookup_fmap.
    destruct (Nat.lt_ge_cases i 8) as [Hi|Hi].
    + rewrite lookup_seq_lt by lia. cbn [fmap option_fmap option_map]. unfold write64.
      replace (u64 (u64 (a + Z.of_nat (0 + i)) - a)) with (Z.of_nat i) by zarith.
      replace (Z.of_nat i <? 8) with true by lia. rewrite Nat2Z.id.
      rewrite nth_lookup. destruct (be_store 8 v !! i) eqn:E; [reflexivity|].
      apply lookup_ge_None in E. rewrite be_store_length in E. lia.
    + rewrite lookup_seq_ge by lia. symmetry. apply lookup_ge_None. rewrite be_store_length. lia.
  - rewrite be_load_store. change (256 ^ Z.of_nat 8) with (2 ^ 64). apply Z.mod_small. exact Hv.
Qed.

Lemma read64_ext m m' a :
  (forall i, 0 <= i < 8 -> m (u64 (a + i)) = m' (u64 (a + i))) -> read64 m a = read64 m' a.
Proof.
  intros H. unfold read64. f_equal. apply list_fmap_ext. intros i x [-> Hx]%lookup_seq.
  apply H. lia.
Qed.

(** Doublewords at least 8 bytes apart, measured from a common base. *)
Lemma read64_write64_ne m base c1 c2 v :
  8 <= u64 (c2 - c1) <= 2 ^ 64 - 8 ->
  read64 (write64 m (u64 (base + c1)) v) (u64 (base + c2)) = read64 m (u64 (base + c2)).
Proof.
  intros H. apply read64_ext. intros i Hi. unfold write64.
  replace (u64 (u64 (u64 (base + c2) + i) - u64 (base + c1))) with (u64 (u64 (c2 - c1) + i)) by zarith.
  rewrite u64_small by lia. replace (u64 (c2 - c1) + i <? 8) with false by lia. reflexivity.
Qed.

(** ** The save area *)

Definition slot (j : Z) : Z := 128 + 8 * j.

(** The first [n] slots of the frame at [base] written with the values [v]. *)
Fixpoint save (n : nat) (m : Z -> byte) (base : Z) (v : Z -> Z) : Z -> byte :=
  match n with
  | O => m
  | S n' => write64 (save n' m base v) (u64 (base + slot (Z.of_nat n'))) (v (Z.of_nat n'))
  end.

Lemma read_save n m base v j :
  (n <= 1000)%nat -> 0 <= j < Z.of_nat n -> 0 <= v j < 2 ^ 64 ->
  read64 (save n m base v) (u64 (base + slot j)) = v j.
Proof.
  intros Hn Hj Hv. induction n as [|n IH]; [lia|]. cbn [save].
  destruct (Z.eq_dec j (Z.of_nat n)) as [->|Hne].
  - apply read64_write64_eq. exact Hv.
  - rewrite read64_write64_ne by (unfold slot; zarith). apply IH; lia.
Qed.

(** Slot 0 is r0, slot 1 the link register, slot 2 the count register, slot [r]
    the register [r] from 3 to 12. *)
Definition slot_value (s : machine) (j : Z) : Z :=
  if j =? 1 then lr s else if j =? 2 then ctr s else gpr s j.

Section payload.
Variable lv2 : machine -> machine.
Variable other : Z -> machine -> machine.
Abbreviation run := (exec_words lv2 other).

Definition frame (s : machine) : Z := u64 (gpr s 1 - 256).

Lemma exec_prologue s :
  run prologue s =
  mkMachine (upd (upd (gpr s) 1 (frame s)) 0 (ctr s)) (lr s) (ctr s) (cr s) (u64 (pc s + 64))
    (save 13 (write64 (mem s) (frame s) (gpr s 1)) (frame s) (slot_value s)).
Proof.
  change (run prologue s) with (fold_left (fun s i => exec lv2 other i s)
    [Std 1 1 (-256) true; Std 0 1 128 false; Mflr 0; Std 0 1 136 false; Mfctr 0; Std 0 1 144 false;
     Std 3 1 152 false; Std 4 1 160 false; Std 5 1 168 false; Std 6 1 176 false; Std 7 1 184 false;
     Std 8 1 192 false; Std 9 1 200 false; Std 10 1 208 false; Std 11 1 216 false;
     Std 12 1 224 false] s).
  apply machine_eq; [intros r|..|intros a]; try reflexivity.
  - cbn. unfold upd. zcase; reflexivity.
  - cbn. zarith.
Qed.
(** Decoded instructions, one at a time. *)
Definition exec_insns (code : list insn) (s : machine) : machine :=
  fold_left (fun s i => exec lv2 other i s) code s.

Lemma exec_words_decode ws s : run ws s = exec_insns (decode <$> ws) s.
Proof. revert s. induction ws as [|w ws IH]; intros s; [reflexivity|]. apply IH. Qed.

Lemma exec_insns_cons i code s : exec_insns (i :: code) s = exec_insns code (exec lv2 other i s).
Proof. reflexivity. Qed.

Lemma exec_insns_nil s : exec_insns [] s = s.
Proof. reflexivity. Qed.

Lemma decode_epilogue :
  decode <$> epilogue =
  [Ld 0 1 (slot 1) false; Mtlr 0; Ld 0 1 (slot 2) false; Mtctr 0; Ld 3 1 (slot 3) false;
   Ld 4 1 (slot 4) false; Ld 5 1 (slot 5) false; Ld 6 1 (slot 6) false; Ld 7 1 (slot 7) false;
   Ld 8 1 (slot 8) false; Ld 9 1 (slot 9) false; Ld 10 1 (slot 10) false; Ld 11 1 (slot 11) false;
   Ld 12 1 (slot 12) false; Ld 0 1 (slot 0) false; Addi 1 1 256].
Proof. vm_compute. reflexivity. Qed.

Lemma exec_load_slot r j g l c k p m :
  exec lv2 other (Ld r 1 (slot j) false) (mkMachine g l c k p m) =
  mkMachine (upd g r (read64 m (u64 (g 1 + slot j)))) l c k (u64 (p + 4)) m.
Proof. reflexivity. Qed.

Lemma exec_move_lr r g l c k p m :
  exec lv2 other (Mtlr r) (mkMachine g l c k p m) = mkMachine g (g r) c k (u64 (p + 4)) m.
Proof. reflexivity. Qed.

Lemma exec_move_ctr r g l c k p m :
  exec lv2 other (Mtctr r) (mkMachine g l c k p m) = mkMachine g l (g r) k (u64 (p + 4)) m.
Proof. reflexivity. Qed.

Lemma exec_pop d g l c k p m :
  exec lv2 other (Addi 1 1 d) (mkMachine g l c k p m) =
  mkMachine (upd g 1 (u64 (g 1 + d))) l c k (u64 (p + 4)) m.
Proof. reflexivity. Qed.

(** The register file the epilogue leaves, given the slots it finds. *)
Definition restored (g v : Z -> Z) : Z -> Z := fun r =>
  if r =? 1 then u64 (g 1 + 256)
  else if (r =? 0) || ((3 <=? r) && (r <=? 12)) then v r else g r.

Lemma exec_epilogue s :
  let v j := read64 (mem s) (u64 (gpr s 1 + slot j)) in
  run epilogue s =
  mkMachine (restored (gpr s) v) (v 1) (v 2) (cr s) (u64 (pc s + 64)) (mem s).
Proof.
  intros v. subst v. destruct s as [g l c k p m]. cbn [gpr lr ctr cr pc mem].
  rewrite exec_words_decode, decode_epilogue.
  repeat (rewrite exec_insns_cons; first
    [rewrite exec_load_slot|rewrite exec_move_lr|rewrite exec_move_ctr|rewrite exec_pop];
    rewrite ?upd_eq, ?(upd_ne _ 0 _ 1), ?(upd_ne _ 3 _ 1), ?(upd_ne _ 4 _ 1), ?(upd_ne _ 5 _ 1),
      ?(upd_ne _ 6 _ 1), ?(upd_ne _ 7 _ 1), ?(upd_ne _ 8 _ 1), ?(upd_ne _ 9 _ 1),
      ?(upd_ne _ 10 _ 1), ?(upd_ne _ 11 _ 1), ?(upd_ne _ 12 _ 1) by lia).
  rewrite exec_insns_nil. f_equal; [|zarith].
  apply functional_extensionality. intros r. unfold restored, upd.
  zcase; try (exfalso; lia); subst; reflexivity.
Qed.

(** The arguments of the two calls. *)
Definition load_arguments (p : Z) : list Z :=
  loadImmediate32 REG_ARG0 p ++
  [encodeLi REG_ARG1 0; encodeLi REG_ARG2 0; encodeLi REG_SYSCALL_NUMBER_DEFAULT SYS_PRX_LOAD_MODULE].

Definition start_arguments : list Z :=
  [encodeLi REG_ARG1 0; encodeLi REG_ARG2 0; encodeLi REG_ARG3 0; encodeLi REG_ARG4 0;
   encodeLi REG_ARG5 0; encodeLi REG_SYSCALL_NUMBER_DEFAULT SYS_PRX_START_MODULE].

Lemma load_call_split p : makeLoadModuleCall p = load_arguments p ++ [encodeSc].
Proof. reflexivity. Qed.

Lemma start_call_split : makeStartModuleCall = start_arguments ++ [encodeSc].
Proof. reflexivity. Qed.

Lemma exec_load_arguments p s :
  0 <= p < 2 ^ 32 ->
  run (load_arguments p) s =
  advance 6 (set_gpr 11 480 (set_gpr 5 0 (set_gpr 4 0 (set_gpr 3 (loaded p) s)))).
Proof.
  intros Hp. unfold load_arguments. rewrite exec_words_app.
  rewrite (exec_loadImmediate32 lv2 other 3 p) by (unfold reg; lia). set (s1 := advance 3 _).
  match goal with |- exec_words _ _ ?l s1 = _ =>
    change (exec_words lv2 other l s1) with (fold_left (fun s i => exec lv2 other i s)
      [Addi 4 0 0; Addi 5 0 0; Addi 11 0 480] s1) end.
  cbn [fold_left exec]. apply machine_eq; [intros r|..|intros a]; try reflexivity.
  cbn. zarith.
Qed.

Lemma exec_start_arguments s :
  run start_arguments s =
  advance 6 (set_gpr 11 481 (set_gpr 8 0 (set_gpr 7 0 (set_gpr 6 0
    (set_gpr 5 0 (set_gpr 4 0 s)))))).
Proof.
  change (run start_arguments s) with (fold_left (fun s i => exec lv2 other i s)
    [Addi 4 0 0; Addi 5 0 0; Addi 6 0 0; Addi 7 0 0; Addi 8 0 0; Addi 11 0 481] s).
  cbn [fold_left exec]. apply machine_eq; [intros r|..|intros a]; try reflexivity.
  cbn. zarith.
Qed.

Lemma exec_call ws s : run (ws ++ [encodeSc]) s = lv2 (next (run ws s)).
Proof. rewrite exec_words_app. reflexivity. Qed.

Lemma next_advance k s : next (advance k s) = advance (k + 1) s.
Proof. apply machine_eq; try reflexivity. cbn. zarith. Qed.

Lemma exec_load_call p s :
  0 <= p < 2 ^ 32 ->
  run (makeLoadModuleCall p) s =
  lv2 (advance 7 (set_gpr 11 480 (set_gpr 5 0 (set_gpr 4 0 (set_gpr 3 (loaded p) s))))).
Proof.
  intros Hp. rewrite load_call_split, exec_call, exec_load_arguments, next_advance by exact Hp.
  reflexivity.
Qed.

Lemma exec_start_call s :
  run makeStartModuleCall s =
  lv2 (advance 7 (set_gpr 11 481 (set_gpr 8 0 (set_gpr 7 0 (set_gpr 6 0
    (set_gpr 5 0 (set_gpr 4 0 s))))))).
Proof. rewrite start_call_split, exec_call, exec_start_arguments, next_advance. reflexivity. Qed.

(** ** What the kernel promises its callers

    A system call returns to the instruction after it, with the stack pointer,
    the non-volatile registers and the caller's stack frame unchanged. *)
Record kernel_contract : Prop := {
  k_pc : forall s, pc (lv2 s) = pc s;
  k_sp : forall s, gpr (lv2 s) 1 = gpr s 1;
  k_nonvolatile : forall s r, 13 <= r <= 31 -> gpr (lv2 s) r = gpr s r;
  k_frame : forall s i, 0 <= i < 256 -> mem (lv2 s) (u64 (gpr s 1 + i)) = mem s (u64 (gpr s 1 + i))
}.

(** The registers hold 64-bit values. *)
Definition machine_ok (s : machine) : Prop :=
  (forall r, 0 <= gpr s r < 2 ^ 64) /\ 0 <= lr s < 2 ^ 64 /\ 0 <= ctr s < 2 ^ 64.

Lemma slot_value_range s j : machine_ok s -> 0 <= slot_value s j < 2 ^ 64.
Proof. intros (Hg & Hl & Hc). unfold slot_value. zcase; auto. Qed.

Context (Hk : kernel_contract).

Lemma frame_slot s j :
  0 <= j <= 12 -> read64 (mem (lv2 s)) (u64 (gpr s 1 + slot j)) = read64 (mem s) (u64 (gpr s 1 + slot j)).
Proof.
  intros Hj. apply read64_ext. intros i Hi.
  replace (u64 (u64 (gpr s 1 + slot j) + i)) with (u64 (gpr s 1 + (slot j + i))) by zarith.
  apply (k_frame Hk). unfold slot. lia.
Qed.

(** Both calls. *)
Lemma exec_calls p s :
  0 <= p < 2 ^ 32 ->
  let s' := run (makeLoadAndStartModule p) s in
  pc s' = u64 (pc s + 56) /\ gpr s' 1 = gpr s 1 /\
  (forall r, 13 <= r <= 31 -> gpr s' r = gpr s r) /\
  forall j, 0 <= j <= 12 ->
    read64 (mem s') (u64 (gpr s 1 + slot j)) = read64 (mem s) (u64 (gpr s 1 + slot j)).
Proof.
  intros Hp s'. subst s'. unfold makeLoadAndStartModule. rewrite exec_words_app.
  rewrite exec_load_call, exec_start_call by exact Hp.
  set (s1 := advance 7 (set_gpr 11 480 _)). set (s2 := advance 7 (set_gpr 11 481 _)).
  assert (gpr s1 1 = gpr s 1) as H1 by reflexivity.
  assert (gpr s2 1 = gpr (lv2 s1) 1) as H2 by reflexivity.
  rewrite !(k_pc Hk), !(k_sp Hk), H2, (k_sp Hk).
  split; [subst s2; cbn; rewrite (k_pc Hk); cbn; zarith|]. split; [exact H1|]. split.
  - intros r Hr. rewrite (k_nonvolatile Hk) by exact Hr. subst s2. cbn.
    rewrite !upd_ne, (k_nonvolatile Hk) by lia. subst s1. cbn. rewrite !upd_ne by lia. reflexivity.
  - intros j Hj. rewrite <- H1 at 1. rewrite <- (k_sp Hk), <- H2, frame_slot by exact Hj.
    subst s2. cbn [advance set_pc set_gpr mem gpr]. rewrite !upd_ne by lia.
    rewrite (k_sp Hk), frame_slot by exact Hj. reflexivity.
Qed.

(** From the first instruction of the prologue to the first resumed one. *)
Definition payload_prefix (p toc : Z) : list Z :=
  prologue ++ makeLoadAndStartModule p ++ epilogue ++ loadImmediate32 2 toc.

Lemma exec_payload_prefix p toc s :
  0 <= p < 2 ^ 32 -> 0 <= toc < 2 ^ 32 -> machine_ok s ->
  let s' := run (payload_prefix p toc) s in
  pc s' = u64 (pc s + 196) /\ gpr s' 2 = loaded toc /\ lr s' = lr s /\ ctr s' = ctr s /\
  forall r, 0 <= r <= 31 -> r <> 2 -> gpr s' r = gpr s r.
Proof.
  intros Hp Ht Hok s'. subst s'. unfold payload_prefix. rewrite !exec_words_app.
  rewrite exec_prologue. set (s1 := mkMachine _ _ _ _ _ _).
  assert (gpr s1 1 = frame s /\ pc s1 = u64 (pc s + 64)) as [Hf Hpc1] by (split; reflexivity).
  assert (forall r, 13 <= r <= 31 -> gpr s1 r = gpr s r) as Hnv1
    by (intros r Hr; subst s1; cbn; rewrite !upd_ne by lia; reflexivity).
  destruct (exec_calls p s1 Hp) as (Hpc & Hsp & Hnv & Hslots).
  set (s2 := run (makeLoadAndStartModule p) s1) in *.
  assert (forall j, 0 <= j <= 12 ->
    read64 (mem s2) (u64 (gpr s2 1 + slot j)) = slot_value s j) as Hv.
  { intros j Hj. rewrite Hsp, Hslots, Hf by exact Hj.
    apply (read_save 13); [lia|lia|apply slot_value_range; exact Hok]. }
  clearbody s2. clearbody s1.
  rewrite exec_epilogue, exec_loadImmediate32 by (unfold reg; lia).
  cbn [advance set_pc set_gpr gpr lr ctr pc]. rewrite upd_eq, !Hv by lia.
  split; [rewrite Hpc, Hpc1; zarith|]. split; [reflexivity|].
  split; [reflexivity|]. split; [reflexivity|].
  intros r Hr Hr2. rewrite upd_ne by exact Hr2. unfold restored.
  destruct (Z.eqb_spec r 1) as [->|Hr1].
  - rewrite Hsp, Hf. unfold frame. destruct Hok as [Hg _]. specialize (Hg 1). zarith.
  - destruct ((r =? 0) || ((3 <=? r) && (r <=? 12))) eqn:Hc.
    + rewrite Hv by lia. unfold slot_value. replace (r =? 1) with false by lia.
      replace (r =? 2) with false by lia. reflexivity.
    + rewrite Hnv, Hnv1 by lia. reflexivity.
Qed.

End payload.
