(* ===== verification/BootFacts.v ===== *)
(** * From straight-line execution to execution from memory

    [runs]: a list of words is what the machine fetches, one after the other.
    Register instructions keep memory ([pure]); the payload also stores into
    its own stack frame and calls the kernel ([tame]), which keeps every region
    that is disjoint from the frame and that the kernel leaves alone. *)

From S2P Require Import Prelude.
From S2P Require Import PpcEncode.
From S2P Require Import PpcSpec.
From S2P Require Import PpcSpecFacts.
From S2P Require Import Syscalls.
From S2P Require Import Trampoline.
From S2P Require Import TrampolineFacts.
From S2P Require Import PayloadFacts.

(** The words at an address. *)
Definition holds (m : Z -> byte) (a : Z) (ws : list Z) : Prop :=
  forall k w, ws !! k = Some w -> word_at m (u64 (a + 4 * Z.of_nat k)) = w.

Lemma word_at_ext m m' a :
  (forall i, 0 <= i < 4 -> m (u64 (a + i)) = m' (u64 (a + i))) -> word_at m a = word_at m' a.
Proof.
  intros H. unfold word_at. f_equal. apply list_fmap_ext. intros i x [-> Hx]%lookup_seq.
  apply H. lia.
Qed.

Lemma holds_cons m a w ws :
  holds m a (w :: ws) -> word_at m (u64 a) = w /\ holds m (u64 (a + 4)) ws.
Proof.
  intros H. split.
  - replace a with (a + 4 * Z.of_nat 0) by lia. apply (H 0%nat). reflexivity.
  - intros k v Hk. replace (u64 (u64 (a + 4) + 4 * Z.of_nat k))
      with (u64 (a + 4 * Z.of_nat (S k))) by zarith. apply H. exact Hk.
Qed.

Lemma holds_app m a ws ws' :
  holds m a (ws ++ ws') -> holds m a ws /\ holds m (u64 (a + 4 * size ws)) ws'.
Proof.
  intros H. split; intros k v Hk.
  - apply H. apply lookup_app_l_Some. exact Hk.
  - replace (u64 (u64 (a + 4 * size ws) + 4 * Z.of_nat k))
      with (u64 (a + 4 * Z.of_nat (length ws + k))) by (unfold size; zarith).
    apply H. rewrite lookup_app_r by lia. rewrite <- Hk. f_equal. lia.
Qed.

(** Memories that agree on a region, given as an address and a length. *)
Definition agree (a n : Z) (m m' : Z -> byte) : Prop :=
  forall i, 0 <= i < n -> m (u64 (a + i)) = m' (u64 (a + i)).

Lemma agree_refl a n m : agree a n m m.
Proof. intros i _. reflexivity. Qed.

Lemma agree_trans a n m1 m2 m3 : agree a n m1 m2 -> agree a n m2 m3 -> agree a n m1 m3.
Proof. intros H1 H2 i Hi. rewrite H1, H2 by exact Hi. reflexivity. Qed.

Lemma holds_agree base n m m' a ws :
  agree base n m m' -> a = u64 (base + (a - base)) -> base <= a -> a + 4 * size ws <= base + n ->
  holds m a ws -> holds m' a ws.
Proof.
  intros Hm Ha Hlo Hhi H k w Hk. rewrite <- (H k w Hk). apply word_at_ext. intros i Hi.
  apply lookup_lt_Some in Hk as Hlt. unfold size in Hhi.
  replace (u64 (u64 (a + 4 * Z.of_nat k) + i)) with (u64 (base + (a - base + 4 * Z.of_nat k + i))) by zarith.
  symmetry. apply Hm. lia.
Qed.

Section boot.
Variable lv2 : machine -> machine.
Variable other : Z -> machine -> machine.
Abbreviation run := (exec_words lv2 other).

(** ** Fetching *)

Fixpoint runs (ws : list Z) (s : machine) : Prop :=
  match ws with
  | [] => True
  | w :: ws' => fetch s = w /\ runs ws' (exec lv2 other (decode w) s)
  end.

Lemma steps_runs ws s : runs ws s -> steps lv2 other (length ws) s = run ws s.
Proof.
  revert s. induction ws as [|w ws IH]; intros s; [reflexivity|]. intros [Hf Hr].
  cbn [length steps]. unfold step. rewrite Hf. apply IH. exact Hr.
Qed.

Lemma runs_app ws ws' s : runs ws s -> runs ws' (run ws s) -> runs (ws ++ ws') s.
Proof.
  revert s. induction ws as [|w ws IH]; intros s; [auto|]. intros [Hf Hr] Hr'.
  split; [exact Hf|]. apply IH; assumption.
Qed.

Lemma steps_add n k s : steps lv2 other (n + k) s = steps lv2 other k (steps lv2 other n s).
Proof. revert s. induction n as [|n IH]; intros s; [reflexivity|]. apply IH. Qed.

(** ** Register instructions *)

Definition pure (i : insn) : bool :=
  match i with
  | Addi _ _ _ | Addis _ _ _ | Ori _ _ _ | Rldicl _ _ _ _ false | Mtlr _ | Mtctr _ | Mflr _
  | Mfctr _ | Ld _ _ _ false => true
  | _ => false
  end.

Lemma pure_step i s :
  pure i = true ->
  pc (exec lv2 other i s) = u64 (pc s + 4) /\ mem (exec lv2 other i s) = mem s.
Proof.
  destruct i; try discriminate; try (intros; split; reflexivity).
  - destruct rc; [discriminate|]. intros; split; reflexivity.
  - destruct update; [discriminate|]. intros; split; reflexivity.
Qed.

Lemma pure_runs ws s :
  forallb (fun w => pure (decode w)) ws = true -> pc s = u64 (pc s) -> holds (mem s) (pc s) ws ->
  runs ws s /\ mem (run ws s) = mem s /\ pc (run ws s) = u64 (pc s + 4 * size ws).
Proof.
  revert s. induction ws as [|w ws IH]; intros s Hp Hpc Hh.
  - split; [exact I|]. split; [reflexivity|]. change (size (@nil Z)) with 0. rewrite Z.add_0_r. exact Hpc.
  - cbn [forallb] in Hp. apply andb_prop in Hp as [Hw Hws].
    apply holds_cons in Hh as [Hf Hh]. destruct (pure_step (decode w) s Hw) as [Hpc' Hm'].
    rewrite <- Hpc in Hf.
    destruct (IH (exec lv2 other (decode w) s) Hws) as (H1 & H2 & H3);
      [rewrite Hpc'; zarith|rewrite Hpc', Hm'; exact Hh|].
    split; [split; [exact Hf|exact H1]|]. rewrite exec_words_cons. split; [congruence|].
    rewrite H3, Hpc', size_cons. zarith.
Qed.

(** ** Instructions that fall through

    [base] and [len] give a region: each instruction leaves it alone and
    continues at the next word. *)

Context (base len : Z).

Fixpoint straight (ws : list Z) (s : machine) : Prop :=
  match ws with
  | [] => True
  | w :: ws' =>
      let s' := exec lv2 other (decode w) s in
      pc s' = u64 (pc s + 4) /\ agree base len (mem s') (mem s) /\ straight ws' s'
  end.

(** They are fetched one after the other from inside the region. *)
Lemma straight_runs ws s :
  straight ws s -> base <= pc s -> pc s + 4 * size ws <= base + len -> base + len < 2 ^ 64 ->
  0 <= base -> holds (mem s) (pc s) ws ->
  runs ws s /\ pc (run ws s) = pc s + 4 * size ws /\ agree base len (mem (run ws s)) (mem s).
Proof.
  revert s. induction ws as [|w ws IH]; intros s Hw Hlo Hhi Hb H0 Hh.
  - split; [exact I|]. change (size (@nil Z)) with 0. split; [cbn; lia|apply agree_refl].
  - cbn [straight] in Hw. rewrite size_cons in Hhi. pose proof (size_nonneg ws).
    apply holds_cons in Hh as [Hf Hh]. rewrite u64_small in Hf by lia.
    destruct Hw as (Hpc' & Hm & Hws).
    set (s1 := exec lv2 other (decode w) s) in *. rewrite u64_small in Hpc' by lia.
    rewrite u64_small in Hh by lia.
    destruct (IH s1 Hws) as (H1 & H2 & H3); try lia.
    + rewrite Hpc'. eapply (holds_agree base len (mem s)); [|rewrite u64_small; lia|lia|lia|exact Hh].
      intros i Hi. symmetry. apply Hm. exact Hi.
    + split; [split; [exact Hf|exact H1]|]. rewrite exec_words_cons. fold s1.
      split; [rewrite H2, Hpc', size_cons; lia|]. eapply agree_trans; [exact H3|exact Hm].
Qed.

Lemma pure_straight ws s : forallb (fun w => pure (decode w)) ws = true -> straight ws s.
Proof.
  revert s. induction ws as [|w ws IH]; intros s Hp; [exact I|].
  cbn [forallb] in Hp. apply andb_prop in Hp as [Hw Hws].
  destruct (pure_step (decode w) s Hw) as [Hpc Hm]. cbn [straight]. split; [exact Hpc|].
  split; [rewrite Hm; apply agree_refl|apply IH; exact Hws].
Qed.

(** ** The payload's instructions *)

(** Register instructions that leave the stack pointer alone, stores into the
    frame and system calls. *)
Definition tame (i : insn) : bool :=
  match i with
  | Addi r _ _ | Addis r _ _ | Ori r _ _ | Rldicl r _ _ _ false | Mflr r | Mfctr r
  | Ld r _ _ false => negb (r =? 1)
  | Mtlr _ | Mtctr _ | Sc => true
  | Std _ 1 d false => (0 <=? d) && (d <=? 248)
  | _ => false
  end.

Context (Hk : kernel_contract lv2).
(** The kernel leaves the region alone. *)
Context (Hkeep : forall s, agree base len (mem (lv2 s)) (mem s)).

(** The [n] bytes from [sp] on are outside the region. *)
Definition apart (sp n : Z) : Prop :=
  forall i j, 0 <= i < len -> 0 <= j < n -> u64 (base + i) <> u64 (sp + j).

Lemma write64_agree m sp d v :
  apart sp 256 -> 0 <= d <= 248 -> agree base len (write64 m (u64 (sp + d)) v) m.
Proof.
  intros Ha Hd i Hi. unfold write64.
  destruct (Z.ltb_spec (u64 (u64 (base + i) - u64 (sp + d))) 8) as [Hlt|_]; [|reflexivity].
  exfalso. apply (Ha i (d + u64 (u64 (base + i) - u64 (sp + d))) Hi).
  - pose proof (u64_range (u64 (base + i) - u64 (sp + d))). lia.
  - zarith.
Qed.

Lemma tame_step i s :
  tame i = true -> apart (gpr s 1) 256 ->
  let s' := exec lv2 other i s in
  pc s' = u64 (pc s + 4) /\ gpr s' 1 = gpr s 1 /\ agree base len (mem s') (mem s).
Proof.
  intros Ht Ha. cbv zeta.
  destruct i; try discriminate Ht; cbn [tame] in Ht;
    try (cbn; rewrite ?upd_ne by lia; split; [reflexivity|split; [reflexivity|apply agree_refl]]).
  - destruct rc; [discriminate Ht|]. cbn. rewrite upd_ne by lia.
    split; [reflexivity|split; [reflexivity|apply agree_refl]].
  - destruct update; [discriminate Ht|]. cbn. rewrite upd_ne by lia.
    split; [reflexivity|split; [reflexivity|apply agree_refl]].
  - destruct ra as [|[| |]|]; try discriminate Ht. destruct update; [discriminate Ht|]. cbn.
    split; [reflexivity|split; [reflexivity|]]. apply write64_agree; [exact Ha|lia].
  - cbn. rewrite (k_pc _ Hk), (k_sp _ Hk). split; [reflexivity|split; [reflexivity|]].
    apply (Hkeep (next s)).
Qed.

Lemma tame_straight ws s :
  forallb (fun w => tame (decode w)) ws = true -> apart (gpr s 1) 256 -> straight ws s.
Proof.
  revert s. induction ws as [|w ws IH]; intros s Ht Ha; [exact I|].
  cbn [forallb] in Ht. apply andb_prop in Ht as [Hw Hws].
  destruct (tame_step (decode w) s Hw Ha) as (Hpc & Hsp & Hm).
  split; [exact Hpc|]. split; [exact Hm|]. apply IH; [exact Hws|]. rewrite Hsp. exact Ha.
Qed.

(** ** The payload from memory *)

Lemma decode_loadImmediate32 r v :
  reg r -> 0 <= v < 2 ^ 32 ->
  exists hi lo, decode <$> loadImmediate32 r v = [Addis r 0 hi; Ori r r lo; Rldicl r r 0 16 false].
Proof.
  intros Hr Hv. destruct (high_half v Hv) as [Hhi _]. unfold loadImmediate32. cbv zeta in *.
  set (hi := i16 _) in *. set (lo := u16 _). assert (0 <= lo < 2 ^ 16) by apply u16_range.
  exists hi, lo. unfold encodeLis, encodeClrldi. cbn [fmap list_fmap].
  rewrite decode_encodeAddis, decode_encodeOri, decode_encodeRldicl by (unfold reg in *; lia).
  reflexivity.
Qed.

Lemma forallb_decode (q : insn -> bool) ws :
  forallb (fun w => q (decode w)) ws = forallb q (decode <$> ws).
Proof. induction ws as [|w ws IH]; [reflexivity|]. cbn. rewrite IH. reflexivity. Qed.

Lemma tame_calls p :
  0 <= p < 2 ^ 32 ->
  forallb (fun w => tame (decode w)) (tl prologue ++ makeLoadAndStartModule p) = true.
Proof.
  intros Hp. rewrite forallb_app. apply andb_true_intro. split; [vm_compute; reflexivity|].
  unfold makeLoadAndStartModule, makeLoadModuleCall. rewrite !forallb_app.
  rewrite (forallb_decode tame (loadImmediate32 _ _)).
  destruct (decode_loadImmediate32 3 p) as (hi & lo & E); [unfold reg; lia|exact Hp|].
  change REG_ARG0 with 3. rewrite E. vm_compute. reflexivity.
Qed.

Lemma pure_epilogue toc :
  0 <= toc < 2 ^ 32 ->
  forallb (fun w => pure (decode w)) (epilogue ++ loadImmediate32 2 toc) = true.
Proof.
  intros Ht. rewrite forallb_app. apply andb_true_intro. split; [vm_compute; reflexivity|].
  rewrite (forallb_decode pure (loadImmediate32 _ _)).
  destruct (decode_loadImmediate32 2 toc) as (hi & lo & E); [unfold reg; lia|exact Ht|].
  rewrite E. reflexivity.
Qed.

Lemma payload_runs p toc s :
  0 <= p < 2 ^ 32 -> 0 <= toc < 2 ^ 32 -> apart (frame s) 256 ->
  0 <= base <= pc s -> pc s + 196 <= base + len -> base + len < 2 ^ 64 ->
  holds (mem s) (pc s) (payload_prefix p toc) ->
  runs (payload_prefix p toc) s /\
  agree base len (mem (run (payload_prefix p toc) s)) (mem s).
Proof.
  intros Hp Ht Ha Hlo Hhi Hb Hh.
  set (mid := tl prologue ++ makeLoadAndStartModule p).
  set (end_ := epilogue ++ loadImmediate32 2 toc).
  assert (payload_prefix p toc = [0xF821FF01] ++ mid ++ end_) as E
    by (unfold payload_prefix, mid, end_; rewrite <- !app_assoc; reflexivity).
  assert (size mid = 29) as Hmid by (unfold mid; rewrite size_app, makeLoadAndStartModule_size; reflexivity).
  assert (size end_ = 19) as Hend by reflexivity.
  rewrite E in *. apply holds_cons in Hh as [Hf Hh]. apply holds_app in Hh as [Hh1 Hh2].
  rewrite (u64_small (pc s)) in Hf by lia. rewrite (u64_small (pc s + 4)) in Hh1, Hh2 by lia.
  rewrite (u64_small (pc s + 4 + _)) in Hh2 by lia.
  assert (run ([0xF821FF01] ++ mid ++ end_) s = run end_ (run mid (run [0xF821FF01] s))) as Erun
    by (rewrite !exec_words_app; reflexivity).
  rewrite Erun. clear Erun. set (s1 := run [0xF821FF01] s).
  assert (s1 = mkMachine (upd (gpr s) 1 (frame s)) (lr s) (ctr s) (cr s) (u64 (pc s + 4))
    (write64 (mem s) (frame s) (gpr s 1))) as E1 by reflexivity.
  assert (gpr s1 1 = frame s /\ pc s1 = pc s + 4) as [Hsp1 Hpc1]
    by (rewrite E1; cbn; split; [reflexivity|apply u64_small; lia]).
  assert (agree base len (mem s1) (mem s)) as Hm1
    by (rewrite E1; cbn [mem]; replace (frame s) with (u64 (frame s + 0)) at 1
          by (unfold frame; zarith); apply write64_agree; [exact Ha|lia]).
  destruct (straight_runs mid s1) as (R1 & Hpc2 & Hm2).
  - apply tame_straight; [apply tame_calls; exact Hp|]. rewrite Hsp1. exact Ha.
  - lia.
  - lia.
  - exact Hb.
  - lia.
  - rewrite Hpc1. eapply (holds_agree base len (mem s)); [|rewrite u64_small; lia|lia|lia|exact Hh1].
    intros i Hi. symmetry. apply Hm1. exact Hi.
  - set (s2 := run mid s1) in *.
    assert (agree base len (mem s2) (mem s)) as Hm by (eapply agree_trans; eassumption).
    destruct (pure_runs end_ s2 (pure_epilogue toc Ht)) as (R2 & Hm3 & _).
    + rewrite u64_small; lia.
    + rewrite Hpc2, Hpc1. eapply (holds_agree base len (mem s)); [|rewrite u64_small; lia|lia|lia|].
      * intros i Hi. symmetry. apply Hm. exact Hi.
      * exact Hh2.
    + split; [|rewrite Hm3; exact Hm].
      change ([0xF821FF01] ++ mid ++ end_) with (0xF821FF01 :: (mid ++ end_)).
      split; [exact Hf|]. apply runs_app; assumption.
Qed.

End boot.
