(* ===== verification/TrampolineProperties.v ===== *)
(** * Properties of the trampoline

    Stated on the bytes [buildTrampoline] returns: the blob, placed at the
    trampoline address, and the words that overwrite the entrypoint. *)

From S2P Require Import Prelude.
From S2P Require Import Text.
From S2P Require Import Errors.
From S2P Require Import EndianInt.
From S2P Require Import ElfTypes.
From S2P Require Import PpcEncode.
From S2P Require Import PpcDecode.
From S2P Require Import PpcSpec.
From S2P Require Import PpcSpecFacts.
From S2P Require Import PpcMoveFacts.
From S2P Require Import Fixtures.
From S2P Require Import ElfFile.
From S2P Require Import ElfFileFacts.
From S2P Require Import Toc.
From S2P Require Import Syscalls.
From S2P Require Import Trampoline.
From S2P Require Import TrampolineFacts.
From S2P Require Import PayloadFacts.

(** ** A successful build *)

Definition built (file : Ps3ElfFile) (entry : EntryDescriptor) (tramp : Z) (path : string)
    (t : TrampolineResult) : Prop :=
  buildTrampoline file entry tramp path = Ret (Ok t) /\ size (raw_ _ _ file) < 2 ^ 63.

Lemma built_inv file entry tramp path t :
  built file entry tramp path t ->
  exists off rel,
    ~ bad_request entry tramp path /\
    vaddrToFileOffset _ _ file (codeAddress entry) = Ok off /\
    off + 4 * size (jump_in entry tramp) <= size (raw_ _ _ file) /\
    relocateDisplacedInstructions (displaced_at file entry tramp off)
      (u32 (codeAddress entry)) (resume_addr tramp) = Ok rel /\
    length rel = length (jump_in entry tramp) /\ Forall word rel /\
    t = result_of entry tramp path rel.
Proof.
  intros [Hb Hs]. destruct (buildTrampoline_spec file entry tramp path Hs) as (r & Hr & Hspec).
  rewrite Hb in Hr. injection Hr as <-. inversion Hspec as [| | | | |off rel Hg _ Hv Hf Hrel Heq].
  exists off, rel. assert (0 <= off) by (eapply find_segment_range in Hv; lia).
  assert (length (displaced_at file entry tramp off) = length (jump_in entry tramp)) as Hl
    by (unfold displaced_at, words_at; rewrite length_fmap, length_seq; reflexivity).
  split; [exact Hg|]. split; [exact Hv|]. split; [exact Hf|]. split; [exact Hrel|]. split; [|split].
  - pose proof (relocate_spec (displaced_at file entry tramp off) (u32 (codeAddress entry))
      (resume_addr tramp)) as Hsp. rewrite Hrel in Hsp. lia.
  - eapply relocate_range; [|exact Hrel]. apply words_at_range; [lia|]. unfold size in Hf. unfold size. lia.
  - congruence.
Qed.

Lemma jump_back_words entry tramp n : Forall word (jump_back entry tramp n).
Proof. apply makeMinimalJump_words, jump_difference. Qed.

Lemma jump_in_words entry tramp : Forall word (jump_in entry tramp).
Proof. apply makeMinimalJump_words, jump_difference. Qed.

(** The words of the blob, by the section they belong to. *)
Lemma result_words entry tramp path rel :
  Forall word rel ->
  let b := blob (result_of entry tramp path rel) in
  let back := jump_back entry tramp (size rel) in
  let p := u32 (tramp + 204 + 4 * (size rel + size back)) in
  words_at 49 8 b = payload_prefix p (u32 (tocValue entry)) /\
  words_at 14 72 b = makeLoadAndStartModule p /\
  words_at (length rel) 204 b = rel /\
  words_at (length back) (204 + 4 * size rel) b = back.
Proof.
  intros Hr b back p.
  assert (Forall word (payload_code tramp (u32 (tocValue entry)) rel back)) as Hw
    by (apply payload_code_words; [exact Hr|apply jump_back_words]).
  unfold payload_code in Hw. fold p in Hw. subst b. cbn [blob result_of]. unfold payload_code.
  fold back p. set (toc := loadImmediate32 2 _) in *.
  split; [|split; [|split]].
  - pose proof (blob_words [] (prologue ++ makeLoadAndStartModule p ++ epilogue ++ toc)
      (rel ++ back) path) as H.
    cbn [app] in H. rewrite <- !app_assoc in H. apply H. exact Hw.
  - apply (blob_words prologue (makeLoadAndStartModule p) (epilogue ++ toc ++ rel ++ back) path Hw).
  - pose proof (blob_words (prologue ++ makeLoadAndStartModule p ++ epilogue ++ toc) rel back path) as H.
    rewrite <- !app_assoc in H. apply H. exact Hw.
  - pose proof (blob_words (prologue ++ makeLoadAndStartModule p ++ epilogue ++ toc ++ rel) back [] path) as H.
    rewrite app_nil_r, <- !app_assoc in H. specialize (H Hw).
    replace (204 + 4 * size rel)
      with (8 + 4 * size (prologue ++ makeLoadAndStartModule p ++ epilogue ++ toc ++ rel)); [exact H|].
    rewrite !size_app, makeLoadAndStartModule_size.
    change (size prologue) with 16. change (size epilogue) with 16. change (size toc) with 3.
    change SYSCALL_SEQUENCE_INSTR_COUNT with 14. lia.
Qed.

(** Where the path lies. *)
Lemma result_path entry tramp path rel :
  let b := blob (result_of entry tramp path rel) in
  let off := 204 + 4 * (size rel + size (jump_back entry tramp (size rel))) in
  slice 0 8 b = TRAMPOLINE_MAGIC /\
  slice off (Z.of_nat (String.length path) + 1) b = list_byte_of_string path ++ [Byte.x00] /\
  off + Z.of_nat (String.length path) + 1 <= size b < off + Z.of_nat (String.length path) + 5 /\
  size b mod 4 = 0.
Proof.
  intros b off. subst b. cbn [blob result_of]. set (back := jump_back _ _ _) in *.
  set (code := payload_code _ _ _ _).
  assert (size (toBigEndianBytes code) = off - 8) as Hc.
  { rewrite toBigEndianBytes_length. subst code off. rewrite payload_code_size. lia. }
  pose proof (list_byte_of_string_size path) as Hp.
  destruct (make_blob_shape code path) as (n & Hn & He & Hm). rewrite He in *.
  assert (size TRAMPOLINE_MAGIC = 8) as H8 by reflexivity.
  split; [apply slice_app_l with (l := TRAMPOLINE_MAGIC); lia|]. split; [|split; [|exact Hm]].
  - rewrite app_assoc, slice_app_r by (rewrite size_app; lia). rewrite size_app, Hc, H8.
    replace (off - (8 + (off - 8))) with 0 by lia. rewrite app_assoc.
    rewrite <- Hp. replace (size (list_byte_of_string path) + 1)
      with (size (list_byte_of_string path ++ [Byte.x00])) by (rewrite size_app; reflexivity).
    rewrite slice_app_l, slice_all by lia. reflexivity.
  - autorewrite with elf. rewrite Hc, H8, Hp. lia.
Qed.

Lemma built_blob_size file entry tramp path t :
  built file entry tramp path t ->
  212 < size (blob t) <= 1360 /\ slice 0 8 (blob t) = TRAMPOLINE_MAGIC /\ size (blob t) mod 4 = 0 /\
  size (entryPatchBytes t) = 4 * displacedInstructionCount t.
Proof.
  intros Hb. apply built_inv in Hb as (off & rel & Hg & _ & _ & _ & Hl & _ & ->).
  destruct (result_path entry tramp path rel) as (Hm & _ & Hsz & H4).
  assert (1 <= size rel <= 5) as H15
    by (unfold size; rewrite Hl; destruct (jump_in_length entry tramp) as [->| ->]; lia).
  assert (1 <= size (jump_back entry tramp (size rel)) <= 5) as Hj15.
  { unfold size, jump_back. destruct (makeMinimalJump_length
      (u32 (resume_addr tramp + 4 * Z.of_nat (length rel)))
      (u32 (codeAddress entry + 4 * Z.of_nat (length rel)))) as [->| ->];
      [apply jump_difference|lia..]. }
  unfold bad_request in Hg.
  split; [|split; [exact Hm|split; [exact H4|apply toBigEndianBytes_length]]].
  assert (0 < Z.of_nat (String.length path)) by (destruct path; [tauto|cbn; lia]). lia.
Qed.

(** ** The payload *)

(** C6: the payload is transparent.  Run from its first instruction in any
    state, with any kernel that keeps its contract, the 49 words of the blob
    before the resumed instructions end at the first resumed instruction with
    every general register but r2, the link register and the count register as
    they were on entry, and the TOC value of the entry descriptor in r2, as
    [loadImmediate32] leaves it: the value itself when it is below [2^31], with
    bits 32 to 47 set otherwise. *)
Theorem payload_transparent file entry tramp path t lv2 other (s : machine)
    (Hb : built file entry tramp path t) (Hk : kernel_contract lv2) (Hs : machine_ok s)
    (Ht : 0 <= tramp /\ tramp + 204 < 2 ^ 32) (Htoc : 0 <= tocValue entry < 2 ^ 32)
    (Hpc : pc s = tramp + 8) :
  let s' := exec_words lv2 other (words_at 49 8 (blob t)) s in
  pc s' = tramp + 204 /\
  gpr s' 2 = (if tocValue entry <? 2 ^ 31 then tocValue entry else tocValue entry + 0xFFFF * 2 ^ 32) /\
  lr s' = lr s /\ ctr s' = ctr s /\
  forall r, 0 <= r <= 31 -> r <> 2 -> gpr s' r = gpr s r.
Proof.
  apply built_inv in Hb as (off & rel & _ & _ & _ & _ & _ & Hw & ->).
  destruct (result_words entry tramp path rel Hw) as [-> _].
  rewrite (u32_small (tocValue entry)) by lia.
  destruct (exec_payload_prefix lv2 other Hk
    (u32 (tramp + 204 + 4 * (size rel + size (jump_back entry tramp (size rel)))))
    (tocValue entry) s (u32_range _)) as (H1 & H2 & H3 & H4 & H5); [lia|exact Hs|].
  cbv zeta. rewrite H1, H2, Hpc. split; [rewrite u64_small; lia|]. auto.
Qed.

(** C12: the payload makes exactly two system calls, first
    [sys_prx_load_module] (480 in r11) with the address of the path in r3 and
    zero flags and options, then [sys_prx_start_module] (481 in r11) with the
    first one's result still in r3 and the other arguments zero; at that
    address, in the blob as loaded at the trampoline address, is the
    zero-terminated path.  Above [2^31] the kernel is given another address:
    the path's with bits 32 to 47 set. *)
Theorem payload_loads_module file entry tramp path t lv2 other (s : machine)
    (Hb : built file entry tramp path t)
    (Ht : 0 <= tramp /\ tramp + size (blob t) < 2 ^ 32) :
  exists off,
    slice off (Z.of_nat (String.length path) + 1) (blob t) =
      list_byte_of_string path ++ [Byte.x00] /\
    0 <= off /\ off + Z.of_nat (String.length path) + 1 <= size (blob t) /\
    let a := tramp + off in
    let r3 := if a <? 2 ^ 31 then a else a + 0xFFFF * 2 ^ 32 in
    exec_words lv2 other (words_at 14 72 (blob t)) s =
    lv2 (advance 7 (set_gpr 11 481 (set_gpr 8 0 (set_gpr 7 0 (set_gpr 6 0 (set_gpr 5 0
      (set_gpr 4 0
        (lv2 (advance 7 (set_gpr 11 480 (set_gpr 5 0 (set_gpr 4 0
          (set_gpr 3 r3 s))))))))))))).
Proof.
  apply built_inv in Hb as (off & rel & _ & _ & _ & _ & _ & Hw & ->).
  destruct (result_words entry tramp path rel Hw) as (_ & Hc & _).
  destruct (result_path entry tramp path rel) as (_ & Hp & Hsz & _).
  set (p := 204 + 4 * (size rel + size (jump_back entry tramp (size rel)))) in *.
  assert (0 <= p) by (pose proof (size_nonneg rel); pose proof (size_nonneg (jump_back entry tramp (size rel))); lia).
  exists p. split; [exact Hp|]. split; [lia|]. split; [lia|].
  rewrite Hc. replace (u32 _) with (tramp + p) by (subst p; rewrite u32_small; lia).
  unfold makeLoadAndStartModule. rewrite exec_words_app, exec_load_call, exec_start_call by lia.
  reflexivity.
Qed.

(** What a jump of one word, or of the five-word form through r12, leaves. *)
Definition jumped (n : Z) (target : Z) (s : machine) : machine :=
  if n =? 1 then set_pc target s else set_pc target (set_ctr target (set_gpr 12 target s)).

Lemma exec_makeMinimalJump lv2 other fromAddr toAddr s :
  0 <= fromAddr < 2 ^ 32 -> 0 <= toAddr < 2 ^ 31 -> toAddr mod 4 = 0 -> pc s = fromAddr ->
  exec_words lv2 other (makeMinimalJump fromAddr toAddr) s =
  jumped (size (makeMinimalJump fromAddr toAddr)) toAddr s.
Proof.
  intros Hf Ht Ha Hpc.
  destruct (makeMinimalJump_spec fromAddr toAddr) as [(w & _ & He & ->)|[_ ->]]; [lia|..].
  - rewrite exec_words_cons, exec_words_nil, (exec_encodeBranch _ _ _ _ _ He), Hpc.
    rewrite u64_small by lia. unfold jumped. cbn. f_equal. lia.
  - rewrite exec_makeAbsoluteJump by (unfold reg; lia). unfold loaded.
    replace (toAddr <? 2 ^ 31) with true by lia.
    replace (toAddr / 4 * 4) with toAddr by (Z.div_mod_to_equations; lia). reflexivity.
Qed.

Lemma built_jump_size file entry tramp path t :
  built file entry tramp path t ->
  displacedInstructionCount t = 1 \/ displacedInstructionCount t = 5.
Proof.
  intros Hb. apply built_inv in Hb as (off & rel & _ & _ & _ & _ & _ & _ & ->).
  cbn [displacedInstructionCount result_of]. unfold size.
  destruct (jump_in_length entry tramp) as [->| ->]; auto.
Qed.

(** The resumed words, and the jump back after them. *)
Lemma resumed_parts file entry tramp path t :
  built file entry tramp path t -> 0 <= tramp /\ tramp + size (blob t) < 2 ^ 32 ->
  0 <= codeAddress entry /\ codeAddress entry + 20 < 2 ^ 31 ->
  let n := displacedInstructionCount t in
  let back := makeMinimalJump (tramp + 204 + 4 * n) (codeAddress entry + 4 * n) in
  exists off, vaddrToFileOffset _ _ file (codeAddress entry) = Ok off /\
    off + 4 * n <= size (raw_ _ _ file) /\
    (forall i w, words_at (Z.to_nat n) off (raw_ _ _ file) !! i = Some w ->
       words_at (Z.to_nat n) 204 (blob t) !! i =
       relocated w (codeAddress entry + 4 * Z.of_nat i) (tramp + 204 + 4 * Z.of_nat i)) /\
    words_at (length back) (204 + 4 * n) (blob t) = back /\
    204 + 4 * n + 4 * size back < size (blob t) /\ (codeAddress entry + 4 * n) mod 4 = 0.
Proof.
  intros Hb Ht Hc. apply built_inv in Hb as (off & rel & Hg & Hv & Hf & Hrel & Hl & Hw & ->).
  destruct (result_words entry tramp path rel Hw) as (_ & _ & Hr & Hback).
  destruct (result_path entry tramp path rel) as (_ & _ & Hsz & _).
  pose proof (size_nonneg (jump_back entry tramp (size rel))).
  assert (size rel = size (jump_in entry tramp)) as Hn by (unfold size; lia).
  assert (size rel = 1 \/ size rel = 5) as H15
    by (rewrite Hn; unfold size; destruct (jump_in_length entry tramp) as [->| ->]; auto).
  cbn [displacedInstructionCount result_of]. cbv zeta. rewrite <- Hn in *.
  assert (jump_back entry tramp (size rel) =
    makeMinimalJump (tramp + 204 + 4 * size rel) (codeAddress entry + 4 * size rel)) as Ej.
  { unfold jump_back, resume_addr. rewrite (u32_small (tramp + 204)) by lia.
    rewrite (u32_small (tramp + 204 + _)), (u32_small (codeAddress entry + _)) by lia. reflexivity. }
  rewrite <- Ej. exists off. split; [exact Hv|]. split; [exact Hf|]. split; [|split; [|split]].
  - intros i w Hi. rewrite to_nat_size, Hr. rewrite to_nat_size in Hi.
    pose proof (relocate_spec (displaced_at file entry tramp off) (u32 (codeAddress entry))
      (resume_addr tramp)) as Hsp. rewrite Hrel in Hsp. destruct Hsp as [_ Hsp].
    assert (i < length rel)%nat as Hlt
      by (apply lookup_lt_Some in Hi; unfold words_at in Hi; rewrite length_fmap, length_seq in Hi; exact Hi).
    unfold displaced_at in Hsp. rewrite <- Hl in Hsp.
    rewrite (Hsp i w Hi). unfold relocated_at, resume_addr.
    assert (size rel = Z.of_nat (length rel)) by reflexivity.
    rewrite (u32_small (codeAddress entry)), (u32_small (tramp + 204)) by lia.
    rewrite !u32_small by lia. reflexivity.
  - exact Hback.
  - lia.
  - unfold bad_request in Hg. zarith.
Qed.

(** C13: the words that overwrite the entrypoint, run there, reach the first
    instruction of a payload below [2^31], leaving everything else alone in the
    one-word form and overwriting r12 and the count register in the five-word
    form. *)
Theorem jump_in_reaches file entry tramp path t lv2 other (s : machine)
    (Hb : built file entry tramp path t) (Ht : 0 <= tramp /\ tramp + 8 < 2 ^ 31)
    (Hc : 0 <= codeAddress entry < 2 ^ 32) (Hpc : pc s = codeAddress entry) :
  let n := displacedInstructionCount t in
  (n = 1 \/ n = 5) /\ entryPatchAddr t = codeAddress entry /\ size (entryPatchBytes t) = 4 * n /\
  exec_words lv2 other (words_at (Z.to_nat n) 0 (entryPatchBytes t)) s = jumped n (tramp + 8) s.
Proof.
  apply built_inv in Hb as (off & rel & Hg & _ & _ & _ & _ & _ & ->).
  cbn [displacedInstructionCount entryPatchAddr entryPatchBytes result_of]. cbv zeta.
  assert (tramp mod 4 = 0) as Ha by (unfold bad_request in Hg; lia).
  split; [unfold size; destruct (jump_in_length entry tramp) as [->| ->]; auto|].
  split; [apply u32_small; lia|]. split; [apply toBigEndianBytes_length|].
  rewrite to_nat_size. pose proof (words_at_image (jump_in entry tramp) [] [] (jump_in_words _ _)) as Hi.
  cbn [app] in Hi. rewrite app_nil_r in Hi. change (size (@nil byte)) with 0 in Hi. rewrite Hi.
  unfold jump_in, code_base. rewrite (u32_small (codeAddress entry)), (u32_small (tramp + 8)) by lia.
  apply exec_makeMinimalJump; [lia|lia|zarith|exact Hpc].
Qed.

(** Five words are displaced only when the payload is out of a branch's reach,
    so a relative branch that can still be relocated into it has no target among
    the overwritten words, when the payload is above them. *)
Lemma relocated_outside file entry tramp path t i w w' :
  built file entry tramp path t -> 0 <= tramp /\ tramp + size (blob t) < 2 ^ 32 ->
  0 <= codeAddress entry < tramp -> displacedInstructionCount t = 5 ->
  kind (classify w) = DirectRelative ->
  relocated w (codeAddress entry + 4 * Z.of_nat i) (tramp + 204 + 4 * Z.of_nat i) = Some w' ->
  codeAddress entry + 20 <= u32 (codeAddress entry + 4 * Z.of_nat i + displacement (classify w)).
Proof.
  intros Hb Ht Hc H5 Hk Hr. pose proof (built_blob_size _ _ _ _ _ Hb) as (Hsz & _).
  apply built_inv in Hb as (off & rel & Hg & _ & _ & _ & Hl & _ & ->).
  cbn [displacedInstructionCount result_of] in H5.
  assert (fits_signed 26 (tramp + 8 - codeAddress entry) = false) as Hfar.
  { unfold jump_in, code_base in H5. rewrite !u32_small in H5 by lia.
    destruct (makeMinimalJump_spec (codeAddress entry) (tramp + 8)) as [(v & _ & _ & E)|[E _]];
      [lia|rewrite E in H5; discriminate H5|exact E]. }
  unfold relocated in Hr. rewrite bool_decide_true, relocateBranch_spec in Hr by exact Hk.
  destruct (fits_signed (form_width _) _) eqn:Hf in Hr; [|discriminate Hr].
  apply fits_signed_spec in Hf as [_ Hf]. apply not_true_iff_false in Hfar. rewrite fits_signed_spec in Hfar.
  unfold bad_request in Hg. assert ((tramp + 8 - codeAddress entry) mod 4 = 0) as Ha by zarith.
  unfold form_width in Hf. destruct (isConditionalForm _) in Hf; cbn in Hf, Hfar; lia.
Qed.

(** C11: the resumed words of the blob are the displaced instructions of the
    file in order, each copied, or re-encoded for its new address when it is a
    relative branch; when five are displaced by a payload above them, no relative
    branch among them goes to one of the overwritten words; the words after them
    jump to the instruction that followed the displaced ones.  The code is below
    [2^31] and the blob in the 32-bit address space. *)
Theorem displaced_resumed file entry tramp path t lv2 other (s : machine)
    (Hb : built file entry tramp path t) (Ht : 0 <= tramp /\ tramp + size (blob t) < 2 ^ 32)
    (Hc : 0 <= codeAddress entry /\ codeAddress entry + 20 < 2 ^ 31) :
  let n := displacedInstructionCount t in
  exists off displaced back,
    vaddrToFileOffset _ _ file (codeAddress entry) = Ok off /\
    off + 4 * n <= size (raw_ _ _ file) /\
    displaced = words_at (Z.to_nat n) off (raw_ _ _ file) /\
    (forall i w, displaced !! i = Some w ->
       words_at (Z.to_nat n) 204 (blob t) !! i =
       relocated w (codeAddress entry + 4 * Z.of_nat i) (tramp + 204 + 4 * Z.of_nat i)) /\
    (n = 5 -> codeAddress entry < tramp -> forall i w, displaced !! i = Some w ->
       kind (classify w) = DirectRelative ->
       codeAddress entry + 20 <= u32 (codeAddress entry + 4 * Z.of_nat i + displacement (classify w))) /\
    (length back = 1%nat \/ length back = 5%nat) /\
    words_at (length back) (204 + 4 * n) (blob t) = back /\
    (pc s = tramp + 204 + 4 * n ->
     exec_words lv2 other back s = jumped (size back) (codeAddress entry + 4 * n) s).
Proof.
  destruct (resumed_parts _ _ _ _ _ Hb Ht Hc) as (off & Hv & Hf & Hr & Hback & Hsz & Ha).
  destruct (built_blob_size _ _ _ _ _ Hb) as (Hblob & _ & _ & Hn).
  pose proof (size_nonneg (entryPatchBytes t)). intros n.
  exists off, (words_at (Z.to_nat n) off (raw_ _ _ file)),
    (makeMinimalJump (tramp + 204 + 4 * n) (codeAddress entry + 4 * n)).
  split; [exact Hv|]. split; [exact Hf|]. split; [reflexivity|]. split; [exact Hr|].
  split.
  { intros H5 Hlt i w Hi Hk. specialize (Hr i w Hi).
    apply lookup_lt_Some in Hi. unfold words_at in Hi, Hr. rewrite length_fmap, length_seq in Hi.
    rewrite list_lookup_fmap, lookup_seq_lt in Hr by exact Hi.
    eapply relocated_outside; [exact Hb|exact Ht|lia|exact H5|exact Hk|symmetry; exact Hr]. }
  split; [apply makeMinimalJump_length; unfold n; destruct (built_jump_size _ _ _ _ _ Hb); lia|].
  split; [exact Hback|]. intros Hpc. unfold n in *.
  pose proof (size_nonneg (makeMinimalJump (tramp + 204 + 4 * displacedInstructionCount t)
    (codeAddress entry + 4 * displacedInstructionCount t))).
  apply exec_makeMinimalJump; [lia| |exact Ha|exact Hpc].
  destruct (built_jump_size _ _ _ _ _ Hb) as [-> | ->]; lia.
Qed.

(** ** Layout *)

(** C31: the shape of what is built.  The overwritten window is one or five words
    at the aligned code address; the blob is the marker, 49 words, as many
    resumed words as were overwritten, one or five words of jump, the path with
    its terminating zero, and at most three zero bytes up to a multiple of four:
    at most 1268 bytes, whatever the path. *)
Theorem trampoline_layout file entry tramp path t (Hb : built file entry tramp path t) :
  let n := displacedInstructionCount t in
  trampolineAddr t = tramp /\ entryPatchAddr t = u32 (codeAddress entry) /\
  tramp mod 4 = 0 /\ entryPatchAddr t mod 4 = 0 /\
  (n = 1 \/ n = 5) /\ size (entryPatchBytes t) = 4 * n /\
  exists back, (back = 1 \/ back = 5) /\
    let p := 204 + 4 * (n + back) in
    let len := Z.of_nat (String.length path) + 1 in
    size (blob t) = p + (len + 3) / 4 * 4 /\ size (blob t) <= 1268 /\
    slice 0 8 (blob t) = TRAMPOLINE_MAGIC /\
    slice p len (blob t) = list_byte_of_string path ++ [Byte.x00].
Proof.
  pose proof (built_jump_size _ _ _ _ _ Hb) as Hn. pose proof (built_blob_size _ _ _ _ _ Hb) as Hsize.
  apply built_inv in Hb as (off & rel & Hg & _ & _ & _ & Hl & _ & ->).
  destruct (result_path entry tramp path rel) as (Hm & Hp & Hsz & H4).
  assert (size rel = size (jump_in entry tramp)) as Er by (unfold size; lia).
  cbn [displacedInstructionCount result_of] in Hn |- *. rewrite <- Er in *. cbv zeta.
  assert (size (jump_back entry tramp (size rel)) = 1 \/ size (jump_back entry tramp (size rel)) = 5) as Hk.
  { unfold size, jump_back. destruct (makeMinimalJump_length
      (u32 (resume_addr tramp + 4 * Z.of_nat (length rel)))
      (u32 (codeAddress entry + 4 * Z.of_nat (length rel)))) as [->| ->];
      [apply jump_difference|lia..]. }
  unfold bad_request in Hg. assert (Z.of_nat (String.length path) <= 1023) as Hlen by lia.
  conj; try reflexivity; try lia.
  - cbn [entryPatchAddr result_of]. zarith.
  - destruct Hsize as (_ & _ & _ & Hsize). cbn [displacedInstructionCount result_of] in Hsize.
    rewrite Hsize, Er. reflexivity.
  - eexists. split; [exact Hk|]. conj; [| |exact Hm|exact Hp];
      set (b := size (blob _)) in *; clearbody b; zarith.
Qed.

(** ** Building *)

(** C14: [buildTrampoline] always returns (no encoder it calls throws), and
    what it returns is determined: each error code is given exactly in its
    case, in this order: a bad argument, an already patched file, an entry
    outside every file-backed segment, an entry too close to the end of the
    file, a displaced relative branch that cannot be corrected; otherwise the
    trampoline. *)
Theorem buildTrampoline_outcomes (file : Ps3ElfFile) entry tramp path
    (Hs : size (raw_ _ _ file) < 2 ^ 63) :
  exists r, buildTrampoline file entry tramp path = Ret r /\ build_spec file entry tramp path r.
Proof. apply buildTrampoline_spec. exact Hs. Qed.

(** C33: a file counts as patched exactly when one of its PT_LOAD segments of at
    least 8 bytes starts with the magic marker inside the file. *)
Theorem isAlreadyPatched_exact (file : Ps3ElfFile)
    (Hok : file_ok true Big file) (Hs : size (raw_ _ _ file) < 2 ^ 64) :
  isAlreadyPatched file = true <-> Exists (starts_with_magic file) (segments _ _ file).
Proof.
  apply isAlreadyPatched_spec; [|exact Hs].
  apply (Forall_impl _ _ _ (segments_range file Hok)). intros ph [].
  cbn [sizeof] in *. lia.
Qed.

(** ** Runs on the PS3 test file *)

Definition ps3_file : Ps3ElfFile := file_of true Big ps3_exe.
Definition ps3_entry : EntryDescriptor := mkEntryDescriptor 0x10008 0x30000 0.
Definition ps3_path : string := "/dev_hdd0/tmp/debug.sprx".

Definition is_built (r : exc (Result TrampolineResult)) : bool :=
  match r with Ret (Ok _) => true | _ => false end.

Definition the_result (r : exc (Result TrampolineResult)) : TrampolineResult :=
  match r with Ret (Ok t) => t | _ => mkTrampolineResult [] [] 0 0 0 end.

Lemma is_built_eq r : is_built r = true -> r = Ret (Ok (the_result r)).
Proof. destruct r as [[t|e]|m]; [reflexivity|discriminate..]. Qed.

(** The trampoline at an address: near, so one word is displaced, or far. *)
Definition ps3_near : Z := 0x30000.
Definition ps3_far : Z := 0x10000000.
Definition ps3_t (tramp : Z) : TrampolineResult :=
  the_result (buildTrampoline ps3_file ps3_entry tramp ps3_path).

Lemma ps3_built_near : built ps3_file ps3_entry ps3_near ps3_path (ps3_t ps3_near).
Proof. split; [apply is_built_eq|]; vm_compute; reflexivity. Qed.

Lemma ps3_built_far : built ps3_file ps3_entry ps3_far ps3_path (ps3_t ps3_far).
Proof. split; [apply is_built_eq|]; vm_compute; reflexivity. Qed.

Lemma ps3_ok : file_ok true Big ps3_file.
Proof.
  apply (parse_ok _ _ ps3_exe); [vm_compute; reflexivity|].
  apply parse_is_ok; vm_compute; reflexivity.
Qed.

(** A kernel that returns 42 from every call and keeps the rest. *)
Definition lv2_42 (s : machine) : machine := set_gpr 3 42 s.

Lemma lv2_42_contract : kernel_contract lv2_42.
Proof.
  constructor; intros; try reflexivity. unfold lv2_42, set_gpr. cbn. apply upd_ne. lia.
Qed.

(** A state whose registers hold their own numbers. *)
Definition numbered (p : Z) : machine :=
  mkMachine (fun r => u64 r) 0x1234 0x5678 0 p (fun _ => Byte.x00).

Lemma numbered_ok p : machine_ok (numbered p).
Proof. split; [intros r; apply u64_range|cbn; lia]. Qed.

Lemma payload_transparent_witness :
  gpr (exec_words lv2_42 (fun _ s => s) (words_at 49 8 (blob (ps3_t ps3_near)))
         (numbered (ps3_near + 8))) 3 = 3.
Proof.
  destruct (payload_transparent ps3_file ps3_entry ps3_near ps3_path (ps3_t ps3_near) lv2_42
    (fun _ s => s) (numbered (ps3_near + 8)) ps3_built_near lv2_42_contract
    (numbered_ok _)) as (_ & _ & _ & _ & H); [unfold ps3_near; lia|cbn; lia|reflexivity|].
  rewrite H by lia. reflexivity.
Defined.

Lemma payload_loads_module_witness :
  exists off, slice off 25 (blob (ps3_t ps3_near)) = list_byte_of_string ps3_path ++ [Byte.x00].
Proof.
  destruct (payload_loads_module ps3_file ps3_entry ps3_near ps3_path (ps3_t ps3_near) lv2_42
    (fun _ s => s) (numbered (ps3_near + 72)) ps3_built_near) as (off & H & _);
    [vm_compute; split; [discriminate|reflexivity]|].
  exists off. exact H.
Defined.

Lemma jump_in_reaches_witness :
  displacedInstructionCount (ps3_t ps3_far) = 5 /\
  exec_words lv2_42 (fun _ s => s) (words_at 5 0 (entryPatchBytes (ps3_t ps3_far))) (numbered 0x10008)
  = set_pc (ps3_far + 8) (set_ctr (ps3_far + 8) (set_gpr 12 (ps3_far + 8) (numbered 0x10008))).
Proof.
  assert (displacedInstructionCount (ps3_t ps3_far) = 5) as H5 by (vm_compute; reflexivity).
  split; [exact H5|].
  destruct (jump_in_reaches ps3_file ps3_entry ps3_far ps3_path (ps3_t ps3_far) lv2_42
    (fun _ s => s) (numbered 0x10008) ps3_built_far) as (_ & _ & _ & H);
    [unfold ps3_far; lia|cbn; lia|reflexivity|].
  rewrite H5 in H. exact H.
Defined.

Lemma trampoline_layout_witness :
  size (blob (ps3_t ps3_near)) = 240 /\ size (entryPatchBytes (ps3_t ps3_near)) = 4.
Proof.
  destruct (trampoline_layout _ _ _ _ _ ps3_built_near)
    as (_ & _ & _ & _ & _ & Hn & back & Hk & Hsz & _).
  assert (displacedInstructionCount (ps3_t ps3_near) = 1) as H1 by (vm_compute; reflexivity).
  rewrite H1 in *. split; [|exact Hn]. destruct Hk as [-> | ->]; [exact Hsz|].
  vm_compute. reflexivity.
Defined.

Lemma displaced_resumed_witness :
  exists back, words_at (length back) 208 (blob (ps3_t ps3_near)) = back /\
    exec_words lv2_42 (fun _ s => s) back (numbered (ps3_near + 208)) =
    jumped (size back) 0x1000c (numbered (ps3_near + 208)).
Proof.
  assert (displacedInstructionCount (ps3_t ps3_near) = 1) as H1 by (vm_compute; reflexivity).
  destruct (displaced_resumed ps3_file ps3_entry ps3_near ps3_path (ps3_t ps3_near) lv2_42
    (fun _ s => s) (numbered (ps3_near + 208)) ps3_built_near)
    as (off & displaced & back & _ & _ & _ & _ & _ & _ & Hw & Hx);
    [vm_compute; split; [discriminate|reflexivity]|cbn; lia|].
  rewrite H1 in Hw, Hx. exists back. split; [exact Hw|]. apply Hx. reflexivity.
Defined.

Lemma buildTrampoline_outcomes_witness :
  exists r, buildTrampoline ps3_file ps3_entry ps3_near EmptyString = Ret r /\
    build_spec ps3_file ps3_entry ps3_near EmptyString r.
Proof. apply buildTrampoline_outcomes. vm_compute. reflexivity. Defined.

Lemma isAlreadyPatched_exact_witness : ~ Exists (starts_with_magic ps3_file) (segments _ _ ps3_file).
Proof.
  intros H. apply (isAlreadyPatched_exact ps3_file ps3_ok) in H; [|vm_compute; reflexivity].
  vm_compute in H. discriminate H.
Defined.
