(* ===== verification/MainFacts.v ===== *)
(** * Lemmas on the command line

    The file object the patch command writes out, why the steps after a
    successful build cannot fail, and where the new segment goes. *)

From S2P Require Import Prelude.
From S2P Require Import Text.
From S2P Require Import Errors.
From S2P Require Import EndianInt.
From S2P Require Import ElfTypes.
From S2P Require Import ElfFile.
From S2P Require Import ElfFileFacts.
From S2P Require Import Toc.
From S2P Require Import Trampoline.
From S2P Require Import TrampolineFacts.
From S2P Require Import TrampolineProperties.
From S2P Require Import Info.
From S2P Require Import Main.

(** ** Placement *)

Definition tramp_addr (file : Ps3ElfFile) : Z :=
  u32 (alignUp (highest_end (segments _ _ file)) 0x10000).

Lemma alignUp_spec v : 0 <= v -> v + 0xFFFF < 2 ^ 64 ->
  alignUp v 0x10000 = (v + 0xFFFF) / 0x10000 * 0x10000.
Proof.
  intros H1 H2. unfold alignUp. change (0x10000 =? 0) with false. cbn iota.
  replace (u64 (u64 (v + 65536) - 1)) with (v + 65535) by zarith.
  apply u64_small. Z.div_mod_to_equations; lia.
Qed.

Lemma highest_end_ge phs : forall acc, 0 <= acc ->
  let h := fold_left (fun highestEnd ph =>
    if negb (p_type ph =? PT_LOAD) then highestEnd
    else if highestEnd <? u64 (p_vaddr ph + p_memsz ph) then u64 (p_vaddr ph + p_memsz ph)
         else highestEnd) phs acc in
  acc <= h /\ (h = acc \/ h < 2 ^ 64) /\
  Forall (fun ph => p_type ph = PT_LOAD -> u64 (p_vaddr ph + p_memsz ph) <= h) phs.
Proof.
  induction phs as [|ph phs IH]; intros acc Ha; cbn [fold_left].
  - split; [lia|]. split; [auto|constructor].
  - set (acc' := if negb (p_type ph =? PT_LOAD) then acc else _).
    pose proof (u64_range (p_vaddr ph + p_memsz ph)) as Hu.
    assert (acc <= acc' /\ (acc' = acc \/ acc' < 2 ^ 64) /\
      (p_type ph = PT_LOAD -> u64 (p_vaddr ph + p_memsz ph) <= acc')) as (H1 & H2 & H3).
    { subst acc'. destruct (Z.eqb_spec (p_type ph) PT_LOAD); cbn [negb]; [|lia].
      destruct (Z.ltb_spec acc (u64 (p_vaddr ph + p_memsz ph))); lia. }
    destruct (IH acc') as (H4 & H5 & H6); [lia|]. split; [lia|]. split; [lia|].
    constructor; [intros Ht; specialize (H3 Ht); lia|exact H6].
Qed.

Lemma highest_end_spec phs :
  0 <= highest_end phs < 2 ^ 64 /\
  Forall (fun ph => p_type ph = PT_LOAD -> u64 (p_vaddr ph + p_memsz ph) <= highest_end phs) phs.
Proof.
  destruct (highest_end_ge phs 0) as (H1 & H2 & H3); [lia|].
  split; [|exact H3]. unfold highest_end. cbv zeta in *. lia.
Qed.

(** ** The patched file *)

Definition patched_file (file : Ps3ElfFile) (tramp : Z) (t : TrampolineResult) (off : Z) : Ps3ElfFile :=
  let f1 := extended true Big file tramp (blob t) (Z.lor PF_R PF_X) 0x10000 in
  mkElfFile true Big (header_ _ _ f1) (phdrs_ _ _ f1) (shdrs_ _ _ f1)
    (splice off (entryPatchBytes t) (raw_ _ _ f1)).

Section patched.
Context (file : Ps3ElfFile) (entry : EntryDescriptor) (tramp : Z) (path : string).
Context (t : TrampolineResult) (off : Z).
Context (Hok : file_ok true Big file) (Hb : built file entry tramp path t).
Context (Hoff : vaddrToFileOffset _ _ file (codeAddress entry) = Ok off).
Context (Hcode : 0 <= codeAddress entry < 2 ^ 32).
Context (Hsize : size (raw_ _ _ file) < 2 ^ 61).
Abbreviation f1 := (extended true Big file tramp (blob t) (Z.lor PF_R PF_X) 0x10000).
Abbreviation g := (patched_file file tramp t off).

Lemma built_entry : entryPatchAddr t = codeAddress entry.
Proof. destruct (built_inv _ _ _ _ _ Hb) as (o & rel & _ & _ & _ & _ & _ & _ & ->). cbn. apply u32_small. lia. Qed.

Lemma built_fits : 0 <= off /\ off + size (entryPatchBytes t) <= size (raw_ _ _ file).
Proof.
  destruct (built_inv _ _ _ _ _ Hb) as (o & rel & _ & Hv & Hf & _ & _ & _ & ->).
  rewrite Hoff in Hv. injection Hv as <-. pose proof (find_segment_range _ _ _ _ Hoff).
  cbn [entryPatchBytes result_of]. rewrite toBigEndianBytes_length. lia.
Qed.

(** The steps after the build succeed. *)
Lemma apply_patch_built {fs : Type} `{FileSystem fs} (w : fs) out outputPath :
  apply_patch w out file t tramp outputPath path =
  let outBytes := serialize true Big g in
  let (w', written) := writeFile w outputPath outBytes in
  if negb written then failed w' out ("could not write output file '" +:+ outputPath +:+ "'")
  else
    mkOutcome 0
      (out +:+ "Wrote " +:+ to_string (size outBytes) +:+ " bytes to " +:+ outputPath +:+ nl +:+
       "Patched successfully. On boot, this EBOOT will load and start: " +:+ path +:+ nl)
      EmptyString w'.
Proof.
  unfold apply_patch.
  change (addLoadSegment true Big file tramp (blob t) (Z.lor PF_R PF_X) 0x10000)
    with (ok, f1).
  cbn iota beta. rewrite built_entry.
  rewrite (vaddr_extended_old true Big file tramp (blob t) (Z.lor PF_R PF_X) 0x10000 _ off Hoff).
  destruct built_fits as [H0 Hf]. pose proof (built_blob_size _ _ _ _ _ Hb).
  assert (size (raw_ _ _ f1) = size (raw_ _ _ file) + size (blob t)) as Hr by apply extended_raw_size.
  rewrite patchBytesAt_fits by lia. reflexivity.
Qed.

Context (Hnum : size (phdrs_ _ _ file) + 1 < 2 ^ 16).
Context (Hsh : shdrs_ _ _ file = [] \/ 64 <= e_shoff (header _ _ file)).

Lemma phentsize_from_entry : e_phentsize (header _ _ file) = 56.
Proof.
  apply (ok_phentsize _ _ file Hok). rewrite (ok_phnum _ _ file Hok).
  unfold vaddrToFileOffset, segments in Hoff. destruct (phdrs_ _ _ file) as [|p ps]; [discriminate|].
  rewrite size_cons. pose proof (size_nonneg ps). lia.
Qed.

Lemma can_extend_built : can_extend true Big file (blob t).
Proof.
  pose proof (built_blob_size _ _ _ _ _ Hb). constructor; [exact Hnum|exact phentsize_from_entry|].
  change (256 ^ Z.of_nat (sizeof (addr_t (ElfClass := Elf64_class Big)))) with (2 ^ 64). lia.
Qed.

Lemma patched_raw_size : size (raw_ _ _ g) = size (raw_ _ _ file) + size (blob t).
Proof.
  destruct built_fits. pose proof (built_blob_size _ _ _ _ _ Hb). unfold patched_file. cbn [raw_].
  rewrite size_splice by (rewrite ?extended_raw_size; lia). apply extended_raw_size.
Qed.

Lemma patched_ok : file_ok true Big g.
Proof.
  apply patch_raw_ok.
  - apply addLoadSegment_ok; [exact Hok|exact can_extend_built].
  - etransitivity; [apply patched_raw_size|]. symmetry. apply extended_raw_size.
Qed.

Lemma patched_disjoint : tables_disjoint true Big g.
Proof.
  destruct (addLoadSegment_disjoint true Big file tramp (blob t) (Z.lor PF_R PF_X) 0x10000
    Hok can_extend_built Hsh). constructor; assumption.
Qed.

(** The object the written file parses to. *)
Definition reread : Ps3ElfFile :=
  mkElfFile true Big (header_ _ _ g) (phdrs_ _ _ g) (shdrs_ _ _ g) (serialize true Big g).

Lemma patched_parses : parse true Big (serialize true Big g) = Ok reread.
Proof.
  apply parse_serialize; [exact patched_ok|exact patched_disjoint|].
  rewrite patched_raw_size. pose proof (built_blob_size _ _ _ _ _ Hb). lia.
Qed.

Lemma patched_header :
  header _ _ g = with_phoff (size (raw_ _ _ file) + size (blob t))
    (with_phnum (size (phdrs_ _ _ file) + 1) (header _ _ file)).
Proof.
  pose proof (built_blob_size _ _ _ _ _ Hb). pose proof (size_nonneg (raw_ _ _ file)).
  pose proof (size_nonneg (phdrs_ _ _ file)).
  change (header _ _ g) with (header true Big f1). rewrite addLoadSegment_header.
  rewrite convert_small by (cbn [sizeof addr_t Elf64_class]; lia).
  rewrite !u16_small by (rewrite ?u16_small; lia). reflexivity.
Qed.

(** Bytes past the header and outside the section table are those of the
    object. *)
Lemma patched_slice o k :
  64 <= o -> 0 <= k -> o + k <= size (raw_ _ _ file) + size (blob t) ->
  o + k <= e_shoff (header _ _ file) \/
  e_shoff (header _ _ file) + size (shdrs_ _ _ file) * 64 <= o ->
  slice o k (serialize true Big g) = slice o k (splice off (entryPatchBytes t) (raw_ _ _ file ++ blob t)).
Proof.
  intros H1 H2 H3 H4. pose proof (built_blob_size _ _ _ _ _ Hb).
  apply (serialize_slice_raw true Big g); [exact patched_ok|rewrite patched_raw_size; lia|exact H1|..];
    rewrite patched_header; unfold with_phoff, with_phnum; cbn [e_phoff e_shoff]; [left; lia|exact H4].
Qed.

Definition new_ph : PhdrFields :=
  mkPhdrFields PT_LOAD (Z.lor PF_R PF_X) (size (raw_ _ _ file)) tramp tramp
    (size (blob t)) (size (blob t)) 0x10000.

Lemma reread_segments : 0 <= tramp < 2 ^ 32 -> segments _ _ reread = segments _ _ file ++ [new_ph].
Proof.
  intros Ht. pose proof (built_blob_size _ _ _ _ _ Hb). pose proof (size_nonneg (raw_ _ _ file)).
  change (segments _ _ reread) with (segments true Big f1). rewrite addLoadSegment_segments.
  do 2 f_equal. unfold new_segment, convert_phdr, new_ph. cbn [p_type p_flags p_offset p_vaddr p_paddr
    p_filesz p_memsz p_align].
  rewrite !convert_small by (cbn [sizeof addr_t Elf64_class]; lia). reflexivity.
Qed.

Lemma reread_size : size (raw_ _ _ file) + size (blob t) <= size (raw_ _ _ reread) < 2 ^ 62.
Proof.
  pose proof (built_blob_size _ _ _ _ _ Hb). pose proof (size_nonneg (raw_ _ _ file)).
  pose proof (size_nonneg (phdrs_ _ _ file)).
  cbn [reread raw_]. rewrite serialize_size; [|exact patched_ok|rewrite patched_raw_size; lia].
  rewrite patched_raw_size, patched_header. unfold with_phoff. cbn [e_phoff].
  change (sizeof_struct (Phdr (ElfClass := Elf64_class Big))) with 56.
  assert (size (phdrs_ _ _ g) = size (phdrs_ _ _ file) + 1) as -> by apply size_app. lia.
Qed.

(** The blob is in the written file at the offset of its segment. *)
Lemma reread_blob : slice (size (raw_ _ _ file)) (size (blob t)) (raw_ _ _ reread) = blob t.
Proof.
  pose proof (built_blob_size _ _ _ _ _ Hb). destruct built_fits.
  pose proof (size_nonneg (entryPatchBytes t)).
  pose proof (ok_raw _ _ file Hok) as Hraw.
  change (sizeof_struct (Ehdr (ElfClass := Elf64_class Big))) with 64 in Hraw.
  pose proof (ok_shoff _ _ file Hok) as Hso.
  change (sizeof_struct (Shdr (ElfClass := Elf64_class Big))) with 64 in Hso.
  cbn [reread raw_]. rewrite patched_slice by lia.
  rewrite slice_splice_ne by (rewrite ?size_app; lia).
  rewrite slice_app_r, Z.sub_diag, slice_all by lia. reflexivity.
Qed.

Lemma reread_patched : 0 <= tramp < 2 ^ 32 -> isAlreadyPatched reread = true.
Proof.
  intros Ht. pose proof (built_blob_size _ _ _ _ _ Hb) as (Hsz & Hm & _). pose proof reread_size.
  pose proof (size_nonneg (raw_ _ _ file)).
  assert (file_ok true Big reread) as Hrok.
  { eapply parse_ok; [|exact patched_parses]. change (size (raw_ _ _ reread) < 2 ^ 64). lia. }
  apply isAlreadyPatched_spec; [|lia|].
  - apply (Forall_impl _ _ _ (segments_range reread Hrok)). intros ph []. cbn [sizeof] in *. lia.
  - rewrite reread_segments by exact Ht. apply Exists_app. right. apply Exists_cons. left.
    unfold starts_with_magic, new_ph. cbn [p_type p_filesz p_offset].
    split; [reflexivity|]. split; [lia|]. split; [lia|].
    rewrite <- Hm, <- reread_blob, slice_slice by lia. f_equal. lia.
Qed.

(** The entrypoint's bytes in the written file. *)
Lemma reread_entry_bytes :
  64 <= off ->
  off + size (entryPatchBytes t) <= e_shoff (header _ _ file) \/
  e_shoff (header _ _ file) + size (shdrs_ _ _ file) * 64 <= off ->
  slice off (size (entryPatchBytes t)) (raw_ _ _ reread) = entryPatchBytes t.
Proof.
  intros H1 H2. destruct built_fits. pose proof (built_blob_size _ _ _ _ _ Hb).
  pose proof (size_nonneg (entryPatchBytes t)).
  cbn [reread raw_]. rewrite patched_slice by lia. apply slice_splice_eq. rewrite size_app. lia.
Qed.

(** Every other range of the old file is where it was. *)
Lemma reread_frame o k :
  64 <= o -> 0 <= k -> o + k <= size (raw_ _ _ file) ->
  o + k <= e_shoff (header _ _ file) \/
  e_shoff (header _ _ file) + size (shdrs_ _ _ file) * 64 <= o ->
  o + k <= off \/ off + size (entryPatchBytes t) <= o ->
  slice o k (raw_ _ _ reread) = slice o k (raw_ _ _ file).
Proof.
  intros H1 H2 H3 H4 H5. destruct built_fits. pose proof (size_nonneg (entryPatchBytes t)). pose proof (built_blob_size _ _ _ _ _ Hb).
  cbn [reread raw_]. rewrite patched_slice by lia.
  rewrite slice_splice_ne by (rewrite ?size_app; lia). apply slice_app_l; lia.
Qed.

Lemma reread_vaddr v o : vaddrToFileOffset _ _ file v = Ok o -> vaddrToFileOffset _ _ reread v = Ok o.
Proof.
  intros Hv. pose proof reread_size. apply (vaddr_extended_old true Big file tramp (blob t) (Z.lor PF_R PF_X) 0x10000) in Hv.
  unfold vaddrToFileOffset in Hv |- *. change (segments _ _ reread) with (segments true Big f1).
  rewrite find_segment_find in Hv |- *. destruct (List.find _ _); [|discriminate].
  rewrite extended_raw_size in Hv.
  destruct (Z.ltb_spec (size (raw_ _ _ file) + size (blob t)) (u64 (p_offset p + (v - p_vaddr p))));
    [discriminate|].
  destruct (Z.ltb_spec (size (raw_ _ _ reread)) (u64 (p_offset p + (v - p_vaddr p)))); [lia|exact Hv].
Qed.
End patched.

(** ** The commands *)

Lemma resolved_range file entry :
  size (raw_ _ _ file) < 2 ^ 64 -> resolveEntryDescriptor file = Ok entry ->
  0 <= codeAddress entry < 2 ^ 32 /\ 0 <= tocValue entry < 2 ^ 32 /\ envPointer entry = 0.
Proof.
  intros Hs Hr. pose proof (resolveEntryDescriptor_spec file Hs) as Hsp. rewrite Hr in Hsp.
  destruct Hsp as (off & _ & Hv & Hf & ->). pose proof (find_segment_range _ _ _ _ Hv).
  unfold descriptor_at. cbn.
  pose proof (be_load_range (slice off 4 (raw_ _ _ file))) as H1.
  pose proof (be_load_range (slice (off + 4) 4 (raw_ _ _ file))) as H2.
  pose proof (size_slice off 4 (raw_ _ _ file)) as S1.
  pose proof (size_slice (off + 4) 4 (raw_ _ _ file)) as S2. unfold size in S1 at 2, S2 at 2.
  rewrite S1 in H1 by lia. rewrite S2 in H2 by lia. auto.
Qed.

(** A successful patch of an input: what is parsed, resolved, built and
    written. *)
Record patch_of (bytes : list byte) (path : string) (file : Ps3ElfFile) (entry : EntryDescriptor)
    (t : TrampolineResult) (off : Z) : Prop := {
  po_parse : parse true Big bytes = Ok file;
  po_entry : resolveEntryDescriptor file = Ok entry;
  po_built : built file entry (tramp_addr file) path t;
  po_offset : vaddrToFileOffset _ _ file (codeAddress entry) = Ok off
}.

Lemma patch_of_unique bytes path file entry t off file' entry' t' off' :
  patch_of bytes path file entry t off -> patch_of bytes path file' entry' t' off' ->
  file' = file /\ entry' = entry /\ t' = t /\ off' = off.
Proof.
  intros [H1 H2 [H3 _] H4] [H1' H2' [H3' _] H4'].
  assert (file' = file) as -> by congruence. assert (entry' = entry) as -> by congruence.
  conj; congruence.
Qed.

Lemma parseAny_64be bytes file :
  size bytes < 2 ^ 64 -> parseAny bytes = Ok (Any64BE file) <-> parse true Big bytes = Ok file.
Proof.
  intros Hs. split.
  - unfold parseAny. intros H. inv_ok H.
    repeat match type of H with
    | (if ?b then _ else _) = Ok _ => destruct b
    | bind ?r _ = Ok _ => destruct r eqn:?; [cbn [bind] in H|discriminate H]
    end; congruence.
  - intros H. pose proof (parse_ident _ _ _ _ Hs H) as (H16 & Hm & Hc & Hd).
    unfold parseAny, EI_NIDENT. rewrite Hm, Hc, Hd, H. destruct (Z.ltb_spec (size bytes) 16); [lia|].
    reflexivity.
Qed.

Section commands.
Context {fs : Type} `{FileSystem fs}.

(** A run that fails before writing. *)
Definition refused (w : fs) (o : outcome fs) : Prop :=
  exit_code o = 1 /\ stderr o <> EmptyString /\ files o = w.

Lemma failed_refused w out what : refused w (failed w out what).
Proof. split; [reflexivity|]. split; [|reflexivity]. cbn. discriminate. Qed.

(** What [--info] reports on the input, if it can. *)
Definition reports (w : fs) (inputPath info : string) : Prop :=
  exists bytes file, open_read w inputPath = Some bytes /\ parseAny bytes = Ok (Any64BE file) /\
    formatInfo file = Ok info.

Lemma main_info_spec w inputPath :
  (exists info, reports w inputPath info /\
    main_info w inputPath = mkOutcome 0 info EmptyString w) \/
  ((~ exists info, reports w inputPath info) /\
    exists what, main_info w inputPath = failed w EmptyString what).
Proof.
  unfold main_info, readFile, reports. destruct (open_read w inputPath) as [bytes|]; cbn [negb].
  2: { right. split; [intros (? & ? & ? & Ho & _); discriminate Ho|eauto]. }
  destruct (parseAny bytes) as [a|e] eqn:Hp.
  2: { right. split; [intros (? & ? & ? & [= <-] & Hq & _); congruence|eauto]. }
  destruct a as [f|f|f|file]; cbn [get_64be];
    try (right; split; [intros (? & ? & ? & [= <-] & Hq & _); congruence|eauto]).
  destruct (formatInfo file) as [info|e] eqn:Hf.
  - left. exists info. split; [exists bytes, file; auto|reflexivity].
  - right. split; [|eauto]. intros (info & b & f & [= <-] & Hq & Hr). congruence.
Qed.

Lemma main_patch_spec w inputPath outputPath path :
  (forall bytes, open_read w inputPath = Some bytes -> size bytes < 2 ^ 61) ->
  exists o, main_patch w inputPath outputPath path = Ret o /\
    ((exists bytes file entry t off,
        open_read w inputPath = Some bytes /\ patch_of bytes path file entry t off /\
        let (w', written) := writeFile w outputPath
          (serialize true Big (patched_file file (tramp_addr file) t off)) in
        files o = w' /\ exit_code o = (if written then 0 else 1)) \/
     (refused w o /\ forall bytes, open_read w inputPath = Some bytes ->
        ~ exists file entry t off, patch_of bytes path file entry t off)).
Proof.
  intros Hsmall. unfold main_patch, readFile.
  destruct (open_read w inputPath) as [bytes|] eqn:Ho; cbn [negb];
    [|eexists; split; [reflexivity|right; split; [apply failed_refused|discriminate]]].
  specialize (Hsmall bytes eq_refl).
  assert (forall o, refused w o -> (~ exists file entry t off, patch_of bytes path file entry t off) ->
    refused w o /\ forall bytes', Some bytes = Some bytes' ->
      ~ exists file entry t off, patch_of bytes' path file entry t off) as Hrefuse
    by (intros o Hr Hn; split; [exact Hr|intros b [= <-]; exact Hn]).
  destruct (parseAny bytes) as [a|e] eqn:Hp.
  2: { eexists. split; [reflexivity|]. right. apply Hrefuse; [apply failed_refused|].
       intros (file & entry & t & off & [Hpo _ _ _]).
       apply parseAny_64be in Hpo; [congruence|lia]. }
  destruct (get_64be a) as [file|] eqn:Hg.
  2: { eexists. split; [reflexivity|]. right. apply Hrefuse; [apply failed_refused|].
       intros (file & entry & t & off & [Hpo _ _ _]).
       apply parseAny_64be in Hpo; [|lia]. rewrite Hpo in Hp. injection Hp as <-. discriminate. }
  assert (a = Any64BE file) as -> by (destruct a; cbn in Hg; congruence). clear Hg.
  apply parseAny_64be in Hp; [|lia].
  assert (forall file', parse true Big bytes = Ok file' -> file' = file) as Huniq by congruence.
  pose proof (parse_inv true Big bytes file ltac:(lia) Hp) as [_ Hfile].
  assert (size (raw_ _ _ file) < 2 ^ 61) as Hs by (rewrite Hfile; exact Hsmall). clear Hfile.
  destruct (resolveEntryDescriptor file) as [entry|e] eqn:He.
  2: { eexists. split; [reflexivity|]. right. apply Hrefuse; [apply failed_refused|].
       intros (file' & entry & t & off & [Hpo Hen _ _]). apply Huniq in Hpo as ->. congruence. }
  destruct (buildTrampoline_spec file entry (tramp_addr file) path) as (r & Hr & Hspec); [lia|].
  destruct (isAlreadyPatched file) eqn:Hpa.
  { eexists. split; [reflexivity|]. right. apply Hrefuse; [apply failed_refused|].
    intros (file' & entry' & t & off & [Hpo Hen [Hb _] _]). apply Huniq in Hpo as ->.
    rewrite He in Hen. injection Hen as <-. rewrite Hr in Hb. injection Hb as ->.
    inversion Hspec. congruence. }
  fold (tramp_addr file). rewrite Hr. cbn [exc_bind]. destruct r as [t|e].
  - destruct (resolved_range file entry ltac:(lia) He) as (Hc & _ & _).
    assert (built file entry (tramp_addr file) path t) as Hb by (split; [exact Hr|lia]).
    destruct (built_inv _ _ _ _ _ Hb) as (off & rel & _ & Hv & _).
    eexists. split; [reflexivity|]. left. exists bytes, file, entry, t, off.
    split; [reflexivity|]. split; [constructor; assumption|].
    rewrite (apply_patch_built file entry _ path t off Hb Hv Hc) by lia. cbv zeta.
    destruct (writeFile w outputPath _) as [w' written]. destruct written; auto.
  - eexists. split; [reflexivity|]. right. apply Hrefuse; [apply failed_refused|].
    intros (file' & entry' & t & off & [Hpo Hen [Hb _] _]). apply Huniq in Hpo as ->.
    rewrite He in Hen. injection Hen as <-. congruence.
Qed.
End commands.
