(* ===== verification/MainProperties.v ===== *)
(** * Properties of the commands *)

From S2P Require Import Prelude.
From S2P Require Import Text.
From S2P Require Import Errors.
From S2P Require Import EndianInt.
From S2P Require Import ElfTypes.
From S2P Require Import Fixtures.
From S2P Require Import ElfFile.
From S2P Require Import ElfFileFacts.
From S2P Require Import Toc.
From S2P Require Import Trampoline.
From S2P Require Import TrampolineFacts.
From S2P Require Import TrampolineProperties.
From S2P Require Import Info.
From S2P Require Import Main.
From S2P Require Import MainFacts.

(** The section table leaves the header alone and a program header can be
    added. *)
Definition patchable (file : Ps3ElfFile) : Prop :=
  size (phdrs_ _ _ file) + 1 < 2 ^ 16 /\
  (shdrs_ _ _ file = [] \/ 64 <= e_shoff (header _ _ file)).

(** [o, o + k) is outside the section table. *)
Definition off_sections (file : Ps3ElfFile) (o k : Z) : Prop :=
  o + k <= e_shoff (header _ _ file) \/
  e_shoff (header _ _ file) + size (shdrs_ _ _ file) * 64 <= o.

Definition output (file : Ps3ElfFile) (t : TrampolineResult) (off : Z) : list byte :=
  serialize true Big (patched_file file (tramp_addr file) t off).

Lemma patch_of_parts bytes path file entry t off :
  patch_of bytes path file entry t off -> size bytes < 2 ^ 61 ->
  file_ok true Big file /\ raw_ _ _ file = bytes /\ 0 <= codeAddress entry < 2 ^ 32 /\
  0 <= tramp_addr file < 2 ^ 32.
Proof.
  intros [Hp He _ _] Hs. assert (raw_ _ _ file = bytes) as Hraw
    by (apply parse_inv in Hp as [_ ->]; [reflexivity|lia]).
  split; [eapply parse_ok; [|exact Hp]; lia|]. split; [exact Hraw|].
  split; [apply (resolved_range file entry); [rewrite Hraw; lia|exact He]|apply u32_range].
Qed.

(** C7: the written file parses; its segments are those of the input followed
    by one executable segment whose data, in the file, is the blob; the entry
    point is unchanged; the entrypoint's bytes are the jump; every other byte
    of the input outside the ELF header and the section table is where it was. *)
Theorem patched_output bytes path file entry t off
    (Hp : patch_of bytes path file entry t off) (Hs : size bytes < 2 ^ 61) (Hx : patchable file) :
  exists g, parse true Big (output file t off) = Ok g /\
    segments _ _ g = segments _ _ file ++ [new_ph file (tramp_addr file) t] /\
    readAt _ _ g (size bytes) (size (blob t)) = Ok (blob t) /\
    ElfFile.entry _ _ g = ElfFile.entry _ _ file /\
    vaddrToFileOffset _ _ g (codeAddress entry) = Ok off /\
    (64 <= off -> off_sections file off (size (entryPatchBytes t)) ->
     readAt _ _ g off (size (entryPatchBytes t)) = Ok (entryPatchBytes t)) /\
    forall o k, 64 <= o -> 0 <= k -> o + k <= size bytes -> off_sections file o k ->
      o + k <= off \/ off + size (entryPatchBytes t) <= o ->
      readAt _ _ g o k = readAt _ _ file o k.
Proof.
  destruct (patch_of_parts _ _ _ _ _ _ Hp Hs) as (Hok & Hraw & Hc & Ht).
  destruct Hx as [Hn Hsh]. destruct Hp as [_ _ Hb Hoff]. rewrite <- Hraw in *.
  pose proof (reread_size file entry _ path t off Hok Hb Hoff Hs Hn) as Hsz.
  destruct (built_fits file entry _ path t off Hb Hoff) as [H0 Hf].
  pose proof (size_nonneg (raw_ _ _ file)). pose proof (size_nonneg (blob t)).
  pose proof (size_nonneg (entryPatchBytes t)).
  exists (reread file (tramp_addr file) t off).
  split; [eapply patched_parses; eassumption|].
  split; [eapply reread_segments; eassumption|].
  split; [rewrite readAt_fits by lia; f_equal; eapply reread_blob; eassumption|].
  split.
  { change (e_entry (header _ _ (patched_file file (tramp_addr file) t off)) = e_entry (header _ _ file)).
    erewrite patched_header by eassumption. reflexivity. }
  split; [eapply reread_vaddr; eassumption|]. split.
  - intros H64 Hdis. rewrite readAt_fits by lia. f_equal. eapply reread_entry_bytes; eassumption.
  - intros o k Ho Hk Hfit Hdis Hne. rewrite !readAt_fits by lia. f_equal.
    eapply reread_frame; eassumption.
Qed.

(** C35: the written file still resolves to the same entry descriptor, when the
    descriptor lies outside the header, the section table and the overwritten
    instructions; the tool then reports the file as patched. *)
Theorem patched_entry_kept bytes path file entry t off doff
    (Hp : patch_of bytes path file entry t off) (Hs : size bytes < 2 ^ 61) (Hx : patchable file)
    (Hd : vaddrToFileOffset _ _ file (ElfFile.entry _ _ file) = Ok doff)
    (H64 : 64 <= doff) (Hdis : off_sections file doff 8)
    (Hne : doff + 8 <= off \/ off + size (entryPatchBytes t) <= doff) :
  exists g, parse true Big (output file t off) = Ok g /\
    resolveEntryDescriptor g = Ok entry /\ isAlreadyPatched g = true.
Proof.
  destruct (patch_of_parts _ _ _ _ _ _ Hp Hs) as (Hok & Hraw & Hc & Ht).
  destruct Hx as [Hn Hsh]. destruct Hp as [_ He Hb Hoff]. rewrite <- Hraw in Hs. clear Hraw.
  pose proof (reread_size file entry _ path t off Hok Hb Hoff Hs Hn) as Hsz.
  pose proof (size_nonneg (raw_ _ _ file)). pose proof (size_nonneg (blob t)).
  exists (reread file (tramp_addr file) t off).
  split; [eapply patched_parses; eassumption|].
  split; [|eapply reread_patched; eassumption].
  assert (header _ _ (reread file (tramp_addr file) t off) =
          header _ _ (patched_file file (tramp_addr file) t off)) as Hh by reflexivity.
  erewrite patched_header in Hh by eassumption.
  pose proof (resolveEntryDescriptor_spec file ltac:(lia)) as Hf. rewrite He in Hf.
  destruct Hf as (o & Hm & Hv & Hfit & ->). rewrite Hd in Hv. injection Hv as <-.
  pose proof (reread_vaddr file (descriptor_at file doff) _ path t off Hok Hb Hoff Hs Hn
    _ _ Hd) as Hd'.
  pose proof (resolveEntryDescriptor_spec (reread file (tramp_addr file) t off) ltac:(lia)) as Hg.
  assert (ElfFile.entry _ _ (reread file (tramp_addr file) t off) = ElfFile.entry _ _ file) as Hent
    by (unfold ElfFile.entry; rewrite Hh; reflexivity).
  rewrite Hent, Hh in Hg. unfold with_phoff, with_phnum in Hg. cbn [e_machine] in Hg.
  rewrite Hd' in Hg. destruct (resolveEntryDescriptor (reread _ _ _ _)) as [d|e].
  - destruct Hg as (o & _ & Ho & _ & ->). injection Ho as <-. f_equal. unfold descriptor_at, off_sections in *.
    f_equal; f_equal; eapply reread_frame; try eassumption; lia.
  - destruct Hg as [[_ Hbad]|[(_ & _ & Hbad)|(_ & _ & o & Ho & Hlt)]];
      [contradiction|discriminate|]. injection Ho as <-. lia.
Qed.

(** ** Placement *)

(** C34: when every loadable segment ends at or below 0xFFFF0000, the address
    chosen for the new one is 64 KB aligned and past all of them, so the new
    segment overlaps none; when one ends above 0xFFFF0000 (and none above
    [2^32]) the truncation to 32 bits places the new segment at address 0.  The
    segment's offset in the file is the size of the input, so offset and address
    are congruent modulo the segment's alignment, as the ELF format asks, only
    for inputs whose size is a multiple of 64 KB. *)
Theorem placement (file : Ps3ElfFile)
    (Hb : Forall (fun ph => 0 <= p_vaddr ph /\ 0 <= p_memsz ph /\ p_vaddr ph + p_memsz ph < 2 ^ 64)
            (segments _ _ file)) :
  tramp_addr file mod 0x10000 = 0 /\
  (highest_end (segments _ _ file) <= 0xFFFF0000 ->
   Forall (fun ph => p_type ph = PT_LOAD -> p_vaddr ph + p_memsz ph <= tramp_addr file)
     (segments _ _ file)) /\
  (0xFFFF0000 < highest_end (segments _ _ file) <= 2 ^ 32 -> tramp_addr file = 0) /\
  forall t, let ph := new_ph file (tramp_addr file) t in
    (p_offset ph - p_vaddr ph) mod p_align ph = size (raw_ _ _ file) mod 0x10000.
Proof.
  destruct (highest_end_spec (segments _ _ file)) as [Hr Hall]. unfold tramp_addr.
  set (h := highest_end _) in *. split; [|split; [|split]].
  - unfold alignUp. change (0x10000 =? 0) with false. cbn iota. zarith.
  - intros Hle. rewrite alignUp_spec by lia. rewrite Forall_forall in *.
    intros ph Hin Ht. specialize (Hall ph Hin Ht). specialize (Hb ph Hin).
    rewrite u64_small in Hall by lia. zarith.
  - intros Hh. rewrite alignUp_spec by lia. zarith.
  - intros t. cbn. fold h. unfold alignUp. change (0x10000 =? 0) with false. cbn iota. zarith.
Qed.

(** ** The commands *)

Section commands.
Context {fs : Type} `{FileSystem fs}.

(** C8: the patch command always returns.  It writes, once and only to the
    output path, exactly when the input is a 64-bit big-endian file whose
    entry resolves and whose trampoline can be built, and then what it writes is
    the patched file; in every other case it ends with exit code 1 and a
    message and the file system is as it was. *)
Theorem main_patch_exact (w : fs) (argv0 inputPath outputPath path : string)
    (Hsmall : forall bytes, open_read w inputPath = Some bytes -> size bytes < 2 ^ 61) :
  exists o, main w [argv0; inputPath; outputPath; path] = Ret o /\
    ((exists bytes file entry t off,
        open_read w inputPath = Some bytes /\ patch_of bytes path file entry t off /\
        let (w', written) := writeFile w outputPath (output file t off) in
        files o = w' /\ exit_code o = (if written then 0 else 1)) \/
     (refused w o /\ forall bytes, open_read w inputPath = Some bytes ->
        ~ exists file entry t off, patch_of bytes path file entry t off)).
Proof. apply main_patch_spec. exact Hsmall. Qed.

(** C36: the inspection command never writes.  When the input is readable, a
    64-bit big-endian ELF file and its report can be built, it prints exactly the
    report on the standard output and exits with 0; in every other case it exits
    with 1, an error message on the error stream and nothing on the standard
    output.  Any argument vector that is neither the three arguments of the patch
    command nor --info with one argument prints exactly the usage, for the name
    the program was called by, on the error stream, exits with 1 and touches
    nothing.  (An empty argument
    vector is read as a program name that is empty.) *)
Theorem main_info_exact (w : fs) (argv0 inputPath : string) :
  (exists o, main w [argv0; "--info"; inputPath] = Ret o /\ files o = w /\
    ((exists info, reports w inputPath info /\
       exit_code o = 0 /\ stdout o = info /\ stderr o = EmptyString) \/
     ((~ exists info, reports w inputPath info) /\
       exit_code o = 1 /\ stdout o = EmptyString /\
       exists what, stderr o = "error: " +:+ what +:+ nl))) /\
  forall argv, length argv <> 4%nat ->
    (length argv = 3%nat -> nth 1 argv EmptyString <> "--info") ->
    main w argv = Ret (mkOutcome 1 EmptyString (usage (nth 0 argv EmptyString)) w).
Proof.
  split.
  - exists (main_info w inputPath). split; [reflexivity|].
    destruct (main_info_spec w inputPath) as [(info & Hr & ->)|[Hn [what ->]]]; (split; [reflexivity|]).
    + left. exists info. auto.
    + right. split; [exact Hn|]. split; [reflexivity|]. split; [reflexivity|]. exists what. reflexivity.
  - intros argv H4 H3. unfold main. destruct (Nat.eqb_spec (length argv) 4) as [E|_]; [contradiction|].
    destruct (Nat.eqb_spec (length argv) 3) as [E|_]; [|reflexivity].
    destruct (String.eqb_spec (nth 1 argv EmptyString) "--info") as [E'|_]; [tauto|reflexivity].
Qed.

(** What is written can be read back. *)
Definition reads_back : Prop :=
  forall w path w1 bytes w2,
    open_write w path = Some w1 -> write w1 path bytes = (w2, true) -> open_read w2 path = Some bytes.

Lemma written_reads_back (w : fs) outputPath bs (o : outcome fs) :
  reads_back -> exit_code o = 0 ->
  (let (w', written) := writeFile w outputPath bs in
   files o = w' /\ exit_code o = (if written then 0 else 1)) ->
  open_read (files o) outputPath = Some bs.
Proof.
  intros Hback Hexit Hw. unfold writeFile in Hw.
  destruct (open_write w outputPath) as [w1|] eqn:How; [|destruct Hw; congruence].
  destruct (write w1 outputPath bs) as [w2 written] eqn:Hwr. destruct Hw as [-> Hz].
  destruct written; [|congruence]. apply (Hback w outputPath w1 bs w2 How Hwr).
Qed.

(** C15: patching is refused the second time.  After a successful run, a run
    whose input is the first one's output ends with exit code 1 and leaves the
    file system as it was, whatever its output and module paths. *)
Theorem second_run_refused (w : fs) argv0 inputPath outputPath path (o : outcome fs)
    (Hback : reads_back)
    (Hrun : main w [argv0; inputPath; outputPath; path] = Ret o) (Hexit : exit_code o = 0)
    (Hsmall : forall bytes, open_read w inputPath = Some bytes -> size bytes < 2 ^ 60)
    (Hx : forall bytes file, open_read w inputPath = Some bytes ->
            parse true Big bytes = Ok file -> patchable file) :
  forall outputPath' path', exists o',
    main (files o) [argv0; outputPath; outputPath'; path'] = Ret o' /\ refused (files o) o'.
Proof.
  intros outputPath' path'.
  destruct (main_patch_spec w inputPath outputPath path) as (o1 & Ho1 & Hcase);
    [intros bytes Hb; specialize (Hsmall bytes Hb); lia|].
  change (main_patch w inputPath outputPath path = Ret o) in Hrun. rewrite Hrun in Ho1.
  injection Ho1 as <-. destruct Hcase as [(bytes & file & entry & t & off & Hr & Hp & Hw)|[[He _] _]];
    [|congruence].
  destruct (patch_of_parts _ _ _ _ _ _ Hp) as (Hok & Hraw & Hc & Ht); [specialize (Hsmall _ Hr); lia|].
  destruct (Hx bytes file Hr (po_parse _ _ _ _ _ _ Hp)) as [Hn Hsh]. destruct Hp as [_ _ Hb Hoff].
  assert (size (raw_ _ _ file) < 2 ^ 60) as Hs by (rewrite Hraw; exact (Hsmall _ Hr)).
  assert (open_read (files o) outputPath = Some (output file t off)) as Hread
    by (eapply written_reads_back; eassumption).
  assert (parse true Big (output file t off) = Ok (reread file (tramp_addr file) t off)) as Hparse
    by (eapply patched_parses; try eassumption; lia).
  pose proof (reread_size file entry _ path t off Hok Hb Hoff ltac:(lia) Hn) as Hsz.
  change (raw_ _ _ (reread file (tramp_addr file) t off)) with (output file t off) in Hsz.
  pose proof (reread_patched file entry _ path t off Hok Hb Hoff ltac:(lia) Hn Hsh Ht) as Hpatched.
  unfold main. cbn [length Nat.eqb andb negb nth]. unfold main_patch, readFile. rewrite Hread. cbn [negb].
  rewrite (proj2 (parseAny_64be (output file t off) _ ltac:(lia)) Hparse). cbn [get_64be].
  destruct (resolveEntryDescriptor _) as [d|e].
  - rewrite Hpatched. eexists. split; [reflexivity|]. apply failed_refused.
  - eexists. split; [reflexivity|]. apply failed_refused.
Qed.
End commands.

(** ** Runs on the PS3 test file *)

(** A file system in memory. *)
Definition memfs : Type := string -> option (list byte).

Definition put (w : memfs) (path : string) (bytes : list byte) : memfs :=
  fun p => if String.eqb p path then Some bytes else w p.

#[export] Instance memfs_FileSystem : FileSystem memfs := {
  open_read w path := w path;
  open_write w path := Some (put w path []);
  write w path bytes := (put w path bytes, true)
}.

Lemma memfs_reads_back : reads_back (fs := memfs).
Proof.
  intros w path w1 bytes w2 _ [= <-]. cbn. unfold put. rewrite String.eqb_refl. reflexivity.
Qed.

Definition disk : memfs := put (fun _ => None) "EBOOT.elf" ps3_exe.

Lemma disk_small bytes : open_read disk "EBOOT.elf" = Some bytes -> bytes = ps3_exe.
Proof. cbn. congruence. Qed.

Lemma ps3_parses : parse true Big ps3_exe = Ok ps3_file.
Proof. apply parse_is_ok; vm_compute; reflexivity. Qed.

Lemma ps3_patchable : patchable ps3_file.
Proof. split; [vm_compute; reflexivity|right; vm_compute; discriminate]. Qed.

Lemma ps3_patch_of : patch_of ps3_exe ps3_path ps3_file ps3_entry (ps3_t ps3_near) 0xb8.
Proof.
  constructor; [exact ps3_parses|vm_compute; reflexivity| |vm_compute; reflexivity].
  assert (tramp_addr ps3_file = ps3_near) as -> by (vm_compute; reflexivity). exact ps3_built_near.
Qed.

Definition exit_is (n : Z) (r : exc (outcome memfs)) : bool :=
  match r with Ret o => exit_code o =? n | Throw _ => false end.

Lemma exit_is_Ret n r : exit_is n r = true -> exists o, r = Ret o /\ exit_code o = n.
Proof. destruct r as [o|m]; cbn; [intros H; exists o; split; [reflexivity|lia]|discriminate]. Qed.

Definition first_run : exc (outcome memfs) :=
  main disk ["ps3patch"; "EBOOT.elf"; "EBOOT.patched.elf"; ps3_path].

Lemma patched_output_witness :
  exists g, parse true Big (output ps3_file (ps3_t ps3_near) 0xb8) = Ok g /\
    readAt _ _ g 296 240 = Ok (blob (ps3_t ps3_near)) /\
    readAt _ _ g 0xb8 4 = Ok (entryPatchBytes (ps3_t ps3_near)).
Proof.
  destruct (patched_output _ _ _ _ _ _ ps3_patch_of) as (g & Hp & _ & Hb & _ & _ & He & _);
    [vm_compute; reflexivity|exact ps3_patchable|].
  exists g. split; [exact Hp|].
  assert (size ps3_exe = 296 /\ size (blob (ps3_t ps3_near)) = 240 /\
          size (entryPatchBytes (ps3_t ps3_near)) = 4) as (S1 & S2 & S3)
    by (split; [|split]; vm_compute; reflexivity).
  rewrite S1, S2 in Hb. rewrite S3 in He.
  split; [exact Hb|]. apply He; [lia|left; vm_compute; discriminate].
Defined.

Lemma patched_entry_kept_witness :
  exists g, parse true Big (output ps3_file (ps3_t ps3_near) 0xb8) = Ok g /\
    resolveEntryDescriptor g = Ok ps3_entry /\ isAlreadyPatched g = true.
Proof.
  apply (patched_entry_kept _ _ _ _ _ _ 0xd0 ps3_patch_of);
    [vm_compute; reflexivity|exact ps3_patchable|vm_compute; reflexivity|lia|..].
  - left. vm_compute. discriminate.
  - right. vm_compute. discriminate.
Defined.

Lemma placement_witness :
  tramp_addr ps3_file = 0x30000 /\
  Forall (fun ph => p_type ph = PT_LOAD -> p_vaddr ph + p_memsz ph <= tramp_addr ps3_file)
    (segments _ _ ps3_file).
Proof.
  split; [vm_compute; reflexivity|]. apply (placement ps3_file); [|vm_compute; discriminate].
  assert (segments _ _ ps3_file = [mkPhdrFields 1 5 176 65536 65536 32 32 16;
    mkPhdrFields 1 6 208 131072 131072 24 24 16]) as -> by (vm_compute; reflexivity).
  repeat constructor; cbn; lia.
Defined.

Lemma main_patch_exact_witness :
  exists o, first_run = Ret o /\ exit_code o = 0 /\
    exists t off, files o "EBOOT.patched.elf" = Some (output ps3_file t off).
Proof.
  assert (exit_is 0 first_run = true) as Hx by (vm_compute; reflexivity).
  destruct (main_patch_exact disk "ps3patch" "EBOOT.elf" "EBOOT.patched.elf" ps3_path)
    as (o & Ho & Hc); [intros bytes ->%disk_small; vm_compute; reflexivity|].
  change (first_run = Ret o) in Ho. exists o. rewrite Ho in Hx. apply exit_is_Ret in Hx as (o' & [= <-] & Hx).
  split; [exact Ho|]. split; [exact Hx|].
  destruct Hc as [(bytes & file & entry & t & off & Hr & Hp & Hw)|[[He _] _]]; [|congruence].
  apply disk_small in Hr as ->. destruct Hp as [Hp _ _ _]. rewrite ps3_parses in Hp.
  injection Hp as <-. exists t, off. revert Hw. generalize (output ps3_file t off). intros bs [-> _].
  reflexivity.
Defined.

Lemma main_info_exact_witness :
  (exists o, main disk ["ps3patch"; "--info"; "EBOOT.elf"] = Ret o /\ exit_code o = 0 /\
    reports disk "EBOOT.elf" (stdout o)) /\
  main disk ["ps3patch"] = Ret (mkOutcome 1 EmptyString (
    "usage: ps3patch <input EBOOT.elf> <output EBOOT.elf> <sprx path>" +:+ nl +:+
    "       ps3patch --info <EBOOT.elf>" +:+ nl +:+
    "example: ps3patch EBOOT.elf EBOOT.patched.elf /dev_hdd0/tmp/debug.sprx" +:+ nl +:+
    "         ps3patch --info EBOOT.elf" +:+ nl) disk).
Proof.
  destruct (main_info_exact disk "ps3patch" "EBOOT.elf") as [(o & Ho & _ & Hc) Hu]. split.
  - assert (exit_is 0 (main disk ["ps3patch"; "--info"; "EBOOT.elf"]) = true) as Hx by (vm_compute; reflexivity).
    rewrite Ho in Hx. apply exit_is_Ret in Hx as (o' & [= <-] & Hx). exists o. split; [exact Ho|]. split; [exact Hx|].
    destruct Hc as [(info & Hr & _ & -> & _)|(_ & He & _)]; [exact Hr|congruence].
  - refine (eq_trans (Hu ["ps3patch"] _ _) _); [discriminate|discriminate|reflexivity].
Defined.

Lemma second_run_refused_witness :
  exists o o', first_run = Ret o /\
    main (files o) ["ps3patch"; "EBOOT.patched.elf"; "again.elf"; ps3_path] = Ret o' /\
    refused (files o) o'.
Proof.
  assert (exit_is 0 first_run = true) as Hx by (vm_compute; reflexivity).
  apply exit_is_Ret in Hx as (o & Ho & Hx).
  destruct (second_run_refused disk "ps3patch" "EBOOT.elf" "EBOOT.patched.elf" ps3_path o
    memfs_reads_back Ho Hx) with (outputPath' := "again.elf") (path' := ps3_path) as (o' & Ho' & Hr).
  - intros bytes ->%disk_small. vm_compute. reflexivity.
  - intros bytes file ->%disk_small Hp. rewrite ps3_parses in Hp. injection Hp as <-.
    exact ps3_patchable.
  - exists o, o'. split; [exact Ho|]. split; [exact Ho'|exact Hr].
Defined.
