(* ===== verification/ImageProperties.v ===== *)
(** * Files as images

    Any sequence of operations on a file does to its loaded image what the
    specification says, and so does the patch command. *)

From stdpp Require Import gmap.
From S2P Require Import Prelude.
From S2P Require Import Errors.
From S2P Require Import EndianInt.
From S2P Require Import ElfTypes.
From S2P Require Import Fixtures.
From S2P Require Import ElfFile.
From S2P Require Import ElfFileFacts.
From S2P Require Import ElfProperties.
From S2P Require Import Image.
From S2P Require Import ImageFacts.
From S2P Require Import Toc.
From S2P Require Import Trampoline.
From S2P Require Import TrampolineProperties.
From S2P Require Import Main.
From S2P Require Import MainFacts.
From S2P Require Import MainProperties.

(** C4: every session refines its specification.  From a loadable file (one
    [parse] accepts, with disjoint tables, loadable segments inside the file
    and no byte at two addresses), whatever entries are set, bytes overwritten,
    segments added and files written and read back, in any order, the file
    stays loadable, it represents the image the specification computes from any
    image it represented at the start, and every further allowed command
    succeeds. *)
Theorem session_refines {Is64 : bool} {E : Endian} `{C : ElfClass Is64 E}
    (cs : list command) (f g : ElfFile Is64 E)
    (Hf : loadable Is64 E f) (Hcs : session Is64 E cs f g) :
  loadable Is64 E g /\
  (forall i, represents Is64 E f i -> represents Is64 E g (fold_left spec_step cs i)) /\
  forall c, allowed Is64 E g c -> exists h, run_command Is64 E g c = Ok h.
Proof.
  destruct (session_simulated Is64 E cs f g Hcs Hf) as [Hg Hrep].
  split; [exact Hg|]. split; [exact Hrep|].
  intros c Hc. destruct (command_simulated Is64 E g c Hg Hc) as (h & Hh & _). eauto.
Qed.

(** ** The patch command as a session *)

(** The overwritten instructions are contiguous in the file and outside the
    header and the tables. *)
Definition window_in_file (file : Ps3ElfFile) (entry : EntryDescriptor) (t : TrampolineResult)
    (off : Z) : Prop :=
  forall k, 0 <= k < size (entryPatchBytes t) ->
    offset_of true Big file (codeAddress entry + k) = Some (off + k) /\
    metadata true Big file (off + k) = false.

(** Loadable segments are at least as large in memory as in the file, and end
    where the new address is not truncated. *)
Definition room_above (file : Ps3ElfFile) : Prop :=
  highest_end (segments _ _ file) <= 0xFFFF0000 /\
  Forall (fun ph => p_type ph = PT_LOAD ->
    p_filesz ph <= p_memsz ph /\ p_vaddr ph + p_memsz ph < 2 ^ 64) (segments _ _ file).

Definition patch_session (file : Ps3ElfFile) (entry : EntryDescriptor) (t : TrampolineResult) :
    list command :=
  [AddSegment (tramp_addr file) (blob t) (Z.lor PF_R PF_X) 0x10000;
   Patch (codeAddress entry) (entryPatchBytes t); Save].

Lemma tramp_addr_fresh file a :
  file_ok true Big file -> room_above file -> tramp_addr file <= a ->
  List.find (covers a) (segments _ _ file) = None.
Proof.
  intros Hok [Hhigh Hroom] Ha. destruct (List.find _ _) as [ph|] eqn:Hf; [|reflexivity]. exfalso.
  apply find_some in Hf as [Hin Hc]. apply list_elem_of_In in Hin.
  destruct (highest_end_spec (segments _ _ file)) as [Hr Hall].
  pose proof (segment_ranges true Big file Hok) as Hrange.
  rewrite Forall_forall in Hall, Hroom, Hrange.
  specialize (Hall ph Hin). specialize (Hroom ph Hin). destruct (Hrange ph Hin).
  unfold covers in Hc. destruct (Z.eqb_spec (p_type ph) PT_LOAD) as [Ht|]; [|discriminate].
  specialize (Hall Ht). specialize (Hroom Ht). cbn [sizeof addr_t Elf64_class] in *.
  rewrite u64_small in Hall by lia. rewrite u64_small in Hc by lia.
  assert (highest_end (segments _ _ file) <= tramp_addr file); [|lia].
  unfold tramp_addr. rewrite alignUp_spec by lia. zarith.
Qed.

Lemma patch_session_runs bytes path file entry t off :
  patch_of bytes path file entry t off -> size bytes < 2 ^ 60 -> loadable true Big file ->
  size (phdrs_ _ _ file) + 1 < 2 ^ 16 -> room_above file -> window_in_file file entry t off ->
  session true Big (patch_session file entry t) file (reread file (tramp_addr file) t off) /\
  parse true Big (output file t off) = Ok (reread file (tramp_addr file) t off).
Proof.
  intros Hp Hs Hl Hn Hroom Hwin. assert (size bytes < 2 ^ 61) as Hs1 by lia.
  destruct (patch_of_parts _ _ _ _ _ _ Hp Hs1) as (Hok & Hraw & Hc & Ht).
  pose proof (dis_header_sh _ _ _ (ld_tables _ _ _ Hl)) as Hsh.
  destruct Hp as [_ _ Hb Hoff]. rewrite <- Hraw in *.
  assert (parse true Big (output file t off) = Ok (reread file (tramp_addr file) t off)) as Hparse
    by (unfold output; eapply patched_parses; eassumption).
  split; [|exact Hparse].
  pose proof (built_blob_size _ _ _ _ _ Hb) as (Hbs & _).
  destruct (built_fits file entry _ path t off Hb Hoff) as [H0 Hfit].
  pose proof (size_nonneg (raw_ _ _ file)). pose proof (size_nonneg (entryPatchBytes t)).
  set (f1 := extended true Big file (tramp_addr file) (blob t) (Z.lor PF_R PF_X) 0x10000).
  assert (allowed true Big file (AddSegment (tramp_addr file) (blob t) (Z.lor PF_R PF_X) 0x10000)) as Ha.
  { split; [lia|]. split; [eapply can_extend_built; eassumption|]. split; [lia|]. split; [lia|].
    cbn [sizeof addr_t Elf64_class]. split; [lia|]. intros a Ha. apply tramp_addr_fresh; [exact Hok|exact Hroom|lia]. }
  assert (size (raw_ _ _ f1) = size (raw_ _ _ file) + size (blob t)) as Hr1 by apply extended_raw_size.
  apply session_cons with (g := f1); [exact Ha|reflexivity|].
  assert (vaddrToFileOffset true Big f1 (codeAddress entry) = Ok off) as Hoff1
    by (apply vaddr_extended_old; exact Hoff).
  assert (run_command true Big f1 (Patch (codeAddress entry) (entryPatchBytes t)) =
          Ok (patched_file file (tramp_addr file) t off)) as Hrun.
  { cbn [run_command]. rewrite Hoff1. cbn [bind]. rewrite patchBytesAt_fits by lia. reflexivity. }
  econstructor; [|exact Hrun|].
  { split; [lia|]. exists off. split; [exact Hoff1|]. split; [lia|]. intros k Hk.
    destruct (Hwin k Hk) as [Hw1 Hw2]. split.
    - unfold f1. rewrite extended_offset by assumption. rewrite Hw1. reflexivity.
    - destruct (metadata true Big f1 (off + k)) eqn:Hm; [|reflexivity].
      apply extended_metadata in Hm; [congruence|assumption..|lia]. }
  econstructor; [|exact Hparse|constructor]. split; [|exact I].
  rewrite (patched_raw_size file entry (tramp_addr file) path t off Hb Hoff). lia.
Qed.

(** C5: the patch command refines its specification.  For a loadable input with
    address space left below 0xFFFF0000 (and a window of the overwritten
    instructions inside one stretch of the file), the written file is loadable
    and represents, for every image the input represented, that image with the
    blob added at the trampoline address and the jump put over the bytes at
    the code address: nothing else a loader sees has changed. *)
Theorem patch_refines_spec bytes path file entry t off
    (Hp : patch_of bytes path file entry t off) (Hs : size bytes < 2 ^ 60)
    (Hl : loadable true Big file) (Hn : size (phdrs_ _ _ file) + 1 < 2 ^ 16)
    (Hroom : room_above file) (Hwin : window_in_file file entry t off) :
  exists g, parse true Big (output file t off) = Ok g /\ loadable true Big g /\
    forall i, represents true Big file i ->
      represents true Big g
        (mkImage (im_entry i)
           (bytes_from (codeAddress entry) (entryPatchBytes t) ∪
            (im_bytes i ∪ bytes_from (tramp_addr file) (blob t)))).
Proof.
  destruct (patch_session_runs _ _ _ _ _ _ Hp Hs Hl Hn Hroom Hwin) as [Hsess Hparse].
  destruct (session_simulated true Big _ _ _ Hsess Hl) as [Hg Hrep].
  eexists. split; [exact Hparse|]. split; [exact Hg|]. intros i Hi. exact (Hrep i Hi).
Qed.

(** ** Runs on the PS3 test file *)

Definition ps3_segments : list PhdrFields :=
  [mkPhdrFields 1 5 176 65536 65536 32 32 16; mkPhdrFields 1 6 208 131072 131072 24 24 16].

Lemma ps3_segments_eq : segments _ _ ps3_file = ps3_segments.
Proof. vm_compute. reflexivity. Qed.

Lemma ps3_size : size (raw_ _ _ ps3_file) = 296.
Proof. vm_compute. reflexivity. Qed.

Lemma ps3_inside : Forall (segment_inside 296) (segments _ _ ps3_file).
Proof. rewrite ps3_segments_eq. repeat constructor; cbn; lia. Qed.

Lemma ps3_offset a :
  offset_of true Big ps3_file a =
  if (65536 <=? a) && (a <? 65568) then Some (176 + (a - 65536))
  else if (131072 <=? a) && (a <? 131096) then Some (208 + (a - 131072)) else None.
Proof.
  rewrite (offset_of_segments true Big ps3_file ps3_file a (segment_ranges _ _ _ ps3_ok)); try reflexivity.
  - rewrite ps3_segments_eq. unfold ps3_segments, covers. cbn [List.find p_type p_vaddr p_filesz].
    change (u64 (65536 + 32)) with 65568. change (u64 (131072 + 24)) with 131096.
    change (1 =? PT_LOAD) with true. cbn [andb].
    destruct ((65536 <=? a) && _); [reflexivity|]. destruct (_ && _); reflexivity.
  - rewrite ps3_size. exact ps3_inside.
  - rewrite ps3_size. lia.
Qed.

Lemma ps3_loadable : loadable true Big ps3_file.
Proof.
  constructor; [exact ps3_ok| | |].
  - constructor; [right|right|right; right; left]; vm_compute; discriminate.
  - rewrite ps3_size. exact ps3_inside.
  - intros a a' o. rewrite !ps3_offset.
    repeat (case_match; [|try discriminate]); intros [= <-] [= ?]; lia.
Qed.

(** The image of the first eight bytes of code. *)
Definition ps3_image : image := mkImage 0x20000 (bytes_from 0x10000 (slice 176 8 ps3_exe)).

Lemma represents_bytes {Is64 : bool} {E : Endian} `{C : ElfClass Is64 E} (f : ElfFile Is64 E) a bs :
  forallb (fun k => bool_decide (byte_at Is64 E f (a + Z.of_nat k) = bs !! k)) (seq 0 (length bs)) = true ->
  map_Forall (fun a b => byte_at Is64 E f a = Some b) (bytes_from a bs).
Proof.
  rewrite forallb_forall. intros H x b Hb. rewrite lookup_bytes_from in Hb.
  destruct (Z.leb_spec a x); [|discriminate]. apply lookup_lt_Some in Hb as Hlt.
  specialize (H (Z.to_nat (x - a))). rewrite in_seq in H. specialize (H ltac:(lia)).
  apply bool_decide_eq_true in H. rewrite <- Hb, <- H. f_equal. lia.
Qed.

Lemma ps3_represents : represents true Big ps3_file ps3_image.
Proof. split; [vm_compute; reflexivity|]. apply represents_bytes. vm_compute. reflexivity. Qed.

Lemma ps3_fresh a : 0x30000 <= a -> List.find (covers a) (segments _ _ ps3_file) = None.
Proof.
  intros Ha. rewrite ps3_segments_eq. unfold ps3_segments, covers.
  cbn [List.find p_type p_vaddr p_filesz].
  change (u64 (65536 + 32)) with 65568. change (u64 (131072 + 24)) with 131096.
  replace (a <? 65568) with false by lia. replace (a <? 131096) with false by lia.
  rewrite !andb_false_r. reflexivity.
Qed.

Lemma session_refines_witness :
  exists g, session true Big [SetEntry 0x20008; AddSegment 0x30000 blob8 5 16; Save] ps3_file g /\
    represents true Big g (mkImage 0x20008 (im_bytes ps3_image ∪ bytes_from 0x30000 blob8)).
Proof.
  set (f1 := setEntry true Big ps3_file 0x20008).
  set (f2 := extended true Big f1 0x30000 blob8 5 16).
  assert (exists f3, session true Big [Save] f2 f3) as [f3 H3].
  { assert (is_ok (parse true Big (serialize true Big f2)) = true) as Hok by (vm_compute; reflexivity).
    destruct (parse true Big (serialize true Big f2)) as [f3|] eqn:Hp; [|discriminate Hok].
    exists f3. apply session_cons with (g := f3); [split; [vm_compute; reflexivity|exact I]|exact Hp|constructor]. }
  assert (session true Big [SetEntry 0x20008; AddSegment 0x30000 blob8 5 16; Save] ps3_file f3) as Hs.
  { apply session_cons with (g := f1);
      [split; [vm_compute; reflexivity|cbn; lia]|reflexivity|].
    apply session_cons with (g := f2); [|reflexivity|exact H3].
    split; [vm_compute; reflexivity|]. split; [constructor; vm_compute; reflexivity|].
    split; [vm_compute; reflexivity|]. split; [lia|]. split; [vm_compute; reflexivity|].
    intros a Ha. change (segments true Big f1) with (segments true Big ps3_file).
    apply ps3_fresh. lia. }
  exists f3. split; [exact Hs|].
  destruct (session_refines _ ps3_file f3 ps3_loadable Hs) as (_ & Hrep & _).
  exact (Hrep ps3_image ps3_represents).
Defined.

Lemma patch_refines_spec_witness :
  exists g, parse true Big (output ps3_file (ps3_t ps3_near) 0xb8) = Ok g /\
    represents true Big g
      (mkImage 0x20000
         (bytes_from 0x10008 (entryPatchBytes (ps3_t ps3_near)) ∪
          (im_bytes ps3_image ∪ bytes_from 0x30000 (blob (ps3_t ps3_near))))).
Proof.
  assert (tramp_addr ps3_file = 0x30000) as Ht by (vm_compute; reflexivity).
  destruct (patch_refines_spec _ _ _ _ _ _ ps3_patch_of) as (g & Hp & _ & Hrep).
  - vm_compute. reflexivity.
  - exact ps3_loadable.
  - vm_compute. reflexivity.
  - split; [vm_compute; discriminate|]. rewrite ps3_segments_eq.
    repeat constructor; cbn; lia.
  - assert (size (entryPatchBytes (ps3_t ps3_near)) = 4) as H4 by (vm_compute; reflexivity).
    intros k Hk. rewrite H4 in Hk. rewrite ps3_offset.
    change (codeAddress ps3_entry) with 0x10008.
    replace ((65536 <=? 0x10008 + k) && (0x10008 + k <? 65568)) with true by lia.
    split; [f_equal; lia|]. assert (k = 0 \/ k = 1 \/ k = 2 \/ k = 3) as Hc by lia.
    destruct Hc as [-> |[-> |[-> | ->]]]; vm_compute; reflexivity.
  - exists g. split; [exact Hp|]. rewrite <- Ht. exact (Hrep ps3_image ps3_represents).
Defined.
