(* ===== verification/InfoFacts.v ===== *)
(** * The report read back

    A reader of the segment table of the report: words, rows of seven words, and
    the numbers they denote.  It models no source file; it says what the table
    tells. *)

From S2P Require Import Prelude.
From S2P Require Import Text.
From S2P Require Import Errors.
From S2P Require Import EndianInt.
From S2P Require Import ElfTypes.
From S2P Require Import ElfFile.
From S2P Require Import Toc.
From S2P Require Import Syscalls.
From S2P Require Import Trampoline.
From S2P Require Import Info.

(** ** Words *)

Definition is_blank (c : ascii) : bool := (Ascii.eqb c " ") || (Ascii.eqb c "010").

Definition push (w : string) (ws : list string) : list string :=
  match w with EmptyString => ws | _ => w :: ws end.

(** The word a string starts with and the words after it. *)
Fixpoint split_word (s : string) : string * list string :=
  match s with
  | EmptyString => (EmptyString, [])
  | String c s' =>
      let (w, ws) := split_word s' in
      if is_blank c then (EmptyString, push w ws) else (String c w, ws)
  end.

Definition words (s : string) : list string := let (w, ws) := split_word s in push w ws.

Fixpoint no_blank (s : string) : bool :=
  match s with EmptyString => true | String c s' => negb (is_blank c) && no_blank s' end.

(** A word. *)
Definition solid (s : string) : bool :=
  match s with EmptyString => false | _ => no_blank s end.

Lemma split_word_app t s :
  no_blank t = true -> split_word (t +:+ s) = (t +:+ fst (split_word s), snd (split_word s)).
Proof.
  induction t as [|c t IH]; intros H;
    [rewrite !string_app_nil_l; destruct (split_word s); reflexivity|].
  cbn [no_blank] in H. apply andb_prop in H as [Hc Ht]. apply negb_true_iff in Hc.
  rewrite !string_app_cons. cbn [split_word]. rewrite (IH Ht), Hc. reflexivity.
Qed.

Lemma words_blank c s : is_blank c = true -> words (String c s) = words s.
Proof. intros H. unfold words. cbn [split_word]. rewrite H. destruct (split_word s). reflexivity. Qed.

Lemma words_solid t c s : solid t = true -> is_blank c = true -> words (t +:+ String c s) = t :: words s.
Proof.
  intros Ht Hc. unfold words. rewrite split_word_app by (destruct t; [discriminate|exact Ht]).
  cbn [split_word]. rewrite Hc. destruct (split_word s). cbn [fst snd]. rewrite string_app_nil_r.
  destruct t; [discriminate|reflexivity].
Qed.

Lemma words_blanks n s : words (blanks n +:+ s) = words s.
Proof. induction n as [|n IH]; [reflexivity|]. cbn [blanks]. rewrite string_app_cons, words_blank; auto. Qed.

(** A field of the table: padded, with a blank after it. *)
Lemma words_field n t s : solid t = true -> words (pad_right n t +:+ " " +:+ s) = t :: words s.
Proof.
  intros Ht. unfold pad_right. rewrite string_app_assoc.
  destruct (n - String.length t)%nat as [|k].
  - cbn [blanks]. rewrite string_app_nil_l. apply words_solid; [exact Ht|reflexivity].
  - cbn [blanks]. rewrite string_app_cons, words_solid by (try exact Ht; reflexivity).
    rewrite words_blanks. f_equal. apply words_blank. reflexivity.
Qed.

(** ** Fields *)

Lemma no_blank_app s t : no_blank (s +:+ t) = no_blank s && no_blank t.
Proof.
  induction s as [|c s IH]; [reflexivity|]. rewrite string_app_cons. cbn [no_blank].
  rewrite IH. apply andb_assoc.
Qed.

Lemma digit_char_solid d : 0 <= d < 16 -> is_blank (digit_char d) = false.
Proof.
  intros H. destruct (is_blank (digit_char d)) eqn:E; [|reflexivity]. exfalso.
  pose proof (char_digit_char d H) as Hc. unfold is_blank in E. apply orb_prop in E as [E|E];
    apply Ascii.eqb_eq in E; rewrite E in Hc; vm_compute in Hc; lia.
Qed.

Lemma digits_solid fuel base v acc :
  0 < base <= 16 -> 0 <= v -> no_blank acc = true -> no_blank (digits fuel base v acc) = true.
Proof.
  intros Hb. revert v acc. induction fuel as [|fuel IH]; intros v acc Hv Ha; [exact Ha|]. cbn [digits].
  pose proof (Z.mod_pos_bound v base). assert (0 <= v / base) by (apply Z.div_pos; lia).
  assert (no_blank (String (digit_char (v mod base)) acc) = true) as Hn
    by (cbn [no_blank]; rewrite digit_char_solid by lia; exact Ha).
  destruct (v / base =? 0); [exact Hn|]. apply IH; assumption.
Qed.

Lemma digits_nonempty fuel base v acc : digits (S fuel) base v acc <> EmptyString.
Proof.
  revert v acc. induction fuel as [|fuel IH]; intros v acc; cbn [digits];
    (destruct (v / base =? 0); [discriminate|]); [discriminate|]. apply IH.
Qed.

Lemma solid_intro s : s <> EmptyString -> no_blank s = true -> solid s = true.
Proof. destruct s; [congruence|auto]. Qed.

Lemma to_string_solid v : 0 <= v -> solid (to_string v) = true.
Proof.
  intros Hv. apply solid_intro; [|apply digits_solid; (reflexivity || lia)].
  apply (digits_nonempty 19).
Qed.

Lemma hex_is v : hex v = "0x" +:+ to_hex v.
Proof.
  unfold hex. apply snprintf_fits. rewrite string_length_app. pose proof (to_hex_length v).
  cbn [String.length]. lia.
Qed.

Lemma prefixed_solid v : 0 <= v -> solid ("0x" +:+ to_hex v) = true.
Proof.
  intros Hv. apply solid_intro; [discriminate|]. rewrite no_blank_app. cbn [no_blank].
  apply digits_solid; (reflexivity || lia).
Qed.

Lemma hex_solid v : 0 <= v -> solid (hex v) = true.
Proof. rewrite hex_is. apply prefixed_solid. Qed.

Lemma digits_length_small fuel base v acc k :
  1 < base -> 0 <= v < base ^ Z.of_nat (S k) ->
  (String.length (digits fuel base v acc) <= S k + String.length acc)%nat.
Proof.
  intros Hb. revert v acc k. induction fuel as [|fuel IH]; intros v acc k Hv; [cbn; lia|]. cbn [digits].
  rewrite Nat2Z.inj_succ, Z.pow_succ_r in Hv by lia.
  destruct (Z.eqb_spec (v / base) 0) as [_|Hne]; [cbn; lia|].
  assert (0 <= v / base) by (apply Z.div_pos; lia).
  assert (v / base < base ^ Z.of_nat k) by (apply Z.div_lt_upper_bound; lia).
  destruct k as [|k]; [change (Z.of_nat 0) with 0 in *; lia|].
  etransitivity; [apply (IH _ _ k); lia|]. cbn. lia.
Qed.

(** ** A row *)

(** The type as printed, for the types with and without a name. *)
Definition type_name (type : Z) : string :=
  if type =? PT_NULL then "NULL" else if type =? PT_LOAD then "LOAD"
  else if type =? PT_DYNAMIC then "DYNAMIC" else if type =? PT_INTERP then "INTERP"
  else if type =? PT_NOTE then "NOTE" else "0x" +:+ to_hex type.

Lemma segmentTypeToString_is type : 0 <= type < 2 ^ 32 -> segmentTypeToString type = type_name type.
Proof.
  intros Ht. unfold segmentTypeToString, type_name. repeat case_match; try reflexivity.
  apply snprintf_fits. rewrite string_length_app.
  pose proof (digits_length_small 16 16 type EmptyString 7 ltac:(lia) Ht). unfold to_hex. cbn [String.length] in *. lia.
Qed.

Definition drop_prefix (s : string) : string :=
  match s with String _ (String _ s') => s' | _ => s end.

(** ["0x..."] *)
Definition read_hex (s : string) : Z := read_digits 16 0 (drop_prefix s).

Lemma read_hex_hex v : 0 <= v < 2 ^ 64 -> read_hex (hex v) = v.
Proof. intros Hv. rewrite hex_is. apply to_hex_read. exact Hv. Qed.

Definition read_type (s : string) : Z :=
  if String.eqb s "NULL" then PT_NULL else if String.eqb s "LOAD" then PT_LOAD
  else if String.eqb s "DYNAMIC" then PT_DYNAMIC else if String.eqb s "INTERP" then PT_INTERP
  else if String.eqb s "NOTE" then PT_NOTE else read_hex s.

Lemma read_type_name type : 0 <= type < 2 ^ 32 -> read_type (type_name type) = type.
Proof.
  intros Ht. unfold type_name.
  repeat (match goal with |- context [?a =? ?b] => destruct (Z.eqb_spec a b) as [->|_] end; [reflexivity|]).
  assert (forall c s, c <> "0"%char -> String.eqb ("0x" +:+ to_hex type) (String c s) = false) as Hne.
  { intros c s Hc. apply String.eqb_neq. intros E. injection E as E _. congruence. }
  unfold read_type. rewrite !Hne by discriminate. apply to_hex_read. lia.
Qed.

Lemma type_name_solid type : 0 <= type -> solid (type_name type) = true.
Proof. intros Ht. unfold type_name. repeat case_match; try reflexivity. apply prefixed_solid. exact Ht. Qed.

(** The permissions of a segment: the three low bits of its flags. *)
Definition read_flags (s : string) : Z :=
  match s with
  | String r (String w (String x EmptyString)) =>
      (if Ascii.eqb r "R" then PF_R else 0) + (if Ascii.eqb w "W" then PF_W else 0) +
      (if Ascii.eqb x "X" then PF_X else 0)
  | _ => 0
  end.

Lemma read_flags_string flags :
  read_flags (segmentFlagsToString flags) = flags mod 8 /\ solid (segmentFlagsToString flags) = true.
Proof.
  assert (forall n, 0 <= n -> (Z.land flags (2 ^ n) =? 0) = negb (Z.testbit flags n)) as Hb.
  { intros n Hn. destruct (Z.testbit flags n) eqn:E; cbn [negb].
    - apply Z.eqb_neq. intros H0. assert (Z.testbit (Z.land flags (2 ^ n)) n = true) as H1
        by (rewrite Z.land_spec, E, Z.pow2_bits_true by lia; reflexivity).
      rewrite H0, Z.bits_0 in H1. discriminate.
    - apply Z.eqb_eq. apply Z.bits_inj'. intros k Hk. rewrite Z.land_spec, Z.bits_0.
      destruct (Z.eq_dec k n) as [->|Hne]; [rewrite E; reflexivity|].
      rewrite Z.pow2_bits_false by lia. apply andb_false_r. }
  unfold segmentFlagsToString.
  change PF_R with (2 ^ 2). change PF_W with (2 ^ 1). change PF_X with (2 ^ 0).
  rewrite !Hb, !negb_involutive by lia.
  assert (flags mod 8 = Z.b2z (Z.testbit flags 2) * 4 + Z.b2z (Z.testbit flags 1) * 2 +
    Z.b2z (Z.testbit flags 0)) as ->.
  { rewrite !Z.testbit_spec' by lia. change (2 ^ 2) with 4. change (2 ^ 1) with 2. change (2 ^ 0) with 1.
    Z.div_mod_to_equations. lia. }
  destruct (Z.testbit flags 2), (Z.testbit flags 1), (Z.testbit flags 0); split; reflexivity.
Qed.

(** ** The table *)

Lemma string_len_row idx ph :
  (String.length ("  " +:+ pad_right 3 (to_string idx) +:+
     " " +:+ pad_right 9 (segmentTypeToString (p_type ph)) +:+
     " " +:+ pad_right 6 (segmentFlagsToString (p_flags ph)) +:+
     " " +:+ pad_right 18 (hex (p_vaddr ph)) +:+
     " " +:+ pad_right 18 (hex (p_offset ph)) +:+
     " " +:+ pad_right 11 (hex (p_filesz ph)) +:+
     " " +:+ hex (p_memsz ph) +:+ nl) < 256)%nat.
Proof.
  assert (forall n s, String.length (snprintf n s) <= n)%nat as Hsn.
  { intros n s. unfold snprintf. generalize (n - 1)%nat (Nat.le_sub_l n 1).
    clear. intros m Hm. assert (String.length (String.substring 0 m s) <= m)%nat; [|lia].
    clear Hm. revert s. induction m as [|m IH]; intros [|c s]; cbn; try lia. specialize (IH s). lia. }
  assert (forall v, String.length (hex v) <= 24)%nat as Hh by (intros; apply Hsn).
  assert (String.length (segmentTypeToString (p_type ph)) <= 16)%nat as Ht.
  { unfold segmentTypeToString. repeat case_match; cbn; try lia; apply Hsn. }
  assert (String.length (segmentFlagsToString (p_flags ph)) = 3%nat) as Hf.
  { unfold segmentFlagsToString. rewrite !string_length_app. repeat case_match; reflexivity. }
  pose proof (to_string_length idx). pose proof (Hh (p_vaddr ph)). pose proof (Hh (p_offset ph)).
  pose proof (Hh (p_filesz ph)). pose proof (Hh (p_memsz ph)).
  rewrite !string_length_app, !pad_right_length. cbn [String.length nl]. lia.
Qed.

Record row := mkRow {
  r_index : Z;
  r_type : Z;
  r_flags : Z;
  r_vaddr : Z;
  r_offset : Z;
  r_filesz : Z;
  r_memsz : Z
}.

(** Rows of seven words up to the next title. *)
Fixpoint read_rows (ws : list string) : list row :=
  match ws with
  | i :: ty :: fl :: va :: off :: fsz :: msz :: ws' =>
      if String.eqb i "===" then []
      else mkRow (read_digits 10 0 i) (read_type ty) (read_flags fl) (read_hex va) (read_hex off)
             (read_hex fsz) (read_hex msz) :: read_rows ws'
  | _ => []
  end.

Definition read_table (text : string) : list row := read_rows (words text).

(** What the rows tell of the segments. *)
Fixpoint rows_from (i : Z) (phs : list PhdrFields) : list row :=
  match phs with
  | [] => []
  | ph :: phs' =>
      mkRow i (p_type ph) (p_flags ph mod 8) (p_vaddr ph) (p_offset ph) (p_filesz ph) (p_memsz ph)
      :: rows_from (i + 1) phs'
  end.

Lemma words_line i ph s :
  0 <= i -> phdr_range uint64_t ph ->
  words (segment_line i ph +:+ s) =
  to_string i :: type_name (p_type ph) :: segmentFlagsToString (p_flags ph) :: hex (p_vaddr ph) ::
  hex (p_offset ph) :: hex (p_filesz ph) :: hex (p_memsz ph) :: words s.
Proof.
  intros Hi [Hty Hfl Ho Hv Hf Hm]. unfold segment_line. rewrite snprintf_fits by apply string_len_row.
  rewrite segmentTypeToString_is by exact Hty. rewrite !string_app_assoc.
  change ("  " +:+ ?x) with (String " " (String " " x)). rewrite !words_blank by reflexivity.
  rewrite words_field by (apply to_string_solid; exact Hi).
  rewrite words_field by (apply type_name_solid; lia).
  rewrite words_field by apply read_flags_string.
  rewrite !words_field by (apply hex_solid; lia).
  change (nl +:+ s) with (String "010" s). rewrite words_solid by (reflexivity || (apply hex_solid; lia)).
  reflexivity.
Qed.

Lemma not_title i : 0 <= i < 2 ^ 64 -> String.eqb (to_string i) "===" = false.
Proof.
  intros Hi. apply String.eqb_neq. intros E. pose proof (to_string_read i Hi) as H.
  rewrite E in H. vm_compute in H. lia.
Qed.

Lemma read_table_lines i phs ws s :
  0 <= i -> i + size phs <= 2 ^ 64 -> Forall (phdr_range uint64_t) phs -> words s = "===" :: ws ->
  read_table (segment_lines i phs +:+ s) = rows_from i phs.
Proof.
  intros Hi Hn Hphs Hs. unfold read_table. revert i Hi Hn.
  induction Hphs as [|ph phs Hph _ IH]; intros i Hi Hn.
  - cbn [segment_lines rows_from]. rewrite string_app_nil_l, Hs.
    do 6 (destruct ws as [|? ws]; [reflexivity|]). reflexivity.
  - rewrite size_cons in Hn. pose proof (size_nonneg phs).
    cbn [segment_lines rows_from]. rewrite string_app_assoc, words_line by assumption.
    cbn [read_rows]. rewrite not_title by lia. rewrite IH by lia.
    destruct Hph as [Hty Hfl Ho Hv Hf Hm]. cbn [sizeof] in *.
    rewrite to_string_read, read_type_name, !read_hex_hex by lia.
    rewrite (proj1 (read_flags_string _)). reflexivity.
Qed.

(** The heading of the table, and what the report has after it. *)
Definition table_heading : string :=
  "  #   Type      Flags  VirtAddr            Offset              FileSz      MemSz" +:+ nl.

Definition report_end : string :=
  nl +:+
  "=== Syscalls ps3patch's trampoline uses ===" +:+ nl +:+
  "  " +:+ to_string SYS_PRX_LOAD_MODULE +:+ "  sys_prx_load_module" +:+ nl +:+
  "  " +:+ to_string SYS_PRX_START_MODULE +:+ "  sys_prx_start_module" +:+ nl +:+
  "  (syscall number passed in r11, per LV2 convention, confirmed on real hardware)" +:+ nl.

Lemma words_report_end : exists ws, words report_end = "===" :: ws.
Proof. eexists. vm_compute. reflexivity. Qed.

(** ** Ends of the report *)

Definition ends_with (s e : string) : Prop := exists l, s = l +:+ e.

Lemma ends_with_refl e : ends_with e e.
Proof. exists EmptyString. reflexivity. Qed.

Lemma ends_with_app s t e : ends_with t e -> ends_with (s +:+ t) e.
Proof. intros [l ->]. exists (s +:+ l). rewrite string_app_assoc. reflexivity. Qed.

(** The status line, the table and the end. *)
Lemma formatInfo_ends (file : Ps3ElfFile) text :
  formatInfo file = Ok text ->
  ends_with text
    ("  Already patched by ps3patch: " +:+ (if isAlreadyPatched file then "YES" else "no") +:+ nl +:+
     nl +:+ "=== Program Headers (" +:+ to_string (size (segments _ _ file)) +:+ ") ===" +:+ nl +:+
     table_heading +:+ segment_lines 0 (segments _ _ file) +:+ report_end).
Proof.
  unfold formatInfo. destruct (resolveEntryDescriptor file) as [d|]; [|discriminate].
  cbn [bind]. intros H. injection H as <-.
  unfold table_heading. rewrite string_app_assoc.
  repeat first [apply ends_with_refl|apply ends_with_app].
Qed.
