(* ===== verification/InfoProperties.v ===== *)
(** * Properties of the entry descriptor and of the report *)

From S2P Require Import Prelude.
From S2P Require Import Text.
From S2P Require Import Errors.
From S2P Require Import EndianInt.
From S2P Require Import ElfTypes.
From S2P Require Import Fixtures.
From S2P Require Import ElfFile.
From S2P Require Import ElfFileFacts.
From S2P Require Import Toc.
From S2P Require Import Trampoline.
From S2P Require Import TrampolineFacts.
From S2P Require Import TrampolineProperties.
From S2P Require Import Info.
From S2P Require Import InfoFacts.

(** C26: the entry resolves exactly when the machine is EM_PPC64, [e_entry]
    translates to a file offset and eight bytes follow it; the code address and
    the TOC value are the two big-endian words there, and each failure has its
    own error code. *)
Theorem resolveEntryDescriptor_exact (file : Ps3ElfFile) (Hs : size (raw_ _ _ file) < 2 ^ 64) :
  match resolveEntryDescriptor file with
  | Ok d =>
      exists off, e_machine (header _ _ file) = EM_PPC64 /\
        vaddrToFileOffset _ _ file (entry _ _ file) = Ok off /\
        off + 8 <= size (raw_ _ _ file) /\ d = descriptor_at file off
  | Err e =>
      (code e = Unsupported /\ e_machine (header _ _ file) <> EM_PPC64) \/
      (code e = OffsetOutOfBounds /\ e_machine (header _ _ file) = EM_PPC64 /\
       is_ok (vaddrToFileOffset _ _ file (entry _ _ file)) = false) \/
      (code e = TruncatedFile /\ e_machine (header _ _ file) = EM_PPC64 /\
       exists off, vaddrToFileOffset _ _ file (entry _ _ file) = Ok off /\
         size (raw_ _ _ file) < off + 8)
  end.
Proof. apply resolveEntryDescriptor_spec. exact Hs. Qed.

Lemma resolveEntryDescriptor_exact_witness :
  exists off, vaddrToFileOffset _ _ ps3_file (entry _ _ ps3_file) = Ok off /\
    ps3_entry = descriptor_at ps3_file off.
Proof.
  assert (resolveEntryDescriptor ps3_file = Ok ps3_entry) as Hr by (vm_compute; reflexivity).
  pose proof (resolveEntryDescriptor_exact ps3_file) as H. rewrite Hr in H.
  destruct H as (off & _ & Hv & _ & Hd); [vm_compute; reflexivity|]. exists off. split; [exact Hv|exact Hd].
Defined.

(** on the repository's own PS3 fixture, whose generator writes a 24-byte
    descriptor with code address 0x10008 and TOC 0x30000, the resolver returns
    code address 0 and TOC 0x10008, and the trampoline cannot be built. *)
Lemma fixture_descriptor_misread :
  let file := file_of true Big synthetic_ps3_opd in
  parse true Big synthetic_ps3_opd = Ok file /\
  be_load (slice 0xd0 8 synthetic_ps3_opd) = 0x10008 /\
  be_load (slice 0xd8 8 synthetic_ps3_opd) = 0x30000 /\
  resolveEntryDescriptor file = Ok (mkEntryDescriptor 0 0x10008 0) /\
  forall tramp, is_built (buildTrampoline file (mkEntryDescriptor 0 0x10008 0) tramp ps3_path) = false.
Proof.
  cbv zeta. split; [apply parse_is_ok; vm_compute; reflexivity|].
  split; [vm_compute; reflexivity|]. split; [vm_compute; reflexivity|].
  split; [vm_compute; reflexivity|]. intros tramp. unfold buildTrampoline.
  assert (is_ok (vaddrToFileOffset _ _ (file_of true Big synthetic_ps3_opd) 0) = false) as Hv
    by (vm_compute; reflexivity).
  repeat match goal with |- context [if ?c then _ else _] => destruct c; [reflexivity|] end.
  cbn [codeAddress]. destruct (vaddrToFileOffset _ _ _ 0); [discriminate Hv|reflexivity].
Qed.

(** ** The report *)

(** C40: the report tells what the file says.  After the line on earlier
    patching, which says what the detection finds, and the heading, the segment
    table reads back to one row per program header, in order: its index, type,
    permissions, address, file offset, size in the file and size in memory, each
    in full (no buffer truncates). *)
Theorem report_reads_back (file : Ps3ElfFile) (text : string)
    (Hok : file_ok true Big file) (Htext : formatInfo file = Ok text) :
  exists table,
    ends_with text
      ("  Already patched by ps3patch: " +:+ (if isAlreadyPatched file then "YES" else "no") +:+ nl +:+
       nl +:+ "=== Program Headers (" +:+ to_string (size (segments _ _ file)) +:+ ") ===" +:+ nl +:+
       table_heading +:+ table) /\
    read_table table = rows_from 0 (segments _ _ file).
Proof.
  eexists. split; [apply formatInfo_ends; exact Htext|].
  destruct words_report_end as [ws Hws].
  apply (read_table_lines 0 _ ws); [lia| |apply segments_range; exact Hok|exact Hws].
  pose proof (ehdr_fields_range _ (ok_header _ _ file Hok)) as Hh. apply e_phnum_range in Hh.
  fold (header _ _ file) in Hh. rewrite (ok_phnum _ _ file Hok) in Hh.
  unfold segments. unfold size in *. rewrite length_fmap. lia.
Qed.

Lemma report_reads_back_witness :
  exists text table, formatInfo ps3_file = Ok text /\
    read_table table =
    [mkRow 0 PT_LOAD 5 0x10000 0xb0 32 32; mkRow 1 PT_LOAD 6 0x20000 0xd0 24 24].
Proof.
  destruct (formatInfo ps3_file) as [text|] eqn:E; [|vm_compute in E; discriminate E].
  destruct (report_reads_back ps3_file text ps3_ok E) as (table & _ & Ht).
  exists text, table. split; [reflexivity|]. rewrite Ht. vm_compute. reflexivity.
Defined.
