(* ===== verification/BootProperties.v ===== *)
(** * Booting the patched file

    The program in memory: the machine fetches the entrypoint, the payload and
    the resumed instructions from where the loader put the segments of the
    written file. *)

From S2P Require Import Prelude.
From S2P Require Import Text.
From S2P Require Import Errors.
From S2P Require Import EndianInt.
From S2P Require Import ElfTypes.
From S2P Require Import PpcEncode.
From S2P Require Import PpcDecode.
From S2P Require Import PpcSpec.
From S2P Require Import PpcSpecFacts.
From S2P Require Import PpcMoveFacts.
From S2P Require Import Fixtures.
From S2P Require Import ElfFile.
From S2P Require Import ElfFileFacts.
From S2P Require Import Toc.
From S2P Require Import Trampoline.
From S2P Require Import TrampolineFacts.
From S2P Require Import PayloadFacts.
From S2P Require Import BootFacts.
From S2P Require Import TrampolineProperties.
From S2P Require Import Main.
From S2P Require Import MainFacts.
From S2P Require Import MainProperties.

(** ** Loading *)

(** The bytes at an address. *)
Definition loaded_at (m : Z -> byte) (a : Z) (bs : list byte) : Prop :=
  forall i b, bs !! i = Some b -> m (u64 (a + Z.of_nat i)) = b.

(** Every loadable segment is in memory at its address. *)
Definition mapped (g : Ps3ElfFile) (m : Z -> byte) : Prop :=
  Forall (fun ph => p_type ph = PT_LOAD ->
    loaded_at m (p_vaddr ph) (slice (p_offset ph) (p_filesz ph) (raw_ _ _ g))) (segments _ _ g).

Lemma word_at_loaded m a bs off :
  loaded_at m a bs -> 0 <= off -> off + 4 <= size bs ->
  word_at m (u64 (a + off)) = be_load (slice off 4 bs).
Proof.
  intros H Ho Hs. unfold word_at. f_equal. apply list_eq. intros i.
  rewrite list_lookup_fmap, lookup_slice. case_decide as Hi.
  - rewrite lookup_seq_lt by lia. cbn [fmap option_fmap option_map].
    unfold size in Hs. destruct (bs !! (Z.to_nat off + i)%nat) as [b|] eqn:E.
    + f_equal. rewrite <- (H _ b E). f_equal. zarith.
    + apply lookup_ge_None in E. lia.
  - rewrite lookup_seq_ge by lia. reflexivity.
Qed.

Lemma holds_loaded m a bs n off :
  loaded_at m a bs -> 0 <= off -> off + 4 * Z.of_nat n <= size bs ->
  holds m (u64 (a + off)) (words_at n off bs).
Proof.
  intros H Ho Hs k w Hk. unfold words_at in Hk. rewrite list_lookup_fmap in Hk.
  destruct (seq 0 n !! k) as [x|] eqn:E; [|discriminate]. apply lookup_seq in E as [-> Hlt].
  injection Hk as <-. rewrite <- (word_at_loaded m a bs) by (try assumption; lia).
  f_equal. zarith.
Qed.

(** Words of the region in a memory that agrees with the loaded one. *)
Lemma holds_region m m' a bs n off :
  loaded_at m a bs -> agree a (size bs) m' m -> 0 <= a -> a + size bs < 2 ^ 64 ->
  0 <= off -> off + 4 * Z.of_nat n <= size bs -> holds m' (a + off) (words_at n off bs).
Proof.
  intros Hl Hm Ha Hb Ho Hn.
  assert (size (words_at n off bs) = Z.of_nat n) as Hsz
    by (unfold size, words_at; rewrite length_fmap, length_seq; reflexivity).
  eapply (holds_agree a (size bs) m); [|rewrite u64_small; lia|lia|lia|].
  - intros i Hi. symmetry. apply Hm. exact Hi.
  - rewrite <- (u64_small (a + off)) by lia. apply holds_loaded; [exact Hl|lia|lia].
Qed.

(** A loaded range is a range of its file. *)
Lemma loaded_slice m a bs off len o k :
  loaded_at m a (slice off len bs) -> 0 <= off -> 0 <= o -> o + k <= len ->
  loaded_at m (a + o) (slice (off + o) k bs).
Proof.
  intros H Hoff Ho Hk i b Hi. rewrite lookup_slice in Hi. case_decide as Hlt; [|discriminate].
  rewrite <- (H (Z.to_nat o + i)%nat b); [f_equal; f_equal; lia|].
  rewrite lookup_slice, decide_True by lia. rewrite <- Hi. f_equal. lia.
Qed.

(** ** Jumping in *)

Lemma jump_runs lv2 other fromAddr toAddr s :
  - 2 ^ 32 < toAddr - fromAddr < 2 ^ 32 -> 0 <= toAddr < 2 ^ 32 ->
  0 <= pc s < 2 ^ 32 -> holds (mem s) (pc s) (makeMinimalJump fromAddr toAddr) ->
  runs lv2 other (makeMinimalJump fromAddr toAddr) s /\
  mem (exec_words lv2 other (makeMinimalJump fromAddr toAddr) s) = mem s.
Proof.
  intros Hd Ht Hpc Hh.
  destruct (makeMinimalJump_spec fromAddr toAddr Hd) as [(w & _ & He & Hj)|[_ Hj]]; rewrite Hj in *.
  - apply holds_cons in Hh as [Hf _]. rewrite u64_small in Hf by lia.
    split; [split; [exact Hf|exact I]|].
    rewrite exec_words_cons, exec_words_nil, (exec_encodeBranch _ _ _ _ _ He). reflexivity.
  - set (ws := loadImmediate32 12 toAddr ++ [encodeMtctr 12]).
    assert (makeAbsoluteJump toAddr 12 = ws ++ [encodeBctr]) as E
      by (unfold makeAbsoluteJump, ws; rewrite <- app_assoc; reflexivity).
    split; [|rewrite exec_makeAbsoluteJump by (unfold reg; lia); reflexivity].
    rewrite E in *. apply holds_app in Hh as [H1 H2].
    destruct (pure_runs lv2 other ws s) as (R & Hm & Hpc'); [|rewrite u64_small; lia|exact H1|].
    + unfold ws. rewrite forallb_app, forallb_decode.
      destruct (decode_loadImmediate32 12 toAddr) as (hi & lo & El); [unfold reg; lia|exact Ht|].
      rewrite El. vm_compute. reflexivity.
    + apply runs_app; [exact R|]. split; [|exact I]. unfold fetch. rewrite Hm, Hpc'.
      replace (u64 (pc s + 4 * size ws)) with (u64 (u64 (pc s + 4 * size ws) + 4 * Z.of_nat 0)) by zarith.
      apply H2. reflexivity.
Qed.

Lemma jumped_gpr n target s r : r <> 12 -> gpr (jumped n target s) r = gpr s r.
Proof. intros H. unfold jumped. destruct (n =? 1); [reflexivity|]. cbn. apply upd_ne. exact H. Qed.

Lemma jumped_ok n target s : machine_ok s -> 0 <= target < 2 ^ 64 -> machine_ok (jumped n target s).
Proof.
  intros (Hg & Hl & Hc) Ht. unfold jumped. destruct (n =? 1); [split; auto|].
  split; [|split; cbn; auto]. intros r. cbn. unfold upd. destruct (r =? 12); auto.
Qed.

(** ** From the entrypoint to the resumed instructions *)

(** The stack frame the payload pushes is outside the blob. *)
Definition stack_apart (tramp : Z) (t : TrampolineResult) (s : machine) : Prop :=
  apart tramp (size (blob t)) (frame s) 256.

(** The kernel leaves the blob alone. *)
Definition kernel_keeps (lv2 : machine -> machine) (tramp : Z) (t : TrampolineResult) : Prop :=
  forall s, agree tramp (size (blob t)) (mem (lv2 s)) (mem s).

(** The words fetched on the way: the jump, then the payload with the address
    of the path in it. *)
Lemma boot_words file entry tramp path t lv2 other (s : machine) :
  built file entry tramp path t -> kernel_contract lv2 -> kernel_keeps lv2 tramp t ->
  machine_ok s -> stack_apart tramp t s ->
  0 <= tramp -> tramp + size (blob t) < 2 ^ 31 -> 0 <= tocValue entry < 2 ^ 31 ->
  0 <= codeAddress entry < 2 ^ 32 -> pc s = codeAddress entry ->
  loaded_at (mem s) tramp (blob t) -> loaded_at (mem s) (codeAddress entry) (entryPatchBytes t) ->
  let n := displacedInstructionCount t in
  let s1 := jumped n (tramp + 8) s in
  let j := makeMinimalJump (codeAddress entry) (tramp + 8) in
  let len := Z.of_nat (String.length path) + 1 in
  size j = n /\ runs lv2 other j s /\ exec_words lv2 other j s = s1 /\
  pc s1 = tramp + 8 /\ lr s1 = lr s /\ gpr s1 1 = gpr s 1 /\ mem s1 = mem s /\ machine_ok s1 /\
  exists off, 0 <= off /\ off + len <= size (blob t) /\
    slice off len (blob t) = list_byte_of_string path ++ [Byte.x00] /\
    let payload := payload_prefix (tramp + off) (tocValue entry) in
    runs lv2 other payload s1 /\
    agree tramp (size (blob t)) (mem (exec_words lv2 other payload s1)) (mem s).
Proof.
  intros Hb Hk Hkeep Hok Hstack Ht0 Ht Htoc Hc Hpc Hblob Hentry.
  apply built_inv in Hb as (off & rel & Hg & _ & _ & _ & Hl & Hw & ->).
  set (t := result_of entry tramp path rel) in *.
  destruct (result_path entry tramp path rel) as (_ & Hpath & Hsz & _). fold t in Hpath, Hsz.
  destruct (result_words entry tramp path rel Hw) as [Hcode _]. fold t in Hcode.
  pose proof (size_nonneg rel). pose proof (size_nonneg (jump_back entry tramp (size rel))).
  assert (tramp mod 4 = 0) as Ha by (unfold bad_request in Hg; lia).
  set (j := jump_in entry tramp) in *. cbn [displacedInstructionCount t result_of]. fold j. cbv zeta.
  assert (j = makeMinimalJump (codeAddress entry) (tramp + 8)) as Ej.
  { unfold j, jump_in, code_base. rewrite !u32_small by lia. reflexivity. }
  assert (holds (mem s) (pc s) j) as Hhj.
  { pose proof (words_at_image j [] [] (jump_in_words entry tramp)) as Hi.
    cbn [app] in Hi. rewrite app_nil_r in Hi. change (size (@nil byte)) with 0 in Hi.
    rewrite <- Hi, Hpc. replace (codeAddress entry) with (u64 (codeAddress entry + 0))
      by (rewrite u64_small; lia).
    apply holds_loaded; [exact Hentry|lia|].
    change (4 * Z.of_nat (length j)) with (4 * size j). rewrite toBigEndianBytes_length. lia. }
  rewrite Ej in Hhj. destruct (jump_runs lv2 other (codeAddress entry) (tramp + 8) s ltac:(lia) ltac:(lia) ltac:(lia) Hhj) as [R1 Hm1].
  pose proof (exec_makeMinimalJump lv2 other (codeAddress entry) (tramp + 8) s
    ltac:(lia) ltac:(lia) ltac:(zarith) Hpc) as Hx1.
  rewrite <- Ej in *. rewrite Hx1 in Hm1.
  set (s1 := jumped (size j) (tramp + 8) s) in *.
  assert (pc s1 = tramp + 8 /\ lr s1 = lr s /\ gpr s1 1 = gpr s 1) as (Hpc1 & Hlr1 & Hsp1).
  { unfold s1. rewrite jumped_gpr by lia. unfold jumped. destruct (size j =? 1); auto. }
  assert (machine_ok s1) as Hok1 by (apply jumped_ok; [exact Hok|lia]).
  conj; try assumption; try reflexivity.
  set (o := 204 + 4 * (size rel + size (jump_back entry tramp (size rel)))) in *.
  exists o. split; [lia|]. split; [lia|]. split; [exact Hpath|].
  rewrite (u32_small (tocValue entry)) in Hcode by lia.
  rewrite (u32_small (tramp + 204 + _)) in Hcode by lia.
  replace (tramp + 204 + 4 * (size rel + size (jump_back entry tramp (size rel)))) with (tramp + o)
    in Hcode by lia.
  rewrite <- Hm1. apply payload_runs; try assumption; try lia.
  - unfold frame. rewrite Hsp1. exact Hstack.
  - rewrite Hm1, Hpc1, <- Hcode. rewrite <- (u64_small (tramp + 8)) by lia.
    apply holds_loaded; [exact Hblob|lia|]. change (4 * Z.of_nat 49) with 196. lia.
Qed.

Lemma boot_from_memory file entry tramp path t lv2 other (s : machine) :
  built file entry tramp path t -> kernel_contract lv2 -> kernel_keeps lv2 tramp t ->
  machine_ok s -> stack_apart tramp t s ->
  0 <= tramp -> tramp + size (blob t) < 2 ^ 31 -> 0 <= tocValue entry < 2 ^ 31 ->
  0 <= codeAddress entry < 2 ^ 32 -> pc s = codeAddress entry ->
  loaded_at (mem s) tramp (blob t) -> loaded_at (mem s) (codeAddress entry) (entryPatchBytes t) ->
  let n := displacedInstructionCount t in
  let s1 := jumped n (tramp + 8) s in
  let s' := steps lv2 other (Z.to_nat n + 49) s in
  pc s' = tramp + 204 /\ gpr s' 2 = tocValue entry /\ lr s' = lr s /\ ctr s' = ctr s1 /\
  (forall r, 0 <= r <= 31 -> r <> 2 -> gpr s' r = gpr s1 r) /\
  agree tramp (size (blob t)) (mem s') (mem s).
Proof.
  intros Hb Hk Hkeep Hok Hstack Ht0 Ht Htoc Hc Hpc Hblob Hentry n s1 s'.
  destruct (boot_words file entry tramp path t lv2 other s Hb Hk Hkeep Hok Hstack Ht0 Ht Htoc Hc
    Hpc Hblob Hentry) as (Hn & R1 & Hx1 & Hpc1 & Hlr1 & _ & _ & Hok1 & off & Ho & Hfit & _ & R2 & Hm2).
  fold n in Hn. fold n s1 in Hx1, Hpc1, Hlr1, Hok1, R2, Hm2.
  assert (s' = exec_words lv2 other (payload_prefix (tramp + off) (tocValue entry)) s1) as ->.
  { unfold s'. rewrite <- Hn, to_nat_size, steps_add, (steps_runs lv2 other _ s R1), Hx1.
    change 49%nat with (length (payload_prefix (tramp + off) (tocValue entry))).
    apply steps_runs. exact R2. }
  destruct (exec_payload_prefix lv2 other Hk (tramp + off) (tocValue entry) s1 ltac:(lia) ltac:(lia) Hok1)
    as (F1 & F2 & F3 & F4 & F5).
  rewrite F1, F2, F3, F4, Hpc1. unfold loaded. replace (tocValue entry <? 2 ^ 31) with true by lia.
  split; [rewrite u64_small; lia|]. auto.
Qed.

(** ** The displaced instructions and the way back *)

Definition not_relative (w : Z) : Prop := kind (classify w) <> DirectRelative.

Lemma relocated_id w a b : not_relative w -> relocated w a b = Some w.
Proof. unfold relocated, not_relative. intros H. rewrite bool_decide_false by exact H. reflexivity. Qed.

Lemma resumed_same file entry tramp path t :
  built file entry tramp path t -> 0 <= tramp /\ tramp + size (blob t) < 2 ^ 32 ->
  0 <= codeAddress entry /\ codeAddress entry + 20 < 2 ^ 31 -> forall off,
  vaddrToFileOffset _ _ file (codeAddress entry) = Ok off ->
  let n := Z.to_nat (displacedInstructionCount t) in
  Forall not_relative (words_at n off (raw_ _ _ file)) ->
  words_at n 204 (blob t) = words_at n off (raw_ _ _ file).
Proof.
  intros Hb Ht Hc off Hv n Hd.
  destruct (resumed_parts _ _ _ _ _ Hb Ht Hc) as (o & Hv' & _ & Hr & _).
  rewrite Hv in Hv'. injection Hv' as <-. fold n in Hr. apply list_eq. intros i.
  destruct (words_at n off (raw_ _ _ file) !! i) as [w|] eqn:E.
  - rewrite (Hr i w E). apply relocated_id. rewrite Forall_lookup in Hd. exact (Hd i w E).
  - apply lookup_ge_None in E. apply lookup_ge_None. unfold words_at in *.
    rewrite length_fmap, length_seq in *. exact E.
Qed.

(** The number of words of the jump back. *)
Definition back_size (entry : EntryDescriptor) (tramp n : Z) : Z :=
  size (makeMinimalJump (tramp + 204 + 4 * n) (codeAddress entry + 4 * n)).

(** The words after the resumed ones lead back to the original program. *)
Lemma back_from_memory file entry tramp path t lv2 other m (s : machine) :
  built file entry tramp path t -> 0 <= tramp -> tramp + size (blob t) < 2 ^ 31 ->
  0 <= codeAddress entry /\ codeAddress entry + 20 < 2 ^ 31 ->
  loaded_at m tramp (blob t) -> agree tramp (size (blob t)) (mem s) m ->
  let n := displacedInstructionCount t in
  pc s = tramp + 204 + 4 * n ->
  let back := back_size entry tramp n in
  (back = 1 \/ back = 5) /\
  steps lv2 other (Z.to_nat back) s = jumped back (codeAddress entry + 4 * n) s.
Proof.
  intros Hb Ht0 Ht Hc Hl Hm n Hpc.
  destruct (resumed_parts _ _ _ _ _ Hb ltac:(lia) Hc) as (o & _ & _ & _ & Hback & Hsz & Ha).
  pose proof (built_jump_size _ _ _ _ _ Hb) as Hn15. fold n in Hback, Hsz, Ha, Hn15.
  set (back := makeMinimalJump (tramp + 204 + 4 * n) (codeAddress entry + 4 * n)) in *.
  pose proof (size_nonneg back).
  assert (0 <= codeAddress entry + 4 * n < 2 ^ 31) as Hto by (destruct Hn15; lia).
  unfold back_size. fold back. cbv zeta. split.
  { unfold size, back. destruct (makeMinimalJump_length (tramp + 204 + 4 * n)
      (codeAddress entry + 4 * n)) as [->| ->]; [lia|lia..]. }
  destruct (jump_runs lv2 other (tramp + 204 + 4 * n) (codeAddress entry + 4 * n) s) as [R _];
    [lia|lia|lia| |].
  - fold back. rewrite Hpc, <- Hback, <- Z.add_assoc.
    apply (holds_region m); try assumption; unfold size in *; lia.
  - rewrite to_nat_size, (steps_runs lv2 other back s R).
    apply exec_makeMinimalJump; [lia|lia|exact Ha|exact Hpc].
Qed.

Lemma resume_from_memory file entry tramp path t lv2 other off (s s1 : machine) :
  built file entry tramp path t -> vaddrToFileOffset _ _ file (codeAddress entry) = Ok off ->
  0 <= tramp -> tramp + size (blob t) < 2 ^ 31 ->
  0 <= codeAddress entry /\ codeAddress entry + 20 < 2 ^ 31 ->
  loaded_at (mem s) tramp (blob t) -> agree tramp (size (blob t)) (mem s1) (mem s) ->
  pc s1 = tramp + 204 ->
  let n := displacedInstructionCount t in
  let displaced := words_at (Z.to_nat n) off (raw_ _ _ file) in
  Forall not_relative displaced -> straight lv2 other tramp (size (blob t)) displaced s1 ->
  exists back, (back = 1 \/ back = 5) /\
    steps lv2 other (Z.to_nat (n + back)) s1 =
    jumped back (codeAddress entry + 4 * n) (exec_words lv2 other displaced s1).
Proof.
  intros Hb Hv Ht0 Ht Hc Hl Hm Hpc n displaced Hd Hs.
  pose proof (resumed_same _ _ _ _ _ Hb ltac:(lia) Hc off Hv Hd) as Hsame.
  destruct (resumed_parts _ _ _ _ _ Hb ltac:(lia) Hc) as (_ & _ & _ & _ & _ & Hsz & _).
  pose proof (built_jump_size _ _ _ _ _ Hb) as Hn15. fold n in Hsz, Hsame, Hn15.
  fold displaced in Hsame.
  pose proof (size_nonneg (makeMinimalJump (tramp + 204 + 4 * n) (codeAddress entry + 4 * n))).
  assert (size displaced = n) as Hn
    by (unfold displaced, size, words_at; rewrite length_fmap, length_seq; lia).
  destruct (straight_runs lv2 other tramp (size (blob t)) displaced s1 Hs) as (R1 & Hpc1 & Hm1);
    [lia|lia|lia|lia|rewrite Hpc, <- Hsame; apply (holds_region (mem s)); try assumption; lia|].
  set (s2 := exec_words lv2 other displaced s1) in *. rewrite Hpc, Hn in Hpc1.
  destruct (back_from_memory file entry tramp path t lv2 other (mem s) s2 Hb Ht0 Ht Hc Hl)
    as (Hb15 & Hx); [eapply agree_trans; eassumption|exact Hpc1|].
  fold n in Hb15, Hx. set (back := back_size entry tramp n) in *. exists back. split; [exact Hb15|].
  replace (Z.to_nat (n + back)) with (length displaced + Z.to_nat back)%nat by (unfold size in Hn; lia).
  rewrite steps_add, (steps_runs lv2 other displaced s1 R1). exact Hx.
Qed.

(** ** Loading the written file *)

(** Every segment that holds the entrypoint holds the overwritten words, in
    the file too. *)
Definition window_mapped (file : Ps3ElfFile) (entry : EntryDescriptor) (t : TrampolineResult) : Prop :=
  Forall (fun ph => covers (codeAddress entry) ph = true ->
    codeAddress entry + size (entryPatchBytes t) <= p_vaddr ph + p_filesz ph /\
    p_offset ph + p_filesz ph <= size (raw_ _ _ file)) (segments _ _ file).

(** The state of the machine at the entrypoint: the loader has mapped the
    segments of [g]; the kernel keeps its contract and stays out of the blob,
    and so does the payload's stack frame. *)
Record at_entry (g : Ps3ElfFile) (tramp : Z) (entry : EntryDescriptor) (t : TrampolineResult)
    (lv2 : machine -> machine) (s : machine) : Prop := {
  ae_image : mapped g (mem s);
  ae_pc : pc s = codeAddress entry;
  ae_registers : machine_ok s;
  ae_stack : stack_apart tramp t s;
  ae_kernel : kernel_contract lv2;
  ae_keeps : kernel_keeps lv2 tramp t
}.

Lemma patched_loaded bytes path file entry t off g m :
  patch_of bytes path file entry t off -> size bytes < 2 ^ 61 -> patchable file ->
  parse true Big (output file t off) = Ok g -> mapped g m ->
  window_mapped file entry t -> 64 <= off -> off_sections file off (size (entryPatchBytes t)) ->
  loaded_at m (tramp_addr file) (blob t) /\ loaded_at m (codeAddress entry) (entryPatchBytes t).
Proof.
  intros Hp Hs Hx Hg Hi Hwin H64 Hdis.
  destruct (patch_of_parts _ _ _ _ _ _ Hp Hs) as (Hok & Hraw & Hc & Ht).
  destruct Hx as [Hn Hsh]. destruct Hp as [_ _ Hb Hoff]. rewrite <- Hraw in *. clear Hraw.
  unfold output in Hg.
  erewrite patched_parses in Hg by eassumption. injection Hg as <-.
  unfold mapped in Hi. erewrite reread_segments in Hi by eassumption.
  apply Forall_app in Hi as [Hold Hnew]. split.
  - inversion_clear Hnew as [|? ? Hl _]. specialize (Hl eq_refl).
    unfold new_ph in Hl. cbn [p_vaddr p_offset p_filesz] in Hl.
    erewrite reread_blob in Hl by eassumption. exact Hl.
  - pose proof Hoff as Hv. unfold vaddrToFileOffset in Hv. rewrite find_segment_find in Hv.
    destruct (List.find _ _) as [ph|] eqn:E; [|discriminate]. apply find_some in E as [Hin Hcov].
    apply list_elem_of_In in Hin.
    pose proof (segments_range file Hok) as Hrange. unfold window_mapped in Hwin.
    rewrite Forall_forall in Hold, Hwin, Hrange.
    destruct (Hwin ph Hin Hcov) as [Hend Hfile]. destruct (Hrange ph Hin).
    unfold covers in Hcov. cbn [sizeof] in *.
    assert (off = p_offset ph + (codeAddress entry - p_vaddr ph)) as Eo.
    { pose proof (size_nonneg (entryPatchBytes t)).
      case_match; [discriminate|]. injection Hv as <-. apply u64_small. lia. }
    pose proof (Hold ph Hin ltac:(lia)) as Hl.
    apply (loaded_slice m _ _ _ _ (codeAddress entry - p_vaddr ph) (size (entryPatchBytes t)))
      in Hl; [|lia..].
    rewrite <- Eo in Hl. erewrite reread_entry_bytes in Hl by eassumption.
    replace (p_vaddr ph + (codeAddress entry - p_vaddr ph)) with (codeAddress entry) in Hl by lia.
    exact Hl.
Qed.

(** ** The patched program boots *)

(** A boot: an input is patched, the written file read back as [g] and loaded,
    and the machine is at the entrypoint.  The window of overwritten
    instructions is mapped and outside the header and the section table; the
    three addresses are below [2^31], which [loadImmediate32] asks for. *)
Record boot (bytes : list byte) (path : string) (file : Ps3ElfFile) (entry : EntryDescriptor)
    (t : TrampolineResult) (off : Z) (g : Ps3ElfFile) (lv2 : machine -> machine) (s : machine)
    : Prop := {
  bt_patch : patch_of bytes path file entry t off;
  bt_size : size bytes < 2 ^ 61;
  bt_patchable : patchable file;
  bt_reread : parse true Big (output file t off) = Ok g;
  bt_window : window_mapped file entry t;
  bt_header : 64 <= off;
  bt_sections : off_sections file off (size (entryPatchBytes t));
  bt_blob_low : tramp_addr file + size (blob t) < 2 ^ 31;
  bt_toc_low : tocValue entry < 2 ^ 31;
  bt_code_low : codeAddress entry + 20 < 2 ^ 31;
  bt_at : at_entry g (tramp_addr file) entry t lv2 s
}.

Lemma boot_loaded bytes path file entry t off g lv2 (s : machine) :
  boot bytes path file entry t off g lv2 s ->
  let tramp := tramp_addr file in
  raw_ _ _ file = bytes /\ 0 <= tramp /\ 0 <= codeAddress entry < 2 ^ 32 /\ 0 <= tocValue entry /\
  loaded_at (mem s) tramp (blob t) /\ loaded_at (mem s) (codeAddress entry) (entryPatchBytes t).
Proof.
  intros [Hp Hs Hx Hg Hwin H64 Hdis Ht Htoc Hc [Hi Hpc Hok Hstack Hk Hkeep]].
  destruct (patch_of_parts _ _ _ _ _ _ Hp Hs) as (_ & Hraw & Hc0 & Ht0).
  destruct (patched_loaded _ _ _ _ _ _ _ _ Hp Hs Hx Hg Hi Hwin H64 Hdis) as [Hblob Hentry].
  destruct (resolved_range file entry ltac:(rewrite Hraw; lia) (po_entry _ _ _ _ _ _ Hp))
    as (_ & Htoc0 & _).
  cbv zeta. conj; try assumption; lia.
Qed.

Lemma boot_reaches bytes path file entry t off g lv2 other (s : machine) :
  boot bytes path file entry t off g lv2 s ->
  let tramp := tramp_addr file in
  let n := displacedInstructionCount t in
  let s0 := jumped n (tramp + 8) s in
  let s1 := steps lv2 other (Z.to_nat n + 49) s in
  (pc s1 = tramp + 204 /\ gpr s1 2 = tocValue entry /\ lr s1 = lr s /\ ctr s1 = ctr s0 /\
   forall r, 0 <= r <= 31 -> r <> 2 -> gpr s1 r = gpr s0 r) /\
  raw_ _ _ file = bytes /\ 0 <= tramp /\ 0 <= codeAddress entry /\
  loaded_at (mem s) tramp (blob t) /\ agree tramp (size (blob t)) (mem s1) (mem s).
Proof.
  intros Hboot. destruct (boot_loaded _ _ _ _ _ _ _ _ _ Hboot) as (Hraw & Ht0 & Hc0 & Htoc0 & Hblob & Hentry).
  destruct Hboot as [[_ _ Hb Hoff] _ _ _ _ _ _ Ht Htoc Hc [_ Hpc Hok Hstack Hk Hkeep]].
  intros tramp n s0 s1.
  destruct (boot_from_memory file entry tramp path t lv2 other s Hb Hk Hkeep Hok Hstack)
    as (F1 & F2 & F3 & F4 & F5 & Hm); [lia|exact Ht|lia|exact Hc0|exact Hpc|exact Hblob|exact Hentry|].
  fold n s0 s1 in F1, F2, F3, F4, F5, Hm. conj; auto; lia.
Qed.

(** Booting the written file.  From the entrypoint, with the written
    file's segments in memory, the machine runs the jump and the payload (49
    words) as fetched from memory and is at the resumed instructions with the
    TOC value of the entry descriptor in r2, the link register as it was, and
    the count register and every other general register as the jump left them;
    if none of the displaced instructions is a relative branch, and each falls
    through and leaves the blob alone, it then executes them and continues at
    the instruction that followed them in the original program. *)
Theorem patched_file_boots bytes path file entry t off g lv2 other (s : machine)
    (Hboot : boot bytes path file entry t off g lv2 s) :
  let tramp := tramp_addr file in
  let n := displacedInstructionCount t in
  let displaced := words_at (Z.to_nat n) off bytes in
  let s0 := jumped n (tramp + 8) s in
  let s1 := steps lv2 other (Z.to_nat n + 49) s in
  pc s1 = tramp + 204 /\ gpr s1 2 = tocValue entry /\ lr s1 = lr s /\ ctr s1 = ctr s0 /\
  (forall r, 0 <= r <= 31 -> r <> 2 -> gpr s1 r = gpr s0 r) /\
  (Forall not_relative displaced -> straight lv2 other tramp (size (blob t)) displaced s1 ->
   exists back, (back = 1 \/ back = 5) /\
     steps lv2 other (Z.to_nat (n + back)) s1 =
     jumped back (codeAddress entry + 4 * n) (exec_words lv2 other displaced s1)).
Proof.
  destruct (boot_reaches _ _ _ _ _ _ _ _ other _ Hboot) as (F & Hraw & Ht0 & Hc0 & Hblob & Hm).
  destruct Hboot as [[_ _ Hb Hoff] _ _ _ _ _ _ Ht _ Hc _]. intros tramp n displaced s0 s1.
  destruct F as (F1 & F2 & F3 & F4 & F5). conj; try assumption.
  unfold displaced. rewrite <- Hraw. intros Hd Hst.
  apply (resume_from_memory file entry tramp path t lv2 other off s s1 Hb Hoff);
    try assumption; lia.
Qed.

(** ** A boot of the patched test file *)

Definition place (m : Z -> byte) (a : Z) (bs : list byte) : Z -> byte :=
  fun x => if (a <=? x) && (x <? a + size bs) then nth (Z.to_nat (x - a)) bs Byte.x00 else m x.

(** A loader. *)
Definition load_image (g : Ps3ElfFile) : Z -> byte :=
  fold_left (fun m ph => if p_type ph =? PT_LOAD
    then place m (p_vaddr ph) (slice (p_offset ph) (p_filesz ph) (raw_ _ _ g)) else m)
    (segments _ _ g) (fun _ => Byte.x00).

Definition loaded_b (m : Z -> byte) (a : Z) (bs : list byte) : bool :=
  forallb (fun i => Byte.eqb (m (u64 (a + Z.of_nat i))) (nth i bs Byte.x00)) (seq 0 (length bs)).

Lemma loaded_b_ok m a bs : loaded_b m a bs = true -> loaded_at m a bs.
Proof.
  unfold loaded_b. rewrite forallb_forall. intros H i b Hi.
  specialize (H i). rewrite in_seq in H. apply lookup_lt_Some in Hi as Hlt.
  specialize (H ltac:(lia)). apply Byte.byte_dec_bl in H. rewrite H.
  apply nth_lookup_Some. exact Hi.
Qed.

Definition image_b (g : Ps3ElfFile) (m : Z -> byte) : bool :=
  forallb (fun ph => negb (p_type ph =? PT_LOAD) ||
    loaded_b m (p_vaddr ph) (slice (p_offset ph) (p_filesz ph) (raw_ _ _ g))) (segments _ _ g).

Lemma image_b_ok g m : image_b g m = true -> mapped g m.
Proof.
  unfold image_b, mapped. rewrite forallb_forall, Forall_forall. intros H ph Hin Ht.
  apply list_elem_of_In in Hin. specialize (H ph Hin). rewrite Ht in H.
  apply loaded_b_ok. exact H.
Qed.

(** Registers numbered, the stack pointer at 0x1000. *)
Definition at_start (code : Z) (m : Z -> byte) : machine :=
  mkMachine (upd (fun r => u64 r) 1 0x1000) 0x1234 0x5678 0 code m.

Lemma at_start_entry g tramp entry t m :
  image_b g m = true -> 0x1000 <= tramp -> tramp + size (blob t) < 2 ^ 64 ->
  at_entry g tramp entry t lv2_42 (at_start (codeAddress entry) m).
Proof.
  intros Hi Ht Hs. constructor.
  - apply image_b_ok. exact Hi.
  - reflexivity.
  - split; [|cbn; lia]. intros r. cbn. unfold upd. zcase; [lia|apply u64_range].
  - unfold stack_apart, apart. change (frame _) with 0xf00. intros i j Hi' Hj.
    rewrite !u64_small by lia. lia.
  - exact lv2_42_contract.
  - intros s. apply agree_refl.
Qed.

(** The written file, read back. *)
Lemma output_parses bytes path file entry t off :
  patch_of bytes path file entry t off -> patchable file -> size bytes < 2 ^ 61 ->
  parse true Big (output file t off) = Ok (reread file (tramp_addr file) t off).
Proof.
  intros Hp [Hn Hsh] Hs. destruct (patch_of_parts _ _ _ _ _ _ Hp Hs) as (Hok & Hraw & Hc & _).
  destruct Hp as [_ _ Hb Ho]. rewrite <- Hraw in Hs. unfold output. eapply patched_parses; eassumption.
Qed.

Definition ps3_reread : Ps3ElfFile := reread ps3_file (tramp_addr ps3_file) (ps3_t ps3_near) 0xb8.

Definition ps3_boot : machine := at_start 0x10008 (load_image ps3_reread).

Lemma ps3_window : window_mapped ps3_file ps3_entry (ps3_t ps3_near).
Proof.
  unfold window_mapped.
  assert (segments _ _ ps3_file = [mkPhdrFields 1 5 176 65536 65536 32 32 16;
    mkPhdrFields 1 6 208 131072 131072 24 24 16]) as -> by (vm_compute; reflexivity).
  repeat constructor; vm_compute; discriminate.
Qed.

(** The displaced no-operation of the test file and the jump back. *)
Lemma nop_and_back lv2 other back target s :
  let s' := jumped back target (exec_words lv2 other [0x60000000] s) in
  pc s' = target /\ lr s' = lr s /\ forall r, r <> 0 -> r <> 12 -> gpr s' r = gpr s r.
Proof.
  change (exec_words lv2 other [0x60000000] s) with (next (set_gpr 0 (Z.lor (gpr s 0) 0) s)).
  cbv zeta. split; [|split].
  - unfold jumped. destruct (back =? 1); reflexivity.
  - unfold jumped. destruct (back =? 1); reflexivity.
  - intros r H0 H12. rewrite jumped_gpr by exact H12. cbn. apply upd_ne. exact H0.
Qed.

Lemma ps3_boots :
  boot ps3_exe ps3_path ps3_file ps3_entry (ps3_t ps3_near) 0xb8 ps3_reread lv2_42 ps3_boot.
Proof.
  constructor.
  - exact ps3_patch_of.
  - vm_compute. reflexivity.
  - exact ps3_patchable.
  - apply (output_parses _ _ _ _ _ _ ps3_patch_of ps3_patchable). vm_compute. reflexivity.
  - exact ps3_window.
  - lia.
  - left. vm_compute. discriminate.
  - vm_compute. reflexivity.
  - cbn. lia.
  - cbn. lia.
  - apply at_start_entry; vm_compute; congruence.
Qed.

Lemma patched_file_boots_witness :
  exists k, let s' := steps lv2_42 (fun _ s => s) k ps3_boot in
  pc s' = 0x1000c /\ lr s' = 0x1234 /\ gpr s' 1 = 0x1000 /\ gpr s' 2 = 0x30000 /\ gpr s' 11 = 11.
Proof.
  assert (displacedInstructionCount (ps3_t ps3_near) = 1) as H1 by (vm_compute; reflexivity).
  assert (words_at (Z.to_nat 1) 0xb8 ps3_exe = [0x60000000]) as Hd by (vm_compute; reflexivity).
  destruct (patched_file_boots _ _ _ _ _ _ _ _ (fun _ s => s) _ ps3_boots)
    as (F1 & F2 & F3 & F4 & F5 & F6).
  rewrite H1 in *. rewrite Hd in F6. destruct F6 as (back & _ & F6).
  - repeat constructor. vm_compute. discriminate.
  - apply pure_straight. reflexivity.
  - exists (Z.to_nat 1 + 49 + Z.to_nat (1 + back))%nat. rewrite steps_add, F6. cbv zeta.
    set (s1 := steps _ _ _ ps3_boot) in *. clearbody s1.
    destruct (nop_and_back lv2_42 (fun _ s => s) back (codeAddress ps3_entry + 4 * 1)
      s1) as (-> & -> & Hr).
    rewrite F3, (Hr 1), (Hr 2), (Hr 11), F2, (F5 1), (F5 11), !jumped_gpr by lia.
    split; [reflexivity|]. split; [reflexivity|]. split; [reflexivity|]. split; reflexivity.
Defined.
