(* ===== verification/BootCalls.v ===== *)
(** * What the booted program asks of the kernel

    The states in which the machine fetches a system call, in order; during the
    boot of the written file these are the two of the payload.  The last theorem
    goes from the command line to those calls. *)

From S2P Require Import Prelude.
From S2P Require Import Text.
From S2P Require Import Errors.
From S2P Require Import EndianInt.
From S2P Require Import ElfTypes.
From S2P Require Import PpcEncode.
From S2P Require Import PpcSpec.
From S2P Require Import PpcSpecFacts.
From S2P Require Import Fixtures.
From S2P Require Import ElfFile.
From S2P Require Import ElfFileFacts.
From S2P Require Import Toc.
From S2P Require Import Syscalls.
From S2P Require Import Trampoline.
From S2P Require Import TrampolineFacts.
From S2P Require Import PayloadFacts.
From S2P Require Import BootFacts.
From S2P Require Import TrampolineProperties.
From S2P Require Import Main.
From S2P Require Import MainFacts.
From S2P Require Import MainProperties.
From S2P Require Import BootProperties.

(** ** The calls of an execution *)

Definition is_call (i : insn) : bool := match i with Sc => true | _ => false end.

Section calls.
Variable lv2 : machine -> machine.
Variable other : Z -> machine -> machine.

(** The states, among the first [n], whose next instruction is a system call. *)
Fixpoint calls (n : nat) (s : machine) : list machine :=
  match n with
  | O => []
  | S n' => (if is_call (decode (fetch s)) then [s] else []) ++ calls n' (step lv2 other s)
  end.

(** The same for words executed one after the other. *)
Fixpoint calls_in (ws : list Z) (s : machine) : list machine :=
  match ws with
  | [] => []
  | w :: ws' =>
      (if is_call (decode w) then [s] else []) ++ calls_in ws' (exec lv2 other (decode w) s)
  end.

Lemma calls_add n k s : calls (n + k) s = calls n s ++ calls k (steps lv2 other n s).
Proof.
  revert s. induction n as [|n IH]; intros s; [reflexivity|].
  cbn [Nat.add calls steps]. rewrite IH, app_assoc. reflexivity.
Qed.

Lemma calls_runs ws s : runs lv2 other ws s -> calls (length ws) s = calls_in ws s.
Proof.
  revert s. induction ws as [|w ws IH]; intros s; [reflexivity|]. intros [Hf Hr].
  cbn [length calls calls_in]. unfold step. rewrite Hf, IH by exact Hr. reflexivity.
Qed.

Lemma calls_in_app ws ws' s :
  calls_in (ws ++ ws') s = calls_in ws s ++ calls_in ws' (exec_words lv2 other ws s).
Proof.
  revert s. induction ws as [|w ws IH]; intros s; [reflexivity|].
  cbn [app calls_in]. rewrite IH, app_assoc. reflexivity.
Qed.

Lemma calls_in_none ws s : forallb (fun w => negb (is_call (decode w))) ws = true -> calls_in ws s = [].
Proof.
  revert s. induction ws as [|w ws IH]; intros s H; [reflexivity|].
  cbn [forallb] in H. apply andb_prop in H as [Hw H]. cbn [calls_in].
  destruct (is_call (decode w)); [discriminate|]. apply IH. exact H.
Qed.

Lemma calls_in_call ws s :
  forallb (fun w => negb (is_call (decode w))) ws = true ->
  calls_in (ws ++ [encodeSc]) s = [exec_words lv2 other ws s].
Proof. intros H. rewrite calls_in_app, calls_in_none by exact H. reflexivity. Qed.
End calls.

(** ** The calls of the payload *)

Definition no_call (w : Z) : bool := negb (is_call (decode w)).

Lemma no_call_load r v :
  reg r -> 0 <= v < 2 ^ 32 -> forallb no_call (loadImmediate32 r v) = true.
Proof.
  intros Hr Hv. unfold no_call. rewrite (forallb_decode (fun i => negb (is_call i))).
  destruct (decode_loadImmediate32 r v Hr Hv) as (hi & lo & ->). reflexivity.
Qed.

Lemma no_call_jump fromAddr toAddr :
  - 2 ^ 32 < toAddr - fromAddr < 2 ^ 32 -> 0 <= toAddr < 2 ^ 32 ->
  forallb no_call (makeMinimalJump fromAddr toAddr) = true.
Proof.
  intros Hd Ht. destruct (makeMinimalJump_spec fromAddr toAddr Hd) as [(w & _ & He & ->)|[_ ->]].
  - cbn [forallb]. unfold no_call. rewrite (decode_encodeBranch _ _ _ _ He). reflexivity.
  - unfold makeAbsoluteJump. rewrite forallb_app, no_call_load by (unfold reg; lia).
    vm_compute. reflexivity.
Qed.

Lemma loaded_agree m m' a bs base n :
  loaded_at m a bs -> agree base n m' m -> base <= a -> a + size bs <= base + n -> loaded_at m' a bs.
Proof.
  intros H Hm Hlo Hhi i b Hi. rewrite <- (H i b Hi). apply lookup_lt_Some in Hi as Hlt.
  unfold size in Hhi. replace (a + Z.of_nat i) with (base + (a - base + Z.of_nat i)) by lia.
  apply Hm. lia.
Qed.

(** [sys_prx_load_module] with a path at [a], no flags and no options. *)
Record load_module_call (a : Z) (path : string) (c : machine) : Prop := {
  lm_number : gpr c 11 = 480;
  lm_path : gpr c 3 = a;
  lm_flags : gpr c 4 = 0;
  lm_options : gpr c 5 = 0;
  lm_string : loaded_at (mem c) a (list_byte_of_string path ++ [Byte.x00])
}.

(** [sys_prx_start_module] of a module, every other argument zero. *)
Record start_module_call (id : Z) (c : machine) : Prop := {
  sm_number : gpr c 11 = 481;
  sm_module : gpr c 3 = id;
  sm_arguments : forall r, 4 <= r <= 8 -> gpr c r = 0
}.

Section payload_calls.
Variable lv2 : machine -> machine.
Variable other : Z -> machine -> machine.
Abbreviation run := (exec_words lv2 other).

(** The words before the first call, between the two and after the second. *)
Lemma payload_split p toc :
  payload_prefix p toc =
  ((prologue ++ load_arguments p) ++ [encodeSc]) ++ (start_arguments ++ [encodeSc]) ++
  epilogue ++ loadImmediate32 2 toc.
Proof.
  unfold payload_prefix, makeLoadAndStartModule. rewrite load_call_split, start_call_split, <- !app_assoc.
  reflexivity.
Qed.

Lemma payload_calls p toc s :
  0 <= p < 2 ^ 32 -> 0 <= toc < 2 ^ 32 ->
  let c1 := run (load_arguments p) (run prologue s) in
  let c2 := run start_arguments (lv2 (next c1)) in
  calls_in lv2 other (payload_prefix p toc) s = [c1; c2].
Proof.
  intros Hp Ht. cbv zeta. rewrite payload_split.
  rewrite (calls_in_app _ _ ((_ ++ _) ++ [encodeSc])), (calls_in_app _ _ (start_arguments ++ _)).
  rewrite !calls_in_call.
  - rewrite !exec_call, (exec_words_app _ _ prologue), calls_in_none; [reflexivity|].
    change (forallb no_call (epilogue ++ loadImmediate32 2 toc) = true).
    rewrite forallb_app, no_call_load by (unfold reg; lia). vm_compute. reflexivity.
  - vm_compute. reflexivity.
  - change (forallb no_call (prologue ++ load_arguments p) = true).
    unfold load_arguments. rewrite !forallb_app, no_call_load by (unfold reg, REG_ARG0; lia).
    vm_compute. reflexivity.
Qed.

Lemma save_agree base len n m sp v :
  apart base len sp 256 -> (n <= 16)%nat -> agree base len (save n m sp v) m.
Proof.
  intros Ha Hn. induction n as [|n IH]; [apply agree_refl|]. cbn [save].
  eapply agree_trans; [|apply IH; lia]. apply (write64_agree other); [exact Ha|]. unfold slot. lia.
Qed.

Lemma prologue_agree base len s :
  apart base len (frame s) 256 -> agree base len (mem (run prologue s)) (mem s).
Proof.
  intros Ha. rewrite exec_prologue. cbn [mem]. eapply agree_trans; [apply save_agree; [exact Ha|lia]|].
  replace (frame s) with (u64 (frame s + 0)) at 1 by (unfold frame; zarith).
  apply (write64_agree other); [exact Ha|lia].
Qed.

Lemma load_arguments_call p path s :
  0 <= p < 2 ^ 31 -> loaded_at (mem s) p (list_byte_of_string path ++ [Byte.x00]) ->
  load_module_call p path (run (load_arguments p) s).
Proof.
  intros Hp Hl. rewrite exec_load_arguments by lia. unfold loaded.
  replace (p <? 2 ^ 31) with true by lia. constructor; try reflexivity. exact Hl.
Qed.

Lemma start_arguments_call s : start_module_call (gpr s 3) (run start_arguments s).
Proof.
  rewrite exec_start_arguments. constructor; try reflexivity.
  intros r Hr. cbn. unfold upd. zcase; try reflexivity; lia.
Qed.

(** The two calls, for a path in a region the frame is apart from. *)
Lemma payload_calls_spec base len p toc path s :
  0 <= p < 2 ^ 31 -> 0 <= toc < 2 ^ 32 -> apart base len (frame s) 256 ->
  loaded_at (mem s) p (list_byte_of_string path ++ [Byte.x00]) ->
  base <= p -> p + size (list_byte_of_string path ++ [Byte.x00]) <= base + len ->
  exists c1 c2, calls_in lv2 other (payload_prefix p toc) s = [c1; c2] /\
    load_module_call p path c1 /\ start_module_call (gpr (lv2 (next c1)) 3) c2.
Proof.
  intros Hp Ht Ha Hl Hlo Hhi. pose proof (payload_calls p toc s ltac:(lia) Ht) as Hc. cbv zeta in Hc.
  eexists _, _. split; [exact Hc|]. split; [|apply start_arguments_call].
  apply load_arguments_call; [exact Hp|].
  eapply loaded_agree; [exact Hl|apply prologue_agree; exact Ha|exact Hlo|exact Hhi].
Qed.
End payload_calls.

(** ** The calls of a boot *)

Lemma boot_makes_calls bytes path file entry t off g lv2 other (s : machine) :
  boot bytes path file entry t off g lv2 s ->
  exists a c1 c2,
    calls lv2 other (Z.to_nat (displacedInstructionCount t) + 49) s = [c1; c2] /\
    load_module_call a path c1 /\ start_module_call (gpr (lv2 (next c1)) 3) c2.
Proof.
  intros Hboot.
  destruct (boot_loaded _ _ _ _ _ _ _ _ _ Hboot) as (_ & Ht0 & Hc0 & Htoc0 & Hblob & Hentry).
  destruct Hboot as [[_ _ Hb _] _ _ _ _ _ _ Ht Htoc _ [_ Hpc Hok Hstack Hk Hkeep]].
  set (tramp := tramp_addr file) in *.
  destruct (boot_words file entry tramp path t lv2 other s Hb Hk Hkeep Hok Hstack Ht0 Ht
    (conj Htoc0 Htoc) Hc0 Hpc Hblob Hentry)
    as (Hn & R1 & Hx1 & Hpc1 & _ & Hsp1 & Hm1 & _ & o & Ho & Hfit & Hpath & R2 & _).
  set (n := displacedInstructionCount t) in *. set (s1 := jumped n (tramp + 8) s) in *.
  set (j := makeMinimalJump (codeAddress entry) (tramp + 8)) in *.
  pose proof (size_nonneg (blob t)).
  assert (size (list_byte_of_string path ++ [Byte.x00]) = Z.of_nat (String.length path) + 1) as Hsz
    by (rewrite <- Hpath; apply size_slice; lia).
  destruct (payload_calls_spec lv2 other tramp (size (blob t)) (tramp + o) (tocValue entry) path s1)
    as (c1 & c2 & Hcalls & H1 & H2); try lia.
  - unfold frame. rewrite Hsp1. exact Hstack.
  - rewrite Hm1, <- Hpath. apply (loaded_slice _ _ _ 0 (size (blob t))); try lia.
    rewrite slice_all. exact Hblob.
  - exists (tramp + o), c1, c2. split; [|split; assumption].
    rewrite <- Hn, to_nat_size, calls_add, (calls_runs lv2 other j s R1), (steps_runs lv2 other j s R1), Hx1.
    rewrite calls_in_none.
    + change 49%nat with (length (payload_prefix (tramp + o) (tocValue entry))).
      rewrite calls_runs by exact R2. exact Hcalls.
    + apply no_call_jump; lia.
Qed.

(** ** From the command line to the kernel *)

Section command.
Context {fs : Type} `{FileSystem fs}.

(** C1: what a successful patch command is for.  If it exits with 0, the
    output file is there and parses, and when that file is loaded and started,
    the machine makes two system calls before it resumes the program: it loads
    the module whose path, zero-terminated, is the third argument of the command,
    and starts the module the kernel returned; at the first resumed instruction
    the registers are those the jump left, but for the TOC value in r2.  Loading
    and starting are the conditions of [boot]: the segments in memory at their
    addresses, blob, code and TOC value below [2^31], a stack frame outside the
    blob and a kernel that keeps its contract and leaves the blob alone. *)
Theorem command_loads_module (w : fs) argv0 inputPath outputPath path (o : outcome fs)
    (Hback : reads_back (fs := fs))
    (Hrun : main w [argv0; inputPath; outputPath; path] = Ret o) (Hexit : exit_code o = 0)
    (Hsmall : forall bytes, open_read w inputPath = Some bytes -> size bytes < 2 ^ 61)
    (Hx : forall bytes file, open_read w inputPath = Some bytes ->
            parse true Big bytes = Ok file -> patchable file) :
  exists bytes file entry t off g,
    open_read w inputPath = Some bytes /\
    patch_of bytes path file entry t off /\
    open_read (files o) outputPath = Some (output file t off) /\
    parse true Big (output file t off) = Ok g /\
    forall lv2 other (s : machine), boot bytes path file entry t off g lv2 s ->
      let n := displacedInstructionCount t in
      let s0 := jumped n (tramp_addr file + 8) s in
      let s1 := steps lv2 other (Z.to_nat n + 49) s in
      (exists a c1 c2, calls lv2 other (Z.to_nat n + 49) s = [c1; c2] /\
         load_module_call a path c1 /\ start_module_call (gpr (lv2 (next c1)) 3) c2) /\
      pc s1 = tramp_addr file + 204 /\ gpr s1 2 = tocValue entry /\
      lr s1 = lr s /\ ctr s1 = ctr s0 /\
      (forall r, 0 <= r <= 31 -> r <> 2 -> gpr s1 r = gpr s0 r).
Proof.
  destruct (main_patch_spec w inputPath outputPath path Hsmall) as (o1 & Ho1 & Hcase).
  change (main_patch w inputPath outputPath path = Ret o) in Hrun. rewrite Hrun in Ho1.
  injection Ho1 as <-. destruct Hcase as [(bytes & file & entry & t & off & Hr & Hp & Hw)|[[He _] _]];
    [|congruence].
  exists bytes, file, entry, t, off, (reread file (tramp_addr file) t off).
  conj; [exact Hr|exact Hp| | |].
  - eapply written_reads_back; eassumption.
  - eapply output_parses; [exact Hp|exact (Hx _ _ Hr (po_parse _ _ _ _ _ _ Hp))|exact (Hsmall _ Hr)].
  - intros lv2 other s Hboot n s0 s1. split; [eapply boot_makes_calls; exact Hboot|].
    exact (proj1 (boot_reaches _ _ _ _ _ _ _ _ other _ Hboot)).
Qed.
End command.

(** The test file patched on a disk, loaded and started. *)
Lemma command_loads_module_witness :
  exists o a c1 c2, first_run = Ret o /\
    calls lv2_42 (fun _ s => s) 50 ps3_boot = [c1; c2] /\
    load_module_call a ps3_path c1 /\ gpr c2 11 = 481 /\ gpr c2 3 = 42.
Proof.
  assert (exit_is 0 first_run = true) as Hx by (vm_compute; reflexivity).
  apply exit_is_Ret in Hx as (o & Ho & Hx). exists o.
  destruct (command_loads_module disk "ps3patch" "EBOOT.elf" "EBOOT.patched.elf" ps3_path o
    memfs_reads_back Ho Hx) as (bytes & file & entry & t & off & g & Hr & Hp & _ & Hg & Hboot).
  - intros bytes ->%disk_small. vm_compute. reflexivity.
  - intros bytes file ->%disk_small Hp. rewrite ps3_parses in Hp. injection Hp as <-.
    exact ps3_patchable.
  - apply disk_small in Hr as ->.
    destruct (patch_of_unique _ _ _ _ _ _ _ _ _ _ ps3_patch_of Hp) as (-> & -> & -> & ->).
    pose proof (bt_reread _ _ _ _ _ _ _ _ _ ps3_boots) as Hg'. rewrite Hg' in Hg. injection Hg as <-.
    assert (displacedInstructionCount (ps3_t ps3_near) = 1) as H1 by (vm_compute; reflexivity).
    destruct (Hboot lv2_42 (fun _ s => s) ps3_boot ps3_boots) as [(a & c1 & c2 & Hc & Hl & Hs) _].
    rewrite H1 in Hc. exists a, c1, c2. destruct Hs as [Hn Hm _].
    split; [exact Ho|]. split; [exact Hc|]. split; [exact Hl|]. split; [exact Hn|exact Hm].
Defined.
