(* ===== verification/BootSimulation.v ===== *)
(** * The displaced instructions in their new place

    The machine at the resumed words does what the original instructions do at
    the entrypoint, up to the first that branches, and goes on in the original
    program. *)

From S2P Require Import Prelude.
From S2P Require Import Text.
From S2P Require Import Errors.
From S2P Require Import EndianInt.
From S2P Require Import ElfTypes.
From S2P Require Import PpcEncode.
From S2P Require Import PpcDecode.
From S2P Require Import PpcSpec.
From S2P Require Import PpcSpecFacts.
From S2P Require Import PpcMoveFacts.
From S2P Require Import Fixtures.
From S2P Require Import ElfFile.
From S2P Require Import ElfFileFacts.
From S2P Require Import Toc.
From S2P Require Import Trampoline.
From S2P Require Import TrampolineFacts.
From S2P Require Import PayloadFacts.
From S2P Require Import BootFacts.
From S2P Require Import TrampolineProperties.
From S2P Require Import Main.
From S2P Require Import MainFacts.
From S2P Require Import MainProperties.
From S2P Require Import BootProperties.

Lemma jumped_pc back target p s : jumped back target (set_pc p s) = jumped back target s.
Proof. unfold jumped. destruct (back =? 1); reflexivity. Qed.

(** ** Instructions at one place as at another *)

Section moved_words.
Variable lv2 : machine -> machine.
Variable other : Z -> machine -> machine.

(** What the instruction [w] at the program counter leaves, with the link
    register, when it sets it, for the place [p]. *)
Definition step_for (w p : Z) (s : machine) : machine :=
  relink (decode w) (p + 4) (exec lv2 other (decode w) s).

(** The words [ws] executed where the program counter is, up to the first that
    branches or to the end; [p] is where their copies are. *)
Fixpoint until_branch (ws : list Z) (p : Z) (s : machine) : machine :=
  match ws with
  | [] => s
  | w :: ws' =>
      let s' := step_for w p s in
      if taken (decode w) s then s' else until_branch ws' (p + 4) s'
  end.

(** What is asked of the words executed on the way: no system calls or
    instructions outside the subset, the targets of direct branches in the
    32-bit address space, and no stores to the [len] bytes at [base]. *)
Fixpoint movable (base len : Z) (ws : list Z) (p : Z) (s : machine) : Prop :=
  match ws with
  | [] => True
  | w :: ws' =>
      let s' := step_for w p s in
      known (decode w) = true /\ 0 <= pc s + displacement (classify w) < 2 ^ 32 /\
      agree base len (mem s') (mem s) /\
      (taken (decode w) s = false -> movable base len ws' (p + 4) s')
  end.

Lemma set_pc_same s : set_pc (pc s) s = s.
Proof. destruct s; reflexivity. Qed.

Lemma pc_relink i v s : pc (relink i v s) = pc s.
Proof. unfold relink. destruct (links i); reflexivity. Qed.

(** One instruction. *)
Lemma moved_step w w' p s :
  0 <= w < 2 ^ 32 -> known (decode w) = true -> 0 <= p -> p + 4 < 2 ^ 32 ->
  0 <= pc s + displacement (classify w) < 2 ^ 32 -> 0 <= pc s -> pc s + 4 < 2 ^ 32 ->
  relocated w (pc s) p = Some w' ->
  let s' := step_for w p s in
  if taken (decode w) s then exec lv2 other (decode w') (set_pc p s) = s'
  else pc s' = pc s + 4 /\ exec lv2 other (decode w') (set_pc p s) = set_pc (p + 4) s'.
Proof.
  intros Hw Hk Hp0 Hp Hd Ha0 Ha Hr. cbv zeta.
  pose proof (moved_relocated lv2 other w w' (pc s) p s Hw ltac:(lia) Hk Hd Hr) as Hm.
  rewrite set_pc_same in Hm. unfold moved in Hm. rewrite (u64_small (p + 4)) in Hm by lia.
  fold (step_for w p s) in Hm. destruct (taken (decode w) s); [exact Hm|].
  destruct Hm as [Hpc Hx]. split; [|exact Hx].
  unfold step_for. rewrite pc_relink, Hpc. apply u64_small. lia.
Qed.

(** The copies [ws'] of [ws] at [p], run from memory. *)
Lemma moved_words base len ws ws' p s :
  Forall (fun w => 0 <= w < 2 ^ 32) ws -> length ws' = length ws ->
  (forall i w, ws !! i = Some w ->
     ws' !! i = relocated w (pc s + 4 * Z.of_nat i) (p + 4 * Z.of_nat i)) ->
  movable base len ws p s -> 0 <= base <= p -> p + 4 * size ws <= base + len ->
  base + len < 2 ^ 31 -> 0 <= pc s -> pc s + 4 * size ws < 2 ^ 31 -> holds (mem s) p ws' ->
  let s2 := until_branch ws p s in
  agree base len (mem s2) (mem s) /\
  exists k, steps lv2 other k (set_pc p s) = s2 \/
    (pc s2 = pc s + 4 * size ws /\
     steps lv2 other k (set_pc p s) = set_pc (p + 4 * size ws) s2).
Proof.
  revert ws' p s. induction ws as [|w ws IH]; intros ws' p s Hr Hl Hrel Hmv Hlo Hhi Hb H0 Ha Hh.
  - split; [apply agree_refl|]. exists 0%nat. right. change (size (@nil Z)) with 0.
    rewrite !Z.mul_0_r, !Z.add_0_r. split; reflexivity.
  - destruct ws' as [|w' ws']; [discriminate Hl|].
    pose proof (Hrel 0%nat w eq_refl) as H1. rewrite !Z.mul_0_r, !Z.add_0_r in H1. symmetry in H1.
    cbn [lookup list_lookup] in H1. rewrite size_cons in *. pose proof (size_nonneg ws).
    inversion Hr as [|? ? Hw Hr']; subst. destruct Hmv as (Hk & Hd & Hm & Hmv).
    apply holds_cons in Hh as [Hf Hh]. rewrite u64_small in Hf, Hh by lia.
    pose proof (moved_step w w' p s Hw Hk ltac:(lia) ltac:(lia) Hd H0 ltac:(lia) H1) as Hst.
    cbn [until_branch]. cbv zeta in *. set (s' := step_for w p s) in *.
    assert (forall k, steps lv2 other (S k) (set_pc p s) =
      steps lv2 other k (exec lv2 other (decode w') (set_pc p s))) as Hs
      by (intros k; cbn [steps]; unfold step, fetch; cbn; rewrite Hf; reflexivity).
    destruct (taken (decode w) s).
    + split; [exact Hm|]. exists 1%nat. left. rewrite Hs. exact Hst.
    + destruct Hst as [Hpc Hx]. destruct (IH ws' (p + 4) s') as (Hm2 & k & Hk2).
      * exact Hr'.
      * injection Hl as Hl. exact Hl.
      * intros i v Hi. specialize (Hrel (S i) v Hi). cbn [lookup list_lookup] in Hrel.
        rewrite Hpc. refine (eq_trans Hrel _). f_equal; lia.
      * exact (Hmv eq_refl).
      * lia.
      * lia.
      * lia.
      * lia.
      * lia.
      * assert (size ws' = size ws) as Esz by (injection Hl as Hl; unfold size; lia).
        eapply (holds_agree base len (mem s)); [|rewrite u64_small; lia|lia|lia|exact Hh].
        intros i Hi. symmetry. apply Hm. exact Hi.
      * split; [eapply agree_trans; eassumption|]. exists (S k). rewrite Hs, Hx.
        rewrite Hpc in Hk2. replace (pc s + 4 + 4 * size ws) with (pc s + 4 * (1 + size ws)) in Hk2 by lia.
        replace (p + 4 + 4 * size ws) with (p + 4 * (1 + size ws)) in Hk2 by lia. exact Hk2.
Qed.
End moved_words.

(** ** From the resumed words on *)

Lemma resumed_simulates file entry tramp path t lv2 other off m (s : machine) :
  built file entry tramp path t -> vaddrToFileOffset _ _ file (codeAddress entry) = Ok off ->
  0 <= tramp -> tramp + size (blob t) < 2 ^ 31 ->
  0 <= codeAddress entry /\ codeAddress entry + 20 < 2 ^ 31 ->
  loaded_at m tramp (blob t) -> agree tramp (size (blob t)) (mem s) m -> pc s = tramp + 204 ->
  let n := displacedInstructionCount t in
  let displaced := words_at (Z.to_nat n) off (raw_ _ _ file) in
  let s1 := set_pc (codeAddress entry) s in
  let s2 := until_branch lv2 other displaced (tramp + 204) s1 in
  movable lv2 other tramp (size (blob t)) displaced (tramp + 204) s1 ->
  exists k, steps lv2 other k s = s2 \/
    (pc s2 = codeAddress entry + 4 * n /\
     steps lv2 other k s = jumped (back_size entry tramp n) (codeAddress entry + 4 * n) s2).
Proof.
  intros Hb Hv Ht0 Ht Hc Hl Hm Hpc n displaced s1 s2 Hmv.
  destruct (resumed_parts _ _ _ _ _ Hb ltac:(lia) Hc) as (o & Hv' & Hfit & Hr & _ & Hsz & _).
  rewrite Hv in Hv'. injection Hv' as <-. fold n displaced in Hfit, Hr, Hsz.
  pose proof (find_segment_range _ _ _ _ Hv) as Ho.
  pose proof (built_jump_size _ _ _ _ _ Hb) as Hn15. fold n in Hn15.
  pose proof (size_nonneg (makeMinimalJump (tramp + 204 + 4 * n) (codeAddress entry + 4 * n))).
  assert (forall b, length (words_at (Z.to_nat n) b (blob t)) = Z.to_nat n) as Hlen
    by (intros b; unfold words_at; rewrite length_fmap, length_seq; reflexivity).
  assert (length displaced = Z.to_nat n) as Hld
    by (unfold displaced, words_at; rewrite length_fmap, length_seq; reflexivity).
  assert (size displaced = n) as Hn by (unfold size; lia).
  destruct (moved_words lv2 other tramp (size (blob t)) displaced
    (words_at (Z.to_nat n) 204 (blob t)) (tramp + 204) s1) as (Hm2 & k & Hk).
  - apply words_at_range; lia.
  - rewrite Hlen. symmetry. exact Hld.
  - exact Hr.
  - exact Hmv.
  - lia.
  - lia.
  - exact Ht.
  - exact (proj1 Hc).
  - change (pc s1) with (codeAddress entry). lia.
  - apply (holds_region m); try assumption; lia.
  - fold s2 in Hm2, Hk. change (pc s1) with (codeAddress entry) in Hk. rewrite Hn in Hk.
    assert (set_pc (tramp + 204) s1 = s) as Es by (rewrite <- Hpc; destruct s; reflexivity).
    rewrite Es in Hk. destruct Hk as [Hk|[Hpc2 Hk]]; [exists k; left; exact Hk|].
    destruct (back_from_memory file entry tramp path t lv2 other m
      (set_pc (tramp + 204 + 4 * n) s2) Hb Ht0 Ht Hc Hl) as (Hb15 & Hx);
      [eapply agree_trans; [exact Hm2|exact Hm]|reflexivity|].
    fold n in Hx. rewrite jumped_pc in Hx. exists (k + Z.to_nat (back_size entry tramp n))%nat. right.
    split; [exact Hpc2|]. rewrite steps_add, Hk. exact Hx.
Qed.

(** C3: the displacement is transparent to the program.  From the entrypoint of
    the written file the machine reaches a state [s1] that differs from the one
    the jump to the payload leaves only in r2, the program counter, the
    condition register and memory outside the blob (every byte of the blob is as
    it was loaded), and then the state [s2] that
    the original instructions leave when executed in [s1] at the entrypoint, up
    to the first of them that branches: directly when one does, otherwise
    through the jump back to the word after the last.  An instruction that sets
    the link register leaves there the address of the word after its copy; a
    jump back of five words overwrites r12 and the count register. *)
Theorem patched_boot_simulates bytes path file entry t off g lv2 other (s : machine)
    (Hboot : boot bytes path file entry t off g lv2 s) :
  let tramp := tramp_addr file in
  let n := displacedInstructionCount t in
  let displaced := words_at (Z.to_nat n) off bytes in
  let s0 := jumped n (tramp + 8) s in
  let s1 := set_pc (codeAddress entry) (steps lv2 other (Z.to_nat n + 49) s) in
  let s2 := until_branch lv2 other displaced (tramp + 204) s1 in
  gpr s1 2 = tocValue entry /\ lr s1 = lr s0 /\ ctr s1 = ctr s0 /\
  (forall r, 0 <= r <= 31 -> r <> 2 -> gpr s1 r = gpr s0 r) /\
  agree tramp (size (blob t)) (mem s1) (mem s0) /\
  (movable lv2 other tramp (size (blob t)) displaced (tramp + 204) s1 ->
   exists k, steps lv2 other k s = s2 \/
     (pc s2 = codeAddress entry + 4 * n /\
      steps lv2 other k s = jumped (back_size entry tramp n) (codeAddress entry + 4 * n) s2)).
Proof.
  destruct (boot_reaches _ _ _ _ _ _ _ _ other _ Hboot) as (F & Hraw & Ht0 & Hc0 & Hblob & Hm).
  destruct Hboot as [[_ _ Hb Hoff] _ _ _ _ _ _ Ht _ Hc _]. intros tramp n displaced s0 s1 s2.
  destruct F as (F1 & F2 & F3 & F4 & F5). fold tramp n in F1, F2, F3, F4, F5, Hm.
  assert (lr s0 = lr s) as Hlr by (unfold s0, jumped; destruct (n =? 1); reflexivity).
  assert (mem s0 = mem s) as Hms by (unfold s0, jumped; destruct (n =? 1); reflexivity).
  conj; [exact F2|rewrite Hlr; exact F3|exact F4|exact F5|rewrite Hms; exact Hm|]. unfold s2, displaced. rewrite <- Hraw. intros Hmv.
  destruct (resumed_simulates file entry tramp path t lv2 other off (mem s) _ Hb Hoff
    ltac:(lia) ltac:(lia) ltac:(lia) Hblob Hm F1 Hmv) as (k & Hk).
  exists (Z.to_nat n + 49 + k)%nat. rewrite steps_add. exact Hk.
Qed.

(** ** A return among five displaced instructions *)

(** The PS3 test file with [blr] as its second instruction and a second segment
    of 64 MB in memory, which puts the trampoline out of a branch's reach. *)
Definition return_exe : list byte :=
  splice 0xA0 (be_store 8 0x4000000) (splice 0xbc (be_store 4 0x4E800020) ps3_exe).

Definition return_file : Ps3ElfFile := file_of true Big return_exe.

Definition return_tramp : Z := 0x4020000.

Definition return_t : TrampolineResult :=
  the_result (buildTrampoline return_file ps3_entry return_tramp ps3_path).

Definition return_reread : Ps3ElfFile :=
  reread return_file (tramp_addr return_file) return_t 0xb8.

Definition return_boot : machine := at_start 0x10008 (load_image return_reread).

Lemma return_tramp_addr : tramp_addr return_file = return_tramp.
Proof. vm_compute. reflexivity. Qed.

Lemma return_patch_of : patch_of return_exe ps3_path return_file ps3_entry return_t 0xb8.
Proof.
  constructor.
  - apply parse_is_ok; vm_compute; reflexivity.
  - vm_compute. reflexivity.
  - rewrite return_tramp_addr. split; [apply is_built_eq|]; vm_compute; reflexivity.
  - vm_compute. reflexivity.
Qed.

Lemma return_patchable : patchable return_file.
Proof. split; [vm_compute; reflexivity|right; vm_compute; discriminate]. Qed.

Lemma return_boots :
  boot return_exe ps3_path return_file ps3_entry return_t 0xb8 return_reread lv2_42 return_boot.
Proof.
  constructor.
  - exact return_patch_of.
  - vm_compute. reflexivity.
  - exact return_patchable.
  - apply (output_parses _ _ _ _ _ _ return_patch_of return_patchable). vm_compute. reflexivity.
  - unfold window_mapped.
    assert (segments _ _ return_file = [mkPhdrFields 1 5 176 65536 65536 32 32 16;
      mkPhdrFields 1 6 208 131072 131072 24 0x4000000 16]) as -> by (vm_compute; reflexivity).
    assert (size (entryPatchBytes return_t) = 20) as -> by (vm_compute; reflexivity).
    assert (size (raw_ _ _ return_file) = 296) as -> by (vm_compute; reflexivity).
    apply Forall_cons; split; [split; cbn; lia|].
    apply Forall_singleton. intros Hc. discriminate Hc.
  - lia.
  - left. vm_compute. discriminate.
  - vm_compute. reflexivity.
  - cbn. lia.
  - cbn. lia.
  - apply at_start_entry; vm_compute; congruence.
Qed.

(** The [nop] is passed and the [blr] returns. *)
Lemma return_effect lv2 other base len p ws s :
  0 <= pc s -> pc s + 4 < 2 ^ 32 ->
  let ws := 0x60000000 :: 0x4E800020 :: ws in
  let s2 := until_branch lv2 other ws p s in
  movable lv2 other base len ws p s /\ pc s2 = lr s / 4 * 4 /\
  gpr s2 1 = gpr s 1 /\ gpr s2 2 = gpr s 2.
Proof.
  intros H0 Hs. cbv zeta. cbn [until_branch movable]. unfold step_for.
  change (decode 0x60000000) with (Ori 0 0 0). change (decode 0x4E800020) with (Bclr 20 0 false).
  change (displacement (classify 0x60000000)) with 0. change (displacement (classify 0x4E800020)) with 0.
  cbn [taken known relink links exec]. change (ctr_ok 20 _ && cond_ok 20 0 _) with true. cbv iota.
  conj; try reflexivity; try lia; try (apply agree_refl).
  intros _. conj; [reflexivity|..|apply agree_refl|discriminate]; cbn; pose proof (u64_small (pc s + 4)); lia.
Qed.

(** The program returns to the address the link register held at the start. *)
Lemma patched_boot_simulates_witness :
  displacedInstructionCount return_t = 5 /\
  exists k, let s' := steps lv2_42 (fun _ s => s) k return_boot in
    pc s' = 0x1234 /\ gpr s' 1 = 0x1000 /\ gpr s' 2 = 0x30000.
Proof.
  assert (displacedInstructionCount return_t = 5) as H5 by (vm_compute; reflexivity).
  assert (words_at 5 0xb8 return_exe =
    0x60000000 :: 0x4E800020 :: [0x60000000; 0x60000000; 0x60000000]) as Hw by (vm_compute; reflexivity).
  pose proof (patched_boot_simulates _ _ _ _ _ _ _ _ (fun _ s => s) _ return_boots) as F.
  cbv zeta in F. rewrite H5 in F. change (Z.to_nat 5) with 5%nat in F. rewrite Hw in F.
  revert F. generalize (steps lv2_42 (fun _ s => s) (5 + 49) return_boot). intros s1 (F2 & F3 & _ & F5 & _ & F6).
  destruct (return_effect lv2_42 (fun _ s => s) (tramp_addr return_file) (size (blob return_t))
    (tramp_addr return_file + 204) [0x60000000; 0x60000000; 0x60000000]
    (set_pc (codeAddress ps3_entry) s1)) as (R1 & R2 & R3 & R4); [cbn; lia|cbn; lia|].
  split; [exact H5|]. destruct (F6 R1) as (k & [Hk|[Hpc _]]).
  - exists k. cbv zeta. rewrite Hk, R2, R3, R4, F2, F3, (F5 1) by lia. conj; reflexivity.
  - rewrite R2, F3 in Hpc. discriminate Hpc.
Defined.
