(* ===== verification/Apart.v ===== *)
(** * States that differ in a region of memory only

    [same_but a n]: the same registers and the same memory outside the [n] bytes
    at [a].  Every operation of the machine respects it, and so does an execution
    that neither fetches nor loads from the region ([clean]). *)

From Stdlib Require Import Morphisms.
From S2P Require Import Prelude.
From S2P Require Import PpcSpec.
From S2P Require Import PpcSpecFacts.
From S2P Require Import PpcMoveFacts.
From S2P Require Import BootFacts.

Section region.
Variables (a n : Z).

Definition outside (x : Z) : bool := (x <? a) || (a + n <=? x).

Record same_but (s s' : machine) : Prop := {
  sb_gpr : gpr s = gpr s';
  sb_lr : lr s = lr s';
  sb_ctr : ctr s = ctr s';
  sb_cr : cr s = cr s';
  sb_pc : pc s = pc s';
  sb_mem : forall x, outside x = true -> mem s x = mem s' x
}.

#[export] Instance same_but_equivalence : Equivalence same_but.
Proof.
  split.
  - intros s. constructor; reflexivity.
  - intros s s' [H1 H2 H3 H4 H5 H6]. constructor; auto. intros x Hx. symmetry. auto.
  - intros s1 s2 s3 [H1 H2 H3 H4 H5 H6] [K1 K2 K3 K4 K5 K6]. constructor; try congruence.
    intros x Hx. rewrite H6, K6 by exact Hx. reflexivity.
Qed.

(** ** The operations of the machine *)

#[export] Instance gpr_same : Proper (same_but ==> eq ==> eq) gpr.
Proof. intros s s' [] r ? <-. congruence. Qed.
#[export] Instance lr_same : Proper (same_but ==> eq) lr.
Proof. intros s s' []. assumption. Qed.
#[export] Instance ctr_same : Proper (same_but ==> eq) ctr.
Proof. intros s s' []. assumption. Qed.
#[export] Instance cr_same : Proper (same_but ==> eq) cr.
Proof. intros s s' []. assumption. Qed.
#[export] Instance pc_same : Proper (same_but ==> eq) pc.
Proof. intros s s' []. assumption. Qed.

#[export] Instance set_gpr_same : Proper (eq ==> eq ==> same_but ==> same_but) set_gpr.
Proof. intros r ? <- v ? <- s s' []. constructor; cbn; congruence || auto. Qed.
#[export] Instance set_lr_same : Proper (eq ==> same_but ==> same_but) set_lr.
Proof. intros v ? <- s s' []. constructor; cbn; congruence || auto. Qed.
#[export] Instance set_ctr_same : Proper (eq ==> same_but ==> same_but) set_ctr.
Proof. intros v ? <- s s' []. constructor; cbn; congruence || auto. Qed.
#[export] Instance set_cr_same : Proper (eq ==> same_but ==> same_but) set_cr.
Proof. intros v ? <- s s' []. constructor; cbn; congruence || auto. Qed.
#[export] Instance set_pc_same_but : Proper (eq ==> same_but ==> same_but) set_pc.
Proof. intros v ? <- s s' []. constructor; cbn; congruence || auto. Qed.

#[export] Instance next_same : Proper (same_but ==> same_but) next.
Proof. intros s s' H. unfold next. rewrite H. reflexivity. Qed.
#[export] Instance record_cr0_same : Proper (eq ==> same_but ==> same_but) record_cr0.
Proof. intros v ? <- s s' H. unfold record_cr0. rewrite H. reflexivity. Qed.
#[export] Instance count_down_same : Proper (eq ==> same_but ==> same_but) count_down.
Proof.
  intros o ? <- s s' H. unfold count_down. destruct (bit_of 5 o 2); [exact H|]. rewrite H. reflexivity.
Qed.
#[export] Instance ctr_ok_same : Proper (eq ==> same_but ==> eq) ctr_ok.
Proof. intros o ? <- s s' H. unfold ctr_ok. rewrite H. reflexivity. Qed.
#[export] Instance cond_ok_same : Proper (eq ==> eq ==> same_but ==> eq) cond_ok.
Proof. intros o ? <- i ? <- s s' H. unfold cond_ok. rewrite H. reflexivity. Qed.
#[export] Instance ea_same : Proper (same_but ==> eq ==> eq ==> eq) ea.
Proof. intros s s' H r ? <- d ? <-. unfold ea. rewrite H. reflexivity. Qed.
#[export] Instance branch_to_same : Proper (eq ==> eq ==> eq ==> same_but ==> same_but) branch_to.
Proof.
  intros t ? <- lk ? <- target ? <- s s' H. unfold branch_to.
  destruct t, lk; rewrite H; reflexivity.
Qed.
#[export] Instance taken_same : Proper (eq ==> same_but ==> eq) taken.
Proof. intros i ? <- s s' H. destruct i; cbn [taken]; rewrite ?H; reflexivity. Qed.

(** A store, wherever it goes. *)
Lemma store_same x v s s' :
  same_but s s' -> same_but (set_mem (write64 (mem s) x v) s) (set_mem (write64 (mem s') x v) s').
Proof.
  intros []. constructor; try assumption. intros y Hy. cbn. unfold write64. case_match; auto.
Qed.

(** ** Loads and fetches *)

(** The [k] bytes at [x] are outside the region. *)
Definition bytes_outside (x : Z) (k : nat) : bool :=
  forallb (fun j => outside (u64 (x + Z.of_nat j))) (seq 0 k).

Lemma bytes_same s s' x k :
  same_but s s' -> bytes_outside x k = true ->
  (fun i => mem s (u64 (x + Z.of_nat i))) <$> seq 0 k =
  (fun i => mem s' (u64 (x + Z.of_nat i))) <$> seq 0 k.
Proof.
  intros H Hx. unfold bytes_outside in Hx. rewrite forallb_forall in Hx.
  apply list_fmap_ext. intros i j Hi. apply (sb_mem _ _ H), Hx.
  apply list_elem_of_In. eapply list_elem_of_lookup_2. exact Hi.
Qed.

(** What an instruction loads is outside the region. *)
Definition loads_outside (i : insn) (s : machine) : bool :=
  match i with Ld _ ra ds _ => bytes_outside (ea s ra ds) 8 | _ => true end.

Definition respects (f : machine -> machine) : Prop := Proper (same_but ==> same_but) f.

Variable lv2 : machine -> machine.
Variable other : Z -> machine -> machine.
Hypothesis (Hlv2 : respects lv2) (Hother : forall w, respects (other w)).

Lemma exec_same i s s' :
  same_but s s' -> loads_outside i s = true -> same_but (exec lv2 other i s) (exec lv2 other i s').
Proof.
  intros H Hl. destruct i; cbn [exec loads_outside] in *; try (rewrite H; reflexivity).
  - destruct rc; rewrite H; reflexivity.
  - assert (ea s' ra ds = ea s ra ds) as Ea by (rewrite H; reflexivity).
    assert (read64 (mem s) (ea s ra ds) = read64 (mem s') (ea s ra ds)) as Er
      by (unfold read64; f_equal; apply bytes_same; assumption).
    rewrite Ea, Er. destruct update; rewrite H; reflexivity.
  - assert (ea s' ra ds = ea s ra ds) as Ea by (rewrite H; reflexivity).
    assert (gpr s' rs = gpr s rs) as Eg by (rewrite H; reflexivity).
    rewrite Ea, Eg. pose proof (store_same (ea s ra ds) (gpr s rs) s s' H) as Hs.
    destruct update; rewrite Hs; reflexivity.
  - apply Hlv2. rewrite H. reflexivity.
  - apply Hother. exact H.
Qed.

Lemma fetch_same s s' :
  same_but s s' -> bytes_outside (pc s) 4 = true -> fetch s' = fetch s.
Proof.
  intros H Hf. unfold fetch, word_at. rewrite <- (sb_pc _ _ H). f_equal. symmetry. apply bytes_same; assumption.
Qed.

(** ** Executions *)

(** The next [k] steps neither fetch nor load from the region. *)
Fixpoint clean (k : nat) (s : machine) : bool :=
  match k with
  | O => true
  | S k' =>
      bytes_outside (pc s) 4 && loads_outside (decode (fetch s)) s && clean k' (step lv2 other s)
  end.

Lemma steps_same k s s' :
  same_but s s' -> clean k s = true -> same_but (steps lv2 other k s) (steps lv2 other k s').
Proof.
  revert s s'. induction k as [|k IH]; intros s s' H Hc; [exact H|].
  cbn [clean] in Hc. apply andb_prop in Hc as [Hc Hk]. apply andb_prop in Hc as [Hf Hl].
  cbn [steps]. apply IH; [|exact Hk]. unfold step. rewrite (fetch_same s s') by assumption.
  apply exec_same; assumption.
Qed.
End region.
