(* ===== verification/BootPreservation.v ===== *)
(** * The patched program runs the original program

    A forward simulation from the original program, started where the payload
    leaves off, to the patched one: the same registers at every step, and the
    same memory but for the overwritten words. *)

From S2P Require Import Prelude.
From S2P Require Import Text.
From S2P Require Import Errors.
From S2P Require Import EndianInt.
From S2P Require Import ElfTypes.
From S2P Require Import PpcEncode.
From S2P Require Import PpcDecode.
From S2P Require Import PpcSpec.
From S2P Require Import PpcSpecFacts.
From S2P Require Import PpcMoveFacts.
From S2P Require Import Fixtures.
From S2P Require Import ElfFile.
From S2P Require Import ElfFileFacts.
From S2P Require Import Toc.
From S2P Require Import Trampoline.
From S2P Require Import TrampolineFacts.
From S2P Require Import PayloadFacts.
From S2P Require Import BootFacts.
From S2P Require Import TrampolineProperties.
From S2P Require Import Main.
From S2P Require Import MainFacts.
From S2P Require Import MainProperties.
From S2P Require Import BootProperties.
From S2P Require Import BootSimulation.
From S2P Require Import Apart.

(** ** The displaced instructions in their old place *)

Section in_place.
Variable lv2 : machine -> machine.
Variable other : Z -> machine -> machine.
Context (a n : Z).
Hypothesis (Hlv2 : respects a n lv2) (Hother : forall w, respects a n (other w)).

(** How many of the words are executed, up to the first that branches. *)
Fixpoint executed (ws : list Z) (s : machine) : nat :=
  match ws with
  | [] => O
  | w :: ws' =>
      if taken (decode w) s then 1%nat else S (executed ws' (exec lv2 other (decode w) s))
  end.

(** What is asked of them: instructions of the subset that do not set the link
    register, do not load from the [n] bytes at [a] and do not change them. *)
Fixpoint orderly (ws : list Z) (s : machine) : Prop :=
  match ws with
  | [] => True
  | w :: ws' =>
      let s' := exec lv2 other (decode w) s in
      known (decode w) = true /\ links (decode w) = false /\
      loads_outside a n (decode w) s = true /\ agree a n (mem s') (mem s) /\
      (taken (decode w) s = false -> orderly ws' s')
  end.

Lemma falls_through i s :
  known i = true -> taken i s = false -> pc (exec lv2 other i s) = u64 (pc s + 4).
Proof.
  intros Hk Ht. destruct i; try discriminate; cbn [exec taken] in *; try reflexivity.
  - destruct rc; reflexivity.
  - destruct update; reflexivity.
  - destruct update; reflexivity.
  - rewrite Ht. unfold branch_to, count_down. destruct lk; case_match; reflexivity.
  - rewrite Ht. unfold branch_to, count_down. destruct lk; case_match; reflexivity.
  - rewrite Ht. unfold branch_to. destruct lk; reflexivity.
Qed.

(** Fetched from a memory that has them, they do what [until_branch] does in a
    memory that need not. *)
Lemma until_branch_original ws p s s' :
  same_but a n s s' -> holds (mem s) (pc s) ws -> orderly ws s ->
  0 <= a <= pc s -> pc s + 4 * size ws <= a + n -> a + n < 2 ^ 32 ->
  same_but a n (steps lv2 other (executed ws s) s) (until_branch lv2 other ws p s').
Proof.
  revert p s s'. induction ws as [|w ws IH]; intros p s s' H Hh Ho Hlo Hhi Hn; [exact H|].
  destruct Ho as (Hk & Hl & Hld & Hm & Ho). rewrite size_cons in Hhi. pose proof (size_nonneg ws).
  apply holds_cons in Hh as [Hf Hh]. rewrite u64_small in Hf, Hh by lia.
  assert (step lv2 other s = exec lv2 other (decode w) s) as Hs
    by (unfold step, fetch; rewrite Hf; reflexivity).
  cbn [executed until_branch]. unfold step_for, relink. rewrite Hl, <- (taken_same a n _ _ eq_refl _ _ H).
  pose proof (exec_same a n lv2 other Hlv2 Hother _ s s' H Hld) as Hx.
  set (s1 := exec lv2 other (decode w) s) in *.
  destruct (taken (decode w) s) eqn:Et; cbn [steps]; rewrite Hs; [exact Hx|].
  pose proof (falls_through _ _ Hk Et) as Hpc. fold s1 in Hpc. rewrite u64_small in Hpc by lia.
  apply IH; [exact Hx| |exact (Ho eq_refl)|lia|lia|exact Hn].
  rewrite Hpc. eapply (holds_agree a n (mem s)); [|rewrite u64_small; lia|lia|lia|exact Hh].
  intros i Hi. symmetry. apply Hm. exact Hi.
Qed.
End in_place.

(** ** The original program *)

(** A machine with the words at [a] put back. *)
Definition put_back (a : Z) (bs : list byte) (s : machine) : machine :=
  set_mem (place (mem s) a bs) s.

Lemma put_back_same a bs s : same_but a (size bs) (put_back a bs s) s.
Proof.
  constructor; try reflexivity. intros x Hx. cbn. unfold place. unfold outside in Hx.
  case_match eqn:E; [lia|reflexivity].
Qed.

Lemma put_back_loaded a bs s :
  0 <= a -> a + size bs < 2 ^ 64 -> loaded_at (mem (put_back a bs s)) a bs.
Proof.
  intros Ha Hn i b Hi. apply lookup_lt_Some in Hi as Hlt. cbn. unfold place.
  unfold size in *. rewrite u64_small by lia.
  replace ((a <=? a + Z.of_nat i) && (a + Z.of_nat i <? a + Z.of_nat (length bs))) with true by lia.
  replace (Z.to_nat (a + Z.of_nat i - a)) with i by lia. apply nth_lookup_Some. exact Hi.
Qed.

(** C2: semantic preservation.  Let [x] be the original program at its
    entrypoint, in the state the payload leaves behind: the state of the
    patched machine after the payload, with the overwritten words of the file
    put back.  When the displaced instructions are ordinary ones and the way
    back is one branch, every state the original program reaches from [x] is
    reached by the patched program started at the entrypoint of the written
    file, with the same registers and the same memory but for the overwritten
    words, as long as the program does not use those as data or come back to
    them. *)
Theorem patched_program_simulates bytes path file entry t off g lv2 other (s : machine)
    (Hboot : boot bytes path file entry t off g lv2 s)
    (Hback : back_size entry (tramp_addr file) (displacedInstructionCount t) = 1) :
  let tramp := tramp_addr file in
  let n := displacedInstructionCount t in
  let code := codeAddress entry in
  let displaced := words_at (Z.to_nat n) off bytes in
  let s1 := set_pc code (steps lv2 other (Z.to_nat n + 49) s) in
  let x := put_back code (slice off (4 * n) bytes) s1 in
  let q := executed lv2 other displaced x in
  respects code (4 * n) lv2 -> (forall w, respects code (4 * n) (other w)) ->
  orderly lv2 other code (4 * n) displaced x ->
  movable lv2 other tramp (size (blob t)) displaced (tramp + 204) s1 ->
  forall k, clean code (4 * n) lv2 other k (steps lv2 other q x) = true ->
  exists k', same_but code (4 * n) (steps lv2 other (q + k) x) (steps lv2 other k' s).
Proof.
  intros tramp n code displaced s1 x q Hlv2 Hother Ho Hmv k Hk.
  destruct (boot_reaches _ _ _ _ _ _ _ _ other _ Hboot) as ((Hpc & _) & Hraw & Ht0 & Hc0 & Hblob & Hm).
  destruct Hboot as [[_ _ Hb Hoff] _ _ _ _ _ _ Ht _ Hc _].
  fold tramp n in Hpc, Hm, Hblob, Hb, Ht, Ht0, Hback. fold code in Hc, Hc0.
  destruct (built_fits file entry tramp path t off Hb Hoff) as [H0 Hfit].
  pose proof (built_blob_size _ _ _ _ _ Hb) as (_ & _ & _ & Hn). fold n in Hn.
  pose proof (built_jump_size _ _ _ _ _ Hb) as Hn15. fold n in Hn15. rewrite Hraw in Hfit.
  assert (size (slice off (4 * n) bytes) = 4 * n) as Hsz by (apply size_slice; lia).
  assert (size displaced = n) as Hd
    by (unfold displaced, size, words_at; rewrite length_fmap, length_seq; lia).
  assert (same_but code (4 * n) x s1) as Hx
    by (unfold x; rewrite <- Hsz at 1; apply put_back_same).
  assert (holds (mem x) (pc x) displaced) as Hh.
  { assert (loaded_at (mem x) code (slice off (4 * n) bytes)) as Hl by (apply put_back_loaded; lia).
    apply (holds_loaded _ _ _ (Z.to_nat n) 0) in Hl; [|lia|lia].
    rewrite words_at_slice, !Z.add_0_r, u64_small in Hl by lia. exact Hl. }
  pose proof (until_branch_original lv2 other code (4 * n) Hlv2 Hother displaced (tramp + 204) x s1
    Hx Hh Ho) as Hu. change (pc x) with code in Hu. specialize (Hu ltac:(lia) ltac:(lia) ltac:(lia)).
  fold q in Hu. set (r := until_branch lv2 other displaced (tramp + 204) s1) in *.
  assert (exists k1, steps lv2 other k1 s = r) as [k1 Hk1].
  { unfold displaced in Hmv. rewrite <- Hraw in Hmv.
    destruct (resumed_simulates file entry tramp path t lv2 other off (mem s) _ Hb Hoff
      ltac:(lia) ltac:(lia) ltac:(lia) Hblob Hm Hpc Hmv) as (j & Hj).
    exists (Z.to_nat n + 49 + j)%nat. rewrite steps_add.
    unfold r, displaced. rewrite <- Hraw. fold n in Hj.
    destruct Hj as [Hj|[Hpc2 Hj]]; [exact Hj|]. rewrite Hj, Hback. unfold jumped. cbn [Z.eqb Pos.eqb].
    fold n code in Hpc2. fold code. rewrite <- Hpc2. apply set_pc_same. }
  exists (k1 + k)%nat. rewrite !steps_add, Hk1.
  apply (steps_same code (4 * n) lv2 other Hlv2 Hother); [exact Hu|exact Hk].
Qed.

(** ** The test file *)

(** The original program of the test file where the payload leaves off. *)
Definition ps3_original : machine :=
  put_back 0x10008 (slice 0xb8 4 ps3_exe)
    (set_pc 0x10008 (steps lv2_42 (fun _ s => s) 50 ps3_boot)).

Lemma lv2_42_respects a n : respects a n lv2_42.
Proof. intros s s' H. unfold lv2_42. rewrite H. reflexivity. Qed.

Lemma nop_orderly lv2 other a n s : orderly lv2 other a n [0x60000000] s.
Proof.
  cbn [orderly]. change (decode 0x60000000) with (Ori 0 0 0).
  conj; auto using agree_refl.
Qed.

Lemma nop_movable lv2 other base len p s :
  0 <= pc s < 2 ^ 32 -> movable lv2 other base len [0x60000000] p s.
Proof.
  intros Hs. cbn [movable]. unfold step_for. change (decode 0x60000000) with (Ori 0 0 0).
  change (displacement (classify 0x60000000)) with 0.
  conj; [reflexivity|lia|lia|apply agree_refl|auto].
Qed.

(** Its no-operations, all but the displaced one where they were. *)
Lemma ps3_original_runs :
  clean 0x10008 4 lv2_42 (fun _ s => s) 5 (steps lv2_42 (fun _ s => s) 1 ps3_original) = true /\
  pc (steps lv2_42 (fun _ s => s) 6 ps3_original) = 0x10020 /\
  gpr (steps lv2_42 (fun _ s => s) 6 ps3_original) 2 = 0x30000.
Proof. conj; vm_compute; reflexivity. Qed.

Lemma patched_program_simulates_witness :
  exists k', let s' := steps lv2_42 (fun _ s => s) k' ps3_boot in
    pc s' = 0x10020 /\ gpr s' 2 = 0x30000.
Proof.
  assert (displacedInstructionCount (ps3_t ps3_near) = 1) as H1 by (vm_compute; reflexivity).
  assert (words_at 1 0xb8 ps3_exe = [0x60000000]) as Hd by (vm_compute; reflexivity).
  pose proof (patched_program_simulates _ _ _ _ _ _ _ _ (fun _ s => s) _ ps3_boots) as F.
  cbv zeta in F. rewrite H1 in F. change (Z.to_nat 1) with 1%nat in F. rewrite Hd in F.
  change (codeAddress ps3_entry) with 0x10008 in F. change (4 * 1) with 4 in F.
  change (1 + 49)%nat with 50%nat in F. fold ps3_original in F.
  destruct ps3_original_runs as (Hc & Hpc & Hr2).
  destruct (F ltac:(vm_compute; reflexivity) (lv2_42_respects _ _)
    (fun w x y H => H) (nop_orderly _ _ _ _ _)) with (k := 5%nat) as (k' & Hk').
  - apply nop_movable. cbn. lia.
  - exact Hc.
  - exists k'. change (same_but 0x10008 4 (steps lv2_42 (fun _ s => s) 6 ps3_original)
      (steps lv2_42 (fun _ s => s) k' ps3_boot)) in Hk'.
    cbv zeta. rewrite <- Hk', Hpc, Hr2. split; reflexivity.
Defined.
