(* ===== verification/Tests.v ===== *)
(** * The repository's tests: src/tests/

    Each test program is a function from the contents of the file it reads to
    the list of its checks, in the order it makes them; an early return ends the
    list.  The lemmas say which checks fail. *)

From S2P Require Import Prelude.
From S2P Require Import Text.
From S2P Require Import Errors.
From S2P Require Import EndianInt.
From S2P Require Import ElfTypes.
From S2P Require Import PpcEncode.
From S2P Require Import PpcDecode.
From S2P Require Import Fixtures.
From S2P Require Import ElfFile.
From S2P Require Import Toc.
From S2P Require Import Syscalls.
From S2P Require Import Trampoline.
From S2P Require Import Info.
From S2P Require Import Main.
From S2P Require Import MainProperties.

(** ** Checks

    The places, counted from 1, of the failed ones; an exception that nobody
    catches ends the program. *)
Fixpoint failures_from (n : Z) (checks : list bool) : list Z :=
  match checks with
  | [] => []
  | c :: cs => (if c then [] else [n]) ++ failures_from (n + 1) cs
  end.

Definition failures (checks : exc (list bool)) : exc (list Z) :=
  let! cs := checks in Ret (failures_from 1 cs).

(** [if (r.ok()) { ... }] *)
Definition if_ok {T} (r : Result T) (body : T -> list bool) : list bool :=
  match r with Ok v => body v | Err _ => [] end.

(** [CHECK(!r.ok()); if (!r.ok()) CHECK(r.error().code == c)] *)
Definition rejects {T} (r : Result T) (c : ErrorCode) : list bool :=
  negb (is_ok r) ::
  match r with Ok _ => [] | Err e => [bool_decide (code e = c)] end.

(** [text.find(sub) != std::string::npos] *)
Definition contains (text sub : string) : bool :=
  match String.index 0 sub text with Some _ => true | None => false end.

Definition string_of (bytes : list byte) : string := string_of_list_byte bytes.

(** The instruction at [i] of a byte vector, as the tests assemble it. *)
Definition word_of_bytes (bytes : list byte) (i : nat) : Instruction :=
  Z.lor (Z.lor (Z.lor (shl32 (byte_val (at_ i bytes)) 24) (shl32 (byte_val (at_ (i + 1) bytes)) 16))
    (shl32 (byte_val (at_ (i + 2) bytes)) 8)) (byte_val (at_ (i + 3) bytes)).

(** [instrs[i]] *)
Definition nth_instr (instrs : list Instruction) (i : nat) : Instruction := nth i instrs 0.

Definition is_kind (k : BranchKind) (b : DecodedBranch) : bool := bool_decide (kind b = k).

(** ** tests/elf_roundtrip_test.cpp *)

Definition elf_roundtrip_test (bytes : list byte) : exc (list bool) :=
  let loaded := [negb (bool_decide (bytes = [])); is_ok (parseAny bytes)] in
  match parseAny bytes with
  | Err _ => Ret loaded
  | Ok (Any64BE file) =>
      Ret (loaded ++
        [true;
         entry true Big file =? 0x10000;
         size (segments true Big file) =? 1;
         size (sections true Big file) =? 2;
         is_ok (segmentData true Big file 0)] ++
        if_ok (segmentData true Big file 0) (fun segData =>
          [String.eqb (string_of segData) "HELLO_PS3_SEGMENT_DATA_PADDING_"]) ++
        [bool_decide (serialize true Big file = bytes)] ++
        rejects (parseAny (take 10 bytes)) TruncatedFile ++
        rejects (parseAny (splice 0 [byte_of 0] bytes)) BadMagic ++
        [negb (is_ok (parseAny (splice 0x20 [byte_of 0xFF; byte_of 0xFF] bytes)))])
  | Ok _ => Throw "std::get: wrong index for variant"
  end.

Lemma elf_roundtrip_test_passes : failures (elf_roundtrip_test synthetic_be64) = Ret [].
Proof. vm_compute. reflexivity. Qed.

(** ** tests/ppc_encode_test.cpp *)

(** [signExtend14] of the test. *)
Definition signExtend14 (v : Z) : Z := i32 (u32 (Z.lxor v (shl32 1 13) - shl32 1 13)).

Definition field (w shift mask : Z) : Z := Z.land (Z.shiftr w shift) mask.

(** The loop over the displacements [d], [d + 4], ... *)
Fixpoint std_round_trips (n : nat) (d : Z) : exc bool :=
  match n with
  | O => Ret true
  | S n' =>
      let! i := encodeStd 5 1 d in
      let! rest := std_round_trips n' (d + 4) in
      Ret ((signExtend14 (field i 2 0x3FFF) * 4 =? d) && rest)
  end.

Definition ppc_encode_test : exc (list bool) :=
  let clr := encodeClrldi 3 3 32 in
  let trampoline := makeAbsoluteJump 0x80010000 12 in
  let threw t := match caught (encodeBranch t false false) with Some _ => false | None => true end in
  let! store := encodeStd 3 1 128 in
  let! load := encodeLd 4 1 (-8) in
  let! update := encodeStdu 1 1 (-256) in
  let! allRoundTrip := std_round_trips 129 (-256) in
  Ret
   [encodeBctr =? 0x4E800420; encodeMtctr 0 =? 0x7C0903A6; encodeLis 3 0x1234 =? 0x3C601234;
    field clr 26 0x3F =? 30; field clr 21 0x1F =? 3; field clr 16 0x1F =? 3;
    field clr 11 0x1F =? 0; field clr 1 0x1 =? 0; field clr 5 0x3F =? 32;
    field clr 2 0x7 =? 0; Z.land clr 1 =? 0;
    size trampoline =? 5;
    nth_instr trampoline 0 =? encodeLis 12 (i16 0x8001);
    nth_instr trampoline 1 =? encodeOri 12 12 0;
    nth_instr trampoline 2 =? encodeClrldi 12 12 32;
    nth_instr trampoline 3 =? encodeMtctr 12;
    nth_instr trampoline 4 =? encodeBctr;
    threw 0x10000000;
    negb (threw 33554428); threw 33554432;
    encodeMflr 0 =? 0x7C0802A6; encodeMtlr 0 =? 0x7C0803A6; encodeMfctr 0 =? 0x7C0902A6;
    field store 26 0x3F =? 62; field store 21 0x1F =? 3; field store 16 0x1F =? 1;
    u32 (signExtend14 (field store 2 0x3FFF)) =? 32; Z.land store 3 =? 0;
    field load 26 0x3F =? 58;
    Z.land (u32 (signExtend14 (field load 2 0x3FFF))) 0xFFFF =? Z.land (u32 (-2)) 0xFFFF;
    Z.land update 3 =? 1;
    allRoundTrip].

Lemma ppc_encode_test_passes : failures ppc_encode_test = Ret [].
Proof. vm_compute. reflexivity. Qed.

(** ** tests/ppc_decode_test.cpp *)

(** [if (r) { ... }] on an optional instruction, classified again. *)
Definition if_some (r : option Instruction) (body : DecodedBranch -> list bool) : list bool :=
  match r with Some i => body (classify i) | None => [] end.

Definition is_some {T} (r : option T) : bool := match r with Some _ => true | None => false end.

Definition ppc_decode_test : exc (list bool) :=
  let! rel := encodeBranch 0x40 false false in
  let! abs := encodeBranch 0x8000 true true in
  let! bc := encodeBranchConditional 12 2 0x20 false false in
  let bclr := Z.lor (Z.lor (shl32 19 26) (shl32 20 21)) (shl32 16 1) in
  let! original := encodeBranch (i32 (0x1040 - 0x1000)) false false in
  let! conditional := encodeBranchConditional 4 7 (i32 (0x1020 - 0x1000)) false false in
  let! absolute := encodeBranch 0x100 true false in
  let d := classify rel in
  let da := classify abs in
  let dc := classify bc in
  let moved := relocateBranch (classify original) 0x1000 0x2000 in
  let moved_c := relocateBranch (classify conditional) 0x1000 0x1800 in
  Ret
   ([is_kind NotABranch (classify (encodeLis 3 0x1234)); is_kind NotABranch (classify (encodeMtctr 12));
     is_kind DirectRelative d; displacement d =? 0x40; negb (isConditionalForm d);
     is_kind DirectAbsolute da; absoluteTarget da =? 0x8000; link da;
     is_kind DirectRelative dc; isConditionalForm dc; (bo dc =? 12) && (bi dc =? 2);
     is_kind ToLinkRegister (classify bclr); is_kind ToCountRegister (classify encodeBctr);
     is_some moved] ++
    if_some moved (fun r => [u32 (0x2000 + u32 (displacement r)) =? 0x1040]) ++
    [(bo (classify conditional) =? 4) && (bi (classify conditional) =? 7); is_some moved_c] ++
    if_some moved_c (fun r =>
      [isConditionalForm r; (bo r =? 4) && (bi r =? 7);
       u32 (0x1800 + u32 (displacement r)) =? 0x1020]) ++
    [negb (is_some (relocateBranch (classify absolute) 0x1000 0x9000));
     negb (is_some (relocateBranch (classify original) 0x1000 (u32 (0x1000 + 64 * 1024 * 1024))))]).

Lemma ppc_decode_test_passes : failures ppc_decode_test = Ret [].
Proof. vm_compute. reflexivity. Qed.

(** ** tests/ps3_syscalls_test.cpp *)

Definition ps3_syscalls_test : exc (list bool) :=
  let trap := makeSyscallTrap 480 11 in
  let load := makeLoadModuleCall 0x30100 in
  let expectedPtrLoad := loadImmediate32 REG_ARG0 0x30100 in
  let start := makeStartModuleCall in
  let combined := makeLoadAndStartModule 0x30100 in
  let same i := nth_instr load i =? nth_instr expectedPtrLoad i in
  Ret
   [encodeSc =? 0x44000002;
    size trap =? 2; nth_instr trap 0 =? encodeLi 11 480; nth_instr trap 1 =? encodeSc;
    size load =? 7; same 0%nat && same 1%nat && same 2%nat;
    nth_instr load 3 =? encodeLi REG_ARG1 0; nth_instr load 4 =? encodeLi REG_ARG2 0;
    nth_instr load 5 =? encodeLi REG_SYSCALL_NUMBER_DEFAULT (i16 SYS_PRX_LOAD_MODULE);
    nth_instr load 6 =? encodeSc;
    size start =? 7;
    nth_instr start 0 =? encodeLi REG_ARG1 0; nth_instr start 1 =? encodeLi REG_ARG2 0;
    nth_instr start 2 =? encodeLi REG_ARG3 0; nth_instr start 3 =? encodeLi REG_ARG4 0;
    nth_instr start 4 =? encodeLi REG_ARG5 0;
    nth_instr start 5 =? encodeLi REG_SYSCALL_NUMBER_DEFAULT (i16 SYS_PRX_START_MODULE);
    nth_instr start 6 =? encodeSc;
    size combined =? 14;
    negb (existsb (fun instr => negb (is_kind NotABranch (classify instr))) combined)].

Lemma ps3_syscalls_test_passes : failures ps3_syscalls_test = Ret [].
Proof. vm_compute. reflexivity. Qed.

(** ** tests/ps3_toc_test.cpp *)

(** The file with some of its bytes replaced, parsed again. *)
Definition reparse (bytes : list byte) (offset : Z) (new : list byte)
    (body : Ps3ElfFile -> list bool) : list bool :=
  let reparsed := parse true Big (splice offset new bytes) in
  is_ok reparsed :: if_ok reparsed body.

Definition ps3_toc_test (bytes : list byte) : exc (list bool) :=
  Ret ([negb (bool_decide (bytes = [])); is_ok (parse true Big bytes)] ++
  if_ok (parse true Big bytes) (fun file =>
    let codeOffset := vaddrToFileOffset true Big file 0x10008 in
    let opdOffset := vaddrToFileOffset true Big file 0x20000 in
    let truncated := parse true Big (take (length bytes - 10) bytes) in
    [is_ok (validatePs3Executable file); is_ok (resolveEntryDescriptor file)] ++
    if_ok (resolveEntryDescriptor file) (fun d =>
      [codeAddress d =? 0x10008; tocValue d =? 0x30000; envPointer d =? 0]) ++
    [is_ok codeOffset && is_ok opdOffset] ++
    if_ok codeOffset (fun c => if_ok opdOffset (fun o => [negb (c =? o)])) ++
    reparse bytes 24 (be_store 8 0xDEADBEEF00)
      (fun f => [negb (is_ok (resolveEntryDescriptor f))]) ++
    reparse bytes 18 [byte_of 0; byte_of 3] (fun f => [negb (is_ok (validatePs3Executable f))]) ++
    match truncated with
    | Ok f => [negb (is_ok (resolveEntryDescriptor f))]
    | Err _ => [true]
    end ++
    [hasTypicalEFlags file] ++
    reparse bytes 48 (be_store 4 1) (fun f =>
      [negb (hasTypicalEFlags f); is_ok (validatePs3Executable f);
       is_ok (resolveEntryDescriptor f)]))).

(** On the fixture the checks of the code address and of the TOC value fail;
    they are the fifth and the sixth. *)
Lemma ps3_toc_test_fails : failures (ps3_toc_test synthetic_ps3_opd) = Ret [5; 6].
Proof. vm_compute. reflexivity. Qed.

Lemma ps3_toc_test_passes : failures (ps3_toc_test ps3_exe) = Ret [].
Proof. vm_compute. reflexivity. Qed.

(** ** tests/ps3_trampoline_test.cpp *)

Definition and_then (checks : list bool) (rest : exc (list bool)) : exc (list bool) :=
  let! cs := rest in Ret (checks ++ cs).

(** [CHECK(r.ok()); if (!r.ok()) return 1;] *)
Definition required {T} (r : Result T) (body : T -> exc (list bool)) : exc (list bool) :=
  match r with Ok v => and_then [true] (body v) | Err _ => Ret [false] end.

(** [blobStr.find(path)], and the byte after the path. *)
Definition path_checks (blob : list byte) (path : string) : list bool :=
  match String.index 0 path (string_of blob) with
  | None => [false]
  | Some pos => [true; byte_val (at_ (pos + String.length path) blob) =? 0]
  end.

Definition test_path : string := "/dev_hdd0/tmp/debug.sprx".

Definition near_case (entry : EntryDescriptor) (addr : Z) (r : TrampolineResult) : list bool :=
  let decodedJumpIn := classify (word_of_bytes (entryPatchBytes r) 0) in
  let codeBytes := 8 + (16 + 14 + 16 + 3 + 1 + 1) * 4 in
  [displacedInstructionCount r =? 1; size (entryPatchBytes r) =? 4;
   entryPatchAddr r =? codeAddress entry; size (blob r) mod 4 =? 0;
   is_kind DirectRelative decodedJumpIn] ++
  (if is_kind DirectRelative decodedJumpIn then
     [u32 (u32 (codeAddress entry) + u32 (displacement decodedJumpIn)) =? u32 (addr + 8)]
   else []) ++
  path_checks (blob r) test_path ++
  [codeBytes + Z.of_nat (String.length test_path) + 1 <=? size (blob r)].

Definition far_case (addr : Z) (r : TrampolineResult) : list bool :=
  let expectedJump := makeAbsoluteJump (u32 (addr + 8)) 12 in
  [displacedInstructionCount r =? 5; size (entryPatchBytes r) =? 20;
   forallb (fun i => word_of_bytes (entryPatchBytes r) (4 * i) =? nth_instr expectedJump i) (seq 0 5)].

Definition ps3_trampoline_test (bytes : list byte) : exc (list bool) :=
  and_then [negb (bool_decide (bytes = []))] (
  required (parse true Big bytes) (fun file =>
  required (resolveEntryDescriptor file) (fun entry =>
  let near := u32 (u32 (codeAddress entry) + 0x1000) in
  let far := u32 (u32 (codeAddress entry) + 0x10000000) in
  let! result := buildTrampoline file entry near test_path in
  required result (fun r =>
  let! far_result := buildTrampoline file entry far test_path in
  let! emptyPath := buildTrampoline file entry near EmptyString in
  let! longPath := buildTrampoline file entry near
    (string_of (replicate 2000 (byte_of 97))) in
  let! misaligned := buildTrampoline file entry
    (u32 (u32 (codeAddress entry) + 0x1001)) test_path in
  let! bc := encodeBranchConditional 4 2 0x100 false false in
  Ret (near_case entry near r ++
    is_ok far_result :: if_ok far_result (far_case far) ++
    rejects emptyPath InvalidArgument ++
    [negb (is_ok longPath); negb (is_ok misaligned)] ++
    rejects (relocateDisplacedInstructions [bc] 0x10000 (u32 (0x10000 + 1024 * 1024)))
      RelocationFailed))))).

(** On the fixture no trampoline is built and the program ends at its fourth
    check. *)
Lemma ps3_trampoline_test_fails :
  ps3_trampoline_test synthetic_ps3_opd = Ret [true; true; true; false].
Proof. vm_compute. reflexivity. Qed.

Lemma ps3_trampoline_test_passes : failures (ps3_trampoline_test ps3_exe) = Ret [].
Proof. vm_compute. reflexivity. Qed.

(** ** tests/ps3_info_test.cpp *)

Definition unpatched_report (text : string) : list bool :=
  [contains text "EM_PPC64"; contains text "0x10008"; contains text "0x30000";
   contains text "Already patched by ps3patch: no";
   contains text "480" && contains text "481"].

Definition patched_checks (file : Ps3ElfFile) (entry : EntryDescriptor) (trampolineAddr : Z)
    : exc (list bool) :=
  let! secondAttempt :=
    buildTrampoline file entry (u32 (trampolineAddr + 0x10000)) "/dev_hdd0/tmp/other.sprx" in
  let infoAfter := formatInfo file in
  Ret (isAlreadyPatched file :: rejects secondAttempt AlreadyPatched ++
    is_ok infoAfter ::
    if_ok infoAfter (fun text => [contains text "Already patched by ps3patch: YES"])).

Definition ps3_info_test (bytes : list byte) : exc (list bool) :=
  required (parse true Big bytes) (fun file =>
  let infoResult := formatInfo file in
  and_then (negb (isAlreadyPatched file) :: is_ok infoResult :: if_ok infoResult unpatched_report) (
  required (resolveEntryDescriptor file) (fun entry =>
  let! trampResult := buildTrampoline file entry 0x40000 test_path in
  required trampResult (fun tramp =>
  let (addResult, file1) :=
    addLoadSegment true Big file 0x40000 (blob tramp) (Z.lor PF_R PF_X) 0x10000 in
  let offsetResult := vaddrToFileOffset true Big file1 (entryPatchAddr tramp) in
  let checks := [is_ok addResult; is_ok offsetResult] in
  match offsetResult with
  | Err _ => and_then checks (patched_checks file1 entry 0x40000)
  | Ok offset =>
      let (patchResult, file2) := patchBytesAt true Big file1 offset (entryPatchBytes tramp) in
      and_then (checks ++ [is_ok patchResult]) (patched_checks file2 entry 0x40000)
  end)))).

(** On the fixture the report has no TOC value 0x30000 (the sixth check), the
    trampoline is refused (the tenth) and the program ends; the fifth check
    passes because the address 0x10008 it looks for is printed as the TOC. *)
Lemma ps3_info_test_fails :
  failures (ps3_info_test synthetic_ps3_opd) = Ret [6; 10] /\
  (let! checks := ps3_info_test synthetic_ps3_opd in Ret (size checks)) = Ret 10.
Proof. split; vm_compute; reflexivity. Qed.

Lemma ps3_info_test_passes : failures (ps3_info_test ps3_exe) = Ret [].
Proof. vm_compute. reflexivity. Qed.

(** ** tests/ps3_integration_test.cpp

    [std::system] runs the program on the file system of the test; what it
    prints on both streams is redirected to one file. *)

Definition PS3PATCH_BINARY : string := "./bin/ps3patch".
Definition fixture_path : string := "tests/fixtures/synthetic_ps3_opd.elf".
Definition patched_path : string := "/tmp/integration_patched.elf".

Definition run_cli (w : memfs) (args : list string) (redirect : string) : exc (Z * memfs) :=
  let! o := main w (PS3PATCH_BINARY :: args) in
  Ret (exit_code o,
    put (files o) redirect (list_byte_of_string (stdout o +:+ stderr o))).

(** The instruction at an address of the file, with the checks on the way. *)
Definition instruction_at (file : Ps3ElfFile) (addr : Z) (body : Z -> list bool) : list bool :=
  let offset := vaddrToFileOffset true Big file addr in
  is_ok offset :: if_ok offset (fun off =>
    let word := readAt true Big file off 4 in
    is_ok word :: if_ok word (fun bytes => body (word_of_bytes bytes 0))).

Definition jump_back_checks (codeAddr resumeAddr jbWord : Z) : list bool :=
  let jbDecoded := classify jbWord in
  is_kind DirectRelative jbDecoded ::
  (if is_kind DirectRelative jbDecoded then
     [u64 (u64 (resumeAddr + 4) + u64 (displacement jbDecoded)) =? u64 (codeAddr + 4)]
   else []).

Definition resume_checks (patched : Ps3ElfFile) (codeAddr newSegVaddr : Z) : list bool :=
  let resumeAddr := u64 (newSegVaddr + 8 + 49 * 4) in
  let resumeOffset := vaddrToFileOffset true Big patched resumeAddr in
  is_ok resumeOffset :: if_ok resumeOffset (fun off =>
    let resumeInstrBytes := readAt true Big patched off 4 in
    is_ok resumeInstrBytes ::
    if_ok resumeInstrBytes (fun rb => [word_of_bytes rb 0 =? 0x60000000]) ++
    instruction_at patched (u64 (resumeAddr + 4)) (jump_back_checks codeAddr resumeAddr)).

Definition jump_in_checks (codeAddr newSegVaddr firstWord : Z) : list bool :=
  let decoded := classify firstWord in
  is_kind DirectRelative decoded ::
  (if is_kind DirectRelative decoded then
     [u64 (codeAddr + u64 (displacement decoded)) =? u64 (newSegVaddr + 8)]
   else []).

(** The second run, which must be refused, and the report. *)
Definition rerun_checks (w : memfs) : exc (list bool) :=
  let! (rc2, w2) := run_cli w
    [patched_path; "/tmp/integration_patched_twice.elf"; "/dev_hdd0/tmp/other.sprx"]
    "/tmp/integration_stdout2.txt" in
  let! (rc3, w3) := run_cli w2 ["--info"; patched_path] "/tmp/integration_info.txt" in
  Ret
   [negb (rc2 =? 0);
    contains (string_of (readFile w2 "/tmp/integration_stdout2.txt").1) "already been patched";
    rc3 =? 0;
    contains (string_of (readFile w3 "/tmp/integration_info.txt").1)
      "Already patched by ps3patch: YES"].

Definition same_descriptor (a b : Result EntryDescriptor) : list bool :=
  (is_ok a && is_ok b) ::
  if_ok a (fun d => if_ok b (fun d' =>
    [codeAddress d =? codeAddress d'; tocValue d =? tocValue d'])).

Definition patched_file_checks (w : memfs) (original patched : Ps3ElfFile) : exc (list bool) :=
  let segs := segments true Big patched in
  match last segs with
  | None => Throw "vector::back on an empty vector"
  | Some newSeg =>
      and_then
        ([size segs =? size (segments true Big original) + 1;
          p_type newSeg =? PT_LOAD;
          Z.land (p_flags newSeg) (Z.lor PF_R PF_X) =? Z.lor PF_R PF_X] ++
         same_descriptor (resolveEntryDescriptor original) (resolveEntryDescriptor patched)) (
      match resolveEntryDescriptor patched with
      | Err _ => Ret []
      | Ok entry =>
          let codeAddr := codeAddress entry in
          required (vaddrToFileOffset true Big patched codeAddr) (fun codeOffset =>
          required (readAt true Big patched codeOffset 4) (fun fb =>
          and_then
            (jump_in_checks codeAddr (p_vaddr newSeg) (word_of_bytes fb 0) ++
             resume_checks patched codeAddr (p_vaddr newSeg))
            (rerun_checks w)))
      end)
  end.

Definition ps3_integration_test (w0 : memfs) : exc (list bool) :=
  let! (rc, w) := run_cli w0 [fixture_path; patched_path; test_path] "/tmp/integration_stdout.txt" in
  if negb (rc =? 0) then Ret [false]
  else
    let originalBytes := (readFile w fixture_path).1 in
    let patchedBytes := (readFile w patched_path).1 in
    let originalParsed := parse true Big originalBytes in
    let patchedParsed := parse true Big patchedBytes in
    and_then
      [true; negb (bool_decide (patchedBytes = [])); size originalBytes <? size patchedBytes;
       is_ok originalParsed; is_ok patchedParsed]
      match originalParsed, patchedParsed with
      | Ok original, Ok patched => patched_file_checks w original patched
      | _, _ => Ret []
      end.

(** The file system with [bytes] as the fixture and nothing else. *)
Definition checkout (bytes : list byte) : memfs := put (fun _ => None) fixture_path bytes.

(** On the fixture the program itself fails, and the test ends at its first
    check. *)
Lemma ps3_integration_test_fails :
  ps3_integration_test (checkout synthetic_ps3_opd) = Ret [false].
Proof. vm_compute. reflexivity. Qed.

Lemma ps3_integration_test_passes :
  failures (ps3_integration_test (checkout ps3_exe)) = Ret [].
Proof. vm_compute. reflexivity. Qed.
